(* ===== verification/_CoqProject ===== *)
-Q . S2P
Prelude.v
Bytes.v
Messages.v
Parser.v
TestParser.v
Reader.v
Spsc.v
SpscConc.v
TestSpsc.v
Order.v
PriceLevel.v
OrderBook.v
BookInv.v
BookWf.v
BookHandlers.v
Dispatch.v
Samples.v
BookSpec.v
Depth.v
BookTheorems.v
BookView.v
BookClient.v
BookLimits.v
BookWide.v
TestBook.v
BookHide.v
BookReuse.v
BookFifo.v
Pipeline.v
PipelineTheorems.v
Components.v
Double.v
Rounding.v
Analytics.v
Histogram.v
Lobster.v
LobsterCsv.v
LobsterLimits.v
Printf.v
FileOpen.v
Validate.v
LobsterWide.v
Modes.v
Typing.v
TestLobster.v
Main.v
MainWide.v
Clock.v
BenchKit.v
LatencyHarness.v
BenchBook.v
BenchMixed.v
