(* ===== verification/Prelude.v ===== *)
(** * L2 order book: verification library (root)

    The program (src/) replays a Nasdaq ITCH 5.0 file into a two-sided limit order
    book.  A parser thread reads length-prefixed messages (pcap_replay.cpp), decodes
    them (parser.cpp, messages.hpp) and pushes them into a lock-free ring
    (spsc_queue.hpp); a book thread pops them and dispatches them (main.cpp) to the
    order book (order_book.cpp, price_level.hpp, order.hpp), which answers with the
    best bid and offer (bbo.hpp); at the end the program prints a report.  Beside it are a
    validator against reference snapshots (lobster_validator.cpp), statistics
    (analytics.hpp), and two benchmark drivers (bench/) with their clock and histogram
    (rdtsc.hpp).

    ** Files

    - [Prelude] (this file): outcomes ([Ok] or a fault: failed assertion, null or bad
      pointer, index out of range, signed overflow), the build mode (assertions on or
      off), machine integers, generic list lemmas, the [book] hint databases.
    - [Bytes], [Messages]: integers in memory, [be16]/[be32]/[be64], [read_ts], and the
      packed structs of include/itch/messages.hpp as layouts (bijections between
      values and byte strings).
    - [Parser]: [parse_message] of src/itch/parser.cpp, with its wire-format inverse.
    - [Reader]: [ITCHFileReader::next_message] and the read loop.
    - [Spsc], [SpscConc]: the ring buffer, used by one thread and by two.
    - [Order], [PriceLevel]: the order pool (free list) and the intrusive FIFO list of a
      price level, over one shared heap: a pointer is a slot number of the pool.
    - [OrderBook]: the class, one definition per method.
    - [BookInv], [BookWf], [BookHandlers]: representation (queues of the levels, best
      indices), well-formed books, and what each handler does to them.
    - [Dispatch], [Samples]: the dispatcher of src/main.cpp; concrete messages.
    - [BookSpec]: the abstract book (live orders by reference, open flag), its step, the
      contract [admissible], and the forward simulation.  [Depth]: levels and best
      prices against the live orders that are in a level ([in_levels]).
    - [BookTheorems], [BookLimits], [BookReuse], [BookFifo]: theorems about the book within
      its contract, outside it (recentring, exhaustion, excessive reductions, a reused
      reference), and about time priority.  [BookHide]: a book whose map has lost an order
      that is still in its level, and why no message that leaves the window alone can tell.
    - [BookWide]: the book without the price band: an abstract book that remembers each side's
      reference price and which orders a recentring has lost, the fault or the effect of
      each message on it, and the refinement; [MainWide] and [LobsterWide] carry it to the
      whole program and to the validator.
    - [BookView], [BookClient]: the book as its clients see it.  [BookView] is the interface
      (each admissible message succeeds and keeps the relation to the abstract book, each
      query answers as the abstract book), with one instance; [BookClient] has sequential
      programs over a book ([prog]), their interpreter on any [BookApi], and the refinement
      of a whole program.
    - [TestBook], [TestSpsc], [TestParser], [TestLobster]: the unit tests of test/, one
      definition per test: the book's as programs of [BookClient], the queue's as scripts
      and as a step relation for the two-thread test, the others evaluated.
    - [Pipeline], [PipelineTheorems]: the two threads together.
    - [Modes], [Typing]: debug against release builds; the C++ types of everything the
      program stores, as triples composed over every definition.
    - [Printf], [FileOpen], [Main]: printf's conversions; the reader's constructor with its
      three aborts; the command line and the report of src/main.cpp, from the file system
      to the exit code.
    - [Components]: the pool and the level as abstract data types.
    - [Double], [Rounding]: C++ doubles as binary64, exact results, error bounds.
    - [Analytics]: analytics.hpp, the doubles of bbo.hpp and messages.hpp; [Histogram],
      [Clock]: the latency histogram and the clocks of rdtsc.hpp.
    - [Lobster], [Validate], [LobsterCsv], [LobsterLimits]: the validator of
      lobster_validator.cpp: its comparison and replay, the whole of [validate] with the
      reader it constructs, the loading of its CSV files, and files outside their form.
    - [BenchKit], [LatencyHarness], [BenchBook], [BenchMixed]: what the two benchmark
      drivers share (message builders, the warm book), latency_harness.cpp and
      bench_book.cpp, its mixed workload apart.

    ** Correspondence

    A method of the C++ class keeps its name; where two classes share one, the book's has
    the prefix [book_] ([book_remove_order], [book_reduce_shares],
    [book_order_count]) and the overloads of [on_add] and [on_execute] have suffixes
    ([on_add_mpid], [on_execute_with_price]).  Trailing underscores of data members
    are dropped.  [const] methods return values, the others return the new state;
    writes happen in the order of the source.  Both values of [NDEBUG] are covered:
    definitions that reach an [assert] take a [BuildMode], and every theorem holds
    for both unless it says otherwise.

    [std::unordered_map] is a finite map; a loop over it takes the iteration order as a
    parameter ([IterOrder]: any permutation of the entries), so theorems hold for
    every order, and [Samples] gives two instances.  [std::array] and
    [std::vector] accesses are checked.

    ** Theorems

    - The book refines the abstract book: one message ([dispatch_refines]), a whole
      session ([feed_refines]), from any file through both threads
      ([pipeline_exit], [pipeline_bbo], [pipeline_can_finish]), and the whole program from
      the command line to the printed report ([main_reports]; [main_errors]).
    - Without the price band: a session ([unbanded_session]), the program
      ([main_verdict]) and the validator ([validate_unbanded]) end with what the abstract
      book with lost orders computes, or with the fault it runs into;
      [wide_conservative]: inside a band nothing is lost and the two abstract books agree.
    - Its clients: a program that keeps to the contract cannot tell the order book from the
      abstract one ([client_refines]).
    - On any file: [any_file_typed] (fields in their types, pointers in the slab).
    - The two builds: [builds_agree] (on a feed of unused references, sides and prices that
      fit, the very same book in both, or the first assertion that fails and what the
      release build does there; reductions and room are not restricted).
    - What it shows, on any well-formed book [wf], of the orders that are in a level:
      [best_bid_offer_correct], [levels_correct]; also [best_idx_lowest], [halt_resets].
    - Time priority: [on_add_fifo], [on_delete_fifo], [on_execute_fifo]; it is lost by a
      recentring ([on_add_recentre], [recentre_priority_unspecified]).
    - Limits: [on_add_safe], [recentre_strands] and [wide_session_wrong_bbo] (orders that
      recentring leaves without a level), [reduction_too_much],
      [on_add_exhausted], [dispatch_ignored], [reused_reference] (a second add of a live
      reference hides the first order from every message, not from the levels; nothing
      else of the book changes).
    - Wire format: [fields_big_endian], [parse_encode_roundtrip],
      [parse_message_faithful], [parse_message_total], [read_file_roundtrip],
      [read_file_total].
    - Ring buffer: [queue_refines_fifo], [size_exact], [conc_fifo], [no_race],
      [conc_progress].
    - Data structures: [pool_refines_stack], [level_refines_fifo].
    - Validator: [compare_snapshot_correct], [validate_correct] (good files, and files the
      reader cannot load), [load_roundtrip],
      [load_limits] (missing files, shallow rows, prices that do not fit).
    - Statistics: [visible_qty_correct], [vwap_correct], [mid_spread_exact],
      [order_flow_imbalance_correct], [vwap_counts_ticks]; the histogram:
      [percentile_order_statistic], [percentile_half_and_one]; the clocks:
      [clocks_correct].
    - Benchmarks: [harness_benches] and [harness_output] (every benchmark of the harness,
      its whole output), [benchmarks_steady], [mixed_workload] (to the end of
      its [int] counter: from the iteration where its adds reach the reference of its live
      replace target, every replace is ignored and the target stays in the best bid).
    - Unit tests: [book_tests_pass], [queue_tests_pass], [parser_tests_pass],
      [lobster_tests_pass] (every deterministic test), [stress_random] (the random test, for
      all draws with at most 512 references live) and [stress_exhausts] (it crashes on some
      draws), [stress_no_loss] (the two-thread test: no loss, and it can always end),
      [validation_end_to_end] (the real-data test, from CSV and ITCH files to its verdict),
      [read_write_ts].

    The contract of a feed ([good_feed]): references of new orders are unused, sides are B
    or S, prices are in (0, 2^31), reductions do not exceed the order, the pool has
    room, and each side's prices stay in a band of [kLevels] = 8192 ticks.  The last
    condition is what keeps recentring harmless: inside a band a price outside the
    window is better than every live order and its window reaches them all.  The contract
    of the theorems without it ([wide_feed]) keeps only what a message must satisfy in the
    state it meets, up to the first fault: unused references, sides, prices, and for a
    release build no reduction beyond the order's shares (what that does is
    [reduction_too_much]).

    ** Fuel and bounds

    [scan_levels] has as fuel the number of levels left, [read_file] one more than the
    file's length (every message consumes at least three bytes; more fuel changes
    nothing, [read_file_total]), [validate_loop] likewise, and the CSV loops one more than
    the bytes of the file ([read_times_fuel], [read_rows_fuel]).  The benchmark loops run
    over [seq 0 iters], [iters] being the number of iterations the driver or the library
    chose: below 2^31 where an [int] counts them, below 2^50 for the histogram's
    percentiles ([harness_output] is about the million of the source).  A pool has fewer than 2^32 slots where a theorem
    says so (the level's counter is 32 bits wide); a file is shorter than 2^63.

    ** Not modelled

    The file system and the clocks are parameters (what opening a path yields, what the
    k-th reading is); hexadecimal, infinite and NaN spellings of numbers in the validator's
    CSV files; thread creation and affinity; cache-line alignment; the loop and the
    reporting of Google Benchmark; the random engine of the stress test, which is any
    sequence of numbers in the ranges drawn from, and the temporary files of the validator's
    tests (names, removal).  Each floating-point operation rounds once: a compiler that fuses
    a product and a sum is not modelled (the results proved exact are the same).

    ** Plan

    Every operation of src/ that computes is modelled; the message builders of
    latency_harness.cpp are textually those of bench_book.cpp and are modelled once
    ([BenchKit]).  What can be added: in [BookWide], feeds that reuse live references (so
    far [BookReuse], inside the window) and release builds whose reductions exceed an
    order. *)

From stdpp Require Export prelude gmap fin_maps functions list.
From Stdlib Require Export ZArith Lia.
From Stdlib Require Import Ascii.

Open Scope Z_scope.

(** ** Outcomes

    A C++ call either returns, stops at a failed [assert], or reaches undefined
    behaviour (null dereference, array index out of range, signed overflow). *)
Inductive fault :=
| AssertFailed
| NullDeref
| BadPointer
| OutOfRange
| SignedOverflow
| BadConversion.

Inductive outcome (A : Type) :=
| Ok (a : A)
| Fault (e : fault).
Arguments Ok {A} a.
Arguments Fault {A} e.

#[export] Instance fault_eq_dec : EqDecision fault.
Proof. solve_decision. Defined.

#[export] Instance outcome_ret : MRet outcome := @Ok.

#[export] Instance outcome_bind : MBind outcome :=
  λ A B (f : A → outcome B) (m : outcome A),
    match m with Ok a => f a | Fault e => Fault e end.

#[export] Instance outcome_fmap : FMap outcome :=
  λ A B (f : A → B) (m : outcome A),
    match m with Ok a => Ok (f a) | Fault e => Fault e end.

(** [is_ok m]: the call returned. *)
Definition is_ok {A} (m : outcome A) : bool :=
  match m with Ok _ => true | Fault _ => false end.

(** The value of a call that returned, for use in executable examples. *)
Definition ok_or {A} (d : A) (m : outcome A) : A :=
  match m with Ok a => a | Fault _ => d end.

(** Left-to-right loop whose body may fault. *)
Fixpoint foldM {A B} (f : A → B → outcome A) (l : list B) (a : A) : outcome A :=
  match l with
  | [] => Ok a
  | x :: l' => a' ← f a x; foldM f l' a'
  end.

(** ** Build mode

    [assert] is compiled out when NDEBUG is defined (CMake's Release build type,
    the one README.md asks for) and aborts otherwise.  The model covers both: the
    mode is a class argument of every definition that reaches an [assert]. *)
Class BuildMode := ndebug : bool.

Definition debug_build : BuildMode := false.
Definition release_build : BuildMode := true.

Definition cassert `{BuildMode} (c : bool) : outcome () :=
  if c || ndebug then Ok () else Fault AssertFailed.

(** ** Machine integers *)
Definition u8 (z : Z) : Z := z mod 2 ^ 8.
Definition u16 (z : Z) : Z := z mod 2 ^ 16.
Definition u32 (z : Z) : Z := z mod 2 ^ 32.
Definition u64 (z : Z) : Z := z mod 2 ^ 64.

(** [static_cast<int>] of a 32-bit value (two's complement, C++20). *)
Definition i32 (z : Z) : Z := (z + 2 ^ 31) mod 2 ^ 32 - 2 ^ 31.

(** [int] arithmetic: the result must be representable. *)
Definition int_result (z : Z) : outcome Z :=
  if (- 2 ^ 31 <=? z) && (z <? 2 ^ 31) then Ok z else Fault SignedOverflow.

(** ** Characters: the ASCII codes the program compares against *)
Definition chr (c : Ascii.ascii) : Z := Z.of_nat (Ascii.nat_of_ascii c).
Definition ch_B : Z := Eval cbv in chr "B"%char.
Definition ch_S : Z := Eval cbv in chr "S"%char.
Definition ch_A : Z := Eval cbv in chr "A"%char.
Definition ch_F : Z := Eval cbv in chr "F"%char.
Definition ch_E : Z := Eval cbv in chr "E"%char.
Definition ch_C : Z := Eval cbv in chr "C"%char.
Definition ch_X : Z := Eval cbv in chr "X"%char.
Definition ch_D : Z := Eval cbv in chr "D"%char.
Definition ch_U : Z := Eval cbv in chr "U"%char.
Definition ch_P : Z := Eval cbv in chr "P"%char.
Definition ch_O : Z := Eval cbv in chr "O"%char.
Definition ch_H : Z := Eval cbv in chr "H"%char.
Definition ch_Q : Z := Eval cbv in chr "Q"%char.
Definition ch_R : Z := Eval cbv in chr "R"%char.

(** ** Lemmas on outcomes *)
Lemma bind_ok {A B} (a : A) (f : A → outcome B) : Ok a ≫= f = f a.
Proof. reflexivity. Qed.

Lemma bind_fault {A B} e (f : A → outcome B) : Fault e ≫= f = Fault e.
Proof. reflexivity. Qed.

Lemma bind_is_ok {A B} (m : outcome A) (f : A → outcome B) b :
  m ≫= f = Ok b ↔ ∃ a, m = Ok a ∧ f a = Ok b.
Proof.
  destruct m as [a|e]; simpl; split; [eauto|by intros (? & [= ->] & ?)|done|by intros (? & ? & ?)].
Qed.

Lemma foldM_app {A B} (f : A → B → outcome A) l1 l2 a :
  foldM f (l1 ++ l2) a = foldM f l1 a ≫= foldM f l2.
Proof.
  revert a; induction l1 as [|x l1 IH]; intros a; simpl; [done|].
  destruct (f a x); simpl; [apply IH|done].
Qed.

(** Invariant rule for loops: the body preserves [P] on every prefix. *)
Lemma foldM_ind {A B} (f : A → B → outcome A) (P : list B → A → Prop) l a :
  P [] a →
  (∀ done x todo a, l = done ++ x :: todo → P done a →
     ∃ a', f a x = Ok a' ∧ P (done ++ [x]) a') →
  ∃ a', foldM f l a = Ok a' ∧ P l a'.
Proof.
  revert a; induction l as [|x l IH] using rev_ind; intros a Ha Hstep; [by exists a|].
  destruct (IH a Ha) as (a1 & Hf & HP).
  { intros done y todo a' -> HP. eapply (Hstep done y (todo ++ [x])); [by simplify_list_eq|done]. }
  destruct (Hstep l x [] a1) as (a2 & Hf2 & HP2); [done..|].
  exists a2; split; [|done]. rewrite foldM_app, Hf; simpl. by rewrite Hf2.
Qed.

(** A counting loop whose body keeps an invariant indexed by the counter. *)
Lemma foldM_seq {A} (f : A → nat → outcome A) (P : nat → A → Prop) s n a :
  P s a → (∀ i a, (s ≤ i < s + n)%nat → P i a → ∃ a', f a i = Ok a' ∧ P (S i) a') →
  ∃ a', foldM f (seq s n) a = Ok a' ∧ P (s + n)%nat a'.
Proof.
  intros H0 Hstep. induction n as [|n IH]; [exists a; by rewrite Nat.add_0_r|].
  destruct IH as (a1 & E1 & P1); [intros i a' Hi; apply Hstep; lia|].
  destruct (Hstep (s + n)%nat a1) as (a2 & E2 & P2); [lia|done|]. exists a2.
  rewrite seq_S, foldM_app, E1, Nat.add_succ_r. simpl. by rewrite E2.
Qed.

Lemma cassert_true `{BuildMode} c : c = true → cassert c = Ok ().
Proof. by intros ->. Qed.

Lemma cassert_debug c : c = false → @cassert debug_build c = Fault AssertFailed.
Proof. by intros ->. Qed.

Lemma cassert_release c : @cassert release_build c = Ok ().
Proof. by destruct c. Qed.

(** ** Lemmas on machine integers *)
Lemma u32_small z : 0 ≤ z < 2 ^ 32 → u32 z = z.
Proof. apply Z.mod_small. Qed.

Lemma u64_small z : 0 ≤ z < 2 ^ 64 → u64 z = z.
Proof. apply Z.mod_small. Qed.

Lemma u32_range z : 0 ≤ u32 z < 2 ^ 32.
Proof. by apply Z.mod_pos_bound. Qed.

Lemma u64_range z : 0 ≤ u64 z < 2 ^ 64.
Proof. by apply Z.mod_pos_bound. Qed.

Lemma i32_small z : 0 ≤ z < 2 ^ 31 → i32 z = z.
Proof. intros. unfold i32. rewrite Z.mod_small; lia. Qed.

Lemma int_result_ok z : - 2 ^ 31 ≤ z < 2 ^ 31 → int_result z = Ok z.
Proof.
  intros. unfold int_result.
  rewrite (proj2 (Z.leb_le _ _)), (proj2 (Z.ltb_lt _ _)) by lia. done.
Qed.

(** ** Lemmas on lists *)
Lemma NoDup_length_le_bound (l : list nat) n :
  NoDup l → (∀ a, a ∈ l → (a < n)%nat) → (length l ≤ n)%nat.
Proof.
  intros Hnd Hlt. rewrite <-(length_seq n 0).
  apply submseteq_length, NoDup_submseteq; [done|].
  intros a Ha. apply elem_of_seq. specialize (Hlt a Ha). lia.
Qed.

Lemma NoDup_middle {A} (l1 : list A) x l2 :
  NoDup (l1 ++ x :: l2) → (x ∉ l1) ∧ (x ∉ l2) ∧ NoDup (l1 ++ l2).
Proof.
  rewrite <-Permutation_middle, NoDup_cons, not_elem_of_app. tauto.
Qed.

Lemma last_snoc_eq {A} (l : list A) x : last (l ++ [x]) = Some x.
Proof. apply last_snoc. Qed.

Lemma filter_ne_id `{EqDecision A} (a : A) (l : list A) : a ∉ l → filter (λ x, x ≠ a) l = l.
Proof.
  induction l as [|x l IH]; intros Hl; [done|]. apply not_elem_of_cons in Hl as [Hx Hl].
  rewrite filter_cons_True by congruence. by rewrite IH.
Qed.

Lemma filter_ne_middle `{EqDecision A} (a : A) (l1 l2 : list A) :
  NoDup (l1 ++ a :: l2) → filter (λ x, x ≠ a) (l1 ++ a :: l2) = l1 ++ l2.
Proof.
  intros (Hn1 & Hn2 & _)%NoDup_middle.
  by rewrite filter_app, filter_cons_False, !filter_ne_id by tauto.
Qed.

Lemma filter_ext_in {A} (P Q : A → Prop) `{∀ x, Decision (P x)} `{∀ x, Decision (Q x)} (l : list A) :
  (∀ x, x ∈ l → P x ↔ Q x) → filter P l = filter Q l.
Proof.
  induction l as [|x l IH]; intros Hl; [done|]. rewrite !filter_cons, IH by set_solver.
  apply decide_ext. apply Hl. by left.
Qed.

Lemma filter_fmap_comm {A B} (f : A → B) (P : B → Prop) `{∀ x, Decision (P x)} (l : list A) :
  filter P (f <$> l) = f <$> filter (λ x, P (f x)) l.
Proof.
  induction l as [|x l IH]; [done|]. rewrite fmap_cons, !filter_cons.
  case_decide; [by rewrite fmap_cons, IH|done].
Qed.

(** Folding [max] (or [min]) finds the bound that is attained. *)
Lemma foldr_max_unique (p x : Z) ps :
  x ∈ p :: ps → (∀ y, y ∈ p :: ps → y ≤ x) → foldr Z.max p ps = x.
Proof.
  intros Hin Hle. apply Z.le_antisymm.
  - clear Hin. induction ps as [|y ps IH]; simpl; [apply Hle; by left|].
    apply Z.max_lub; [apply Hle; set_solver|]. apply IH. intros z Hz. apply Hle. set_solver.
  - clear Hle. induction ps as [|y ps IH]; simpl.
    + by apply list_elem_of_singleton in Hin as ->.
    + apply elem_of_cons in Hin as [->|[->|Hin]%elem_of_cons]; [|lia|];
        (etrans; [apply IH; set_solver|lia]).
Qed.

Lemma foldr_min_unique (p x : Z) ps :
  x ∈ p :: ps → (∀ y, y ∈ p :: ps → x ≤ y) → foldr Z.min p ps = x.
Proof.
  intros Hin Hle. apply Z.le_antisymm.
  - clear Hle. induction ps as [|y ps IH]; simpl.
    + by apply list_elem_of_singleton in Hin as ->.
    + apply elem_of_cons in Hin as [->|[->|Hin]%elem_of_cons]; [|lia|];
        (etrans; [|apply IH; set_solver]; lia).
  - clear Hin. induction ps as [|y ps IH]; simpl; [apply Hle; by left|].
    apply Z.min_glb; [apply Hle; set_solver|]. apply IH. intros z Hz. apply Hle. set_solver.
Qed.

(** ** Automation *)
Create HintDb book.
Create Rewrite HintDb book.
#[export] Hint Rewrite @bind_ok @bind_fault : book.
#[export] Hint Resolve u32_range u64_range : book.

(** Run the outcome monad as far as the hypotheses allow. *)
Ltac step := autorewrite with book; simpl.

(** Split a chain of binds known to return [Ok]. *)
Ltac inv_ok :=
  repeat match goal with
  | H : Ok _ = Ok _ |- _ => injection H as H; subst
  | H : Fault _ = Ok _ |- _ => discriminate H
  | H : Ok _ = Fault _ |- _ => discriminate H
  | H : _ ≫= _ = Ok _ |- _ =>
      apply bind_is_ok in H; let a := fresh "r" in let E := fresh "E" in
      destruct H as (a & E & H)
  end.

(** Decide the comparisons between constants that select a branch. *)
Ltac eqb_consts :=
  repeat match goal with
  | |- context [Z.eqb ?a ?b] =>
      let v := eval vm_compute in (Z.eqb a b) in
      match v with
      | true => change (Z.eqb a b) with true
      | false => change (Z.eqb a b) with false
      end; cbv iota
  end.

(** Replace the counting loop of the goal by its invariant [P]; the subgoals are the first
    iteration, the step, and the rest of the program with [Eloop] and [Hloop]. *)
Ltac count_loop P :=
  match goal with
  | |- context [foldM ?f (seq ?s ?n) ?a] =>
      let res := fresh "res" in let E := fresh "Eloop" in let Hl := fresh "Hloop" in
      destruct (foldM_seq f P s n a) as (res & E & Hl); [| |rewrite E, bind_ok; clear E]
  end.

(** Discharge a closed goal by evaluation. *)
Ltac by_vm := vm_compute; (reflexivity || discriminate || lia).
