(* ===== verification/Bytes.v ===== *)
(** * Bytes and packed structs (include/itch/messages.hpp, lines 10-33)

    Integers in memory, the byte-swap helpers and the 48-bit timestamp of the ITCH
    header, and a small interface for [#pragma pack(1)] structs: a [layout] reads a
    value from exactly [l_size] bytes and writes it back, and the combinators build
    the layout of a struct from those of its fields.  [be16], [be32], [be64] are
    proved to turn a field loaded by a little-endian host into the big-endian value
    of its bytes, and every layout to be a bijection between values and byte
    strings of its size. *)

From S2P Require Import Prelude.

(** ** Integers in memory *)
Definition is_byte (b : Z) : Prop := 0 ≤ b < 256.

(** Load an unsigned integer on a little-endian host. *)
Definition le_load (bs : list Z) : Z := foldr (λ b acc, b + 256 * acc) 0 bs.

(** Store the low [n] bytes of [z]. *)
Fixpoint le_store (n : nat) (z : Z) : list Z :=
  match n with
  | O => []
  | S n => z mod 256 :: le_store n (z / 256)
  end.

(** The value of big-endian bytes. *)
Definition be_load (bs : list Z) : Z := foldl (λ acc b, 256 * acc + b) 0 bs.

(** [__builtin_bswap16/32/64]: the bytes of the value in reverse order. *)
Definition bswap (n : nat) (v : Z) : Z := le_load (rev (le_store n v)).
Definition be16 (v : Z) : Z := bswap 2 v.
Definition be32 (v : Z) : Z := bswap 4 v.
Definition be64 (v : Z) : Z := bswap 8 v.

(** [for (int i = 0; i < 6; ++i) v = (v << 8) | ts[i];] *)
Definition read_ts (ts : list Z) : Z :=
  foldl (λ v b, Z.lor (u64 (Z.shiftl v 8)) b) 0 (take 6 ts).

(** ** Layouts *)
Record layout (T : Type) := Layout {
  l_size : nat;
  l_read : list Z → T;
  l_write : T → list Z;
  l_fits : T → Prop;
}.
Arguments Layout {T} _ _ _ _.
Arguments l_size {T} _.
Arguments l_read {T} _ _.
Arguments l_write {T} _ _.
Arguments l_fits {T} _ _.

Record layout_ok {T} (L : layout T) : Prop := {
  lo_write : ∀ x, l_fits L x → length (l_write L x) = l_size L ∧ Forall is_byte (l_write L x);
  lo_read : ∀ bs, length bs = l_size L → Forall is_byte bs → l_fits L (l_read L bs);
  lo_read_write : ∀ x, l_fits L x → l_read L (l_write L x) = x;
  lo_write_read : ∀ bs, length bs = l_size L → Forall is_byte bs → l_write L (l_read L bs) = bs;
}.

Definition uint (n : nat) : layout Z :=
  Layout n le_load (le_store n) (λ z, 0 ≤ z < 2 ^ (8 * Z.of_nat n)).
Definition char_ : layout Z := uint 1.
Definition byte_array (n : nat) : layout (list Z) :=
  Layout n id id (λ bs, length bs = n ∧ Forall is_byte bs).
Definition field_seq {A B} (L : layout A) (R : layout B) : layout (A * B) :=
  Layout (l_size L + l_size R)
    (λ bs, (l_read L (take (l_size L) bs), l_read R (drop (l_size L) bs)))
    (λ p, l_write L p.1 ++ l_write R p.2)
    (λ p, l_fits L p.1 ∧ l_fits R p.2).
Definition struct {A B} (f : A → B) (g : B → A) (L : layout A) : layout B :=
  Layout (l_size L) (λ bs, f (l_read L bs)) (λ x, l_write L (g x)) (λ x, l_fits L (g x)).

Declare Scope layout_scope.
Delimit Scope layout_scope with layout.
Infix "⊗" := field_seq (at level 40, left associativity) : layout_scope.

(** Packed structs: types with a layout, and the promise that it is a bijection. *)
Class Packed (T : Type) := packed_layout : layout T.
Arguments packed_layout T {_}.
Class PackedOk (T : Type) `{Packed T} := packed_ok : layout_ok (packed_layout T).

Definition sizeof (T : Type) `{Packed T} : nat := l_size (packed_layout T).

(** ** Lemmas: integers *)
Lemma length_le_store n z : length (le_store n z) = n.
Proof. revert z; induction n as [|n IH]; intros z; simpl; [done|]. by rewrite IH. Qed.

Lemma le_store_bytes n z : Forall is_byte (le_store n z).
Proof.
  revert z; induction n as [|n IH]; intros z; simpl; constructor; [|done].
  by apply Z.mod_pos_bound.
Qed.

Lemma pow8_succ n : 2 ^ (8 * Z.of_nat (S n)) = 256 * 2 ^ (8 * Z.of_nat n).
Proof. replace (8 * Z.of_nat (S n)) with (8 + 8 * Z.of_nat n) by lia. by rewrite Z.pow_add_r by lia. Qed.

Lemma le_load_bound bs : Forall is_byte bs → 0 ≤ le_load bs < 2 ^ (8 * Z.of_nat (length bs)).
Proof.
  unfold is_byte. induction 1 as [|b bs Hb _ IH]; simpl length; [done|].
  rewrite pow8_succ. simpl. lia.
Qed.

Lemma le_load_store n z : 0 ≤ z < 2 ^ (8 * Z.of_nat n) → le_load (le_store n z) = z.
Proof.
  revert z; induction n as [|n IH]; intros z Hz; [simpl in *; lia|].
  rewrite pow8_succ in Hz. simpl. rewrite IH; [pose proof (Z.div_mod z 256); lia|].
  split; [by apply Z.div_pos; lia|]. apply Z.div_lt_upper_bound; lia.
Qed.

Lemma le_store_load bs : Forall is_byte bs → le_store (length bs) (le_load bs) = bs.
Proof.
  unfold is_byte. induction 1 as [|b bs Hb _ IH]; simpl; [done|].
  rewrite Z.mul_comm, Z_mod_plus_full, Z.mod_small, Z.div_add, Z.div_small by lia.
  by rewrite Z.add_0_l, IH.
Qed.

Lemma le_load_rev bs : le_load (rev bs) = be_load bs.
Proof.
  induction bs as [|b bs IH] using rev_ind; [done|].
  rewrite rev_app_distr. unfold be_load in *. rewrite foldl_app. simpl. lia.
Qed.

(** A field loaded by the host and swapped is the big-endian value of its bytes. *)
Lemma bswap_load n bs :
  length bs = n → Forall is_byte bs → bswap n (le_load bs) = be_load bs.
Proof. intros <- Hb. unfold bswap. by rewrite le_store_load, le_load_rev. Qed.

Lemma bswap_bound n v : 0 ≤ bswap n v < 2 ^ (8 * Z.of_nat n).
Proof.
  unfold bswap. pose proof (le_load_bound (rev (le_store n v))) as Hb.
  rewrite length_rev, length_le_store in Hb. apply Hb, Forall_rev, le_store_bytes.
Qed.

Lemma bswap_involutive n v : 0 ≤ v < 2 ^ (8 * Z.of_nat n) → bswap n (bswap n v) = v.
Proof.
  intros Hv. unfold bswap at 2. rewrite bswap_load.
  - rewrite <-le_load_rev, rev_involutive. by apply le_load_store.
  - by rewrite length_rev, length_le_store.
  - apply Forall_rev, le_store_bytes.
Qed.

Lemma be64_swap v : 0 ≤ v < 2 ^ 64 → be64 (bswap 8 v) = v.
Proof. apply (bswap_involutive 8). Qed.

Lemma be32_swap v : 0 ≤ v < 2 ^ 32 → be32 (bswap 4 v) = v.
Proof. apply (bswap_involutive 4). Qed.

Lemma be32_bound v : 0 ≤ be32 v < 2 ^ 32.
Proof. apply (bswap_bound 4). Qed.

Lemma be64_bound v : 0 ≤ be64 v < 2 ^ 64.
Proof. apply (bswap_bound 8). Qed.

Lemma lor_shift_byte v b : 0 ≤ v → is_byte b → Z.lor (Z.shiftl v 8) b = 256 * v + b.
Proof.
  intros Hv Hb. rewrite Z.shiftl_mul_pow2 by lia.
  pose proof (Z.add_lor_land (v * 2 ^ 8) b) as E.
  enough (Z.land (v * 2 ^ 8) b = 0) by lia. clear E.
  apply Z.bits_inj'. intros i Hi. rewrite Z.land_spec, Z.mul_pow2_bits, Z.bits_0 by lia.
  destruct (Z.ltb_spec i 8); [by rewrite Z.testbit_neg_r by lia|].
  destruct (decide (b = 0)) as [->|]; [by rewrite Z.bits_0, andb_false_r|].
  rewrite (Z.bits_above_log2 b i), andb_false_r; [done|unfold is_byte in *; lia|].
  apply Z.log2_lt_pow2; unfold is_byte in *; [lia|].
  apply Z.lt_le_trans with (2 ^ 8); [lia|]. by apply Z.pow_le_mono_r.
Qed.

(** The shift-and-or loop computes the big-endian value: 48 bits never overflow. *)
Lemma read_ts_be ts : length ts = 6%nat → Forall is_byte ts → read_ts ts = be_load ts.
Proof.
  intros Hlen Hb. unfold read_ts, be_load. rewrite take_ge by lia.
  enough (∀ k acc, 0 ≤ acc < 2 ^ (8 * k) → 0 ≤ k → k + Z.of_nat (length ts) ≤ 8 →
    foldl (λ v b, Z.lor (u64 (Z.shiftl v 8)) b) acc ts = foldl (λ v b, 256 * v + b) acc ts) as Hg.
  { apply (Hg 0); lia. }
  clear Hlen. induction Hb as [|b ts Hb _ IH]; intros k acc Hacc Hk Hlen; simpl; [done|].
  simpl in Hlen. assert (256 * 2 ^ (8 * k) = 2 ^ (8 * (k + 1))) as Hp.
  { replace (8 * (k + 1)) with (8 + 8 * k) by lia. by rewrite Z.pow_add_r by lia. }
  assert (2 ^ (8 * (k + 1)) ≤ 2 ^ 64) by (apply Z.pow_le_mono_r; lia).
  rewrite u64_small, lor_shift_byte by (rewrite ?Z.shiftl_mul_pow2 by lia; lia || done).
  apply (IH (k + 1)); unfold is_byte in Hb; lia.
Qed.

(** ** Lemmas: layouts *)
Lemma uint_ok n : layout_ok (uint n).
Proof.
  split; simpl.
  - intros z _. split; [apply length_le_store|apply le_store_bytes].
  - intros bs <- Hb. by apply le_load_bound.
  - intros z Hz. by apply le_load_store.
  - intros bs <- Hb. by apply le_store_load.
Qed.

Lemma byte_array_ok n : layout_ok (byte_array n).
Proof. by split. Qed.

Lemma field_seq_ok {A B} (L : layout A) (R : layout B) :
  layout_ok L → layout_ok R → layout_ok (field_seq L R).
Proof.
  intros [w1 r1 rw1 wr1] [w2 r2 rw2 wr2].
  assert (Hsplit : ∀ bs, length bs = (l_size L + l_size R)%nat → Forall is_byte bs →
    (length (take (l_size L) bs) = l_size L ∧ Forall is_byte (take (l_size L) bs)) ∧
    (length (drop (l_size L) bs) = l_size R ∧ Forall is_byte (drop (l_size L) bs))).
  { intros bs Hlen Hb. rewrite length_take, length_drop.
    split_and!; [lia|by apply Forall_take|lia|by apply Forall_drop]. }
  split; simpl.
  - intros [a b] [Ha Hb]. destruct (w1 a Ha), (w2 b Hb). simpl.
    rewrite length_app, Forall_app. auto with lia.
  - intros bs Hlen Hb. destruct (Hsplit bs Hlen Hb) as [[] []]. eauto.
  - intros [a b] [Ha Hb]. destruct (w1 a Ha) as [Hl _]. simpl.
    by rewrite take_app_length', drop_app_length', rw1, rw2 by done.
  - intros bs Hlen Hb. destruct (Hsplit bs Hlen Hb) as [[] []].
    rewrite wr1, wr2 by done. apply take_drop.
Qed.

Lemma struct_ok {A B} (f : A → B) (g : B → A) L :
  layout_ok L → (∀ a, g (f a) = a) → (∀ b, f (g b) = b) → layout_ok (struct f g L).
Proof.
  intros [w r rw wr] Hgf Hfg. split; simpl; intros.
  - by apply w.
  - rewrite Hgf. by apply r.
  - by rewrite rw.
  - rewrite Hgf. by apply wr.
Qed.

#[export] Hint Resolve uint_ok byte_array_ok field_seq_ok : book.

(** ** Theorems *)

(** Every multi-byte field and the timestamp of the wire format is read as the
    big-endian value of its bytes on a little-endian host, and the swap undoes itself. *)
Theorem fields_big_endian bs :
  Forall is_byte bs →
  (length bs = 2%nat → be16 (le_load bs) = be_load bs ∧ be16 (be16 (le_load bs)) = le_load bs) ∧
  (length bs = 4%nat → be32 (le_load bs) = be_load bs ∧ be32 (be32 (le_load bs)) = le_load bs) ∧
  (length bs = 8%nat → be64 (le_load bs) = be_load bs ∧ be64 (be64 (le_load bs)) = le_load bs) ∧
  (length bs = 6%nat → read_ts bs = be_load bs).
Proof.
  intros Hb. pose proof (le_load_bound bs Hb) as Hl.
  assert (H : ∀ n, length bs = n →
            bswap n (le_load bs) = be_load bs ∧ bswap n (bswap n (le_load bs)) = le_load bs).
  { intros n <-. split; [by apply bswap_load|by apply bswap_involutive]. }
  split_and!; [apply (H 2%nat)|apply (H 4%nat)|apply (H 8%nat)|intros Hlen; by apply read_ts_be].
Qed.

Lemma fields_big_endian_witness : be32 (le_load [0; 22; 227; 96]) = 1500000.
Proof.
  destruct (fields_big_endian [0; 22; 227; 96]) as (_ & H & _).
  - unfold is_byte. repeat constructor; discriminate.
  - destruct (H eq_refl) as [-> _]. reflexivity.
Defined.
