(* ===== verification/Messages.v ===== *)
(** * ITCH message structs (include/itch/messages.hpp, lines 33-140)

    One record per packed struct, fields in declaration order and holding what the
    host loads (multi-byte fields still byte-swapped, as in the code).  The four
    fields every struct starts with are grouped in [Header].  Each struct is an
    instance of [Packed]; [PackedOk] says its layout loses nothing. *)

From S2P Require Import Prelude Bytes.

Local Open Scope layout_scope.

(** ** Structs *)
Record Header := mkHeader {
  msg_type : Z;
  stock_locate : Z;
  tracking_number : Z;
  timestamp : list Z;
}.

Record SystemEventMsg := mkSystemEvent {
  sys_hdr : Header;
  sys_event_code : Z;
}.

Record AddOrderMsg := mkAddOrder {
  add_hdr : Header;
  add_order_ref_num : Z;
  add_buy_sell : Z;
  add_shares : Z;
  add_stock : list Z;
  add_price : Z;
}.

Record AddOrderMPIDMsg := mkAddOrderMPID {
  mpid_hdr : Header;
  mpid_order_ref_num : Z;
  mpid_buy_sell : Z;
  mpid_shares : Z;
  mpid_stock : list Z;
  mpid_price : Z;
  mpid_attribution : list Z;
}.

Record ExecuteOrderMsg := mkExecuteOrder {
  exec_hdr : Header;
  exec_order_ref_num : Z;
  exec_executed_shares : Z;
  exec_match_number : Z;
}.

Record ExecuteOrderWithPriceMsg := mkExecuteOrderWithPrice {
  execp_hdr : Header;
  execp_order_ref_num : Z;
  execp_executed_shares : Z;
  execp_match_number : Z;
  execp_printable : Z;
  execp_execution_price : Z;
}.

Record CancelOrderMsg := mkCancelOrder {
  cancel_hdr : Header;
  cancel_order_ref_num : Z;
  cancel_cancelled_shares : Z;
}.

Record DeleteOrderMsg := mkDeleteOrder {
  del_hdr : Header;
  del_order_ref_num : Z;
}.

Record ReplaceOrderMsg := mkReplaceOrder {
  repl_hdr : Header;
  repl_original_order_ref_num : Z;
  repl_new_order_ref_num : Z;
  repl_shares : Z;
  repl_price : Z;
}.

Record TradeMsg := mkTrade {
  trade_hdr : Header;
  trade_order_ref_num : Z;
  trade_buy_sell : Z;
  trade_shares : Z;
  trade_stock : list Z;
  trade_price : Z;
  trade_match_number : Z;
}.

(** ** Layouts *)
Definition header_layout : layout Header :=
  struct (λ '(t, l, n, ts), mkHeader t l n ts)
    (λ h, (msg_type h, stock_locate h, tracking_number h, timestamp h))
    (char_ ⊗ uint 2 ⊗ uint 2 ⊗ byte_array 6).

#[export] Instance SystemEventMsg_packed : Packed SystemEventMsg :=
  struct (λ '(h, a), mkSystemEvent h a)
    (λ m, (sys_hdr m, sys_event_code m))
    (header_layout ⊗ char_).

#[export] Instance AddOrderMsg_packed : Packed AddOrderMsg :=
  struct (λ '(h, a, b, c, d, e), mkAddOrder h a b c d e)
    (λ m, (add_hdr m, add_order_ref_num m, add_buy_sell m, add_shares m, add_stock m, add_price m))
    (header_layout ⊗ uint 8 ⊗ char_ ⊗ uint 4 ⊗ byte_array 8 ⊗ uint 4).

#[export] Instance AddOrderMPIDMsg_packed : Packed AddOrderMPIDMsg :=
  struct (λ '(h, a, b, c, d, e, f), mkAddOrderMPID h a b c d e f)
    (λ m, (mpid_hdr m, mpid_order_ref_num m, mpid_buy_sell m, mpid_shares m, mpid_stock m, mpid_price m, mpid_attribution m))
    (header_layout ⊗ uint 8 ⊗ char_ ⊗ uint 4 ⊗ byte_array 8 ⊗ uint 4 ⊗ byte_array 4).

#[export] Instance ExecuteOrderMsg_packed : Packed ExecuteOrderMsg :=
  struct (λ '(h, a, b, c), mkExecuteOrder h a b c)
    (λ m, (exec_hdr m, exec_order_ref_num m, exec_executed_shares m, exec_match_number m))
    (header_layout ⊗ uint 8 ⊗ uint 4 ⊗ uint 8).

#[export] Instance ExecuteOrderWithPriceMsg_packed : Packed ExecuteOrderWithPriceMsg :=
  struct (λ '(h, a, b, c, d, e), mkExecuteOrderWithPrice h a b c d e)
    (λ m, (execp_hdr m, execp_order_ref_num m, execp_executed_shares m, execp_match_number m, execp_printable m, execp_execution_price m))
    (header_layout ⊗ uint 8 ⊗ uint 4 ⊗ uint 8 ⊗ char_ ⊗ uint 4).

#[export] Instance CancelOrderMsg_packed : Packed CancelOrderMsg :=
  struct (λ '(h, a, b), mkCancelOrder h a b)
    (λ m, (cancel_hdr m, cancel_order_ref_num m, cancel_cancelled_shares m))
    (header_layout ⊗ uint 8 ⊗ uint 4).

#[export] Instance DeleteOrderMsg_packed : Packed DeleteOrderMsg :=
  struct (λ '(h, a), mkDeleteOrder h a)
    (λ m, (del_hdr m, del_order_ref_num m))
    (header_layout ⊗ uint 8).

#[export] Instance ReplaceOrderMsg_packed : Packed ReplaceOrderMsg :=
  struct (λ '(h, a, b, c, d), mkReplaceOrder h a b c d)
    (λ m, (repl_hdr m, repl_original_order_ref_num m, repl_new_order_ref_num m, repl_shares m, repl_price m))
    (header_layout ⊗ uint 8 ⊗ uint 8 ⊗ uint 4 ⊗ uint 4).

#[export] Instance TradeMsg_packed : Packed TradeMsg :=
  struct (λ '(h, a, b, c, d, e, f), mkTrade h a b c d e f)
    (λ m, (trade_hdr m, trade_order_ref_num m, trade_buy_sell m, trade_shares m, trade_stock m, trade_price m, trade_match_number m))
    (header_layout ⊗ uint 8 ⊗ char_ ⊗ uint 4 ⊗ byte_array 8 ⊗ uint 4 ⊗ uint 8).

(** ** Layouts are bijections *)
Lemma header_layout_ok : layout_ok header_layout.
Proof. apply struct_ok; [unfold char_; auto 10 with book|by intros [[[? ?] ?] ?]|by intros []]. Qed.

#[export] Hint Resolve header_layout_ok : book.

Ltac packed_struct :=
  apply struct_ok; [unfold char_; auto 15 with book|intros; repeat case_match; by simplify_eq|by intros []].

#[export] Instance SystemEventMsg_ok : PackedOk SystemEventMsg.
Proof. packed_struct. Qed.

#[export] Instance AddOrderMsg_ok : PackedOk AddOrderMsg.
Proof. packed_struct. Qed.

#[export] Instance AddOrderMPIDMsg_ok : PackedOk AddOrderMPIDMsg.
Proof. packed_struct. Qed.

#[export] Instance ExecuteOrderMsg_ok : PackedOk ExecuteOrderMsg.
Proof. packed_struct. Qed.

#[export] Instance ExecuteOrderWithPriceMsg_ok : PackedOk ExecuteOrderWithPriceMsg.
Proof. packed_struct. Qed.

#[export] Instance CancelOrderMsg_ok : PackedOk CancelOrderMsg.
Proof. packed_struct. Qed.

#[export] Instance DeleteOrderMsg_ok : PackedOk DeleteOrderMsg.
Proof. packed_struct. Qed.

#[export] Instance ReplaceOrderMsg_ok : PackedOk ReplaceOrderMsg.
Proof. packed_struct. Qed.

#[export] Instance TradeMsg_ok : PackedOk TradeMsg.
Proof. packed_struct. Qed.

