(* ===== verification/Parser.v ===== *)
(** * The ITCH parser (src/itch/parser.cpp, include/itch/parser.hpp)

    [parse_message] dispatches on the type byte, checks the length against the
    struct's size and copies the struct out of the buffer.  A buffer is [None] for a
    null pointer and otherwise the bytes readable from the pointer; reading past
    them is a fault.

    Proved: no read out of bounds when the buffer holds [len] bytes, the exact
    length table of the nine message types, and that parsing and encoding are
    inverse to each other. *)

From S2P Require Import Prelude Bytes Messages.

(** ** Data *)

(** [std::variant]: [Monostate] is an unknown or ignored message. *)
Inductive ParsedMessage :=
| Monostate
| MSystemEvent (m : SystemEventMsg)
| MAddOrder (m : AddOrderMsg)
| MAddOrderMPID (m : AddOrderMPIDMsg)
| MExecuteOrder (m : ExecuteOrderMsg)
| MExecuteOrderWithPrice (m : ExecuteOrderWithPriceMsg)
| MCancelOrder (m : CancelOrderMsg)
| MDeleteOrder (m : DeleteOrderMsg)
| MReplaceOrder (m : ReplaceOrderMsg)
| MTrade (m : TradeMsg).

(** ** Operations *)

(** [data[i]] *)
Definition byte_at (data : list Z) (i : nat) : outcome Z :=
  match data !! i with Some b => Ok b | None => Fault OutOfRange end.

(** [std::memcpy(&msg, data, sizeof(T))] *)
Definition copy_msg (T : Type) `{Packed T} (data : list Z) : outcome T :=
  if (sizeof T <=? length data)%nat
  then Ok (l_read (packed_layout T) (take (sizeof T) data))
  else Fault OutOfRange.

(** One [case] of the switch: [if (len >= sizeof(T)) return copy_msg<T>(data); break;] *)
Definition parse_case {T : Type} `{Packed T} (inj : T → ParsedMessage)
    (data : list Z) (len : Z) : outcome ParsedMessage :=
  if Z.of_nat (sizeof T) <=? len then inj <$> copy_msg T data else Ok Monostate.

Definition parse_message (data : option (list Z)) (len : Z) : outcome ParsedMessage :=
  match data with
  | None => Ok Monostate
  | Some data =>
      if len =? 0 then Ok Monostate else
      c ← byte_at data 0;
      if c =? ch_S then parse_case MSystemEvent data len
      else if c =? ch_A then parse_case MAddOrder data len
      else if c =? ch_F then parse_case MAddOrderMPID data len
      else if c =? ch_E then parse_case MExecuteOrder data len
      else if c =? ch_C then parse_case MExecuteOrderWithPrice data len
      else if c =? ch_X then parse_case MCancelOrder data len
      else if c =? ch_D then parse_case MDeleteOrder data len
      else if c =? ch_U then parse_case MReplaceOrder data len
      else if c =? ch_P then parse_case MTrade data len
      else Ok Monostate
  end.

(** ** Specification *)

(** The ITCH 5.0 length of each message type. *)
Definition itch_length (tag : Z) : option Z :=
  if tag =? ch_S then Some 12
  else if tag =? ch_A then Some 36
  else if tag =? ch_F then Some 40
  else if tag =? ch_E then Some 31
  else if tag =? ch_C then Some 36
  else if tag =? ch_X then Some 23
  else if tag =? ch_D then Some 19
  else if tag =? ch_U then Some 35
  else if tag =? ch_P then Some 44
  else None.

(** The wire form of a message. *)
Definition encode (m : ParsedMessage) : list Z :=
  match m with
  | Monostate => []
  | MSystemEvent m => l_write (packed_layout _) m
  | MAddOrder m => l_write (packed_layout _) m
  | MAddOrderMPID m => l_write (packed_layout _) m
  | MExecuteOrder m => l_write (packed_layout _) m
  | MExecuteOrderWithPrice m => l_write (packed_layout _) m
  | MCancelOrder m => l_write (packed_layout _) m
  | MDeleteOrder m => l_write (packed_layout _) m
  | MReplaceOrder m => l_write (packed_layout _) m
  | MTrade m => l_write (packed_layout _) m
  end.

(** A struct whose fields fit their widths and whose type byte is its own. *)
Definition valid_struct {T} `{Packed T} (hdr : T → Header) (tag : Z) (m : T) : Prop :=
  msg_type (hdr m) = tag ∧ l_fits (packed_layout T) m.

Definition valid_message (m : ParsedMessage) : Prop :=
  match m with
  | Monostate => False
  | MSystemEvent m => valid_struct sys_hdr ch_S m
  | MAddOrder m => valid_struct add_hdr ch_A m
  | MAddOrderMPID m => valid_struct mpid_hdr ch_F m
  | MExecuteOrder m => valid_struct exec_hdr ch_E m
  | MExecuteOrderWithPrice m => valid_struct execp_hdr ch_C m
  | MCancelOrder m => valid_struct cancel_hdr ch_X m
  | MDeleteOrder m => valid_struct del_hdr ch_D m
  | MReplaceOrder m => valid_struct repl_hdr ch_U m
  | MTrade m => valid_struct trade_hdr ch_P m
  end.

Definition is_monostate (m : ParsedMessage) : bool :=
  match m with Monostate => true | _ => false end.

(** The type is known and the length covers its struct. *)
Definition accepts (data : list Z) (len : Z) : bool :=
  match data !! 0%nat with
  | Some c => match itch_length c with Some n => (0 <? len) && (n <=? len) | None => false end
  | None => false
  end.

(** A struct starts with its type byte. *)
Class Tagged (T : Type) `{Packed T} (hdr : T → Header) := tagged :
  ∀ m, l_fits (packed_layout T) m → l_write (packed_layout T) m !! 0%nat = Some (msg_type (hdr m)).

Definition sample_add : AddOrderMsg :=
  mkAddOrder (mkHeader ch_A 256 0 [0; 0; 0; 0; 0; 7]) (be64 1) ch_B (be32 100)
    [65; 65; 80; 76; 32; 32; 32; 32] (be32 1500000).

(** ** Lemmas *)
Ltac tag_first :=
  intros m Hm; simpl in Hm; destruct_and?; simpl; by rewrite Z.mod_small by lia.

#[export] Instance sys_tagged : Tagged SystemEventMsg sys_hdr.
Proof. tag_first. Qed.
#[export] Instance add_tagged : Tagged AddOrderMsg add_hdr.
Proof. tag_first. Qed.
#[export] Instance mpid_tagged : Tagged AddOrderMPIDMsg mpid_hdr.
Proof. tag_first. Qed.
#[export] Instance exec_tagged : Tagged ExecuteOrderMsg exec_hdr.
Proof. tag_first. Qed.
#[export] Instance execp_tagged : Tagged ExecuteOrderWithPriceMsg execp_hdr.
Proof. tag_first. Qed.
#[export] Instance cancel_tagged : Tagged CancelOrderMsg cancel_hdr.
Proof. tag_first. Qed.
#[export] Instance del_tagged : Tagged DeleteOrderMsg del_hdr.
Proof. tag_first. Qed.
#[export] Instance repl_tagged : Tagged ReplaceOrderMsg repl_hdr.
Proof. tag_first. Qed.
#[export] Instance trade_tagged : Tagged TradeMsg trade_hdr.
Proof. tag_first. Qed.

Section Case.
Context {T : Type} `{PackedOk T} (inj : T → ParsedMessage).

Lemma copy_msg_ok data :
  (sizeof T ≤ length data)%nat →
  copy_msg T data = Ok (l_read (packed_layout T) (take (sizeof T) data)).
Proof. intros Hlen. unfold copy_msg. by rewrite (proj2 (Nat.leb_le _ _)). Qed.

Lemma parse_case_long data len :
  Z.of_nat (sizeof T) ≤ len → (sizeof T ≤ length data)%nat →
  parse_case inj data len = Ok (inj (l_read (packed_layout T) (take (sizeof T) data))).
Proof.
  intros Hlen Hdata. unfold parse_case. rewrite (proj2 (Z.leb_le _ _)) by done.
  by rewrite copy_msg_ok.
Qed.

Lemma parse_case_short data len :
  len < Z.of_nat (sizeof T) → parse_case inj data len = Ok Monostate.
Proof. intros Hlen. unfold parse_case. by rewrite (proj2 (Z.leb_gt _ _)). Qed.

Lemma parse_case_encode m rest len :
  l_fits (packed_layout T) m →
  Z.of_nat (length (l_write (packed_layout T) m)) ≤ len →
  parse_case inj (l_write (packed_layout T) m ++ rest) len = Ok (inj m).
Proof.
  intros Hm Hlen. destruct (lo_write _ (packed_ok (T:=T)) m Hm) as [Hsz _].
  assert (Hsz' : length (l_write (packed_layout T) m) = sizeof T) by done.
  rewrite parse_case_long by (rewrite ?length_app; lia).
  rewrite take_app_length' by done. by rewrite (lo_read_write _ (packed_ok (T:=T))).
Qed.

(** What an accepting case returns is well-formed and re-encodes to the bytes it was
    read from. *)
Lemma parse_case_faithful (hdr : T → Header) `{!Tagged T hdr} data len m c :
  (∀ x, encode (inj x) = l_write (packed_layout T) x) →
  (∀ x, valid_struct hdr c x → valid_message (inj x)) →
  Forall is_byte data → data !! 0%nat = Some c →
  parse_case inj data len = Ok m → m ≠ Monostate →
  valid_message m ∧ ∃ rest, data = encode m ++ rest.
Proof.
  intros Henc Hval Hb Hc E Hm. unfold parse_case, copy_msg in E.
  destruct (Z.of_nat (sizeof T) <=? len); [|by injection E as <-].
  destruct (Nat.leb_spec (sizeof T) (length data)) as [Hlen|]; [|done]. simpl in E.
  injection E as <-. set (bs := take (sizeof T) data).
  assert (Hl : length bs = sizeof T) by (unfold bs; rewrite length_take; lia).
  assert (Hbs : Forall is_byte bs) by (by apply Forall_take).
  pose proof (lo_write_read _ (packed_ok (T:=T)) _ Hl Hbs) as Hw.
  pose proof (lo_read _ (packed_ok (T:=T)) _ Hl Hbs) as Hf.
  split.
  - apply Hval. split; [|done]. pose proof (tagged _ Hf) as Ht. rewrite Hw in Ht.
    destruct (decide (0 < sizeof T)%nat) as [Hpos|Hz].
    + unfold bs in Ht. rewrite lookup_take_lt, Hc in Ht by done. by injection Ht.
    + rewrite (nil_length_inv bs) in Ht by lia. done.
  - exists (drop (sizeof T) data). rewrite Henc, Hw. symmetry. apply take_drop.
Qed.

Lemma parse_case_total data len n :
  Z.of_nat (sizeof T) = n → (∀ x, is_monostate (inj x) = false) → len ≤ Z.of_nat (length data) →
  ∃ m, parse_case inj data len = Ok m ∧ is_monostate m = negb (n <=? len).
Proof.
  intros <- Hinj Hlen. destruct (Z.leb_spec (Z.of_nat (sizeof T)) len).
  - rewrite parse_case_long by lia. eexists. split; [done|]. by rewrite Hinj.
  - rewrite parse_case_short by done. by exists Monostate.
Qed.

End Case.

Lemma encode_tag m : valid_message m → ∃ c n,
  encode m !! 0%nat = Some c ∧ itch_length c = Some n ∧ Z.of_nat (length (encode m)) = n ∧ 0 < n.
Proof.
  destruct m; [done|..]; intros [Ht Hf]; cbn [encode]; rewrite (tagged _ Hf), Ht; do 2 eexists;
    (split; [done|]); (split; [reflexivity|]);
    rewrite (proj1 (lo_write _ packed_ok _ Hf)); split; reflexivity.
Qed.

Lemma parse_encode m rest len :
  valid_message m → Z.of_nat (length (encode m)) ≤ len →
  parse_message (Some (encode m ++ rest)) len = Ok m.
Proof.
  intros Hv Hlen. destruct (encode_tag m Hv) as (c & n & Hc & _ & Hn & Hpos).
  unfold parse_message. rewrite (proj2 (Z.eqb_neq _ _)) by lia.
  destruct m; [done|..]; destruct Hv as [Ht Hf]; cbn [encode] in *;
    (assert (Hb : byte_at (l_write (packed_layout _) m ++ rest) 0 = Ok c)
      by (unfold byte_at; rewrite lookup_app_l, Hc by (by apply (lookup_lt_Some _ _ _ Hc)); done));
    rewrite Hb; rewrite (tagged _ Hf), Ht in Hc; injection Hc as <-; rewrite bind_ok; eqb_consts;
    by apply parse_case_encode.
Qed.

Lemma parse_in_bounds data len :
  0 ≤ len →
  (∀ bs, data = Some bs → len ≤ Z.of_nat (length bs)) →
  ∃ m, parse_message data len = Ok m ∧
       is_monostate m = negb (match data with Some bs => accepts bs len | None => false end).
Proof.
  intros Hlen Hdata. destruct data as [bs|]; simpl; [|by exists Monostate].
  specialize (Hdata bs eq_refl). destruct (Z.eqb_spec len 0) as [->|Hne].
  { exists Monostate. split; [done|]. unfold accepts.
    destruct (bs !! 0%nat); [|done]. by destruct (itch_length _). }
  destruct bs as [|c bs]; [simpl in Hdata; lia|].
  unfold accepts, byte_at, itch_length. simpl lookup. cbv iota beta. rewrite bind_ok.
  rewrite (proj2 (Z.ltb_lt 0 len)) by lia.
  repeat match goal with |- context [if c =? ?k then _ else _] => destruct (Z.eqb_spec c k) end.
  all: try (by exists Monostate); rewrite andb_true_l; by apply parse_case_total.
Qed.

Lemma parse_faithful data len m :
  Forall is_byte data → parse_message (Some data) len = Ok m → m ≠ Monostate →
  valid_message m ∧ ∃ rest, data = encode m ++ rest.
Proof.
  intros Hb E Hm. unfold parse_message in E. destruct (len =? 0); [by injection E as <-|].
  unfold byte_at in E. destruct (data !! 0%nat) as [c|] eqn:Hc; [|done]. rewrite bind_ok in E.
  repeat match type of E with
  | (if ?c =? ?k then _ else _) = _ => destruct (Z.eqb_spec c k) as [->|_]
  end; [
    apply (parse_case_faithful MSystemEvent sys_hdr data len m ch_S)
  | apply (parse_case_faithful MAddOrder add_hdr data len m ch_A)
  | apply (parse_case_faithful MAddOrderMPID mpid_hdr data len m ch_F)
  | apply (parse_case_faithful MExecuteOrder exec_hdr data len m ch_E)
  | apply (parse_case_faithful MExecuteOrderWithPrice execp_hdr data len m ch_C)
  | apply (parse_case_faithful MCancelOrder cancel_hdr data len m ch_X)
  | apply (parse_case_faithful MDeleteOrder del_hdr data len m ch_D)
  | apply (parse_case_faithful MReplaceOrder repl_hdr data len m ch_U)
  | apply (parse_case_faithful MTrade trade_hdr data len m ch_P)
  | by injection E as <-]; done.
Qed.

Lemma encode_bytes m : valid_message m → Forall is_byte (encode m).
Proof. destruct m; [done|..]; intros [_ Hf]; apply (lo_write _ packed_ok _ Hf). Qed.

Lemma encode_length_bound m : valid_message m → 0 < Z.of_nat (length (encode m)) < 2 ^ 16.
Proof.
  destruct m; [done|..]; intros [_ Hf]; cbn [encode];
    rewrite (proj1 (lo_write _ packed_ok _ Hf)); split; reflexivity.
Qed.

(** ** Theorems *)

(** C33. Encoding then parsing is the identity: for every message whose fields fit
    and whose type byte is its own, the parser reads it back from any buffer that
    starts with its wire form, whatever follows and for any length that covers it. *)
Theorem parse_encode_roundtrip m rest len :
  valid_message m → Z.of_nat (length (encode m)) ≤ len →
  parse_message (Some (encode m ++ rest)) len = Ok m.
Proof. apply parse_encode. Qed.

Lemma parse_encode_roundtrip_witness :
  parse_message (Some (encode (MAddOrder sample_add) ++ [9; 9])) 38 = Ok (MAddOrder sample_add).
Proof.
  apply parse_encode_roundtrip; [|vm_compute; discriminate].
  simpl. unfold valid_struct. simpl. unfold is_byte.
  repeat (split || constructor); try reflexivity; vm_compute; done.
Defined.

(** C34. Parsing then encoding gives back the bytes: what the parser returns is a
    well-formed message and its wire form is a prefix of the buffer. *)
Theorem parse_message_faithful data len m :
  Forall is_byte data → parse_message (Some data) len = Ok m → m ≠ Monostate →
  valid_message m ∧ ∃ rest, data = encode m ++ rest.
Proof. apply parse_faithful. Qed.

Lemma parse_message_faithful_witness :
  valid_message (MAddOrder sample_add) ∧
  ∃ rest, encode (MAddOrder sample_add) ++ [9; 9] = encode (MAddOrder sample_add) ++ rest.
Proof.
  apply (parse_message_faithful (encode (MAddOrder sample_add) ++ [9; 9]) 38).
  - vm_compute. unfold is_byte. repeat constructor; discriminate.
  - vm_compute. reflexivity.
  - discriminate.
Defined.

(** C35. The parser never reads outside a buffer that holds [len] bytes, and it
    returns a message exactly when the type byte is one of the nine known ones and
    [len] is at least the ITCH length of that type; otherwise, and for a null
    pointer, it returns the empty alternative. *)
Theorem parse_message_total data len :
  0 ≤ len →
  (∀ bs, data = Some bs → len ≤ Z.of_nat (length bs)) →
  ∃ m, parse_message data len = Ok m ∧
       is_monostate m = negb (match data with Some bs => accepts bs len | None => false end).
Proof. apply parse_in_bounds. Qed.

Lemma parse_message_total_witness :
  ∃ m, parse_message (Some [ch_D; 1; 2]) 3 = Ok m ∧ is_monostate m = negb (accepts [ch_D; 1; 2] 3).
Proof. apply (parse_message_total (Some [ch_D; 1; 2]) 3); [lia|]. intros bs [= <-]. simpl. lia. Defined.
