(* ===== verification/TestParser.v ===== *)
(** * The parser's unit tests (test/test_parser.cpp)

    Each test builds a struct, copies it to a byte buffer, parses the buffer and states what
    the result holds.  The tests are evaluated; [read_write_ts] proves the timestamp test for
    every 48-bit value. *)

From S2P Require Import Prelude Bytes Messages Parser.
From Stdlib Require Import Ascii String.

(** ** Helpers *)
Definition to_raw {T} `{Packed T} (msg : T) : list Z := l_write (packed_layout T) msg.

Definition h2be16 (v : Z) : Z := bswap 2 v.
Definition h2be32 (v : Z) : Z := bswap 4 v.
Definition h2be64 (v : Z) : Z := bswap 8 v.

(** [for (int i = 5; i >= 0; --i) { ts[i] = ns & 0xFF; ns >>= 8; }] *)
Definition write_ts (ns : Z) : list Z :=
  (foldl (λ '(ts, ns) i, (<[i := Z.land ns 255]> ts, Z.shiftr ns 8)) (replicate 6 0, ns)
    [5; 4; 3; 2; 1; 0]%nat).1.

(** [memcpy(raw.stock, "AAPL    ", 8)] *)
Fixpoint ascii_bytes (s : string) : list Z :=
  match s with EmptyString => [] | String c s => chr c :: ascii_bytes s end.

(** [parse_message(buf.data(), buf.size())] of a struct's bytes. *)
Definition parse_raw {T} `{Packed T} (raw : T) : outcome ParsedMessage :=
  parse_message (Some (to_raw raw)) (Z.of_nat (List.length (to_raw raw)) mod 2 ^ 16).

(** ** The tests *)
Definition SystemEvent_Open : outcome bool :=
  msg ← parse_raw (mkSystemEvent (mkHeader ch_S (h2be16 1) (h2be16 0) (write_ts 34200000000000)) ch_O);
  Ok match msg with
     | MSystemEvent s =>
         (msg_type (sys_hdr s) =? ch_S) && (sys_event_code s =? ch_O) &&
         (be16 (stock_locate (sys_hdr s)) =? 1) && (read_ts (timestamp (sys_hdr s)) =? 34200000000000)
     | _ => false
     end.

Definition AddOrder_Buy : outcome bool :=
  msg ← parse_raw (mkAddOrder (mkHeader ch_A (h2be16 42) (h2be16 7) (write_ts 100000000)) (h2be64 999001) ch_B
          (h2be32 500) (ascii_bytes "AAPL    ") (h2be32 1505000));
  Ok match msg with
     | MAddOrder a =>
         (msg_type (add_hdr a) =? ch_A) && (add_buy_sell a =? ch_B) && (be32 (add_shares a) =? 500) &&
         (be64 (add_order_ref_num a) =? 999001) && (be32 (add_price a) =? 1505000) &&
         (be16 (stock_locate (add_hdr a)) =? 42) && (read_ts (timestamp (add_hdr a)) =? 100000000)
     | _ => false
     end.

Definition AddOrder_Sell : outcome bool :=
  msg ← parse_raw (mkAddOrder (mkHeader ch_A (h2be16 1) 0 (write_ts 200000000)) (h2be64 12345) ch_S
          (h2be32 100) (ascii_bytes "MSFT    ") (h2be32 3000000));
  Ok match msg with
     | MAddOrder a => (add_buy_sell a =? ch_S) && (be32 (add_shares a) =? 100)
     | _ => false
     end.

Definition DeleteOrder : outcome bool :=
  msg ← parse_raw (mkDeleteOrder (mkHeader ch_D (h2be16 1) 0 (write_ts 300000000)) (h2be64 999001));
  Ok match msg with MDeleteOrder d => be64 (del_order_ref_num d) =? 999001 | _ => false end.

Definition CancelOrder : outcome bool :=
  msg ← parse_raw (mkCancelOrder (mkHeader ch_X (h2be16 1) 0 (write_ts 400000000)) (h2be64 555) (h2be32 200));
  Ok match msg with
     | MCancelOrder c => (be64 (cancel_order_ref_num c) =? 555) && (be32 (cancel_cancelled_shares c) =? 200)
     | _ => false
     end.

Definition ReplaceOrder : outcome bool :=
  msg ← parse_raw (mkReplaceOrder (mkHeader ch_U (h2be16 1) 0 (write_ts 500000000)) (h2be64 100) (h2be64 200)
          (h2be32 300) (h2be32 2000000));
  Ok match msg with
     | MReplaceOrder r =>
         (be64 (repl_original_order_ref_num r) =? 100) && (be64 (repl_new_order_ref_num r) =? 200) &&
         (be32 (repl_shares r) =? 300) && (be32 (repl_price r) =? 2000000)
     | _ => false
     end.

Definition ExecuteOrder : outcome bool :=
  msg ← parse_raw (mkExecuteOrder (mkHeader ch_E (h2be16 1) 0 (write_ts 600000000)) (h2be64 999001) (h2be32 100)
          (h2be64 1234567890));
  Ok match msg with
     | MExecuteOrder e => (be64 (exec_order_ref_num e) =? 999001) && (be32 (exec_executed_shares e) =? 100)
     | _ => false
     end.

Definition UnknownMsgType_IsMonostate : outcome bool :=
  is_monostate <$> parse_message (Some (ascii_bytes "Z")) 1.

Definition NullBuffer_IsMonostate : outcome bool := is_monostate <$> parse_message None 0.

Definition TruncatedMessage_IsMonostate : outcome bool :=
  is_monostate <$> parse_message (Some (ascii_bytes "A" ++ [0; 1])) 3.

Definition ReadTimestamp_RoundTrip : outcome bool :=
  Ok (read_ts (write_ts 34200000000001) =? 34200000000001).

Definition parser_tests : list (outcome bool) :=
  [SystemEvent_Open; AddOrder_Buy; AddOrder_Sell; DeleteOrder; CancelOrder; ReplaceOrder; ExecuteOrder;
   UnknownMsgType_IsMonostate; NullBuffer_IsMonostate; TruncatedMessage_IsMonostate; ReadTimestamp_RoundTrip].

(** ** Theorems *)
(** Every parser test passes. *)
Theorem parser_tests_pass : Forall (λ t, t = Ok true) parser_tests.
Proof. repeat constructor; vm_compute; reflexivity. Qed.

(** The timestamp helpers round trip, on every 48-bit value. *)
Theorem read_write_ts ns : 0 ≤ ns < 2 ^ 48 → read_ts (write_ts ns) = ns.
Proof.
  intros Hns. assert (Hb : ∀ k, 0 ≤ k → Z.land (Z.shiftr ns k) 255 = ns / 2 ^ k mod 256).
  { intros k Hk. rewrite Z.shiftr_div_pow2 by done. change 255 with (Z.ones 8). by rewrite Z.land_ones. }
  assert (E : write_ts ns = [ns / 2 ^ 40 mod 256; ns / 2 ^ 32 mod 256; ns / 2 ^ 24 mod 256;
                             ns / 2 ^ 16 mod 256; ns / 2 ^ 8 mod 256; ns / 2 ^ 0 mod 256]).
  { unfold write_ts. cbn [foldl replicate insert list_insert fst]. rewrite <-!Hb, !Z.shiftr_shiftr, Z.shiftr_0_r by lia. done. }
  rewrite E, read_ts_be; [|done|].
  - unfold be_load. cbn [foldl]. rewrite Z.pow_0_r, Z.div_1_r. Z.to_euclidean_division_equations. lia.
  - repeat constructor; apply Z.mod_pos_bound; lia.
Qed.

Lemma read_write_ts_witness : read_ts (write_ts 34200000000001) = 34200000000001.
Proof. apply read_write_ts. split; [discriminate|reflexivity]. Defined.
