(* ===== verification/Reader.v ===== *)
(** * The ITCH file reader (include/transport/pcap_replay.hpp,
      src/transport/pcap_replay.cpp)

    [ITCHFileReader] holds the file's bytes and a position.  [next_message] reads a
    two-byte big-endian length and returns a pointer to the message (here: the
    buffer from that point on) and its length, or null.  [read_messages] is the loop
    of the parser thread (src/main.cpp), with the length of the buffer as fuel.

    The constructor is in [Main]: here a reader starts from the bytes it loaded.  A buffer is assumed to fit a 63-bit address space where a
    theorem needs it ([size_ok]). *)

From S2P Require Import Prelude Bytes Messages Parser.

(** ** State and operations *)
Record ITCHFileReader := mkReader {
  buf : list Z;
  pos : Z;
}.

Definition open_reader (bytes : list Z) : ITCHFileReader := mkReader bytes 0.

Definition buf_size (r : ITCHFileReader) : Z := Z.of_nat (length (buf r)).

(** [buf_[i]] *)
Definition buf_at (r : ITCHFileReader) (i : Z) : outcome Z :=
  if (0 <=? i) then byte_at (buf r) (Z.to_nat i) else Fault OutOfRange.

(** The pointer returned, with [out_len]; [None] is [nullptr]. *)
Definition next_message (r : ITCHFileReader) : outcome (option (list Z * Z) * ITCHFileReader) :=
  if buf_size r <? u64 (pos r + 2) then Ok (None, r) else
  hi ← buf_at r (pos r);
  lo ← buf_at r (pos r + 1);
  let len := u16 (Z.lor (Z.shiftl (u16 hi) 8) lo) in
  let r := mkReader (buf r) (u64 (pos r + 2)) in
  if len =? 0 then Ok (None, r) else
  if buf_size r <? u64 (pos r + len) then Ok (None, r) else
  let msg := drop (Z.to_nat (pos r)) (buf r) in
  Ok (Some (msg, len), mkReader (buf r) (u64 (pos r + len))).

Definition reset (r : ITCHFileReader) : ITCHFileReader := mkReader (buf r) 0.
Definition eof (r : ITCHFileReader) : bool := buf_size r <=? pos r.
Definition bytes_remaining (r : ITCHFileReader) : Z :=
  if pos r <? buf_size r then u64 (buf_size r - pos r) else 0.

(** [while ((raw = reader.next_message(len)) != nullptr) parse_and_push(raw, len, queue);]
    as the list of parsed messages it pushes. *)
Fixpoint read_messages (fuel : nat) (r : ITCHFileReader) : outcome (list ParsedMessage) :=
  match fuel with
  | O => Ok []
  | S fuel =>
      '(raw, r) ← next_message r;
      match raw with
      | None => Ok []
      | Some (data, len) =>
          m ← parse_message (Some data) len;
          ms ← read_messages fuel r;
          Ok (m :: ms)
      end
  end.

(** Every message consumes at least three bytes, so the buffer's length is enough fuel. *)
Definition read_file (bytes : list Z) : outcome (list ParsedMessage) :=
  read_messages (S (length bytes)) (open_reader bytes).

(** ** Specification *)

(** One frame: length prefix, then the message. *)
Definition frame (bs : list Z) : list Z :=
  [Z.of_nat (length bs) / 256; Z.of_nat (length bs) mod 256] ++ bs.

(** A message body that a frame can carry. *)
Definition frameable (bs : list Z) : Prop := 0 < Z.of_nat (length bs) < 2 ^ 16.

(** The file was loaded in memory. *)
Definition size_ok (bytes : list Z) : Prop := Z.of_nat (length bytes) < 2 ^ 63.

(** The bodies of the frames at the head of a byte string, up to the first empty,
    truncated or missing one. *)
Fixpoint split_frames (fuel : nat) (bs : list Z) : list (list Z) :=
  match fuel, bs with
  | S fuel, hi :: lo :: rest =>
      let len := Z.to_nat (256 * hi + lo) in
      if (len =? 0)%nat || (length rest <? len)%nat then []
      else take len rest :: split_frames fuel (drop len rest)
  | _, _ => []
  end.

(** The message in a frame. *)
Definition parse_body (bs : list Z) : ParsedMessage :=
  ok_or Monostate (parse_message (Some bs) (Z.of_nat (length bs))).

(** ** Lemmas *)
Lemma buf_at_ok bytes p i b :
  bytes !! (p + i)%nat = Some b → buf_at (mkReader bytes (Z.of_nat p)) (Z.of_nat p + Z.of_nat i) = Ok b.
Proof.
  intros E. unfold buf_at. rewrite (proj2 (Z.leb_le _ _)) by lia.
  replace (Z.to_nat _) with (p + i)%nat by lia. unfold byte_at. simpl. by rewrite E.
Qed.

Lemma frame_length_word hi lo :
  is_byte hi → is_byte lo → u16 (Z.lor (Z.shiftl (u16 hi) 8) lo) = 256 * hi + lo.
Proof.
  unfold is_byte. intros Hh Hl. unfold u16 at 2. rewrite (Z.mod_small hi) by lia.
  rewrite lor_shift_byte by (done || lia). unfold u16. apply Z.mod_small. lia.
Qed.

(** What [next_message] does at position [p] of a loaded file. *)
Lemma next_message_step bytes p :
  size_ok bytes → Forall is_byte bytes → (p ≤ length bytes)%nat →
  next_message (mkReader bytes (Z.of_nat p)) =
    match drop p bytes with
    | hi :: lo :: rest =>
        let len := Z.to_nat (256 * hi + lo) in
        if (len =? 0)%nat || (length rest <? len)%nat
        then Ok (None, mkReader bytes (Z.of_nat (p + 2)))
        else Ok (Some (rest, Z.of_nat len), mkReader bytes (Z.of_nat (p + 2 + len)))
    | _ => Ok (None, mkReader bytes (Z.of_nat p))
    end.
Proof.
  intros Hs Hb Hp. unfold size_ok in Hs. unfold next_message, buf_size. cbn [buf pos].
  rewrite u64_small by lia.
  pose proof (length_drop bytes p) as Hd.
  destruct (drop p bytes) as [|hi [|lo rest]] eqn:E; simpl length in Hd;
    [rewrite (proj2 (Z.ltb_lt _ _)) by lia; done..|].
  rewrite (proj2 (Z.ltb_ge _ _)) by lia.
  assert (Hhi : bytes !! (p + 0)%nat = Some hi) by (rewrite <-lookup_drop, E; done).
  assert (Hlo : bytes !! (p + 1)%nat = Some lo) by (rewrite <-lookup_drop, E; done).
  pose proof (Forall_lookup_1 _ _ _ _ Hb Hhi) as Bh. pose proof (Forall_lookup_1 _ _ _ _ Hb Hlo) as Bl.
  assert (E0 : buf_at (mkReader bytes (Z.of_nat p)) (Z.of_nat p) = Ok hi)
    by (rewrite <-(buf_at_ok _ _ 0 _ Hhi); f_equal; lia).
  pose proof (buf_at_ok _ _ 1 _ Hlo) as E1. change (Z.of_nat 1) with 1 in E1.
  rewrite E0, bind_ok, E1, bind_ok, frame_length_word by done.
  assert (Hrest : drop (p + 2) bytes = rest) by (by rewrite <-drop_drop, E).
  unfold is_byte in *. cbn zeta.
  destruct (Z.eqb_spec (256 * hi + lo) 0) as [Hz|Hz].
  { rewrite (proj2 (Nat.eqb_eq _ _)) by lia. simpl. do 3 f_equal. lia. }
  rewrite (proj2 (Nat.eqb_neq _ _)) by lia. cbn [orb].
  rewrite u64_small by lia.
  destruct (Nat.ltb_spec (length rest) (Z.to_nat (256 * hi + lo))).
  - rewrite (proj2 (Z.ltb_lt _ _)) by lia. do 3 f_equal. lia.
  - rewrite (proj2 (Z.ltb_ge _ _)) by lia.
    replace (Z.to_nat (Z.of_nat p + 2)) with (p + 2)%nat by lia. rewrite Hrest.
    do 4 f_equal; lia.
Qed.

(** The parser looks at the first [len] bytes only. *)
Lemma parse_message_take data len :
  0 ≤ len ≤ Z.of_nat (length data) →
  parse_message (Some data) len = parse_message (Some (take (Z.to_nat len) data)) len.
Proof.
  intros Hlen. unfold parse_message. destruct (Z.eqb_spec len 0) as [|Hne]; [done|].
  assert (Hb : byte_at (take (Z.to_nat len) data) 0 = byte_at data 0)
    by (unfold byte_at; rewrite lookup_take_lt by lia; done).
  assert (Hcase : ∀ T (P : Packed T) (inj : T → ParsedMessage),
            parse_case inj (take (Z.to_nat len) data) len = parse_case inj data len).
  { intros T P inj. unfold parse_case, copy_msg.
    destruct (Z.leb_spec (Z.of_nat (sizeof T)) len); [|done].
    rewrite length_take, take_take, !(proj2 (Nat.leb_le _ _)), Nat.min_l by lia. done. }
  rewrite Hb. destruct (byte_at data 0) as [c|]; [|done]. simpl. by rewrite !Hcase.
Qed.

Lemma parse_body_ok bs : parse_message (Some bs) (Z.of_nat (length bs)) = Ok (parse_body bs).
Proof.
  destruct (parse_in_bounds (Some bs) (Z.of_nat (length bs))) as (m & E & _);
    [lia|by intros ? [= <-]|].
  unfold parse_body. by rewrite E.
Qed.

Lemma parse_body_encode m : valid_message m → parse_body (encode m) = m.
Proof.
  intros Hm. unfold parse_body. pose proof (parse_encode m [] (Z.of_nat (length (encode m))) Hm) as E.
  rewrite app_nil_r in E. by rewrite E by lia.
Qed.

Lemma length_concat_frames (bodies : list (list Z)) :
  (length bodies ≤ length (concat (frame <$> bodies)))%nat.
Proof.
  induction bodies as [|bs l IH]; [done|]. rewrite fmap_cons. cbn [concat length].
  rewrite length_app. assert (0 < length (frame bs))%nat by (unfold frame; simpl; lia). lia.
Qed.

Lemma read_messages_frames bytes fuel p :
  size_ok bytes → Forall is_byte bytes → (p ≤ length bytes)%nat →
  read_messages fuel (mkReader bytes (Z.of_nat p)) =
    Ok (parse_body <$> split_frames fuel (drop p bytes)).
Proof.
  intros Hs Hb. revert p. induction fuel as [|fuel IH]; intros p Hp; [done|].
  cbn [read_messages]. rewrite next_message_step by done.
  pose proof (length_drop bytes p) as Hd.
  destruct (drop p bytes) as [|hi [|lo rest]] eqn:E; [done|done|]. simpl length in Hd.
  cbn [split_frames]. cbn zeta. set (len := Z.to_nat (256 * hi + lo)).
  destruct ((len =? 0)%nat || (length rest <? len)%nat) eqn:Hc; [done|].
  apply orb_false_iff in Hc as [Hz%Nat.eqb_neq Hl%Nat.ltb_ge].
  rewrite bind_ok. cbv iota beta.
  rewrite parse_message_take by lia. rewrite Nat2Z.id.
  replace (Z.of_nat len) with (Z.of_nat (length (take len rest))) by (rewrite length_take; lia).
  rewrite parse_body_ok, bind_ok, IH by lia.
  replace (drop (p + 2 + len) bytes) with (drop len rest); [done|].
  rewrite <-!drop_drop, E. done.
Qed.

Lemma read_open bytes fuel :
  size_ok bytes → Forall is_byte bytes →
  read_messages fuel (open_reader bytes) = Ok (parse_body <$> split_frames fuel bytes).
Proof. intros Hs Hb. apply (read_messages_frames bytes fuel 0); [done|done|lia]. Qed.

Lemma frame_split fuel bs rest :
  frameable bs → Forall is_byte bs →
  split_frames (S fuel) (frame bs ++ rest) = bs :: split_frames fuel rest.
Proof.
  unfold frameable. intros Hf Hb. unfold frame. rewrite <-app_assoc. cbn [app split_frames].
  replace (Z.to_nat _) with (length bs) by (pose proof (Z.div_mod (Z.of_nat (length bs)) 256); lia).
  rewrite (proj2 (Nat.eqb_neq _ _)) by lia. rewrite (proj2 (Nat.ltb_ge _ _)) by (rewrite length_app; lia).
  cbn [orb]. by rewrite take_app_length, drop_app_length.
Qed.

Lemma frame_bytes bs : frameable bs → Forall is_byte bs → Forall is_byte (frame bs).
Proof.
  unfold frameable, is_byte. intros Hf Hb. unfold frame. apply Forall_app. split; [|done].
  constructor; [|constructor; [by apply Z.mod_pos_bound|done]].
  split; [apply Z.div_pos; lia|apply Z.div_lt_upper_bound; lia].
Qed.

Lemma split_frames_concat bodies fuel :
  Forall frameable bodies → Forall (Forall is_byte) bodies → (length bodies < fuel)%nat →
  split_frames fuel (concat (frame <$> bodies)) = bodies.
Proof.
  intros Hf Hb. revert fuel. induction bodies as [|bs bodies IH]; intros fuel Hl.
  - by destruct fuel.
  - destruct fuel as [|fuel]; [simpl in Hl; lia|]. rewrite fmap_cons. cbn [concat].
    apply Forall_cons in Hf as [Hf1 Hf2], Hb as [Hb1 Hb2].
    rewrite frame_split by done. f_equal. apply IH; [done..|]. simpl in Hl. lia.
Qed.

(** More fuel than bytes changes nothing. *)
Lemma split_frames_fuel fuel1 fuel2 bs :
  (length bs < fuel1)%nat → (length bs < fuel2)%nat → split_frames fuel1 bs = split_frames fuel2 bs.
Proof.
  revert fuel2 bs. induction fuel1 as [|f1 IH]; intros [|f2] bs H1 H2; [lia..|].
  destruct bs as [|hi [|lo rest]]; [done..|]. cbn [split_frames]. cbn zeta. case_match; [done|].
  f_equal. apply IH; rewrite length_drop; simpl in *; lia.
Qed.

(** ** Theorems *)

(** C37. Reading a file always succeeds: whatever its bytes, the loop never reads
    outside the buffer, and returns the parsed bodies of the frames at the head of
    the file up to the first empty, truncated or missing one; more fuel than the
    file has bytes changes nothing, so the loop terminates. *)
Theorem read_file_total bytes fuel :
  size_ok bytes → Forall is_byte bytes → (length bytes < fuel)%nat →
  read_messages fuel (open_reader bytes) = Ok (parse_body <$> split_frames fuel bytes) ∧
  read_messages fuel (open_reader bytes) = read_file bytes.
Proof.
  intros Hs Hb Hf. unfold read_file. rewrite !read_open by done. split; [done|]. do 2 f_equal. apply split_frames_fuel; lia.
Qed.

(** C36. A file made of framed well-formed messages is read back as those messages,
    in order and complete. *)
Theorem read_file_roundtrip ms :
  Forall valid_message ms → size_ok (concat ((λ m, frame (encode m)) <$> ms)) →
  read_file (concat ((λ m, frame (encode m)) <$> ms)) = Ok ms.
Proof.
  intros Hv Hs. unfold read_file.
  assert (Hb : Forall (Forall is_byte) (encode <$> ms)).
  { apply Forall_fmap. eapply Forall_impl; [done|]. intros m Hm. by apply encode_bytes. }
  assert (Hf : Forall frameable (encode <$> ms)).
  { apply Forall_fmap. eapply Forall_impl; [done|]. intros m Hm. unfold frameable, compose.
    by apply encode_length_bound. }
  assert (E : (λ m, frame (encode m)) <$> ms = frame <$> (encode <$> ms)) by by rewrite <-list_fmap_compose.
  rewrite E in *. set (bodies := encode <$> ms) in *.
  assert (Hall : Forall is_byte (concat (frame <$> bodies))).
  { apply Forall_concat, Forall_fmap, Forall_forall. intros bs Hin.
    rewrite Forall_forall in Hf, Hb. apply frame_bytes; auto. }
  rewrite read_open, split_frames_concat by (done || apply Nat.lt_succ_r, length_concat_frames).
  f_equal. unfold bodies. clear -Hv. induction Hv as [|m ms Hm _ IH]; [done|].
  rewrite !fmap_cons, IH. f_equal. by apply parse_body_encode.
Qed.

(** ** Instances *)
Lemma read_file_total_witness :
  read_messages 50 (open_reader (frame [ch_D; 1; 2] ++ [0; 9; 1])) = Ok [Monostate].
Proof.
  destruct (read_file_total (frame [ch_D; 1; 2] ++ [0; 9; 1]) 50) as [E _];
    [vm_compute; reflexivity|vm_compute; unfold is_byte; repeat constructor; discriminate
    |apply Nat.ltb_lt; reflexivity|].
  rewrite E. vm_compute. reflexivity.
Defined.

Lemma read_file_roundtrip_witness :
  read_file (frame (encode (MAddOrder sample_add)) ++ frame (encode (MAddOrder sample_add))) =
    Ok [MAddOrder sample_add; MAddOrder sample_add].
Proof.
  apply (read_file_roundtrip [MAddOrder sample_add; MAddOrder sample_add]).
  - assert (valid_message (MAddOrder sample_add)).
    { simpl. unfold valid_struct. simpl. unfold is_byte.
      repeat (split || constructor); try reflexivity; vm_compute; done. }
    by repeat constructor.
  - vm_compute. reflexivity.
Defined.
