(* ===== verification/Spsc.v ===== *)
(** * The ring buffer (include/transport/spsc_queue.hpp)

    [SPSCQueue] is the class's state and [try_push], [try_pop], [empty],
    [size_approx] its methods, executed by one thread at a time: they implement a
    FIFO queue of at most [Capacity - 1] items.  Two threads at once are the
    subject of [SpscConc]. *)

From S2P Require Import Prelude.

Section Queue.
Context {T : Type}.

(** [Capacity], with the class's static assertion and a size that fits [size_t]. *)
Variable capacity : Z.

(** ** State and operations *)
Definition static_assert_pow2 (c : Z) : bool := Z.land c (c - 1) =? 0.
Definition kMask : Z := capacity - 1.
Definition queue_capacity : Z := capacity.

Record SPSCQueue := mkQueue {
  q_head : Z;
  q_tail : Z;
  q_slots : list T;
}.

(** [slots_[i]], read and write *)
Definition slot_get (slots : list T) (i : Z) : outcome T :=
  if 0 <=? i then match slots !! Z.to_nat i with Some x => Ok x | None => Fault OutOfRange end
  else Fault OutOfRange.
Definition slot_set (slots : list T) (i : Z) (x : T) : outcome (list T) :=
  if (0 <=? i) && (Z.to_nat i <? length slots)%nat then Ok (<[Z.to_nat i := x]> slots)
  else Fault OutOfRange.

(** [(i + 1) & kMask] on [size_t]. *)
Definition advance (i : Z) : Z := Z.land (u64 (i + 1)) kMask.

Definition queue_new (init : list T) : SPSCQueue := mkQueue 0 0 init.

Definition try_push (q : SPSCQueue) (item : T) : outcome (bool * SPSCQueue) :=
  let t := q_tail q in
  let next_t := advance t in
  if next_t =? q_head q then Ok (false, q) else
  slots ← slot_set (q_slots q) t item;
  Ok (true, mkQueue (q_head q) next_t slots).

(** [None] is the result [false], with [out] untouched. *)
Definition try_pop (q : SPSCQueue) : outcome (option T * SPSCQueue) :=
  let h := q_head q in
  if h =? q_tail q then Ok (None, q) else
  out ← slot_get (q_slots q) h;
  Ok (Some out, mkQueue (advance h) (q_tail q) (q_slots q)).

Definition queue_empty (q : SPSCQueue) : bool := q_head q =? q_tail q.

Definition size_approx (q : SPSCQueue) : Z := Z.land (u64 (q_tail q - q_head q)) kMask.

(** ** Specification *)

(** The slot of the [n]-th item ever pushed. *)
Definition slot_of (n : Z) : nat := Z.to_nat (n mod capacity).

(** [q] holds the items [l], oldest first, the oldest being the [n]-th pushed. *)
Record queue_rep (q : SPSCQueue) (n : Z) (l : list T) : Prop := {
  qr_len : Z.of_nat (length (q_slots q)) = capacity;
  qr_pos : 0 ≤ n;
  qr_fits : Z.of_nat (length l) < capacity;
  qr_head : q_head q = n mod capacity;
  qr_tail : q_tail q = (n + Z.of_nat (length l)) mod capacity;
  qr_items : ∀ i x, l !! i = Some x → q_slots q !! slot_of (n + Z.of_nat i) = Some x;
}.

(** A call, and what a bounded FIFO queue answers. *)
Inductive queue_op := QPush (x : T) | QPop.
Inductive queue_res := RPush (ok : bool) | RPop (x : option T).

Definition queue_step (q : SPSCQueue) (op : queue_op) : outcome (queue_res * SPSCQueue) :=
  match op with
  | QPush x => '(ok, q) ← try_push q x; Ok (RPush ok, q)
  | QPop => '(x, q) ← try_pop q; Ok (RPop x, q)
  end.

Definition fifo_step (l : list T) (op : queue_op) : queue_res * list T :=
  match op with
  | QPush x =>
      if Z.of_nat (length l) =? capacity - 1 then (RPush false, l) else (RPush true, l ++ [x])
  | QPop => match l with [] => (RPop None, []) | x :: l => (RPop (Some x), l) end
  end.

Fixpoint queue_run (q : SPSCQueue) (ops : list queue_op) : outcome (list queue_res * SPSCQueue) :=
  match ops with
  | [] => Ok ([], q)
  | op :: ops =>
      '(r, q) ← queue_step q op;
      '(rs, q) ← queue_run q ops;
      Ok (r :: rs, q)
  end.

Fixpoint fifo_run (l : list T) (ops : list queue_op) : list queue_res * list T :=
  match ops with
  | [] => ([], l)
  | op :: ops => let '(r, l) := fifo_step l op in let '(rs, l) := fifo_run l ops in (r :: rs, l)
  end.

(** ** Lemmas *)
Context (Hpow : static_assert_pow2 capacity = true) (Hcap : 0 < capacity ≤ 2 ^ 63).

(** The static assertion makes the capacity a power of two. *)
Lemma capacity_pow2 : capacity = 2 ^ Z.log2 capacity.
Proof.
  apply Z.eqb_eq in Hpow. pose proof (Z.log2_spec capacity ltac:(lia)) as [Hlo Hhi].
  destruct (Z.eq_dec capacity (2 ^ Z.log2 capacity)) as [|Hne]; [done|exfalso].
  set (n := Z.log2 capacity) in *. assert (Hn : 0 ≤ n) by apply Z.log2_nonneg.
  assert (Hbit : ∀ z, 2 ^ n ≤ z < 2 ^ Z.succ n → Z.testbit z n = true).
  { intros z Hz. assert (Z.log2 z = n) as <- by (apply Z.log2_unique; lia). apply Z.bit_log2. lia. }
  pose proof (f_equal (λ z, Z.testbit z n) Hpow) as Hb. simpl in Hb.
  rewrite Z.land_spec, Z.bits_0, !Hbit in Hb by lia. done.
Qed.

Lemma land_mask z : Z.land z kMask = z mod capacity.
Proof.
  unfold kMask. rewrite capacity_pow2 at 1.
  replace (2 ^ Z.log2 capacity - 1) with (Z.ones (Z.log2 capacity)) by (rewrite Z.ones_equiv; lia).
  rewrite Z.land_ones by apply Z.log2_nonneg. by rewrite <-capacity_pow2.
Qed.

Lemma capacity_divides : (capacity | 2 ^ 64).
Proof.
  assert (Z.log2 capacity ≤ 63).
  { etrans; [apply (Z.log2_le_mono capacity (2 ^ 63)); lia|]. by rewrite Z.log2_pow2. }
  pose proof (Z.log2_nonneg capacity). rewrite capacity_pow2. exists (2 ^ (64 - Z.log2 capacity)).
  rewrite <-Z.pow_add_r by lia. f_equal. lia.
Qed.

Lemma advance_mod n : advance (n mod capacity) = (n + 1) mod capacity.
Proof.
  unfold advance. rewrite land_mask.
  pose proof (Z.mod_pos_bound n capacity ltac:(lia)).
  rewrite u64_small by lia. by rewrite Zplus_mod_idemp_l.
Qed.

(** Two indices less than a capacity apart share a slot only if equal. *)
Lemma mod_inj_window a b : 0 ≤ b - a < capacity → a mod capacity = b mod capacity → a = b.
Proof.
  intros Hab E. assert (H0 : (b - a) mod capacity = 0).
  { rewrite Zminus_mod, E, Z.sub_diag. apply Z.mod_0_l. lia. }
  rewrite Z.mod_small in H0 by lia. lia.
Qed.

Lemma slot_of_ne a b : 0 < b - a < capacity → slot_of a ≠ slot_of b.
Proof.
  intros Hab E. unfold slot_of in E.
  pose proof (Z.mod_pos_bound a capacity ltac:(lia)). pose proof (Z.mod_pos_bound b capacity ltac:(lia)).
  assert (a = b) by (apply mod_inj_window; lia). lia.
Qed.

Lemma slot_of_lt n : (slot_of n < Z.to_nat capacity)%nat.
Proof. unfold slot_of. pose proof (Z.mod_pos_bound n capacity ltac:(lia)). lia. Qed.

Lemma slot_get_ok slots n x : slots !! slot_of n = Some x → slot_get slots (n mod capacity) = Ok x.
Proof.
  intros E. pose proof (Z.mod_pos_bound n capacity ltac:(lia)). unfold slot_get.
  rewrite (proj2 (Z.leb_le _ _)) by lia. fold (slot_of n). by rewrite E.
Qed.

Lemma slot_set_ok slots n x :
  Z.of_nat (length slots) = capacity →
  slot_set slots (n mod capacity) x = Ok (<[slot_of n := x]> slots).
Proof.
  intros E. pose proof (Z.mod_pos_bound n capacity ltac:(lia)). unfold slot_set.
  rewrite (proj2 (Z.leb_le _ _)), (proj2 (Nat.ltb_lt _ _)) by lia. done.
Qed.

Lemma try_push_ok q n l x :
  queue_rep q n l →
  if Z.of_nat (length l) =? capacity - 1 then try_push q x = Ok (false, q)
  else ∃ q', try_push q x = Ok (true, q') ∧ queue_rep q' n (l ++ [x]).
Proof.
  intros [Hl Hn Hf Hh Ht Hi]. unfold try_push. rewrite Ht, Hh, advance_mod. set (k := Z.of_nat (length l)) in *.
  destruct (Z.eqb_spec k (capacity - 1)) as [Hk|Hk].
  - replace (n + k + 1) with (n + 1 * capacity) by lia. rewrite Z_mod_plus_full.
    by rewrite Z.eqb_refl.
  - destruct (Z.eqb_spec ((n + k + 1) mod capacity) (n mod capacity)) as [E|_].
    { symmetry in E. apply mod_inj_window in E; lia. }
    rewrite slot_set_ok, bind_ok by done. eexists. split; [done|]. split; simpl.
    + by rewrite length_insert.
    + done.
    + rewrite length_app. simpl. lia.
    + done.
    + rewrite length_app. simpl. f_equal. lia.
    + intros i y. rewrite lookup_app_Some. intros [Hy|[Hge Hy]].
      * pose proof (lookup_lt_Some _ _ _ Hy).
        rewrite list_lookup_insert_ne; [by apply Hi|]. apply not_eq_sym, slot_of_ne. lia.
      * apply list_lookup_singleton_Some in Hy as [Hz <-].
        replace (n + Z.of_nat i) with (n + k) by lia. apply list_lookup_insert_eq.
        pose proof (slot_of_lt (n + k)). lia.
Qed.

Lemma try_pop_ok q n l :
  queue_rep q n l →
  match l with
  | [] => try_pop q = Ok (None, q)
  | x :: l => ∃ q', try_pop q = Ok (Some x, q') ∧ queue_rep q' (n + 1) l
  end.
Proof.
  intros [Hl Hn Hf Hh Ht Hi]. unfold try_pop. rewrite Ht, Hh. destruct l as [|x l].
  - simpl. by rewrite Z.add_0_r, Z.eqb_refl.
  - simpl length in *.
    destruct (Z.eqb_spec (n mod capacity) ((n + Z.of_nat (S (length l))) mod capacity)) as [E|_].
    { apply mod_inj_window in E; lia. }
    assert (Hx : q_slots q !! slot_of n = Some x).
    { rewrite <-(Hi 0%nat x) by done. f_equal. f_equal. lia. }
    rewrite (slot_get_ok _ _ _ Hx), bind_ok, advance_mod. eexists. split; [done|]. split; simpl.
    + done.
    + lia.
    + lia.
    + done.
    + f_equal. lia.
    + intros i y Hy. rewrite <-(Hi (S i) y) by done. f_equal. f_equal. lia.
Qed.

Lemma queue_new_rep init : Z.of_nat (length init) = capacity → queue_rep (queue_new init) 0 [].
Proof. intros E. split; simpl; try done; lia. Qed.

(** ** Theorems *)

(** C39. Used by one thread, the ring buffer is a FIFO queue of at most [Capacity - 1]
    items: for any sequence of pushes and pops it answers as the bounded list does,
    never touching a slot outside the array. *)
Theorem queue_refines_fifo init ops :
  Z.of_nat (length init) = capacity →
  ∃ q, queue_run (queue_new init) ops = Ok ((fifo_run [] ops).1, q).
Proof.
  intros Hinit. pose proof (queue_new_rep init Hinit) as Hr. revert Hr.
  generalize (queue_new init) as q. generalize 0 as n. generalize (@nil T) as l.
  induction ops as [|op ops IH]; intros l n q Hr; [by exists q|]. simpl. destruct op as [x|]; simpl.
  - pose proof (try_push_ok q n l x Hr) as Hp. destruct (Z.of_nat (length l) =? capacity - 1).
    + rewrite Hp. simpl. destruct (IH l n q Hr) as (q2 & ->). simpl. destruct (fifo_run l ops). by exists q2.
    + destruct Hp as (q1 & -> & Hr1). simpl. destruct (IH _ n q1 Hr1) as (q2 & ->). simpl.
      destruct (fifo_run (l ++ [x]) ops). by exists q2.
  - pose proof (try_pop_ok q n l Hr) as Hp. destruct l as [|x l].
    + rewrite Hp. simpl. destruct (IH [] n q Hr) as (q2 & ->). simpl. destruct (fifo_run [] ops). by exists q2.
    + destruct Hp as (q1 & -> & Hr1). simpl. destruct (IH l _ q1 Hr1) as (q2 & ->). simpl.
      destruct (fifo_run l ops). by exists q2.
Qed.

(** From one thread, [empty] and [size_approx] are exact. *)
Theorem size_exact q n l :
  queue_rep q n l → size_approx q = Z.of_nat (length l) ∧ queue_empty q = bool_decide (l = []).
Proof.
  intros [Hl Hn Hf Hh Ht _]. unfold size_approx, queue_empty. rewrite Hh, Ht.
  split.
  - rewrite land_mask. unfold u64. rewrite Z.mod_mod_divide by apply capacity_divides.
    rewrite <-Zminus_mod. replace (_ - _) with (Z.of_nat (length l)) by lia. apply Z.mod_small. lia.
  - destruct l as [|x l]; simpl length.
    + by rewrite Z.add_0_r, Z.eqb_refl.
    + apply Z.eqb_neq. intros E. apply mod_inj_window in E; simpl length in *; lia.
Qed.

End Queue.

(** ** Instances *)
Lemma queue_refines_fifo_witness :
  ∃ q, queue_run 4 (queue_new [0; 0; 0; 0])
    [QPush 10; QPush 20; QPush 30; QPush 40; QPop; QPush 40; QPop; QPop; QPop; QPop] =
    Ok ([RPush true; RPush true; RPush true; RPush false; RPop (Some 10); RPush true;
         RPop (Some 20); RPop (Some 30); RPop (Some 40); RPop None], q).
Proof. apply (queue_refines_fifo 4 eq_refl ltac:(lia) [0; 0; 0; 0]). reflexivity. Defined.

Lemma size_exact_witness :
  size_approx 4 (mkQueue 3 1 [6; 0; 0; 5]) = 2 ∧ queue_empty (mkQueue 3 1 [6; 0; 0; 5]) = false.
Proof.
  apply (size_exact 4 eq_refl ltac:(lia) (mkQueue 3 1 [6; 0; 0; 5]) 3 [5; 6]).
  split; simpl; try reflexivity; try lia.
  intros [|[|i]] x E; simpl in E; try (injection E as <-; reflexivity). by destruct i.
Defined.
