(* ===== verification/SpscConc.v ===== *)
(** * The ring buffer between two threads (include/transport/spsc_queue.hpp)

    One producer and one consumer run [try_push] and [try_pop] at the same time.  Each
    call is split at its memory accesses: the load of the other side's index, the
    access to the slot, the release store of its own index.

    Memory model: a thread reads its own index exactly; an acquire load of the other
    index may return any value of its modification order between the last one the
    thread saw and the current one ([p_seen], [c_seen] count how far each thread has
    seen).  Slots are plain memory; [no_race] shows that a slot is never written while
    it is being read, and that each access is ordered by the index value its thread
    acquired, so the interleaving of slot accesses is the whole story. *)

From S2P Require Import Prelude Spsc.

Section Conc.
Context {T : Type}.
Variable capacity : Z.

(** ** State *)
Inductive prod_pc :=
| PIdle
| PLoaded (x : T) (t next_t h : Z)     (* both indices loaded *)
| PWritten (x : T) (next_t : Z).       (* slot written, tail not yet stored *)

Inductive cons_pc :=
| CIdle
| CLoaded (h t : Z)
| CRead (h : Z) (x : T).

Record shared := mkShared {
  sh_head : Z;
  sh_tail : Z;
  sh_slots : list T;
  sh_prod : prod_pc;
  sh_cons : cons_pc;
  pushed : list T;     (* every item whose push returned true *)
  popped : list T;     (* every item whose pop returned true *)
  p_seen : Z;          (* the pops the producer has seen *)
  c_seen : Z;          (* the pushes the consumer has seen *)
}.

Definition n_pushed (s : shared) : Z := Z.of_nat (length (pushed s)).
Definition n_popped (s : shared) : Z := Z.of_nat (length (popped s)).

Definition shared_new (init : list T) : shared :=
  mkShared 0 0 init PIdle CIdle [] [] 0 0.

Definition set_prod (p : prod_pc) (s : shared) : shared :=
  mkShared (sh_head s) (sh_tail s) (sh_slots s) p (sh_cons s) (pushed s) (popped s) (p_seen s) (c_seen s).
Definition set_cons (c : cons_pc) (s : shared) : shared :=
  mkShared (sh_head s) (sh_tail s) (sh_slots s) (sh_prod s) c (pushed s) (popped s) (p_seen s) (c_seen s).
Definition see_pops (n : Z) (s : shared) : shared :=
  mkShared (sh_head s) (sh_tail s) (sh_slots s) (sh_prod s) (sh_cons s) (pushed s) (popped s) n (c_seen s).
Definition see_pushes (n : Z) (s : shared) : shared :=
  mkShared (sh_head s) (sh_tail s) (sh_slots s) (sh_prod s) (sh_cons s) (pushed s) (popped s) (p_seen s) n.
Definition set_slots (l : list T) (s : shared) : shared :=
  mkShared (sh_head s) (sh_tail s) l (sh_prod s) (sh_cons s) (pushed s) (popped s) (p_seen s) (c_seen s).
Definition store_tail (t : Z) (x : T) (s : shared) : shared :=
  mkShared (sh_head s) t (sh_slots s) (sh_prod s) (sh_cons s) (pushed s ++ [x]) (popped s) (p_seen s) (c_seen s).
Definition store_head (h : Z) (x : T) (s : shared) : shared :=
  mkShared h (sh_tail s) (sh_slots s) (sh_prod s) (sh_cons s) (pushed s) (popped s ++ [x]) (p_seen s) (c_seen s).

(** ** Steps *)
Inductive action :=
| APushStart (x : T) | APushFull | APushWrite | APushDone (x : T)
| APopStart | APopEmpty | APopRead | APopDone (x : T).

Inductive cstep (s : shared) : action → shared → Prop :=
| step_push_start x n :
    sh_prod s = PIdle → p_seen s ≤ n ≤ n_popped s →
    cstep s (APushStart x)
      (set_prod (PLoaded x (sh_tail s) (advance capacity (sh_tail s)) (n mod capacity)) (see_pops n s))
| step_push_full x t nt h :
    sh_prod s = PLoaded x t nt h → nt = h → cstep s APushFull (set_prod PIdle s)
| step_push_write x t nt h slots :
    sh_prod s = PLoaded x t nt h → nt ≠ h → slot_set (sh_slots s) t x = Ok slots →
    cstep s APushWrite (set_prod (PWritten x nt) (set_slots slots s))
| step_push_done x nt :
    sh_prod s = PWritten x nt → cstep s (APushDone x) (set_prod PIdle (store_tail nt x s))
| step_pop_start n :
    sh_cons s = CIdle → c_seen s ≤ n ≤ n_pushed s →
    cstep s APopStart (set_cons (CLoaded (sh_head s) (n mod capacity)) (see_pushes n s))
| step_pop_empty h t :
    sh_cons s = CLoaded h t → h = t → cstep s APopEmpty (set_cons CIdle s)
| step_pop_read h t x :
    sh_cons s = CLoaded h t → h ≠ t → slot_get (sh_slots s) h = Ok x →
    cstep s APopRead (set_cons (CRead h x) s)
| step_pop_done h x :
    sh_cons s = CRead h x →
    cstep s (APopDone x) (set_cons CIdle (store_head (advance capacity h) x s)).

Definition csteps : shared → shared → Prop := rtc (λ s s', ∃ a, cstep s a s').

(** ** Invariant *)
Definition prod_ok (s : shared) : Prop :=
  match sh_prod s with
  | PIdle => True
  | PLoaded x t nt h =>
      t = n_pushed s mod capacity ∧ nt = (n_pushed s + 1) mod capacity ∧ h = p_seen s mod capacity
  | PWritten x nt =>
      nt = (n_pushed s + 1) mod capacity ∧ n_pushed s + 1 - p_seen s < capacity ∧
      sh_slots s !! slot_of capacity (n_pushed s) = Some x
  end.

Definition cons_ok (s : shared) : Prop :=
  match sh_cons s with
  | CIdle => True
  | CLoaded h t => h = n_popped s mod capacity ∧ t = c_seen s mod capacity
  | CRead h x =>
      h = n_popped s mod capacity ∧ n_popped s < c_seen s ∧ pushed s !! length (popped s) = Some x
  end.

Record cinv (s : shared) : Prop := {
  ci_len : Z.of_nat (length (sh_slots s)) = capacity;
  ci_head : sh_head s = n_popped s mod capacity;
  ci_tail : sh_tail s = n_pushed s mod capacity;
  ci_pseen : 0 ≤ p_seen s ≤ n_popped s;
  ci_cseen : n_popped s ≤ c_seen s ≤ n_pushed s;
  ci_room : n_pushed s - p_seen s < capacity;
  ci_prefix : popped s = take (length (popped s)) (pushed s);
  ci_items : ∀ i x, (length (popped s) ≤ i)%nat → pushed s !! i = Some x →
    sh_slots s !! slot_of capacity (Z.of_nat i) = Some x;
  ci_prod : prod_ok s;
  ci_cons : cons_ok s;
}.

(** The producer is about to write the slot the consumer is about to read. *)
Definition race (s : shared) : Prop :=
  ∃ x t nt h h' t', sh_prod s = PLoaded x t nt h ∧ nt ≠ h ∧
    sh_cons s = CLoaded h' t' ∧ h' ≠ t' ∧ t = h'.

(** ** Lemmas *)
Context (Hpow : static_assert_pow2 capacity = true) (Hcap : 0 < capacity ≤ 2 ^ 63).

(** The items each step publishes, and the side it leaves alone. *)
Lemma cstep_effect q q' a :
  cstep q a q' →
  pushed q' = pushed q ++ (match a with APushDone x => [x] | _ => [] end) ∧
  popped q' = popped q ++ (match a with APopDone x => [x] | _ => [] end) ∧
  (match a with
   | APushStart _ | APushFull | APushWrite | APushDone _ =>
       sh_cons q' = sh_cons q ∧ c_seen q' = c_seen q
   | _ => sh_prod q' = sh_prod q
   end).
Proof. intros Hs. destruct Hs; simpl; rewrite ?app_nil_r; done. Qed.

Lemma shared_new_inv init : Z.of_nat (length init) = capacity → cinv (shared_new init).
Proof. intros E. split; try done; unfold n_pushed, n_popped; simpl; lia || done. Qed.

(** A producer that has seen the queue not full has room for one more. *)
Lemma push_room s x t nt h :
  cinv s → sh_prod s = PLoaded x t nt h → nt ≠ h → n_pushed s + 1 - p_seen s < capacity.
Proof.
  intros [? ? ? ? ? Hroom ? ? Hp ?] E Hne. unfold prod_ok in Hp. rewrite E in Hp. destruct Hp as (-> & -> & ->).
  destruct (Z.eq_dec (n_pushed s + 1 - p_seen s) capacity) as [Heq|]; [|lia]. destruct Hne.
  replace (n_pushed s + 1) with (p_seen s + 1 * capacity) by lia. apply Z_mod_plus_full.
Qed.

(** A consumer that has seen the queue not empty has an item to read. *)
Lemma pop_item s h t :
  cinv s → sh_cons s = CLoaded h t → h ≠ t → n_popped s < c_seen s.
Proof.
  intros [? ? ? ? Hseen ? ? ? ? Hc] E Hne. unfold cons_ok in Hc. rewrite E in Hc. destruct Hc as [-> ->].
  destruct (Z.eq_dec (n_popped s) (c_seen s)) as [Heq|]; [|lia]. by rewrite Heq in Hne.
Qed.

Lemma push_write_inv s x t nt h slots :
  cinv s → sh_prod s = PLoaded x t nt h → nt ≠ h → slot_set (sh_slots s) t x = Ok slots →
  cinv (set_prod (PWritten x nt) (set_slots slots s)).
Proof.
  intros Hi E Hne Hset. pose proof (push_room _ _ _ _ _ Hi E Hne) as Hr.
  destruct Hi as [Hl Hh Ht Hps Hcs Hroom Hpre Hitems Hp Hc].
  unfold prod_ok in Hp. rewrite E in Hp. destruct Hp as (-> & -> & ->).
  rewrite (slot_set_ok capacity Hcap _ _ _ Hl) in Hset. injection Hset as <-.
  assert (Hother : ∀ i, n_popped s ≤ i < n_pushed s →
            slot_of capacity i ≠ slot_of capacity (n_pushed s))
    by (intros i Hi; apply (slot_of_ne capacity Hcap); lia).
  split; try done.
  - etrans; [|exact Hl]. apply (f_equal Z.of_nat), length_insert.
  - intros i y Hge Hy. simpl in *. pose proof (lookup_lt_Some _ _ _ Hy).
    rewrite list_lookup_insert_ne; [by apply Hitems|]. apply not_eq_sym, Hother.
    unfold n_popped, n_pushed. lia.
  - unfold prod_ok. simpl. split_and!; [done|done|]. apply list_lookup_insert_eq.
    pose proof (slot_of_lt capacity Hcap (n_pushed s)). lia.
Qed.

Lemma push_done_inv s x nt :
  cinv s → sh_prod s = PWritten x nt → cinv (set_prod PIdle (store_tail nt x s)).
Proof.
  intros [Hl Hh Ht Hps Hcs Hroom Hpre Hitems Hp Hc] E.
  unfold prod_ok in Hp. rewrite E in Hp. destruct Hp as (-> & Hr & Hx).
  assert (Hn : n_pushed (set_prod PIdle (store_tail ((n_pushed s + 1) mod capacity) x s)) = n_pushed s + 1)
    by (unfold n_pushed; simpl; rewrite length_app; simpl; lia).
  assert (Hle : (length (popped s) ≤ length (pushed s))%nat) by (unfold n_popped, n_pushed in *; lia).
  split; try done; rewrite ?Hn; unfold n_popped in *; simpl.
  - done.
  - lia.
  - lia.
  - by rewrite take_app_le.
  - intros i y Hge. rewrite lookup_app_Some. intros [Hy|[Hge' Hy]]; [by apply Hitems|].
    apply list_lookup_singleton_Some in Hy as [Hz <-].
    replace (Z.of_nat i) with (n_pushed s) by (unfold n_pushed; lia). done.
  - unfold cons_ok in *. simpl. destruct (sh_cons s); try done.
    destruct Hc as (? & ? & Hl'). split_and!; try done. by apply lookup_app_l_Some.
Qed.

Lemma pop_done_inv s h x :
  cinv s → sh_cons s = CRead h x → cinv (set_cons CIdle (store_head (advance capacity h) x s)).
Proof.
  intros [Hl Hh Ht Hps Hcs Hroom Hpre Hitems Hp Hc] E.
  unfold cons_ok in Hc. rewrite E in Hc. destruct Hc as (-> & Hlt & Hx).
  assert (Hn : n_popped (set_cons CIdle (store_head (advance capacity (n_popped s mod capacity)) x s))
                = n_popped s + 1)
    by (unfold n_popped; simpl; rewrite length_app; simpl; lia).
  split; try done; rewrite ?Hn; simpl; try lia.
  - by apply advance_mod.
  - change (n_popped s + 1 ≤ c_seen s ≤ n_pushed s). lia.
  - rewrite length_app. simpl. rewrite Nat.add_1_r, (take_S_r _ _ _ Hx), <-Hpre. done.
  - intros i y Hge. rewrite length_app in Hge. simpl in Hge. apply Hitems. lia.
Qed.

Lemma cstep_inv s a s' : cinv s → cstep s a s' → cinv s'.
Proof.
  intros Hi Hs. destruct Hs as [x n E Hn|x t nt h E He|x t nt h sl E Hne Hset|x nt E
                               |n E Hn|h t E He|h t x E Hne Hget|h x E].
  - destruct Hi as [Hl Hh Ht Hps Hcs Hroom Hpre Hitems Hp Hc]. split; try done; simpl.
    + change (0 ≤ n ≤ n_popped s). lia.
    + change (n_pushed s - n < capacity). lia.
    + unfold prod_ok. simpl. rewrite Ht. split_and!; [done|by apply advance_mod|done].
  - by destruct Hi.
  - by eapply push_write_inv.
  - by apply push_done_inv.
  - destruct Hi as [Hl Hh Ht Hps Hcs Hroom Hpre Hitems Hp Hc]. split; try done; simpl.
    change (n_popped s ≤ n ≤ n_pushed s). lia.
  - by destruct Hi.
  - pose proof (pop_item _ _ _ Hi E Hne) as Hlt.
    destruct Hi as [Hl Hh Ht Hps Hcs Hroom Hpre Hitems Hp Hc]. split; try done. unfold cons_ok in *.
    rewrite E in Hc. destruct Hc as [-> _]. simpl. split_and!; [done|done|].
    destruct (lookup_lt_is_Some_2 (pushed s) (length (popped s))) as [y Hy];
      [unfold n_pushed, n_popped in *; lia|].
    pose proof (Hitems _ y (le_n _) Hy) as Hsl. fold (n_popped s) in Hsl.
    rewrite (slot_get_ok capacity Hcap _ _ _ Hsl) in Hget. by injection Hget as <-.
  - by apply pop_done_inv.
Qed.

Lemma csteps_inv s s' : cinv s → csteps s s' → cinv s'.
Proof. intros Hi Hs. induction Hs as [|s s1 s2 [a Ha] _ IH]; [done|]. by eapply IH, cstep_inv. Qed.

(** Slot accesses are in range. *)
Lemma push_write_ok s x t nt h :
  cinv s → sh_prod s = PLoaded x t nt h → ∃ slots, slot_set (sh_slots s) t x = Ok slots.
Proof.
  intros [Hl _ _ _ _ _ _ _ Hp _] E. unfold prod_ok in Hp. rewrite E in Hp. destruct Hp as (-> & _).
  eexists. by apply slot_set_ok.
Qed.

Lemma pop_read_ok s h t :
  cinv s → sh_cons s = CLoaded h t → h ≠ t → ∃ x, slot_get (sh_slots s) h = Ok x.
Proof.
  intros Hi E Hne. pose proof (pop_item _ _ _ Hi E Hne) as Hlt.
  destruct Hi as [_ _ _ _ Hcs _ _ Hitems _ Hc]. unfold cons_ok in Hc. rewrite E in Hc.
  destruct Hc as [-> _]. unfold n_pushed, n_popped in *.
  destruct (lookup_lt_is_Some_2 (pushed s) (length (popped s))) as [y Hy]; [lia|].
  exists y. apply (slot_get_ok capacity Hcap). by apply Hitems.
Qed.

(** ** Theorems *)

(** C10. FIFO between threads: in every reachable state of the two threads, what was
    popped is a prefix of what was pushed (nothing lost, duplicated, reordered or
    invented) and at most [Capacity - 1] items are in flight. *)
Theorem conc_fifo init s :
  Z.of_nat (length init) = capacity → csteps (shared_new init) s →
  popped s `prefix_of` pushed s ∧ n_pushed s - n_popped s < capacity.
Proof.
  intros Hinit Hs. destruct (csteps_inv _ _ (shared_new_inv init Hinit) Hs).
  split; [|lia]. rewrite ci_prefix0. apply prefix_take.
Qed.

(** C11. No data race: in a reachable state the producer is never about to write the
    slot that the consumer is about to read.  Moreover each access is ordered by the
    index its thread acquired: the item read was published by a store the consumer
    has seen, and the item overwritten was consumed by a pop the producer has seen. *)
Theorem no_race init s :
  Z.of_nat (length init) = capacity → csteps (shared_new init) s →
  ¬ race s ∧
  (∀ h t, sh_cons s = CLoaded h t → h ≠ t → n_popped s < c_seen s ≤ n_pushed s) ∧
  (∀ x t nt h, sh_prod s = PLoaded x t nt h → nt ≠ h →
     n_pushed s - capacity < p_seen s ≤ n_popped s).
Proof.
  intros Hinit Hs. pose proof (csteps_inv _ _ (shared_new_inv init Hinit) Hs) as Hi. split_and!.
  - intros (x & t & nt & h & h' & t' & Ep & Hne & Ec & Hne' & Heq).
    pose proof (push_room _ _ _ _ _ Hi Ep Hne). pose proof (pop_item _ _ _ Hi Ec Hne').
    destruct Hi as [_ _ _ Hps Hcs _ _ _ Hp Hc]. unfold prod_ok, cons_ok in *. rewrite Ep in Hp.
    rewrite Ec in Hc. destruct Hp as (-> & _), Hc as (-> & _).
    symmetry in Heq. apply (mod_inj_window capacity Hcap) in Heq; lia.
  - intros h t E Hne. pose proof (pop_item _ _ _ Hi E Hne). destruct Hi. lia.
  - intros x t nt h E Hne. pose proof (push_room _ _ _ _ _ Hi E Hne). destruct Hi. lia.
Qed.

(** No thread is ever stuck: in every reachable state the producer can take its
    next step (any push can start when it is idle) and so can the consumer, so a
    call always returns after at most three of its own steps and no slot access
    is out of range. *)
Theorem conc_progress init s x :
  Z.of_nat (length init) = capacity → csteps (shared_new init) s →
  (∃ a s', cstep s a s' ∧ sh_cons s' = sh_cons s ∧
     match a with APushStart y => y = x | APushFull | APushWrite | APushDone _ => True | _ => False end) ∧
  (∃ a s', cstep s a s' ∧ sh_prod s' = sh_prod s ∧
     match a with APopStart | APopEmpty | APopRead | APopDone _ => True | _ => False end).
Proof.
  intros Hinit Hs. pose proof (csteps_inv _ _ (shared_new_inv init Hinit) Hs) as Hi. split.
  - destruct (sh_prod s) as [|y t nt h|y nt] eqn:E.
    + exists (APushStart x). eexists. split; [apply (step_push_start s x (p_seen s)); [done|]|done].
      destruct Hi. lia.
    + destruct (Z.eq_dec nt h) as [He|Hne].
      * exists APushFull. eexists. split; [by eapply step_push_full|done].
      * destruct (push_write_ok _ _ _ _ _ Hi E) as [slots Hset].
        exists APushWrite. eexists. split; [by eapply step_push_write|done].
    + exists (APushDone y). eexists. split; [by eapply step_push_done|done].
  - destruct (sh_cons s) as [|h t|h y] eqn:E.
    + exists APopStart. eexists. split; [apply (step_pop_start s (c_seen s)); [done|]|done].
      destruct Hi. lia.
    + destruct (Z.eq_dec h t) as [He|Hne].
      * exists APopEmpty. eexists. split; [by eapply step_pop_empty|done].
      * destruct (pop_read_ok _ _ _ Hi E Hne) as [y Hget].
        exists APopRead. eexists. split; [by eapply step_pop_read|done].
    + exists (APopDone y). eexists. split; [by eapply step_pop_done|done].
Qed.

End Conc.

(** ** Instances: one item pushed, the second push about to write, the first pop about
    to read *)
Definition sample_conc : shared :=
  mkShared 0 1 [7; 0; 0; 0] (PLoaded 8 1 2 0) (CLoaded 0 1) [7] [] 0 1.

Lemma sample_conc_reachable : csteps 4 (shared_new [0; 0; 0; 0]) sample_conc.
Proof.
  eapply rtc_l; [exists (APushStart 7); apply (step_push_start 4 _ 7 0); [done|by split]|].
  eapply rtc_l; [exists APushWrite; by eapply step_push_write|].
  eapply rtc_l; [exists (APushDone 7); by eapply step_push_done|].
  eapply rtc_l; [exists APopStart; apply (step_pop_start 4 _ 1); [done|by split]|].
  eapply rtc_l; [exists (APushStart 8); apply (step_push_start 4 _ 8 0); [done|by split]|].
  apply rtc_refl.
Qed.

Lemma conc_fifo_witness :
  popped sample_conc `prefix_of` pushed sample_conc ∧ n_pushed sample_conc - n_popped sample_conc < 4.
Proof. exact (conc_fifo 4 eq_refl ltac:(lia) [0; 0; 0; 0] sample_conc eq_refl sample_conc_reachable). Defined.

Lemma no_race_witness : ¬ race sample_conc ∧ n_popped sample_conc < c_seen sample_conc.
Proof.
  destruct (no_race 4 eq_refl ltac:(lia) [0; 0; 0; 0] sample_conc eq_refl sample_conc_reachable)
    as (H1 & H2 & _).
  split; [exact H1|]. apply (H2 0 1); [reflexivity|discriminate].
Defined.

Lemma conc_progress_witness : ∃ a s', cstep 4 sample_conc a s' ∧ sh_prod s' = sh_prod sample_conc.
Proof.
  destruct (conc_progress 4 eq_refl ltac:(lia) [0; 0; 0; 0] sample_conc 9 eq_refl sample_conc_reachable)
    as [_ (a & s' & Hs & Hp & _)].
  exists a, s'. exact (conj Hs Hp).
Defined.
