(* ===== verification/TestSpsc.v ===== *)
(** * The ring buffer's unit tests (test/test_spsc.cpp)

    The single-threaded tests are scripts of calls with the answer each EXPECT states
    ([stmt]), run on the queue of [Spsc]; the 10M-message test is the two threads of
    [SpscConc], each with its loop, counters and sums ([sstep]).

    Proved, whatever the slots hold at first: every script's expectations hold; in the stress
    test what was popped is always a prefix of 1, 2, 3, ..., the two sums agree when both
    threads are done, and from every reachable state both threads can get there. *)

From S2P Require Import Prelude Spsc SpscConc.

(** ** Single-threaded tests *)
Inductive stmt :=
| EXPECT_EMPTY (b : bool)          (* EXPECT_EQ(q.empty(), b) *)
| EXPECT_PUSH (x : Z) (b : bool)   (* EXPECT_EQ(q.try_push(x), b) *)
| PUSH (x : Z)                     (* q.try_push(x); *)
| EXPECT_POP (v : Z)               (* EXPECT_TRUE(q.try_pop(out)); EXPECT_EQ(out, v); *)
| EXPECT_NO_POP.                   (* EXPECT_FALSE(q.try_pop(out)); *)

(** One statement: the queue after it, and whether its expectation held. *)
Definition exec (capacity : Z) (q : SPSCQueue) (s : stmt) : outcome (SPSCQueue (T := Z) * bool) :=
  match s with
  | EXPECT_EMPTY b => Ok (q, Bool.eqb (queue_empty q) b)
  | EXPECT_PUSH x b => '(ok, q) ← try_push capacity q x; Ok (q, Bool.eqb ok b)
  | PUSH x => '(_, q) ← try_push capacity q x; Ok (q, true)
  | EXPECT_POP v => '(out, q) ← try_pop capacity q; Ok (q, bool_decide (out = Some v))
  | EXPECT_NO_POP => '(out, q) ← try_pop capacity q; Ok (q, bool_decide (out = None))
  end.

Definition run_script (capacity : Z) (init : list Z) (script : list stmt) : outcome bool :=
  '(_, ok) ← foldM (λ t s, '(q, ok) ← exec capacity t.1 s; Ok (q, t.2 && ok)) script (queue_new init, true);
  Ok ok.

Definition PushPop_SingleThread : list stmt :=
  [EXPECT_EMPTY true; EXPECT_PUSH 1 true; EXPECT_PUSH 2 true; EXPECT_PUSH 3 true; EXPECT_EMPTY false;
   EXPECT_POP 1; EXPECT_POP 2; EXPECT_POP 3; EXPECT_NO_POP; EXPECT_EMPTY true].

Definition FullQueue_ReturnsFalse : list stmt :=
  [EXPECT_PUSH 10 true; EXPECT_PUSH 20 true; EXPECT_PUSH 30 true; EXPECT_PUSH 40 false;
   EXPECT_POP 10; EXPECT_PUSH 40 true].

Definition FIFOOrder : list stmt := (PUSH <$> seqZ 0 50) ++ (EXPECT_POP <$> seqZ 0 50).

Definition WrapAround : list stmt :=
  round ← seqZ 0 100;
  ((λ i, EXPECT_PUSH (round * 100 + i) true) <$> seqZ 0 7) ++ ((λ i, EXPECT_POP (round * 100 + i)) <$> seqZ 0 7).

(** [CapacityConstant]: the static [capacity()] of two instantiations. *)
Definition CapacityConstant : bool := (queue_capacity 256 =? 256) && (queue_capacity 1024 =? 1024).

(** A script on a bounded list. *)
Definition spec_exec (capacity : Z) (t : list Z * bool) (s : stmt) : list Z * bool :=
  let '(l, ok) := t in
  match s with
  | EXPECT_EMPTY b => (l, ok && Bool.eqb (bool_decide (l = [])) b)
  | EXPECT_PUSH x b =>
      let full := Z.of_nat (length l) =? capacity - 1 in
      (if full then l else l ++ [x], ok && Bool.eqb (negb full) b)
  | PUSH x => (if Z.of_nat (length l) =? capacity - 1 then l else l ++ [x], ok)
  | EXPECT_POP v => (tail l, ok && bool_decide (head l = Some v))
  | EXPECT_NO_POP => (tail l, ok && bool_decide (head l = None))
  end.

(** ** The stress test *)
Definition kMessages : Z := 10000000.
Definition stressCapacity : Z := 65536.

(** The queue and the locals of the two threads. *)
Record stress := mkStress {
  sq : shared (T := Z);
  s_i : Z;               (* the producer's loop counter *)
  produced_sum : Z;
  s_count : Z;           (* the consumer's locals *)
  s_sum : Z;
  consumed_sum : Z;
  s_done : bool;
}.

Definition stress_new (init : list Z) : stress := mkStress (shared_new init) 1 0 0 0 0 false.

Definition with_sq (q : shared (T := Z)) (s : stress) : stress :=
  mkStress q (s_i s) (produced_sum s) (s_count s) (s_sum s) (consumed_sum s) (s_done s).

Inductive sstep (capacity messages : Z) (s : stress) : stress → Prop :=
(* the producer: [while (!q.try_push(v)) {}], then [produced_sum += v] *)
| ss_push_start q :
    s_i s ≤ messages → cstep capacity (sq s) (APushStart (u64 (s_i s))) q →
    sstep capacity messages s (with_sq q s)
| ss_push_step a q :
    a = APushFull ∨ a = APushWrite → cstep capacity (sq s) a q → sstep capacity messages s (with_sq q s)
| ss_push_done x q :
    cstep capacity (sq s) (APushDone x) q →
    sstep capacity messages s
      (mkStress q (s_i s + 1) (u64 (produced_sum s + u64 (s_i s))) (s_count s) (s_sum s) (consumed_sum s) (s_done s))
(* the consumer: [while (count < kMessages) if (q.try_pop(v)) { sum += v; ++count; }] *)
| ss_pop_start q :
    s_done s = false → s_count s < messages → cstep capacity (sq s) APopStart q →
    sstep capacity messages s (with_sq q s)
| ss_pop_step a q :
    a = APopEmpty ∨ a = APopRead → cstep capacity (sq s) a q → sstep capacity messages s (with_sq q s)
| ss_pop_done x q :
    cstep capacity (sq s) (APopDone x) q →
    sstep capacity messages s
      (mkStress q (s_i s) (produced_sum s) (u64 (s_count s + 1)) (u64 (s_sum s + x)) (consumed_sum s) (s_done s))
| ss_exit :
    sh_cons (sq s) = CIdle → messages ≤ s_count s → s_done s = false →
    sstep capacity messages s
      (mkStress (sq s) (s_i s) (produced_sum s) (s_count s) (s_sum s) (s_sum s) true).

Definition ssteps (capacity messages : Z) : stress → stress → Prop := rtc (sstep capacity messages).

(** The producer's loop is over and [consumer.join()] returns. *)
Definition finished (messages : Z) (s : stress) : Prop :=
  messages < s_i s ∧ sh_prod (sq s) = PIdle ∧ s_done s = true.

(** ** Lemmas: scripts *)
Lemma exec_ok capacity q n l s ok :
  static_assert_pow2 capacity = true → 0 < capacity ≤ 2 ^ 63 → queue_rep capacity q n l →
  ∃ q' n' b, exec capacity q s = Ok (q', b) ∧ queue_rep capacity q' n' (spec_exec capacity (l, ok) s).1 ∧
    (spec_exec capacity (l, ok) s).2 = ok && b.
Proof.
  intros Hpow Hcap Hr.
  assert (Hpush : ∀ x, let full := Z.of_nat (length l) =? capacity - 1 in
    ∃ q', try_push capacity q x = Ok (negb full, q') ∧ queue_rep capacity q' n (if full then l else l ++ [x])).
  { intros x full. pose proof (try_push_ok capacity Hpow Hcap q n l x Hr) as Hp. unfold full.
    destruct (Z.of_nat (length l) =? capacity - 1); [by exists q|done]. }
  assert (Hpop : ∃ q' n', try_pop capacity q = Ok (head l, q') ∧ queue_rep capacity q' n' (tail l)).
  { pose proof (try_pop_ok capacity Hpow Hcap q n l Hr) as Hp. destruct l as [|x l]; [by exists q, n|].
    destruct Hp as (q' & E & Hr'). by exists q', (n + 1). }
  destruct (size_exact capacity Hpow Hcap q n l Hr) as [_ Hempty].
  destruct s as [b|x b|x|v|]; simpl.
  - exists q, n, (Bool.eqb (queue_empty q) b). by rewrite Hempty.
  - destruct (Hpush x) as (q' & E & Hr'). cbv zeta in *. rewrite E. eexists q', n, _. by split_and!.
  - destruct (Hpush x) as (q' & E & Hr'). cbv zeta in *. rewrite E. exists q', n, true.
    by rewrite andb_true_r.
  - destruct Hpop as (q' & n' & E & Hr'). rewrite E. eexists q', n', _. by split_and!.
  - destruct Hpop as (q' & n' & E & Hr'). rewrite E. eexists q', n', _. by split_and!.
Qed.

Lemma run_script_ok capacity init script :
  static_assert_pow2 capacity = true → 0 < capacity ≤ 2 ^ 63 → Z.of_nat (length init) = capacity →
  run_script capacity init script = Ok (foldl (spec_exec capacity) ([], true) script).2.
Proof.
  intros Hpow Hcap Hinit. unfold run_script.
  destruct (foldM_ind (λ t s, '(q, ok) ← exec capacity t.1 s; Ok (q, t.2 && ok))
    (λ ss t, let sp := foldl (spec_exec capacity) ([], true) ss in
       (∃ n, queue_rep capacity t.1 n sp.1) ∧ t.2 = sp.2) script (queue_new init, true)) as ([q ok] & E & _ & Hok).
  - split; [|done]. exists 0. by apply queue_new_rep.
  - intros before s after [q ok] _ [[n Hr] Hok]. cbv zeta in *. rewrite foldl_app. simpl in *. subst ok.
    destruct (foldl _ _ before) as [l ok]. simpl in *.
    destruct (exec_ok capacity q n l s ok Hpow Hcap Hr) as (q' & n' & b & E & Hr' & Hb). rewrite E. simpl.
    eexists. split; [done|]. simpl. rewrite <-Hb. split; [by exists n'|done].
  - rewrite E. simpl in *. by rewrite Hok.
Qed.

(** ** Lemmas: the stress test *)
Definition total (l : list Z) : Z := foldr Z.add 0 l.

Lemma total_snoc l x : total (l ++ [x]) = total l + x.
Proof. unfold total. induction l as [|y l IH]; simpl; lia. Qed.

Lemma total_seqZ n : 2 * total (seqZ 1 (Z.of_nat n)) = Z.of_nat n * (Z.of_nat n + 1).
Proof.
  induction n as [|n IH]; [done|].
  rewrite Nat2Z.inj_succ, <-Z.add_1_r, seqZ_app by lia. 
  change (seqZ (1 + Z.of_nat n) 1) with [1 + Z.of_nat n]. rewrite total_snoc. lia.
Qed.

(** The producer's item in flight. *)
Definition in_flight (s : stress) : Prop :=
  match sh_prod (sq s) with PIdle => True | PLoaded x _ _ _ | PWritten x _ => x = s_i s end.

Record sinv (capacity messages : Z) (s : stress) : Prop := {
  sv_queue : cinv capacity (sq s);
  sv_next : s_i s = n_pushed (sq s) + 1;
  sv_items : pushed (sq s) = seqZ 1 (n_pushed (sq s));
  sv_bound : n_pushed (sq s) ≤ messages;
  sv_flight : in_flight s ∧ (sh_prod (sq s) ≠ PIdle → s_i s ≤ messages);
  sv_produced : produced_sum s = u64 (total (pushed (sq s)));
  sv_count : s_count s = n_popped (sq s);
  sv_sum : s_sum s = u64 (total (popped (sq s)));
  sv_busy : sh_cons (sq s) ≠ CIdle → s_done s = false ∧ s_count s < messages;
  sv_done : s_done s = true → s_count s = messages ∧ consumed_sum s = s_sum s;
}.

Section Stress.
Variable capacity messages : Z.
Context (Hpow : static_assert_pow2 capacity = true) (Hcap : 1 < capacity ≤ 2 ^ 63).
Context (Hmsg : 0 ≤ messages < 2 ^ 31 - 1).

Lemma Hcap1 : 0 < capacity ≤ 2 ^ 63.
Proof. lia. Qed.

Lemma stress_new_inv init : Z.of_nat (length init) = capacity → sinv capacity messages (stress_new init).
Proof.
  intros Hi. split; try done.
  - by apply (shared_new_inv capacity Hcap1).
  - unfold n_pushed. simpl. lia.
Qed.

(** A step of a call that publishes nothing. *)
Lemma quiet_inv s a q :
  sinv capacity messages s → cstep capacity (sq s) a q →
  match a with APushDone _ | APopDone _ => False | _ => True end →
  in_flight (with_sq q s) → (sh_prod q ≠ PIdle → s_i s ≤ messages) →
  (sh_cons q ≠ CIdle → s_done s = false ∧ s_count s < messages) →
  sinv capacity messages (with_sq q s).
Proof.
  intros [Hq Hn Hit Hb Hf Hp Hc Hs Hbusy Hd] Hst Ha Hf' Hp' Hc'.
  pose proof (cstep_effect _ _ _ _ Hst) as (Epu & Epo & _).
  assert (Epu' : pushed q = pushed (sq s)) by (rewrite Epu; destruct a; try done; by rewrite app_nil_r).
  assert (Epo' : popped q = popped (sq s)) by (rewrite Epo; destruct a; try done; by rewrite app_nil_r).
  split; simpl; unfold n_pushed, n_popped in *; rewrite ?Epu', ?Epo'; try done.
  by eapply (cstep_inv capacity Hpow Hcap1).
Qed.

(** The producer publishes its value and moves on. *)
Lemma publish_inv s x q :
  sinv capacity messages s → cstep capacity (sq s) (APushDone x) q →
  sinv capacity messages
    (mkStress q (s_i s + 1) (u64 (produced_sum s + u64 (s_i s))) (s_count s) (s_sum s) (consumed_sum s) (s_done s)).
Proof.
  intros [Hq Hn Hit Hb [Hf Hle] Hp Hc Hs Hbusy Hd] Hst.
  pose proof (cstep_effect _ _ _ _ Hst) as (Epu & Epo & Ec & _). rewrite app_nil_r in Epo.
  assert (Hx : x = s_i s ∧ s_i s ≤ messages ∧ sh_prod q = PIdle).
  { unfold in_flight in Hf. inversion Hst; subst.
    match goal with E : sh_prod _ = _ |- _ => rewrite E in Hf, Hle end. subst. split_and!; [done|by apply Hle|done]. }
  destruct Hx as (-> & Hle' & Hidle).
  assert (Hlen : n_pushed q = n_pushed (sq s) + 1) by (unfold n_pushed; rewrite Epu, length_app; simpl; lia).
  split; simpl; rewrite ?Hlen, ?Ec; try done.
  - by eapply (cstep_inv capacity Hpow Hcap1).
  - lia.
  - rewrite Epu, Hit, Hn, seqZ_app by (unfold n_pushed; lia).
    by replace (n_pushed (sq s) + 1) with (1 + n_pushed (sq s)) by lia.
  - lia.
  - unfold in_flight. simpl. by rewrite Hidle.
  - rewrite Epu, total_snoc, Hp. unfold u64. by rewrite Zplus_mod_idemp_l, Zplus_mod_idemp_r.
  - unfold n_popped. by rewrite Epo.
  - by rewrite Epo.
Qed.

(** The consumer takes a value and counts it. *)
Lemma consume_inv s x q :
  sinv capacity messages s → cstep capacity (sq s) (APopDone x) q →
  sinv capacity messages
    (mkStress q (s_i s) (produced_sum s) (u64 (s_count s + 1)) (u64 (s_sum s + x)) (consumed_sum s) (s_done s)).
Proof.
  intros [Hq Hn Hit Hb [Hf Hle] Hp Hc Hs Hbusy Hd] Hst.
  pose proof (cstep_effect _ _ _ _ Hst) as (Epu & Epo & Ec). rewrite app_nil_r in Epu.
  assert (Hx : sh_cons (sq s) ≠ CIdle ∧ sh_cons q = CIdle) by (inversion Hst; subst; split; [congruence|done]).
  destruct Hx as [Hne Hidle]. destruct (Hbusy Hne) as [Hdn Hlt].
  assert (Hlen : n_popped q = n_popped (sq s) + 1) by (unfold n_popped; rewrite Epo, length_app; simpl; lia).
  split; unfold in_flight in *; simpl; rewrite ?Ec; unfold n_pushed in *; rewrite ?Epu, ?Hlen; try done.
  - by eapply (cstep_inv capacity Hpow Hcap1).
  - rewrite Hc, u64_small; [done|unfold n_popped in *; lia].
  - rewrite Epo, total_snoc, Hs. unfold u64. by rewrite Zplus_mod_idemp_l.
  - by rewrite Hdn.
Qed.

Lemma sstep_inv s s' : sinv capacity messages s → sstep capacity messages s s' → sinv capacity messages s'.
Proof.
  intros Hi Hst. pose proof Hi as [Hq Hn Hit Hb [Hf Hle] Hp Hc Hs Hbusy Hd].
  destruct Hst as [q Hlt Hst|a q Ha Hst|x q Hst|q Hdn Hlt Hst|a q Ha Hst|x q Hst|Hcon Hge Hdn].
  - eapply quiet_inv; [done|done|done|..].
    + inversion Hst; subst. unfold in_flight. simpl. apply u64_small. unfold n_pushed in *. lia.
    + done.
    + by inversion Hst; subst.
  - eapply quiet_inv; [done|done|by destruct Ha as [->| ->]|..].
    + unfold in_flight in *. destruct Ha as [->| ->]; inversion Hst; subst; simpl; try done.
      by match goal with E : sh_prod _ = _ |- _ => rewrite E in Hf end.
    + destruct Ha as [->| ->]; inversion Hst; subst; simpl; try done. intros _. apply Hle. congruence.
    + destruct Ha as [->| ->]; inversion Hst; subst; done.
  - by eapply publish_inv.
  - eapply quiet_inv; [done|done|done|..]; inversion Hst; subst; simpl; try done.
  - eapply quiet_inv; [done|done|by destruct Ha as [->| ->]|..];
      destruct Ha as [->| ->]; inversion Hst; subst; simpl; try done.
    intros _. apply Hbusy. congruence.
  - by apply consume_inv.
  - split; simpl; try done.
    intros _. split; [|done]. pose proof (ci_cseen _ _ Hq). lia.
Qed.

Lemma ssteps_inv s s' : sinv capacity messages s → ssteps capacity messages s s' → sinv capacity messages s'.
Proof. intros Hi Hst. induction Hst as [|s s1 s2 Ha _ IH]; [done|]. by eapply IH, sstep_inv. Qed.

(** ** Lemmas: the stress test can go on to its end *)

(** Steps left to a thread before its call can end, when it is scheduled with fresh indices. *)
Definition prod_left (s : stress) : Z :=
  match sh_prod (sq s) with PIdle => 3 | PLoaded _ _ nt h => if nt =? h then 4 else 2 | PWritten _ _ => 1 end.
Definition cons_left (s : stress) : Z :=
  match sh_cons (sq s) with CIdle => 3 | CLoaded h t => if h =? t then 4 else 2 | CRead _ _ => 1 end.

Definition work_left (s : stress) : Z :=
  3 * (2 * messages - n_pushed (sq s) - n_popped (sq s)) + prod_left s + cons_left s +
  (if s_done s then 0 else 1).

Lemma left_pos s : 1 ≤ prod_left s ∧ 1 ≤ cons_left s.
Proof. unfold prod_left, cons_left. split; repeat case_match; lia. Qed.

Lemma work_left_pos s : sinv capacity messages s → 0 ≤ work_left s.
Proof.
  intros [Hq _ _ Hb _ _ _ _ _ _]. destruct (left_pos s). pose proof (ci_cseen _ _ Hq).
  unfold work_left. case_match; lia.
Qed.

(** The consumer makes progress inside a call, or when an item it can see is left. *)
Lemma consumer_progress s :
  sinv capacity messages s →
  sh_cons (sq s) ≠ CIdle ∨ (s_done s = false ∧ s_count s < messages ∧ n_popped (sq s) < n_pushed (sq s)) →
  ∃ s', sstep capacity messages s s' ∧ work_left s' < work_left s.
Proof.
  intros Hi Hcase. pose proof Hi as [Hq Hn Hit Hb [Hf Hle] Hp Hc Hs Hbusy Hd].
  unfold work_left, prod_left, cons_left. destruct (sh_cons (sq s)) as [|h t|h x] eqn:E.
  - destruct Hcase as [?|(Hdn & Hlt & Hne)]; [done|]. eexists. split.
    { apply ss_pop_start; [done|done|]. apply (step_pop_start capacity (sq s) (n_pushed (sq s))); [done|].
      destruct Hq. lia. }
    simpl. rewrite (proj2 (Z.eqb_neq _ _)); [unfold n_pushed, n_popped; simpl; lia|].
    destruct Hq as [_ -> _ Hps _ Hroom _ _ _ _]. intros Heq. apply (mod_inj_window capacity Hcap1) in Heq; lia.
  - destruct (Z.eqb_spec h t) as [He|Hne].
    + eexists. split; [eapply ss_pop_step; [by left|by eapply step_pop_empty]|].
      unfold n_pushed, n_popped; simpl; lia.
    + destruct (pop_read_ok capacity Hcap1 _ _ _ Hq E Hne) as [x Hget].
      eexists. split; [eapply ss_pop_step; [by right|by eapply step_pop_read]|].
      unfold n_pushed, n_popped; simpl; lia.
  - eexists. split; [eapply ss_pop_done; by eapply step_pop_done|].
    unfold n_pushed, n_popped. simpl. rewrite length_app. simpl. lia.
Qed.

(** The producer makes progress inside a call, or when it has seen an empty queue. *)
Lemma producer_progress s :
  sinv capacity messages s →
  sh_prod (sq s) ≠ PIdle ∨ (s_i s ≤ messages ∧ n_popped (sq s) = n_pushed (sq s)) →
  ∃ s', sstep capacity messages s s' ∧ work_left s' < work_left s.
Proof.
  intros Hi Hcase. pose proof Hi as [Hq Hn Hit Hb [Hf Hle] Hp Hc Hs Hbusy Hd].
  unfold work_left, prod_left, cons_left. destruct (sh_prod (sq s)) as [|x t nt h|x nt] eqn:E.
  - destruct Hcase as [?|(Hlt & Heq)]; [done|]. eexists. split.
    { apply ss_push_start; [done|]. apply (step_push_start capacity (sq s) _ (n_popped (sq s))); [done|].
      destruct Hq. lia. }
    simpl. rewrite (proj2 (Z.eqb_neq _ _)); [unfold n_pushed, n_popped; simpl; lia|].
    destruct Hq as [_ _ -> _ _ _ _ _ _ _]. rewrite (advance_mod capacity Hpow Hcap1), Heq.
    intros Hm. symmetry in Hm. apply (mod_inj_window capacity Hcap1) in Hm; lia.
  - destruct (Z.eqb_spec nt h) as [He|Hne].
    + eexists. split; [eapply ss_push_step; [by left|by eapply step_push_full]|].
      unfold n_pushed, n_popped; simpl; lia.
    + destruct (push_write_ok capacity Hcap1 _ _ _ _ _ Hq E) as [slots Hset].
      eexists. split; [eapply ss_push_step; [by right|by eapply step_push_write]|].
      unfold n_pushed, n_popped; simpl; lia.
  - eexists. split; [eapply ss_push_done; by eapply step_push_done|].
    unfold n_pushed, n_popped. simpl. rewrite length_app. simpl. lia.
Qed.

Lemma stress_progress s :
  sinv capacity messages s → finished messages s ∨ ∃ s', sstep capacity messages s s' ∧ work_left s' < work_left s.
Proof.
  intros Hi. pose proof Hi as [Hq Hn Hit Hb [Hf Hle] Hp Hc Hs Hbusy Hd]. pose proof (ci_cseen _ _ Hq) as Hseen.
  destruct (sh_cons (sq s)) as [|h t|h x] eqn:Ec; [|right; apply consumer_progress; [done|left; congruence]..].
  destruct (s_done s) eqn:Ed.
  - destruct (Hd eq_refl) as [Hcm _].
    destruct (sh_prod (sq s)) eqn:Ep; [|right; apply producer_progress; [done|left; congruence]..].
    left. split_and!; [lia|done|done].
  - right. destruct (Z.le_gt_cases messages (s_count s)) as [Hge|Hlt].
    + eexists. split; [by apply ss_exit|]. unfold work_left, prod_left, cons_left. simpl. rewrite Ed. lia.
    + destruct (Z.le_gt_cases (n_pushed (sq s)) (n_popped (sq s))) as [He|Hne].
      * apply producer_progress; [done|]. right. lia.
      * apply consumer_progress; [done|]. right. split_and!; [done|lia|lia].
Qed.

Lemma stress_reach_end s :
  sinv capacity messages s → ∃ s', ssteps capacity messages s s' ∧ finished messages s'.
Proof.
  intros Hi. remember (Z.to_nat (work_left s)) as n eqn:En. revert s Hi En.
  induction n as [n IH] using lt_wf_ind. intros s Hi ->.
  destruct (stress_progress s Hi) as [Hf|(s1 & Hst & Hlt)]; [by exists s|].
  pose proof (sstep_inv s s1 Hi Hst) as Hi1. pose proof (work_left_pos s1 Hi1).
  destruct (IH (Z.to_nat (work_left s1)) ltac:(lia) s1 Hi1 eq_refl) as (s' & Hr & Hf).
  exists s'. split; [by eapply rtc_l|done].
Qed.

(** ** Theorems *)

(** C12. The stress test.  In every state the two threads can reach, with any interleaving and
    any staleness of the indices they read: what was popped is a prefix of what was pushed,
    itself the first integers in order (nothing lost, duplicated, reordered or invented);
    when the producer's loop is over and the consumer joined, both sums are the sum of
    1 to [messages] modulo 2^64, so the test's expectations hold; and this end is still
    reachable. *)
Theorem stress_no_loss init s :
  Z.of_nat (length init) = capacity → ssteps capacity messages (stress_new init) s →
  (popped (sq s) `prefix_of` pushed (sq s) ∧ pushed (sq s) = seqZ 1 (n_pushed (sq s))) ∧
  (finished messages s →
     s_done s = true ∧ produced_sum s = consumed_sum s ∧
     produced_sum s = u64 (messages * (messages + 1) / 2)) ∧
  ∃ s', ssteps capacity messages s s' ∧ finished messages s'.
Proof.
  intros Hinit Hst. pose proof (ssteps_inv _ _ (stress_new_inv init Hinit) Hst) as Hi.
  split_and!; [..|by apply stress_reach_end]; destruct Hi as [Hq Hn Hit Hb _ Hp Hc Hs _ Hd].
  - rewrite (ci_prefix _ _ Hq). apply prefix_take.
  - done.
  - intros (Hgt & _ & Hdone). destruct (Hd Hdone) as [Hcm ->]. pose proof (ci_cseen _ _ Hq) as Hseen.
    assert (Hall : popped (sq s) = pushed (sq s)).
    { rewrite (ci_prefix _ _ Hq). apply take_ge. unfold n_pushed, n_popped in *. lia. }
    rewrite Hs, Hall, Hp. split_and!; [done|done|]. f_equal. rewrite Hit.
    replace (n_pushed (sq s)) with messages by lia.
    pose proof (total_seqZ (Z.to_nat messages)) as Ht. rewrite Z2Nat.id in Ht by lia.
    rewrite <-Ht, Z.mul_comm, Z.div_mul; [done|lia].
Qed.

End Stress.

(** The single-threaded tests pass, whatever the array's elements are at first. *)
Theorem queue_tests_pass init :
  (Z.of_nat (length init) = 8 →
     run_script 8 init PushPop_SingleThread = Ok true ∧ run_script 8 init WrapAround = Ok true) ∧
  (Z.of_nat (length init) = 4 → run_script 4 init FullQueue_ReturnsFalse = Ok true) ∧
  (Z.of_nat (length init) = 64 → run_script 64 init FIFOOrder = Ok true) ∧
  CapacityConstant = true.
Proof.
  split_and!; [intros Hi; split|intros Hi..|done]; rewrite run_script_ok by (done || lia); vm_compute; reflexivity.
Qed.

(** ** Instances *)
Lemma stress_no_loss_witness :
  ∃ s, ssteps stressCapacity kMessages (stress_new (replicate (Z.to_nat stressCapacity) 0)) s ∧
    finished kMessages s.
Proof.
  destruct (stress_no_loss stressCapacity kMessages) with (init := replicate (Z.to_nat stressCapacity) 0)
    (s := stress_new (replicate (Z.to_nat stressCapacity) 0)) as (_ & _ & H).
  - vm_compute. reflexivity.
  - split; [reflexivity|discriminate].
  - split; [discriminate|reflexivity].
  - rewrite length_replicate. apply Z2Nat.id. discriminate.
  - apply rtc_refl.
  - exact H.
Defined.
