(* ===== verification/Order.v ===== *)
(** * Orders and the order pool (include/book/order.hpp)

    [Order] is the struct of the same name; [OrderPool] is the pre-allocated slab
    whose free list is threaded through [next].  A pointer [Order*] is a slot
    number of the slab, [None] is [nullptr]; every [Order] of the program lives in
    the slab, so the slab is the heap that all components share and alias.

    Proved: the constructor threads every slot on the free list, [alloc] pops and
    [free] pushes it (last freed, first reused), [alloc] fails exactly when the
    list is empty. *)

From S2P Require Import Prelude.

(** ** Data *)
Abbreviation addr := nat.
Abbreviation ptr := (option nat).

Record Order := mkOrder {
  order_ref : Z;
  shares : Z;
  price : Z;
  side : Z;
  level_idx : Z;
  next : ptr;
  prev : ptr;
}.

(** The storage behind every [Order*]. *)
Abbreviation heap := (list Order).

Definition order_default : Order := mkOrder 0 0 0 0 (-1) None None.

Definition set_order_ref (v : Z) (o : Order) : Order :=
  mkOrder v (shares o) (price o) (side o) (level_idx o) (next o) (prev o).
Definition set_shares (v : Z) (o : Order) : Order :=
  mkOrder (order_ref o) v (price o) (side o) (level_idx o) (next o) (prev o).
Definition set_price (v : Z) (o : Order) : Order :=
  mkOrder (order_ref o) (shares o) v (side o) (level_idx o) (next o) (prev o).
Definition set_side (v : Z) (o : Order) : Order :=
  mkOrder (order_ref o) (shares o) (price o) v (level_idx o) (next o) (prev o).
Definition set_level_idx (v : Z) (o : Order) : Order :=
  mkOrder (order_ref o) (shares o) (price o) (side o) v (next o) (prev o).
Definition set_next (v : ptr) (o : Order) : Order :=
  mkOrder (order_ref o) (shares o) (price o) (side o) (level_idx o) v (prev o).
Definition set_prev (v : ptr) (o : Order) : Order :=
  mkOrder (order_ref o) (shares o) (price o) (side o) (level_idx o) (next o) v.

(** ** Memory access *)

(** [*p] and [p->field]. *)
Definition deref (h : heap) (p : ptr) : outcome Order :=
  match p with
  | None => Fault NullDeref
  | Some a => match h !! a with Some o => Ok o | None => Fault BadPointer end
  end.

(** [p->field = v], with [f] the field's setter. *)
Definition modify (h : heap) (p : ptr) (f : Order → Order) : outcome heap :=
  match p with
  | None => Fault NullDeref
  | Some a =>
      match h !! a with
      | Some o => Ok (<[a := f o]> h)
      | None => Fault BadPointer
      end
  end.

Definition non_null (p : ptr) : bool := bool_decide (is_Some p).

(** A pointer that is about to be used as an object. *)
Definition object (p : ptr) : outcome addr :=
  match p with None => Fault NullDeref | Some a => Ok a end.

(** ** OrderPool *)
Record OrderPool := mkPool {
  slots : heap;        (* pool_ *)
  free_head : ptr;     (* free_head_ *)
}.

Definition OrderPool_new (capacity : nat) : outcome OrderPool :=
  h ← foldM (λ h i, modify h (Some i) (set_next (Some (S i))))
        (seq 0 (capacity - 1)) (replicate capacity order_default);
  if Nat.eqb capacity 0 then Fault OutOfRange   (* &pool_[0] of an empty vector *)
  else Ok (mkPool h (Some 0%nat)).

Definition pool_capacity (p : OrderPool) : nat := length (slots p).

Section Pool.
Context `{BuildMode}.

Definition alloc (p : OrderPool) : outcome (addr * OrderPool) :=
  cassert (non_null (free_head p));;
  o ← object (free_head p);
  c ← deref (slots p) (free_head p);
  let fh := next c in
  h ← modify (slots p) (Some o) (set_next None);
  h ← modify h (Some o) (set_prev None);
  Ok (o, mkPool h fh).

Definition free (p : OrderPool) (o : ptr) : outcome OrderPool :=
  cassert (non_null o);;
  h ← modify (slots p) o (set_order_ref 0);
  h ← modify h o (set_shares 0);
  h ← modify h o (set_price 0);
  h ← modify h o (set_side 0);
  h ← modify h o (set_level_idx (-1));
  h ← modify h o (set_prev None);
  h ← modify h o (set_next (free_head p));
  Ok (mkPool h o).

End Pool.

(** ** Well-formed pools *)

(** What a slot on the free list holds: a default [Order] but for [next]. *)
Definition blank (n : ptr) : Order := mkOrder 0 0 0 0 (-1) n None.

Fixpoint free_list (h : heap) (p : ptr) (fs : list addr) : Prop :=
  match fs with
  | [] => p = None
  | a :: fs' => p = Some a ∧ ∃ n, h !! a = Some (blank n) ∧ free_list h n fs'
  end.

Record pool_ok (p : OrderPool) (fs : list addr) : Prop := {
  po_chain : free_list (slots p) (free_head p) fs;
  po_nodup : NoDup fs;
}.

(** ** Lemmas: memory access *)
Lemma deref_ok h a o : h !! a = Some o → deref h (Some a) = Ok o.
Proof. intros E. simpl. by rewrite E. Qed.

Lemma modify_ok h a o f : h !! a = Some o → modify h (Some a) f = Ok (<[a := f o]> h).
Proof. intros E. simpl. by rewrite E. Qed.

(** Two successive field writes to one object. *)
Lemma modify_again h a o v g :
  h !! a = Some o → modify (<[a := v]> h) (Some a) g = Ok (<[a := g v]> h).
Proof.
  intros E. rewrite (modify_ok _ _ v).
  - by rewrite list_insert_insert_eq.
  - apply list_lookup_insert_eq. by eapply lookup_lt_Some.
Qed.

#[global] Arguments deref : simpl never.
#[global] Arguments modify : simpl never.

(** Run accesses whose target is known to be a live slot. *)
Ltac heap_step :=
  repeat (simpl; match goal with
  | E : ?h !! ?a = Some ?o |- context [modify ?h (Some ?a) ?f] =>
      rewrite (modify_ok h a o f E)
  | E : ?h !! ?a = Some ?o |- context [modify (<[?a:=_]> ?h) (Some ?a) _] =>
      rewrite (modify_again h a o _ _ E)
  | E : ?h !! ?a = Some ?o |- context [deref ?h (Some ?a)] =>
      rewrite (deref_ok h a o E)
  end); simpl.

(** ** Lemmas: the free list *)
Lemma free_list_lookup h p fs a : free_list h p fs → a ∈ fs → ∃ n, h !! a = Some (blank n).
Proof.
  revert p; induction fs as [|b fs IH]; intros p Hf Ha; [by apply not_elem_of_nil in Ha|].
  destruct Hf as (-> & n & Hb & Hf). apply elem_of_cons in Ha as [->|Ha]; eauto.
Qed.

Lemma free_list_frame h h' p fs :
  free_list h p fs → (∀ a, a ∈ fs → h' !! a = h !! a) → free_list h' p fs.
Proof.
  revert p; induction fs as [|b fs IH]; intros p; [done|].
  intros (-> & n & Hb & Hf) Heq. split; [done|]. exists n. split.
  - rewrite Heq; [done|by left].
  - apply IH; [done|]. intros a Ha. apply Heq. by right.
Qed.

Lemma free_list_head h p fs : free_list h p fs → p = head fs.
Proof. destruct fs; simpl; [done|by intros [-> _]]. Qed.

(** The slots on the list are determined by the heap. *)
Lemma free_list_inj h p fs1 fs2 : free_list h p fs1 → free_list h p fs2 → fs1 = fs2.
Proof.
  revert p fs2; induction fs1 as [|a fs1 IH]; intros p [|b fs2]; simpl; [done| | |].
  - by intros -> [? _].
  - by intros [-> _] ?.
  - intros (-> & n & Ha & H1) ([= ->] & m & Hb & H2). rewrite Ha in Hb.
    injection Hb as ->. f_equal. eauto.
Qed.

Lemma pool_new_slots (n : nat) k :
  (k ≤ n)%nat → ∃ h,
    foldM (λ h i, modify h (Some i) (set_next (Some (S i)))) (seq 0 k)
      (replicate n order_default) = Ok h ∧ length h = n ∧
    ∀ i, (i < n)%nat → h !! i = Some (blank (if decide (i < k)%nat then Some (S i) else None)).
Proof.
  induction k as [|k IH]; intros Hk.
  - exists (replicate n order_default). split; [done|]. split; [by rewrite length_replicate|].
    intros i Hi. rewrite lookup_replicate_2 by done. by rewrite decide_False by lia.
  - destruct IH as (h & Hf & Hlen & Hl); [lia|].
    rewrite seq_S, foldM_app, Hf. simpl.
    assert (Hk' : h !! k = Some (blank None)) by (rewrite Hl by lia; by rewrite decide_False by lia).
    heap_step.
    eexists. split; [done|]. split; [by rewrite length_insert|]. intros i Hi.
    destruct (decide (i = k)) as [->|Hne].
    + rewrite list_lookup_insert_eq by lia. by rewrite decide_True by lia.
    + rewrite list_lookup_insert_ne by done. rewrite Hl by done.
      do 2 f_equal. repeat case_decide; done || lia.
Qed.

Lemma free_list_seq h (n i : nat) :
  (i ≤ n)%nat →
  (∀ j, (i ≤ j < n)%nat → h !! j = Some (blank (if decide (j < n - 1)%nat then Some (S j) else None))) →
  free_list h (if decide (i < n)%nat then Some i else None) (seq i (n - i)).
Proof.
  intros Hi. remember (n - i)%nat as m eqn:Em. revert i Hi Em.
  induction m as [|m IH]; intros i Hi Em Hl; simpl.
  - by rewrite decide_False by lia.
  - rewrite decide_True by lia. split; [done|]. eexists. split; [apply Hl; lia|].
    specialize (IH (S i)). destruct (decide (i < n - 1)%nat).
    + rewrite decide_True in IH by lia. apply IH; [lia..|]. intros j ?. apply Hl. lia.
    + rewrite decide_False in IH by lia. apply IH; [lia..|]. intros j ?. apply Hl. lia.
Qed.

Lemma OrderPool_new_ok n :
  (0 < n)%nat → ∃ p, OrderPool_new n = Ok p ∧ pool_ok p (seq 0 n) ∧ length (slots p) = n.
Proof.
  intros Hn. destruct (pool_new_slots n (n - 1)) as (h & Hf & Hlen & Hl); [lia|].
  unfold OrderPool_new. rewrite Hf. simpl.
  destruct (Nat.eqb_spec n 0) as [|_]; [lia|]. eexists. split; [done|]. split; [|done].
  split; [|apply NoDup_seq]. simpl.
  pose proof (free_list_seq h n 0) as Hfl. rewrite decide_True, Nat.sub_0_r in Hfl by lia.
  apply Hfl; [lia|]. intros j Hj. apply Hl. lia.
Qed.

Section PoolLemmas.
Context `{BuildMode}.

Lemma alloc_ok p a fs :
  pool_ok p (a :: fs) →
  ∃ p', alloc p = Ok (a, p') ∧ pool_ok p' fs ∧ slots p' = <[a := blank None]> (slots p).
Proof.
  intros [(Hh & n & Ha & Hf) [Hnin Hnd]%NoDup_cons].
  unfold alloc. rewrite Hh. heap_step. eexists. split; [done|]. split; [|done].
  split; simpl; [|done]. eapply free_list_frame; [done|].
  intros b Hb. rewrite list_lookup_insert_ne; [done|]. by intros ->.
Qed.

Lemma alloc_exhausted p :
  pool_ok p [] → alloc p = Fault (if ndebug then NullDeref else AssertFailed).
Proof.
  intros [Hh _]. simpl in Hh. unfold alloc, cassert. rewrite Hh. simpl. by destruct ndebug.
Qed.

Lemma free_ok p a o fs :
  pool_ok p fs → slots p !! a = Some o → a ∉ fs →
  ∃ p', free p (Some a) = Ok p' ∧ pool_ok p' (a :: fs) ∧
        slots p' = <[a := blank (free_head p)]> (slots p).
Proof.
  intros [Hf Hnd] Ha Hnin. pose proof (lookup_lt_Some _ _ _ Ha) as Hlt.
  unfold free. heap_step. eexists. split; [done|]. split; [|done].
  split; simpl; [|by apply NoDup_cons]. split; [done|]. eexists.
  split; [by rewrite list_lookup_insert_eq|]. eapply free_list_frame; [done|].
  intros b Hb. rewrite list_lookup_insert_ne; [done|]. by intros ->.
Qed.

End PoolLemmas.
