(* ===== verification/PriceLevel.v ===== *)
(** * Price levels (include/book/price_level.hpp)

    A [PriceLevel] is the struct of the same name: aggregate quantity, order count
    and the two ends of an intrusive doubly linked FIFO threaded through the
    orders' [next]/[prev].  [level_rep h l q] says that in heap [h] the level [l]
    holds exactly the orders [q], oldest first, with exact aggregates.

    Proved: [add_order] appends at the back, [remove_order] deletes one order
    wherever it is, [reduce_shares] changes one order's shares, each keeping the
    representation and touching no order outside the level; the 64-bit total and
    the 32-bit count never wrap while the slab has fewer than 2^32 slots. *)

From S2P Require Import Prelude Order.

(** ** Data *)
Record PriceLevel := mkLevel {
  total_qty : Z;
  order_count : Z;
  lvl_head : ptr;   (* head: front of FIFO *)
  lvl_tail : ptr;   (* tail: back of FIFO *)
}.

Definition level_default : PriceLevel := mkLevel 0 0 None None.

Definition set_total (v : Z) (l : PriceLevel) : PriceLevel :=
  mkLevel v (order_count l) (lvl_head l) (lvl_tail l).
Definition set_count (v : Z) (l : PriceLevel) : PriceLevel :=
  mkLevel (total_qty l) v (lvl_head l) (lvl_tail l).
Definition set_head (v : ptr) (l : PriceLevel) : PriceLevel :=
  mkLevel (total_qty l) (order_count l) v (lvl_tail l).
Definition set_tail (v : ptr) (l : PriceLevel) : PriceLevel :=
  mkLevel (total_qty l) (order_count l) (lvl_head l) v.

(** ** Operations *)
Definition level_empty (l : PriceLevel) : bool := order_count l =? 0.

Section Ops.
Context `{BuildMode}.

Definition add_order (h : heap) (l : PriceLevel) (o : ptr) : outcome (heap * PriceLevel) :=
  cassert (non_null o);;
  h ← modify h o (set_prev (lvl_tail l));
  h ← modify h o (set_next None);
  '(h, l) ← (match lvl_tail l with
             | Some t => h ← modify h (Some t) (set_next o); Ok (h, l)
             | None => Ok (h, set_head o l)
             end);
  let l := set_tail o l in
  c ← deref h o;
  let l := set_total (u64 (total_qty l + shares c)) l in
  Ok (h, set_count (u32 (order_count l + 1)) l).

Definition remove_order (h : heap) (l : PriceLevel) (o : ptr) : outcome (heap * PriceLevel) :=
  cassert (non_null o);;
  cassert (0 <? order_count l);;
  c ← deref h o;
  cassert (shares c <=? total_qty l);;
  '(h, l) ← (match prev c with
             | Some p => h ← modify h (Some p) (set_next (next c)); Ok (h, l)
             | None => Ok (h, set_head (next c) l)
             end);
  c ← deref h o;
  '(h, l) ← (match next c with
             | Some n => h ← modify h (Some n) (set_prev (prev c)); Ok (h, l)
             | None => Ok (h, set_tail (prev c) l)
             end);
  c ← deref h o;
  let l := set_total (u64 (total_qty l - shares c)) l in
  let l := set_count (u32 (order_count l - 1)) l in
  h ← modify h o (set_prev None);
  h ← modify h o (set_next None);
  Ok (h, l).

Definition reduce_shares (h : heap) (l : PriceLevel) (o : ptr) (by_ : Z)
  : outcome (heap * PriceLevel) :=
  cassert (non_null o);;
  c ← deref h o;
  cassert ((by_ <=? shares c) && (by_ <=? total_qty l));;
  h ← modify h o (set_shares (u32 (shares c - by_)));
  Ok (h, set_total (u64 (total_qty l - by_)) l).

End Ops.

(** ** Representation *)

(** [prev] and [next] of every order of [q] are its neighbours in [q]. *)
Definition linked (h : heap) (q : list addr) : Prop :=
  ∀ l1 a l2, q = l1 ++ a :: l2 →
  ∃ o, h !! a = Some o ∧ prev o = last l1 ∧ next o = head l2.

Definition shares_of (h : heap) (a : addr) : Z := default 0 (shares <$> h !! a).

(** Sum of the shares of the orders of [q]. *)
Definition qty (h : heap) (q : list addr) : Z := foldr (λ a s, shares_of h a + s) 0 q.

Record level_rep (h : heap) (l : PriceLevel) (q : list addr) : Prop := {
  lr_nodup : NoDup q;
  lr_linked : linked h q;
  lr_head : lvl_head l = head q;
  lr_tail : lvl_tail l = last q;
  lr_qty : total_qty l = qty h q;
  lr_count : order_count l = Z.of_nat (length q);
}.

(** The slab fits 32-bit counting and holds 32-bit share counts. *)
Record heap_ok (h : heap) : Prop := {
  ho_size : Z.of_nat (length h) < 2 ^ 32;
  ho_shares : ∀ a o, h !! a = Some o → 0 ≤ shares o < 2 ^ 32;
}.

(** Heaps that differ in [next]/[prev] only. *)
Definition erase_links (o : Order) : Order := set_prev None (set_next None o).
Definition same_data (h h' : heap) : Prop := erase_links <$> h = erase_links <$> h'.

(** The queue of a level, read off the heap by following [next] from [head]. *)
Fixpoint walk (h : heap) (fuel : nat) (p : ptr) : list addr :=
  match fuel, p with
  | S n, Some a => a :: (match h !! a with Some o => walk h n (next o) | None => [] end)
  | _, _ => []
  end.
Definition level_queue (h : heap) (l : PriceLevel) : list addr :=
  walk h (Z.to_nat (order_count l)) (lvl_head l).

(** What unlinking [a] from [l1 ++ a :: l2] does to another order [b]. *)
Definition relink (l1 l2 : list addr) (b : addr) : Order → Order :=
  (if decide (head l2 = Some b) then set_prev (last l1) else id) ∘
  (if decide (last l1 = Some b) then set_next (head l2) else id).

(** A write through a pointer that may be null (then nothing happens). *)
Definition on_ptr (f : Order → Order) (p : ptr) (h : heap) : heap :=
  match p with Some a => alter f a h | None => h end.

(** The heap after unlinking [a]: its neighbours are joined, [a] is cleared. *)
Definition unlinked (h : heap) (l1 : list addr) (a : addr) (l2 : list addr) : heap :=
  alter erase_links a
    (on_ptr (set_prev (last l1)) (head l2) (on_ptr (set_next (head l2)) (last l1) h)).

(** ** Lemmas: heaps up to links *)
#[export] Instance same_data_equiv : Equivalence same_data.
Proof. split; unfold same_data; congruence. Qed.

Lemma same_data_lookup h h' a o :
  same_data h h' → h !! a = Some o → ∃ o', h' !! a = Some o' ∧ erase_links o = erase_links o'.
Proof.
  intros Hs Ha. assert (E : (erase_links <$> h') !! a = Some (erase_links o)).
  { rewrite <-Hs, list_lookup_fmap, Ha. done. }
  rewrite list_lookup_fmap in E. destruct (h' !! a) as [o'|]; [|done].
  apply (inj Some) in E. eauto.
Qed.

Lemma same_data_length h h' : same_data h h' → length h' = length h.
Proof. intros Hs. by rewrite <-(length_fmap erase_links h'), <-Hs, length_fmap. Qed.

Lemma same_data_insert h a o o' :
  h !! a = Some o → erase_links o = erase_links o' → same_data h (<[a:=o']> h).
Proof.
  intros Ha E. unfold same_data. rewrite list_fmap_insert, <-E.
  symmetry. apply list_insert_id. by rewrite list_lookup_fmap, Ha.
Qed.

Lemma same_data_insert_both h h' a o o' :
  same_data h h' → erase_links o = erase_links o' → same_data (<[a := o]> h) (<[a := o']> h').
Proof. unfold same_data. intros Hs E. by rewrite !list_fmap_insert, Hs, E. Qed.

#[export] Instance shares_of_proper : Proper (same_data ==> eq ==> eq) shares_of.
Proof.
  intros h h' Hs a ? <-. unfold shares_of. destruct (h !! a) as [o|] eqn:Ha.
  - destruct (same_data_lookup _ _ _ _ Hs Ha) as (o' & -> & E). simpl. by inversion E.
  - apply lookup_ge_None in Ha. rewrite (lookup_ge_None_2 h'); [done|].
    by rewrite (same_data_length _ _ Hs).
Qed.

#[export] Instance qty_proper : Proper (same_data ==> eq ==> eq) qty.
Proof.
  intros h h' Hs q ? <-. induction q as [|a q IH]; simpl; [done|]. by rewrite IH, Hs.
Qed.

#[export] Instance heap_ok_proper : Proper (same_data ==> iff) heap_ok.
Proof.
  assert (∀ h h', same_data h h' → heap_ok h → heap_ok h') as Hp.
  { intros h h' Hs [Hn Hsh]. split; [by rewrite (same_data_length _ _ Hs)|].
    intros a o Ha. symmetry in Hs. destruct (same_data_lookup _ _ _ _ Hs Ha) as (o' & Ha' & E).
    replace (shares o) with (shares o') by (by inversion E). eauto. }
  intros h h' Hs. split; apply Hp; [done|by symmetry].
Qed.

(** ** Lemmas: linked queues *)
Lemma linked_lookup h q a : linked h q → a ∈ q → ∃ o, h !! a = Some o.
Proof.
  intros Hl (l1 & l2 & ->)%list_elem_of_split.
  destruct (Hl l1 a l2 eq_refl) as (o & ? & _). eauto.
Qed.

Lemma linked_frame h h' q :
  linked h q → (∀ a, a ∈ q → h' !! a = h !! a) → linked h' q.
Proof.
  intros Hl Heq l1 a l2 E. destruct (Hl l1 a l2 E) as (o & Ha & ? & ?).
  exists o. rewrite Heq; [done|]. rewrite E. set_solver.
Qed.

Lemma linked_nil h : linked h [].
Proof. by intros [|] ? ? ?. Qed.

(** Appending: only the old last order and the new one change. *)
Lemma linked_snoc h h' q a oa :
  linked h q → NoDup q → a ∉ q →
  h' !! a = Some oa → prev oa = last q → next oa = None →
  (∀ b, b ∈ q → h' !! b = (if decide (last q = Some b) then set_next (Some a) else id) <$> h !! b) →
  linked h' (q ++ [a]).
Proof.
  intros Hl Hnd Ha Hoa Hp Hn Hq l1 x l2 E.
  destruct l2 as [|y l2 _] using rev_ind.
  { apply app_inj_tail in E as [-> ->]. eauto. }
  rewrite app_comm_cons, app_assoc in E. apply app_inj_tail in E as [-> ->].
  destruct (Hl l1 x l2 eq_refl) as (ox & Hx & Hpx & Hnx).
  rewrite Hq, Hx by set_solver. simpl. eexists. split; [done|].
  destruct l2 as [|z l2].
  - rewrite decide_True by apply last_snoc. done.
  - rewrite decide_False; [done|]. rewrite last_app_cons, last_cons_cons.
    intros Hlast%last_Some_elem_of. apply NoDup_middle in Hnd. set_solver.
Qed.

Lemma relink_id l1 l2 b o : b ∉ l1 → b ∉ l2 → relink l1 l2 b o = o.
Proof.
  intros H1 H2. unfold relink.
  rewrite !decide_False by (by intros ?%head_Some_elem_of || by intros ?%last_Some_elem_of). done.
Qed.

Lemma linked_remove h h' l1 a l2 :
  linked h (l1 ++ a :: l2) → NoDup (l1 ++ a :: l2) →
  (∀ b, b ∈ l1 ++ l2 → h' !! b = relink l1 l2 b <$> h !! b) →
  linked h' (l1 ++ l2).
Proof.
  intros Hl (Ha1 & Ha2 & Hnd)%NoDup_middle Hq m1 x m2 E.
  assert (Hx : x ∈ l1 ++ l2) by (rewrite E; set_solver).
  rewrite Hq by done. apply app_eq_inv in E as [(k & -> & E)|(k & -> & ->)].
  - destruct k as [|y k]; simpl in E.
    + subst l2. rewrite app_nil_r in *.
      destruct (Hl (m1 ++ [a]) x m2) as (o & -> & Hp & Hn); [by rewrite <-app_assoc|].
      eexists. split; [done|]. unfold relink. simpl. rewrite (decide_True (P:=Some x = Some x)) by done.
      rewrite decide_False; [done|]. intros ?%last_Some_elem_of.
      apply NoDup_app in Hnd as (_ & Hd & _). by apply (Hd x); [|left].
    + injection E as <- ->.
      destruct (Hl m1 x (k ++ a :: l2)) as (o & -> & Hp & Hn); [by rewrite <-app_assoc|].
      eexists. split; [done|]. unfold relink. rewrite (decide_False (P:=head l2 = _)).
      2:{ intros ?%head_Some_elem_of. apply NoDup_app in Hnd as (_ & Hd & _). apply (Hd x); set_solver. }
      destruct k as [|z k].
      * rewrite decide_True by apply last_snoc. done.
      * rewrite decide_False; [done|]. rewrite last_app_cons, last_cons_cons.
        intros ?%last_Some_elem_of. rewrite <-app_assoc in Hnd. apply NoDup_middle in Hnd. set_solver.
  - destruct (Hl (l1 ++ a :: k) x m2) as (o & -> & Hp & Hn); [by rewrite <-app_assoc|].
    eexists. split; [done|]. unfold relink. rewrite (decide_False (P:=last l1 = _)).
    2:{ intros ?%last_Some_elem_of. apply NoDup_app in Hnd as (_ & Hd & _). apply (Hd x); set_solver. }
    rewrite last_app_cons in Hp. destruct k as [|z k]; simpl.
    * rewrite decide_True by done. by rewrite app_nil_r.
    * rewrite decide_False. { simpl. by rewrite last_app_cons, Hp. }
      intros [= ->]. apply NoDup_app in Hnd as (_ & _ & Hnd). apply NoDup_cons in Hnd. set_solver.
Qed.

(** ** Lemmas: quantities and counts *)
Lemma qty_app h q1 q2 : qty h (q1 ++ q2) = qty h q1 + qty h q2.
Proof. induction q1 as [|a q1 IH]; simpl; [done|]. rewrite IH. lia. Qed.

Lemma qty_cons h a q : qty h (a :: q) = shares_of h a + qty h q.
Proof. done. Qed.

Lemma qty_frame h h' q : (∀ a, a ∈ q → shares_of h' a = shares_of h a) → qty h' q = qty h q.
Proof.
  induction q as [|a q IH]; simpl; [done|]. intros Heq.
  rewrite Heq, IH by set_solver. done.
Qed.

Lemma shares_of_Some h a o : h !! a = Some o → shares_of h a = shares o.
Proof. intros Ha. unfold shares_of. by rewrite Ha. Qed.

Lemma shares_of_bound h a : heap_ok h → 0 ≤ shares_of h a < 2 ^ 32.
Proof.
  intros [_ Hs]. unfold shares_of. destruct (h !! a) as [o|] eqn:Ha; simpl; eauto. lia.
Qed.

Lemma qty_bound h q : heap_ok h → 0 ≤ qty h q ≤ Z.of_nat (length q) * (2 ^ 32 - 1).
Proof.
  intros Hh. induction q as [|a q IH]; simpl; [lia|].
  pose proof (shares_of_bound h a Hh). lia.
Qed.

Lemma linked_length h q : linked h q → NoDup q → (length q ≤ length h)%nat.
Proof.
  intros Hl Hnd. apply NoDup_length_le_bound; [done|]. intros a Ha.
  destruct (linked_lookup _ _ _ Hl Ha) as (o & Ho). by eapply lookup_lt_Some.
Qed.

(** 64 bits are enough for any total and 32 bits for any count. *)
Lemma qty_u64 h q : heap_ok h → linked h q → NoDup q → 0 ≤ qty h q < 2 ^ 64.
Proof.
  intros Hh Hl Hnd. pose proof (qty_bound h q Hh). pose proof (linked_length h q Hl Hnd).
  pose proof (ho_size _ Hh). nia.
Qed.

Lemma level_rep_frame h h' l q :
  level_rep h l q → (∀ a, a ∈ q → h' !! a = h !! a) → level_rep h' l q.
Proof.
  intros [? Hl ? ? Hq ?] Heq. split; try done; [by eapply linked_frame|].
  rewrite Hq. symmetry. apply qty_frame. intros a Ha. unfold shares_of. by rewrite Heq.
Qed.

Lemma level_rep_default h : level_rep h level_default [].
Proof. split; try done; [by constructor|apply linked_nil]. Qed.

Lemma level_empty_rep h l q : level_rep h l q → level_empty l = bool_decide (q = []).
Proof.
  intros [_ _ _ _ _ Hc]. unfold level_empty. rewrite Hc.
  destruct q as [|a q]; [done|]. rewrite bool_decide_eq_false_2 by done.
  apply Z.eqb_neq. simpl length. lia.
Qed.

(** The queue a level represents is the one its pointers spell out. *)
Lemma walk_linked h q : linked h q → walk h (length q) (head q) = q.
Proof.
  intros Hl. enough (∀ q1 q2, q = q1 ++ q2 → walk h (length q2) (head q2) = q2) as Hw
    by (by apply (Hw [])).
  intros q1 q2; revert q1; induction q2 as [|a q2 IH]; intros q1 E; simpl; [done|].
  destruct (Hl q1 a q2 E) as (o & -> & _ & ->). f_equal.
  apply (IH (q1 ++ [a])). by rewrite <-app_assoc.
Qed.

Lemma level_queue_rep h l q : level_rep h l q → level_queue h l = q.
Proof.
  intros [_ Hl Hh _ _ Hc]. unfold level_queue. rewrite Hh, Hc, Nat2Z.id.
  by apply walk_linked.
Qed.

Lemma level_rep_inj h l q1 q2 : level_rep h l q1 → level_rep h l q2 → q1 = q2.
Proof. intros H1%level_queue_rep H2%level_queue_rep. congruence. Qed.

Lemma heap_ok_insert h a o : heap_ok h → 0 ≤ shares o < 2 ^ 32 → heap_ok (<[a := o]> h).
Proof.
  intros [Hn Hs] Ho. split; [by rewrite length_insert|]. intros c oc.
  destruct (decide (c = a)) as [->|Hne].
  - intros Hc. pose proof (lookup_lt_Some _ _ _ Hc) as Hlt. rewrite length_insert in Hlt.
    rewrite list_lookup_insert_eq in Hc by done. by injection Hc as <-.
  - rewrite list_lookup_insert_ne by done. apply Hs.
Qed.

(** ** Lemmas: the operations *)
Lemma add_order_bounds h q a o :
  heap_ok h → linked h q → NoDup q → h !! a = Some o → a ∉ q →
  0 ≤ qty h q + shares o < 2 ^ 64 ∧ 0 ≤ Z.of_nat (length q) + 1 < 2 ^ 32.
Proof.
  intros Hh Hl Hnd Ha Hnin.
  assert (Hlen : (length (a :: q) ≤ length h)%nat).
  { apply NoDup_length_le_bound; [by apply NoDup_cons|].
    intros b [->|Hb]%elem_of_cons; [by eapply lookup_lt_Some|].
    destruct (linked_lookup _ _ _ Hl Hb) as (? & ?). by eapply lookup_lt_Some. }
  simpl in Hlen. pose proof (qty_bound h q Hh). pose proof (ho_size _ Hh).
  pose proof (ho_shares _ Hh _ _ Ha). nia.
Qed.

(** Aggregates and ends after an append whose links are right. *)
Lemma level_rep_snoc h h' l l' q a o :
  heap_ok h → level_rep h l q → h !! a = Some o → a ∉ q →
  same_data h h' → linked h' (q ++ [a]) →
  total_qty l' = u64 (total_qty l + shares o) → order_count l' = u32 (order_count l + 1) →
  lvl_head l' = head (q ++ [a]) → lvl_tail l' = Some a →
  level_rep h' l' (q ++ [a]).
Proof.
  intros Hh [Hnd Hl _ _ Hq Hc] Ha Hnin Hs Hl' Eq Ec Hhd Htl.
  destruct (add_order_bounds h q a o) as [Hb1 Hb2]; [done..|]. split; try done.
  - apply NoDup_app. split_and!; [done|set_solver|apply NoDup_singleton].
  - by rewrite last_snoc.
  - rewrite Eq, qty_app, <-Hs, Hq. simpl. rewrite (shares_of_Some h a o) by done.
    rewrite u64_small; lia.
  - rewrite Ec, Hc, length_app. simpl. rewrite u32_small; lia.
Qed.

Lemma on_ptr_lookup f p h b :
  on_ptr f p h !! b = (if decide (p = Some b) then f else id) <$> h !! b.
Proof.
  destruct p as [a|]; simpl; [|by destruct (h !! b)].
  destruct (decide (Some a = Some b)) as [[= <-]|Hne].
  - by rewrite list_lookup_alter_eq.
  - rewrite list_lookup_alter_ne by congruence. by destruct (h !! b).
Qed.

Lemma on_ptr_same_data f p h :
  (∀ o, erase_links (f o) = erase_links o) → same_data h (on_ptr f p h).
Proof.
  intros Hf. apply list_eq. intros b. rewrite !list_lookup_fmap, on_ptr_lookup.
  destruct (h !! b) as [o|]; simpl; [|done]. case_decide; by rewrite ?Hf.
Qed.

(** The [if (p) p->field = v; else end_pointer = w;] statements of the two list
    operations. *)
Lemma end_or_neighbour (h : heap) (p : ptr) f (l l0 : PriceLevel) :
  (∀ a, p = Some a → is_Some (h !! a)) →
  (match p with
   | Some t => h ← modify h (Some t) f; Ok (h, l)
   | None => Ok (h, l0)
   end) = Ok (on_ptr f p h, match p with Some _ => l | None => l0 end).
Proof.
  destruct p as [a|]; [|done]. intros Ha. destruct (Ha a eq_refl) as (o & Ho).
  heap_step. do 2 f_equal. apply list_eq. intros b.
  destruct (decide (a = b)) as [<-|Hne].
  - rewrite list_lookup_insert_eq, list_lookup_alter_eq, Ho by (by eapply lookup_lt_Some). done.
  - by rewrite list_lookup_insert_ne, list_lookup_alter_ne by done.
Qed.

Section OpLemmas.
Context `{BuildMode}.

Lemma add_order_ok h l q a o :
  heap_ok h → level_rep h l q → h !! a = Some o → a ∉ q →
  ∃ h' l', add_order h l (Some a) = Ok (h', l') ∧ level_rep h' l' (q ++ [a]) ∧
           same_data h h' ∧ ∀ b, b ∉ a :: q → h' !! b = h !! b.
Proof.
  intros Hh Hr Ha Hnin. pose proof Hr as [Hnd Hl Hhd Htl _ _].
  pose proof (lookup_lt_Some _ _ _ Ha) as Hlt.
  set (o1 := set_next None (set_prev (last q) o)). set (h1 := <[a := o1]> h).
  assert (Hh1 : h1 !! a = Some o1) by (by apply list_lookup_insert_eq).
  assert (Hs1 : same_data h h1) by (by eapply same_data_insert).
  assert (Hh1ne : ∀ b, b ≠ a → h1 !! b = h !! b) by (intros b ?; by apply list_lookup_insert_ne).
  assert (Hlast : ∀ t, last q = Some t → t ≠ a ∧ is_Some (h1 !! t)).
  { intros t Ht%last_Some_elem_of. assert (t ≠ a) by (by intros ->).
    rewrite Hh1ne by done. split; [done|]. by eapply linked_lookup. }
  unfold add_order. rewrite Htl. heap_step. fold o1 h1.
  rewrite end_or_neighbour by (intros t Ht; by apply Hlast). simpl.
  set (h2 := on_ptr _ _ _).
  assert (Ha2 : h2 !! a = Some o1).
  { unfold h2. rewrite on_ptr_lookup, Hh1. simpl. rewrite decide_False; [done|].
    intros Ht. by destruct (Hlast a Ht). }
  assert (Hs2 : same_data h h2) by (rewrite Hs1; by apply on_ptr_same_data).
  heap_step. do 2 eexists. split; [done|]. split_and!; [|done|].
  - eapply (level_rep_snoc h); try done; [|destruct (last q) eqn:El; simpl; try done..].
    + eapply (linked_snoc h); try done. intros b Hb. unfold h2.
      rewrite on_ptr_lookup, Hh1ne by (by intros ->). done.
    + rewrite Hhd. by destruct q.
    + by apply last_None in El as ->.
  - intros b [? Hb]%not_elem_of_cons. unfold h2. rewrite on_ptr_lookup, Hh1ne by done.
    rewrite decide_False; [by destruct (h !! b)|]. by intros ?%last_Some_elem_of.
Qed.

Lemma unlinked_lookup h l1 a l2 b :
  a ∉ l1 → a ∉ l2 →
  unlinked h l1 a l2 !! b = (if decide (b = a) then erase_links else relink l1 l2 b) <$> h !! b.
Proof.
  intros H1 H2. unfold unlinked. destruct (decide (b = a)) as [->|Hne].
  - rewrite list_lookup_alter_eq, !on_ptr_lookup.
    rewrite !decide_False by (by intros ?%head_Some_elem_of || by intros ?%last_Some_elem_of).
    by destruct (h !! a).
  - rewrite list_lookup_alter_ne, !on_ptr_lookup by done. by destruct (h !! b).
Qed.

Lemma unlinked_same_data h l1 a l2 : same_data h (unlinked h l1 a l2).
Proof.
  unfold unlinked. etransitivity; [apply on_ptr_same_data|etransitivity; [apply on_ptr_same_data|]].
  3: apply (on_ptr_same_data erase_links (Some a)).
  all: done.
Qed.

(** Aggregates and ends after a removal. *)
Lemma level_rep_removed h l l' l1 a l2 o :
  heap_ok h → level_rep h l (l1 ++ a :: l2) → h !! a = Some o →
  total_qty l' = u64 (total_qty l - shares o) → order_count l' = u32 (order_count l - 1) →
  lvl_head l' = head (l1 ++ l2) → lvl_tail l' = last (l1 ++ l2) →
  level_rep (unlinked h l1 a l2) l' (l1 ++ l2).
Proof.
  intros Hh [Hnd Hl _ _ Hq Hc] Ha Eq Ec Hhd Htl.
  pose proof (NoDup_middle _ _ _ Hnd) as (H1 & H2 & Hnd').
  assert (Hl' : linked (unlinked h l1 a l2) (l1 ++ l2)).
  { eapply linked_remove; [done..|]. intros b Hb. rewrite unlinked_lookup by done.
    rewrite decide_False; [done|]. intros ->. set_solver. }
  assert (Hh' : heap_ok (unlinked h l1 a l2)) by (by rewrite <-unlinked_same_data).
  split; try done.
  - pose proof (qty_u64 _ _ Hh' Hl' Hnd') as Hb. rewrite <-unlinked_same_data in Hb |- *.
    rewrite qty_app in Hb. rewrite Eq, Hq, !qty_app, qty_cons, (shares_of_Some h a o) by done.
    rewrite u64_small; lia.
  - pose proof (linked_length _ _ Hl' Hnd'). pose proof (ho_size _ Hh').
    rewrite length_app in *. simpl in Hc. rewrite Ec, Hc, u32_small; lia.
Qed.

Lemma head_removed {A} (l1 : list A) a l2 :
  (match last l1 with Some _ => head (l1 ++ a :: l2) | None => head l2 end) = head (l1 ++ l2).
Proof.
  destruct (last l1) eqn:E; [|by apply last_None in E as ->]. by destruct l1.
Qed.

Lemma last_removed {A} (l1 : list A) a l2 :
  (match head l2 with Some _ => last (l1 ++ a :: l2) | None => last l1 end) = last (l1 ++ l2).
Proof. destruct l2 as [|b l2]; simpl; [by rewrite app_nil_r|]. by rewrite !last_app_cons. Qed.

Lemma remove_order_ok h l l1 a l2 o :
  heap_ok h → level_rep h l (l1 ++ a :: l2) → h !! a = Some o →
  ∃ l', remove_order h l (Some a) = Ok (unlinked h l1 a l2, l') ∧
        level_rep (unlinked h l1 a l2) l' (l1 ++ l2).
Proof.
  intros Hh Hr Ha. pose proof Hr as [Hnd Hl Hhd Htl Hq Hc].
  destruct (Hl l1 a l2 eq_refl) as (o' & Ha' & Hp & Hn).
  rewrite Ha in Ha'. injection Ha' as <-.
  destruct (NoDup_middle _ _ _ Hnd) as (Hn1 & Hn2 & _).
  assert (Hge : shares o <= total_qty l).
  { rewrite Hq, qty_app, qty_cons, (shares_of_Some h a o) by done.
    pose proof (qty_bound h l1 Hh). pose proof (qty_bound h l2 Hh). lia. }
  set (h1 := on_ptr (set_next (head l2)) (last l1) h).
  assert (Ha1 : h1 !! a = Some o).
  { unfold h1. rewrite on_ptr_lookup, Ha. simpl. rewrite decide_False; [done|].
    by intros ?%last_Some_elem_of. }
  set (h2 := on_ptr (set_prev (last l1)) (head l2) h1).
  assert (Ha2 : h2 !! a = Some o).
  { unfold h2. rewrite on_ptr_lookup, Ha1. simpl. rewrite decide_False; [done|].
    by intros ?%head_Some_elem_of. }
  unfold remove_order. heap_step.
  rewrite !cassert_true by (apply Z.leb_le + apply Z.ltb_lt; rewrite ?Hc, ?length_app; simpl; lia).
  simpl. rewrite Hp, Hn, end_or_neighbour.
  2:{ intros p Hp'%last_Some_elem_of. eapply linked_lookup; [done|set_solver]. }
  simpl. fold h1. heap_step. rewrite Hn, Hp, end_or_neighbour.
  2:{ intros n Hn'%head_Some_elem_of. unfold h1. rewrite on_ptr_lookup, fmap_is_Some.
      eapply linked_lookup; [done|set_solver]. }
  simpl. fold h2. heap_step.
  assert (E : <[a := set_next None (set_prev None o)]> h2 = unlinked h l1 a l2).
  { apply list_eq. intros b. rewrite unlinked_lookup by done. unfold h2, h1.
    destruct (decide (b = a)) as [->|Hne].
    - rewrite list_lookup_insert_eq, Ha by (by eapply lookup_lt_Some). done.
    - rewrite list_lookup_insert_ne, !on_ptr_lookup by done. by destruct (h !! b). }
  rewrite E. eexists. split; [done|]. eapply level_rep_removed; try done.
  3: rewrite <-(head_removed l1 a l2). 4: rewrite <-(last_removed l1 a l2).
  all: by destruct (last l1), (head l2).
Qed.

(** The [total_qty] of a level is reduced along with the order's shares. *)
Lemma reduce_shares_ok h l q a o by_ :
  heap_ok h → level_rep h l q → a ∈ q → h !! a = Some o → 0 ≤ by_ ≤ shares o →
  ∃ l', reduce_shares h l (Some a) by_ = Ok (<[a := set_shares (shares o - by_) o]> h, l') ∧
        level_rep (<[a := set_shares (shares o - by_) o]> h) l' q.
Proof.
  intros Hh [Hnd Hl Hhd Htl Hq Hc] (l1 & l2 & ->)%list_elem_of_split Ha Hby.
  pose proof (NoDup_middle _ _ _ Hnd) as (Hn1 & Hn2 & _).
  pose proof (ho_shares _ Hh _ _ Ha) as Hs.
  pose proof (qty_u64 _ _ Hh Hl Hnd) as Hb.
  assert (Hq' : qty h (l1 ++ a :: l2) = shares o + (qty h l1 + qty h l2)).
  { rewrite qty_app, qty_cons, (shares_of_Some h a o) by done. lia. }
  pose proof (qty_bound h l1 Hh). pose proof (qty_bound h l2 Hh).
  unfold reduce_shares. heap_step.
  rewrite cassert_true; [|apply andb_true_iff; split; apply Z.leb_le; lia].
  heap_step. rewrite (u32_small (shares o - by_)) by lia.
  eexists. split; [done|]. split; simpl; try done.
  - intros m1 b m2 E. destruct (Hl m1 b m2 E) as (ob & Hob & Hp & Hn).
    destruct (decide (b = a)) as [->|Hne].
    + rewrite list_lookup_insert_eq by (by eapply lookup_lt_Some).
      rewrite Ha in Hob. injection Hob as <-. eauto.
    + rewrite list_lookup_insert_ne by done. eauto.
  - rewrite Hq, Hq', qty_app, qty_cons. erewrite shares_of_Some.
    2: apply list_lookup_insert_eq; by eapply lookup_lt_Some.
    simpl. rewrite !(qty_frame h (<[a:=_]> h)), u64_small; [lia|lia|..].
    all: intros b Hb'; unfold shares_of; rewrite list_lookup_insert_ne; [done|by intros ->].
Qed.

(** More than the order holds: the assertion stops a debug build, a release build
    wraps the order's 32-bit share count. *)
Lemma reduce_shares_too_much h l a o by_ :
  h !! a = Some o → shares o < by_ →
  reduce_shares h l (Some a) by_ =
  if ndebug then Ok (<[a := set_shares (u32 (shares o - by_)) o]> h,
                     set_total (u64 (total_qty l - by_)) l)
  else Fault AssertFailed.
Proof.
  intros Ha Hlt. unfold reduce_shares. heap_step.
  replace (by_ <=? shares o) with false by (symmetry; apply Z.leb_gt; lia).
  unfold cassert. simpl. destruct ndebug; heap_step; done.
Qed.

End OpLemmas.
