(* ===== verification/OrderBook.v ===== *)
(** * The order book (include/book/order_book.hpp, src/book/order_book.cpp,
      include/book/bbo.hpp)

    [OrderBook] is the class's state: two arrays of price levels, the map from order
    reference to order, the pool, and per side the reference price and the best
    index.  Every method is one definition, with the guards, early returns and
    write order of the source; a method that may abort or reach undefined behaviour
    returns an [outcome].

    - [std::array<PriceLevel, kLevels>] is a finite map read with [!!!]: a level
      that was never written is [PriceLevel{}].  Indices are checked ([level_at]).
    - A non-null [Order*] is the slot's address.
    - The iteration order of [std::unordered_map] is unspecified: the methods that
      iterate over [order_map_] take it as an argument ([IterOrder]), a function
      that lists every entry of the map exactly once in some order. *)

From S2P Require Import Prelude Bytes Messages Parser Order PriceLevel.

(** ** BBO *)
Record BBO := mkBBO {
  bid_price : Z;
  bid_qty : Z;
  ask_price : Z;
  ask_qty : Z;
}.

Definition bbo_default : BBO := mkBBO 0 0 0 0.

Definition bbo_valid (b : BBO) : bool :=
  (0 <? bid_price b) && (0 <? ask_price b) && (bid_price b <? ask_price b).

(** ** State *)
Definition kLevels : Z := 8192.

#[export] Instance price_level_inhabited : Inhabited PriceLevel := populate level_default.

Abbreviation level_array := (gmap Z PriceLevel).

Record OrderBook := mkBook {
  bid_levels : level_array;
  ask_levels : level_array;
  order_map : gmap Z addr;
  pool : OrderPool;
  bid_ref : Z;
  ask_ref : Z;
  best_bid_idx : Z;
  best_ask_idx : Z;
  is_open : bool;
}.

Definition set_bid_levels v (b : OrderBook) : OrderBook :=
  mkBook v (ask_levels b) (order_map b) (pool b) (bid_ref b) (ask_ref b)
    (best_bid_idx b) (best_ask_idx b) (is_open b).
Definition set_ask_levels v (b : OrderBook) : OrderBook :=
  mkBook (bid_levels b) v (order_map b) (pool b) (bid_ref b) (ask_ref b)
    (best_bid_idx b) (best_ask_idx b) (is_open b).
Definition set_order_map v (b : OrderBook) : OrderBook :=
  mkBook (bid_levels b) (ask_levels b) v (pool b) (bid_ref b) (ask_ref b)
    (best_bid_idx b) (best_ask_idx b) (is_open b).
Definition set_pool v (b : OrderBook) : OrderBook :=
  mkBook (bid_levels b) (ask_levels b) (order_map b) v (bid_ref b) (ask_ref b)
    (best_bid_idx b) (best_ask_idx b) (is_open b).
Definition set_bid_ref v (b : OrderBook) : OrderBook :=
  mkBook (bid_levels b) (ask_levels b) (order_map b) (pool b) v (ask_ref b)
    (best_bid_idx b) (best_ask_idx b) (is_open b).
Definition set_ask_ref v (b : OrderBook) : OrderBook :=
  mkBook (bid_levels b) (ask_levels b) (order_map b) (pool b) (bid_ref b) v
    (best_bid_idx b) (best_ask_idx b) (is_open b).
Definition set_best_bid v (b : OrderBook) : OrderBook :=
  mkBook (bid_levels b) (ask_levels b) (order_map b) (pool b) (bid_ref b) (ask_ref b)
    v (best_ask_idx b) (is_open b).
Definition set_best_ask v (b : OrderBook) : OrderBook :=
  mkBook (bid_levels b) (ask_levels b) (order_map b) (pool b) (bid_ref b) (ask_ref b)
    (best_bid_idx b) v (is_open b).
Definition set_open v (b : OrderBook) : OrderBook :=
  mkBook (bid_levels b) (ask_levels b) (order_map b) (pool b) (bid_ref b) (ask_ref b)
    (best_bid_idx b) (best_ask_idx b) v.

(** The orders' storage, shared by the pool, the map and every level. *)
Definition heap_of (b : OrderBook) : heap := slots (pool b).
Definition set_heap (h : heap) (b : OrderBook) : OrderBook :=
  set_pool (mkPool h (free_head (pool b))) b.

(** An iteration order of the hash map. *)
Record IterOrder := mkIter {
  entries : gmap Z addr → list (Z * addr);
  entries_perm : ∀ m, entries m ≡ₚ map_to_list m;
}.

(** ** Constructor and accessors *)

(** The default of the constructor's argument: 1M orders. *)
Definition kPoolSize : nat := Z.to_nat (Z.shiftl 1 20).

Definition OrderBook_new (pool_size : nat) : outcome OrderBook :=
  p ← OrderPool_new pool_size;
  Ok (mkBook ∅ ∅ ∅ p 0 0 (-1) (-1) false).

Definition book_order_count (b : OrderBook) : Z := Z.of_nat (size (order_map b)).
Definition has_order (b : OrderBook) (ref : Z) : bool := bool_decide (is_Some (order_map b !! ref)).

Definition in_range (idx : Z) : bool := (0 <=? idx) && (idx <? kLevels).

(** [levels[idx]] *)
Definition level_at (lv : level_array) (idx : Z) : outcome PriceLevel :=
  if in_range idx then Ok (lv !!! idx) else Fault OutOfRange.

Definition bid_level (b : OrderBook) (idx : Z) : option PriceLevel :=
  if (idx <? 0) || (kLevels <=? idx) then None else Some (bid_levels b !!! idx).
Definition ask_level (b : OrderBook) (idx : Z) : option PriceLevel :=
  if (idx <? 0) || (kLevels <=? idx) then None else Some (ask_levels b !!! idx).

Definition bid_idx (b : OrderBook) (price : Z) : outcome Z :=
  int_result (i32 (bid_ref b) - i32 price).
Definition ask_idx (b : OrderBook) (price : Z) : outcome Z :=
  int_result (i32 price - i32 (ask_ref b)).
Definition price_from_bid_idx (b : OrderBook) (i : Z) : Z := u32 (bid_ref b - u32 i).
Definition price_from_ask_idx (b : OrderBook) (i : Z) : Z := u32 (ask_ref b + u32 i).

Section Methods.
Context `{BuildMode}.

(** ** Internal helpers *)
Definition insert_at (b : OrderBook) (o : addr) (idx : Z) : outcome OrderBook :=
  h ← modify (heap_of b) (Some o) (set_level_idx idx);
  c ← deref h (Some o);
  if side c =? ch_B then
    l ← level_at (bid_levels b) idx;
    '(h, l) ← add_order h l (Some o);
    let b := set_bid_levels (<[idx := l]> (bid_levels b)) (set_heap h b) in
    Ok (if (best_bid_idx b <? 0) || (idx <? best_bid_idx b) then set_best_bid idx b else b)
  else
    l ← level_at (ask_levels b) idx;
    '(h, l) ← add_order h l (Some o);
    let b := set_ask_levels (<[idx := l]> (ask_levels b)) (set_heap h b) in
    Ok (if (best_ask_idx b <? 0) || (idx <? best_ask_idx b) then set_best_ask idx b else b).

(** The scan of [advance_best_bid] / [advance_best_ask]: the first non-empty level
    at or after [i], -1 if there is none. *)
Fixpoint scan_levels (lv : level_array) (fuel : nat) (i : Z) : outcome Z :=
  match fuel with
  | O => Ok (-1)
  | S fuel =>
      l ← level_at lv i;
      if negb (level_empty l) then Ok i else scan_levels lv fuel (i + 1)
  end.

Definition advance_best_bid (b : OrderBook) : outcome OrderBook :=
  let start := best_bid_idx b + 1 in
  i ← scan_levels (bid_levels b) (Z.to_nat (kLevels - start)) start;
  Ok (set_best_bid i b).

Definition advance_best_ask (b : OrderBook) : outcome OrderBook :=
  let start := best_ask_idx b + 1 in
  i ← scan_levels (ask_levels b) (Z.to_nat (kLevels - start)) start;
  Ok (set_best_ask i b).

Definition recentre_bids (it : IterOrder) (b : OrderBook) (new_ref : Z) : outcome OrderBook :=
  let b := set_bid_ref new_ref (set_best_bid (-1) (set_bid_levels ∅ b)) in
  foldM (λ b e,
    c ← deref (heap_of b) (Some e.2);
    if negb (side c =? ch_B) then Ok b else
    h ← modify (heap_of b) (Some e.2) (set_next None);
    h ← modify h (Some e.2) (set_prev None);
    h ← modify h (Some e.2) (set_level_idx (-1));
    idx ← bid_idx b (price c);
    if in_range idx then insert_at (set_heap h b) e.2 idx else Ok (set_heap h b))
  (entries it (order_map b)) b.

Definition recentre_asks (it : IterOrder) (b : OrderBook) (new_ref : Z) : outcome OrderBook :=
  let b := set_ask_ref new_ref (set_best_ask (-1) (set_ask_levels ∅ b)) in
  foldM (λ b e,
    c ← deref (heap_of b) (Some e.2);
    if negb (side c =? ch_S) then Ok b else
    h ← modify (heap_of b) (Some e.2) (set_next None);
    h ← modify h (Some e.2) (set_prev None);
    h ← modify h (Some e.2) (set_level_idx (-1));
    idx ← ask_idx b (price c);
    if in_range idx then insert_at (set_heap h b) e.2 idx else Ok (set_heap h b))
  (entries it (order_map b)) b.

Definition insert_order (it : IterOrder) (b : OrderBook) (o : addr) : outcome OrderBook :=
  c ← deref (heap_of b) (Some o);
  if side c =? ch_B then
    let b := if bid_ref b =? 0 then set_bid_ref (price c) b else b in
    idx ← bid_idx b (price c);
    '(b, idx) ← (if (idx <? 0) || (kLevels <=? idx) then
                   b ← recentre_bids it b (price c);
                   idx ← bid_idx b (price c);
                   Ok (b, idx)
                 else Ok (b, idx));
    cassert (in_range idx);;
    insert_at b o idx
  else
    let b := if ask_ref b =? 0 then set_ask_ref (price c) b else b in
    idx ← ask_idx b (price c);
    '(b, idx) ← (if (idx <? 0) || (kLevels <=? idx) then
                   b ← recentre_asks it b (price c);
                   idx ← ask_idx b (price c);
                   Ok (b, idx)
                 else Ok (b, idx));
    cassert (in_range idx);;
    insert_at b o idx.

Definition book_remove_order (b : OrderBook) (o : addr) : outcome OrderBook :=
  c ← deref (heap_of b) (Some o);
  cassert (0 <=? level_idx c);;
  let idx := level_idx c in
  b ← (if side c =? ch_B then
         l ← level_at (bid_levels b) idx;
         '(h, l) ← remove_order (heap_of b) l (Some o);
         let b := set_bid_levels (<[idx := l]> (bid_levels b)) (set_heap h b) in
         if (idx =? best_bid_idx b) && level_empty l then advance_best_bid b else Ok b
       else
         l ← level_at (ask_levels b) idx;
         '(h, l) ← remove_order (heap_of b) l (Some o);
         let b := set_ask_levels (<[idx := l]> (ask_levels b)) (set_heap h b) in
         if (idx =? best_ask_idx b) && level_empty l then advance_best_ask b else Ok b);
  h ← modify (heap_of b) (Some o) (set_level_idx (-1));
  Ok (set_heap h b).

Definition book_reduce_shares (b : OrderBook) (o : addr) (qty : Z) : outcome OrderBook :=
  c ← deref (heap_of b) (Some o);
  cassert (0 <=? level_idx c);;
  let idx := level_idx c in
  if side c =? ch_B then
    l ← level_at (bid_levels b) idx;
    '(h, l) ← reduce_shares (heap_of b) l (Some o) qty;
    Ok (set_bid_levels (<[idx := l]> (bid_levels b)) (set_heap h b))
  else
    l ← level_at (ask_levels b) idx;
    '(h, l) ← reduce_shares (heap_of b) l (Some o) qty;
    Ok (set_ask_levels (<[idx := l]> (ask_levels b)) (set_heap h b)).

(** ** Message handlers *)
Definition on_system_event (it : IterOrder) (b : OrderBook) (msg : SystemEventMsg)
  : outcome OrderBook :=
  let code := sys_event_code msg in
  if code =? ch_O then Ok (set_open true b)
  else if code =? ch_C then Ok (set_open false b)
  else if code =? ch_H then
    let b := set_open false b in
    h ← foldM (λ h e,
          h ← modify h (Some e.2) (set_prev None);
          h ← modify h (Some e.2) (set_next None);
          modify h (Some e.2) (set_level_idx (-1)))
        (entries it (order_map b)) (heap_of b);
    let b := set_ask_levels ∅ (set_bid_levels ∅ (set_heap h b)) in
    let b := set_best_ask (-1) (set_best_bid (-1) b) in
    let b := set_order_map ∅ b in
    p ← OrderPool_new (pool_capacity (pool b));
    Ok (set_pool p b)
  else Ok b.

Definition make_order (p : OrderPool) (ref shares price side : Z) : outcome (addr * OrderPool) :=
  '(o, p) ← alloc p;
  h ← modify (slots p) (Some o) (set_order_ref ref);
  h ← modify h (Some o) (set_shares shares);
  h ← modify h (Some o) (set_price price);
  h ← modify h (Some o) (set_side side);
  Ok (o, mkPool h (free_head p)).

Definition on_add (it : IterOrder) (b : OrderBook) (msg : AddOrderMsg) : outcome OrderBook :=
  if negb (is_open b) then Ok b else
  let ref := be64 (add_order_ref_num msg) in
  let shares := be32 (add_shares msg) in
  let price := be32 (add_price msg) in
  '(o, p) ← make_order (pool b) ref shares price (add_buy_sell msg);
  b ← insert_order it (set_pool p b) o;
  Ok (set_order_map (<[ref := o]> (order_map b)) b).

Definition on_add_mpid (it : IterOrder) (b : OrderBook) (msg : AddOrderMPIDMsg) : outcome OrderBook :=
  if negb (is_open b) then Ok b else
  let ref := be64 (mpid_order_ref_num msg) in
  let shares := be32 (mpid_shares msg) in
  let price := be32 (mpid_price msg) in
  '(o, p) ← make_order (pool b) ref shares price (mpid_buy_sell msg);
  b ← insert_order it (set_pool p b) o;
  Ok (set_order_map (<[ref := o]> (order_map b)) b).

Definition on_execute (b : OrderBook) (msg : ExecuteOrderMsg) : outcome OrderBook :=
  let ref := be64 (exec_order_ref_num msg) in
  let exec_qty := be32 (exec_executed_shares msg) in
  match order_map b !! ref with
  | None => Ok b
  | Some o =>
      b ← book_reduce_shares b o exec_qty;
      c ← deref (heap_of b) (Some o);
      if shares c =? 0 then
        b ← book_remove_order b o;
        let b := set_order_map (delete ref (order_map b)) b in
        p ← free (pool b) (Some o);
        Ok (set_pool p b)
      else Ok b
  end.

Definition on_execute_with_price (b : OrderBook) (msg : ExecuteOrderWithPriceMsg)
  : outcome OrderBook :=
  let ref := be64 (execp_order_ref_num msg) in
  let exec_qty := be32 (execp_executed_shares msg) in
  match order_map b !! ref with
  | None => Ok b
  | Some o =>
      b ← book_reduce_shares b o exec_qty;
      c ← deref (heap_of b) (Some o);
      if shares c =? 0 then
        b ← book_remove_order b o;
        let b := set_order_map (delete ref (order_map b)) b in
        p ← free (pool b) (Some o);
        Ok (set_pool p b)
      else Ok b
  end.

Definition on_cancel (b : OrderBook) (msg : CancelOrderMsg) : outcome OrderBook :=
  let ref := be64 (cancel_order_ref_num msg) in
  let cancel_qty := be32 (cancel_cancelled_shares msg) in
  match order_map b !! ref with
  | None => Ok b
  | Some o =>
      b ← book_reduce_shares b o cancel_qty;
      c ← deref (heap_of b) (Some o);
      if shares c =? 0 then
        b ← book_remove_order b o;
        let b := set_order_map (delete ref (order_map b)) b in
        p ← free (pool b) (Some o);
        Ok (set_pool p b)
      else Ok b
  end.

Definition on_delete (b : OrderBook) (msg : DeleteOrderMsg) : outcome OrderBook :=
  let ref := be64 (del_order_ref_num msg) in
  match order_map b !! ref with
  | None => Ok b
  | Some o =>
      b ← book_remove_order b o;
      let b := set_order_map (delete ref (order_map b)) b in
      p ← free (pool b) (Some o);
      Ok (set_pool p b)
  end.

Definition on_replace (it : IterOrder) (b : OrderBook) (msg : ReplaceOrderMsg) : outcome OrderBook :=
  let old_ref := be64 (repl_original_order_ref_num msg) in
  let new_ref := be64 (repl_new_order_ref_num msg) in
  let shares := be32 (repl_shares msg) in
  let price := be32 (repl_price msg) in
  match order_map b !! old_ref with
  | None => Ok b
  | Some old_o =>
      c ← deref (heap_of b) (Some old_o);
      let side := side c in
      b ← book_remove_order b old_o;
      let b := set_order_map (delete old_ref (order_map b)) b in
      p ← free (pool b) (Some old_o);
      '(new_o, p) ← make_order p new_ref shares price side;
      b ← insert_order it (set_pool p b) new_o;
      Ok (set_order_map (<[new_ref := new_o]> (order_map b)) b)
  end.

(** ** BBO query *)
Definition best_bid_offer (b : OrderBook) : outcome BBO :=
  let bbo := bbo_default in
  bbo ← (if 0 <=? best_bid_idx b then
           l ← level_at (bid_levels b) (best_bid_idx b);
           Ok (mkBBO (price_from_bid_idx b (best_bid_idx b)) (u32 (total_qty l))
                 (ask_price bbo) (ask_qty bbo))
         else Ok bbo);
  if 0 <=? best_ask_idx b then
    l ← level_at (ask_levels b) (best_ask_idx b);
    Ok (mkBBO (bid_price bbo) (bid_qty bbo)
          (price_from_ask_idx b (best_ask_idx b)) (u32 (total_qty l)))
  else Ok bbo.

End Methods.

(** Two iteration orders: the map's own and its reverse. *)
Definition iter_forward : IterOrder := mkIter map_to_list (λ m, reflexivity _).
Lemma reverse_perm (m : gmap Z addr) : reverse (map_to_list m) ≡ₚ map_to_list m.
Proof. apply reverse_Permutation. Qed.
Definition iter_backward : IterOrder := mkIter (λ m, reverse (map_to_list m)) reverse_perm.
