(* ===== verification/BookInv.v ===== *)
(** * Invariants of the order book

    [queues] gives, per side and level index, the addresses of the orders the level
    holds.  [side_ok] relates one side of the book (levels, best index, reference
    price) to its queues; [sides_ok] does it for both sides.  The lemmas of this file
    say what [insert_at], [book_remove_order], [book_reduce_shares] and the recentring
    loops do to the queues.  The bid and ask halves of the code are dual: the lemmas
    are stated once, for a side [sd], through the accessors below. *)

From S2P Require Import Prelude Order PriceLevel OrderBook.

(** ** The two sides *)
Inductive bside := Bid | Ask.

#[export] Instance bside_eq_dec : EqDecision bside.
Proof. solve_decision. Defined.

Definition side_char (sd : bside) : Z := match sd with Bid => ch_B | Ask => ch_S end.
Definition levels (sd : bside) (b : OrderBook) : level_array :=
  match sd with Bid => bid_levels b | Ask => ask_levels b end.
Definition set_levels (sd : bside) (v : level_array) (b : OrderBook) : OrderBook :=
  match sd with Bid => set_bid_levels v b | Ask => set_ask_levels v b end.
Definition best (sd : bside) (b : OrderBook) : Z :=
  match sd with Bid => best_bid_idx b | Ask => best_ask_idx b end.
Definition set_best (sd : bside) (v : Z) (b : OrderBook) : OrderBook :=
  match sd with Bid => set_best_bid v b | Ask => set_best_ask v b end.
Definition refp (sd : bside) (b : OrderBook) : Z :=
  match sd with Bid => bid_ref b | Ask => ask_ref b end.
Definition set_refp (sd : bside) (v : Z) (b : OrderBook) : OrderBook :=
  match sd with Bid => set_bid_ref v b | Ask => set_ask_ref v b end.
Definition idx_of (sd : bside) (b : OrderBook) (p : Z) : outcome Z :=
  match sd with Bid => bid_idx b p | Ask => ask_idx b p end.
Definition recentre `{BuildMode} (sd : bside) :=
  match sd with Bid => recentre_bids | Ask => recentre_asks end.

(** The index of price [p] when the reference price is [r]. *)
Definition price_idx (sd : bside) (r p : Z) : Z :=
  match sd with Bid => r - p | Ask => p - r end.

(** ** Invariants *)
Abbreviation queues := (bside → Z → list addr).

(** [bst] is the lowest non-empty index, -1 when every queue is empty. *)
Definition best_ok (bst : Z) (q : Z → list addr) : Prop :=
  (bst = -1 ∧ ∀ i, q i = []) ∨ (0 ≤ bst ∧ q bst ≠ [] ∧ ∀ i, i < bst → q i = []).

Record side_ok (h : heap) (sd : bside) (r : Z) (lv : level_array) (bst : Z)
    (q : Z → list addr) : Prop := {
  sk_rep : ∀ i, level_rep h (lv !!! i) (q i);
  sk_range : ∀ i a, a ∈ q i → 0 ≤ i < kLevels;
  sk_placed : ∀ i a, a ∈ q i → ∃ o, h !! a = Some o ∧
    side o = side_char sd ∧ level_idx o = i ∧ price_idx sd r (price o) = i;
  sk_best : best_ok bst q;
}.

Record sides_ok (b : OrderBook) (q : queues) : Prop := {
  ss_heap : heap_ok (heap_of b);
  ss_side : ∀ sd, side_ok (heap_of b) sd (refp sd b) (levels sd b) (best sd b) (q sd);
}.

(** One iteration of the recentring loop. *)
Definition recentre_step `{BuildMode} (sd : bside) (b : OrderBook) (e : Z * addr) : outcome OrderBook :=
  c ← deref (heap_of b) (Some e.2);
  if negb (side c =? side_char sd) then Ok b else
  h ← modify (heap_of b) (Some e.2) (set_next None);
  h ← modify h (Some e.2) (set_prev None);
  h ← modify h (Some e.2) (set_level_idx (-1));
  idx ← idx_of sd b (price c);
  if in_range idx then insert_at (set_heap h b) e.2 idx else Ok (set_heap h b).

(** Whether [a] is an order of side [sd] whose price has index [i] in the array. *)
Definition at_level (h : heap) (sd : bside) (r i : Z) (a : addr) : bool :=
  match h !! a with
  | Some o => (side o =? side_char sd) && (price_idx sd r (price o) =? i) && in_range i
  | None => false
  end.

(** The queues after recentring side [sd] on [r]: the orders listed by [l], in that
    order, each at the index of its price. *)
Definition q_recentred (h : heap) (q : queues) (sd : bside) (r : Z) (l : list addr) : queues :=
  <[sd := λ i, filter (at_level h sd r i) l]> q.

(** An order of the map, as the loop needs it. *)
Definition listed (h : heap) (a : addr) : Prop :=
  ∃ o sd, h !! a = Some o ∧ side o = side_char sd ∧ 0 ≤ price o < 2 ^ 31.

Definition erase_loc (o : Order) : Order := set_level_idx 0 (erase_links o).

(** The loop's invariant once the orders [l] are processed. *)
Record recentring (b0 : OrderBook) (q : queues) (sd : bside) (r : Z) (l : list addr)
    (b : OrderBook) : Prop := {
  rc_sides : sides_ok b (q_recentred (heap_of b0) q sd r l);
  rc_map : order_map b = order_map b0;
  rc_open : is_open b = is_open b0;
  rc_free : free_head (pool b) = free_head (pool b0);
  rc_ref : refp sd b = r;
  rc_other_ref : ∀ sd', sd ≠ sd' → refp sd' b = refp sd' b0;
  rc_data : erase_loc <$> heap_of b = erase_loc <$> heap_of b0;
  rc_frame : ∀ c, c ∉ l → heap_of b !! c = heap_of b0 !! c;
  rc_other : ∀ c o, heap_of b0 !! c = Some o → side o ≠ side_char sd → heap_of b !! c = Some o;
  rc_idx : ∀ c o o', c ∈ l → heap_of b0 !! c = Some o → side o = side_char sd →
    heap_of b !! c = Some o' →
    level_idx o' = if in_range (price_idx sd r (price o)) then price_idx sd r (price o) else -1;
}.

(** The heap once [a] is unlinked and marked as being in no level. *)
Definition detached (h : heap) (l1 : list addr) (a : addr) (l2 : list addr) (o : Order) : heap :=
  <[a := set_level_idx (-1) (erase_links o)]> (unlinked h l1 a l2).

(** What the internal helpers never touch. *)
Record same_meta (b b' : OrderBook) : Prop := {
  sm_map : order_map b' = order_map b;
  sm_open : is_open b' = is_open b;
  sm_free : free_head (pool b') = free_head (pool b);
  sm_ref : ∀ sd, refp sd b' = refp sd b;
}.

(** The queues after [l] becomes the queue of one level. *)
Definition q_set (q : queues) (sd : bside) (i : Z) (l : list addr) : queues :=
  <[sd := <[i := l]> (q sd)]> q.

(** ** Lemmas: accessors *)
Lemma side_char_inj sd1 sd2 : side_char sd1 = side_char sd2 → sd1 = sd2.
Proof. by destruct sd1, sd2. Qed.

Lemma side_char_B sd : (side_char sd =? ch_B) = bool_decide (sd = Bid).
Proof. by destruct sd. Qed.

Lemma heap_of_set_heap h b : heap_of (set_heap h b) = h.
Proof. done. Qed.

#[export] Instance same_meta_refl : Reflexive same_meta.
Proof. by split. Qed.

#[export] Instance same_meta_trans : Transitive same_meta.
Proof. intros b1 b2 b3 [] []. split; intros; congruence. Qed.

Lemma in_range_true i : in_range i = true ↔ 0 ≤ i < kLevels.
Proof. unfold in_range. rewrite andb_true_iff, Z.leb_le, Z.ltb_lt. done. Qed.

Lemma level_at_ok lv i : 0 ≤ i < kLevels → level_at lv i = Ok (lv !!! i).
Proof. intros Hi. unfold level_at. by rewrite (proj2 (in_range_true i)). Qed.

Lemma idx_of_ok sd b p :
  0 ≤ refp sd b < 2 ^ 31 → 0 ≤ p < 2 ^ 31 → idx_of sd b p = Ok (price_idx sd (refp sd b) p).
Proof.
  destruct sd; simpl; intros Hr Hp; unfold bid_idx, ask_idx; rewrite !i32_small by done;
    apply int_result_ok; lia.
Qed.

(** ** Lemmas: queues *)
Lemma side_ok_frame h h' sd r lv bst q :
  side_ok h sd r lv bst q → (∀ i a, a ∈ q i → h' !! a = h !! a) → side_ok h' sd r lv bst q.
Proof.
  intros [Hrep Hran Hpl Hb] Heq. split; try done.
  - intros i. eapply level_rep_frame; [done|]. eauto.
  - intros i a Ha. destruct (Hpl i a Ha) as (o & ? & ?). exists o. by rewrite (Heq i).
Qed.

(** An order whose [level_idx] is negative is in no queue. *)
Lemma detached_not_queued h sd r lv bst q a o :
  side_ok h sd r lv bst q → h !! a = Some o → level_idx o < 0 → ∀ i, a ∉ q i.
Proof.
  intros [_ Hran Hpl _] Ha Hneg i Hi. destruct (Hpl i a Hi) as (o' & Ha' & _ & Hl & _).
  pose proof (Hran i a Hi). simplify_eq. lia.
Qed.

Lemma queues_disjoint h sd r lv bst q i j a :
  side_ok h sd r lv bst q → a ∈ q i → a ∈ q j → i = j.
Proof.
  intros [_ _ Hpl _] Hi Hj. destruct (Hpl i a Hi) as (o & Ho & _ & Hli & _).
  destruct (Hpl j a Hj) as (o' & Ho' & _ & Hlj & _). congruence.
Qed.

Lemma sides_disjoint h sd1 r1 lv1 b1 q1 sd2 r2 lv2 b2 q2 i j a :
  side_ok h sd1 r1 lv1 b1 q1 → side_ok h sd2 r2 lv2 b2 q2 → a ∈ q1 i → a ∈ q2 j → sd1 = sd2.
Proof.
  intros [_ _ Hp1 _] [_ _ Hp2 _] Hi Hj. destruct (Hp1 i a Hi) as (o & Ho & Hs1 & _).
  destruct (Hp2 j a Hj) as (o' & Ho' & Hs2 & _). apply side_char_inj. congruence.
Qed.

Lemma best_ok_insert bst q i a :
  best_ok bst q → 0 ≤ i →
  best_ok (if (bst <? 0) || (i <? bst) then i else bst) (<[i := q i ++ [a]]> q).
Proof.
  intros Hb Hi. right. destruct Hb as [[-> He]|(Hb & Hne & He)]; simpl.
  - rewrite fn_lookup_insert. split_and!; [done|by rewrite He|].
    intros j Hj. rewrite fn_lookup_insert_ne by lia. apply He.
  - rewrite (proj2 (Z.ltb_ge bst 0)) by done. simpl. destruct (Z.ltb_spec i bst).
    + rewrite fn_lookup_insert. split_and!; [done|by destruct (q i)|].
      intros j Hj. rewrite fn_lookup_insert_ne by lia. apply He. lia.
    + split_and!; [done| |].
      * destruct (decide (i = bst)) as [->|]; [rewrite fn_lookup_insert; by destruct (q bst)|].
        by rewrite fn_lookup_insert_ne.
      * intros j Hj. rewrite fn_lookup_insert_ne by lia. by apply He.
Qed.

Lemma side_ok_ext h sd r lv bst q q' :
  (∀ i, q i = q' i) → side_ok h sd r lv bst q → side_ok h sd r lv bst q'.
Proof.
  intros He [H1 H2 H3 H4]. split.
  - intros i. by rewrite <-He.
  - intros i a. rewrite <-He. apply H2.
  - intros i a. rewrite <-He. apply H3.
  - destruct H4 as [[-> Hall]|(? & ? & Hall)]; [left|right].
    + split; [done|]. intros i. by rewrite <-He.
    + split_and!; [done|by rewrite <-He|]. intros i. rewrite <-He. apply Hall.
Qed.

Lemma sides_ok_ext b q q' : (∀ sd i, q sd i = q' sd i) → sides_ok b q → sides_ok b q'.
Proof. intros He [Hh Hss]. split; [done|]. intros sd. by apply (side_ok_ext _ _ _ _ _ (q sd)). Qed.

(** ** insert_at *)

(** Appending [a] to the queue of its level, one side. *)
Lemma side_ok_add h h' sd r lv l' bst q i a o :
  side_ok h sd r lv bst q → h !! a = Some o → level_idx o < 0 →
  side o = side_char sd → price_idx sd r (price o) = i → 0 ≤ i < kLevels →
  level_rep h' l' (q i ++ [a]) → same_data (<[a := set_level_idx i o]> h) h' →
  (∀ c, c ∉ a :: q i → h' !! c = h !! c) →
  side_ok h' sd r (<[i := l']> lv) (if (bst <? 0) || (i <? bst) then i else bst)
    (<[i := q i ++ [a]]> q).
Proof.
  intros Hs Ha Hneg Hsd Hidx Hi Hrep Hdata Hfr.
  pose proof (detached_not_queued _ _ _ _ _ _ _ _ Hs Ha Hneg) as Hnin.
  assert (Hdat : ∀ c oc, <[a := set_level_idx i o]> h !! c = Some oc →
            ∃ oc', h' !! c = Some oc' ∧ erase_links oc = erase_links oc')
    by (intros c oc; by apply same_data_lookup).
  split.
  - intros j. destruct (decide (i = j)) as [<-|Hne].
    + by rewrite lookup_total_insert_eq, fn_lookup_insert.
    + rewrite lookup_total_insert_ne, fn_lookup_insert_ne by done.
      eapply level_rep_frame; [apply (sk_rep _ _ _ _ _ _ Hs)|]. intros c Hc. apply Hfr.
      intros [->|Hc']%elem_of_cons; [by eapply Hnin|].
      by apply Hne, (queues_disjoint _ _ _ _ _ _ _ _ _ Hs Hc' Hc).
  - intros j c. destruct (decide (i = j)) as [<-|Hne]; [done|].
    rewrite fn_lookup_insert_ne by done. apply (sk_range _ _ _ _ _ _ Hs).
  - intros j c Hc. destruct (decide (c = a)) as [->|Hca].
    + assert (j = i) as ->.
      { destruct (decide (i = j)); [done|]. rewrite fn_lookup_insert_ne in Hc by done.
        by apply Hnin in Hc. }
      destruct (Hdat a (set_level_idx i o)) as (o' & Ho' & He).
      { apply list_lookup_insert_eq. by eapply lookup_lt_Some. }
      exists o'. split; [done|]. inversion He; simpl in *. split_and!; congruence.
    + assert (Hcj : c ∈ q j).
      { destruct (decide (i = j)) as [<-|]; [|by rewrite fn_lookup_insert_ne in Hc].
        rewrite fn_lookup_insert in Hc. set_solver. }
      destruct (sk_placed _ _ _ _ _ _ Hs j c Hcj) as (oc & Hoc & H1 & H2 & H3).
      destruct (Hdat c oc) as (o' & Ho' & He); [by rewrite list_lookup_insert_ne|].
      exists o'. split; [done|]. inversion He. split_and!; congruence.
  - apply best_ok_insert; [apply (sk_best _ _ _ _ _ _ Hs)|lia].
Qed.

Lemma q_set_eq q sd i l : q_set q sd i l sd = <[i := l]> (q sd).
Proof. unfold q_set. by rewrite fn_lookup_insert. Qed.

Lemma q_set_ne q sd sd' i l : sd ≠ sd' → q_set q sd i l sd' = q sd'.
Proof. intros. unfold q_set. by rewrite fn_lookup_insert_ne. Qed.

Section InvLemmas.
Context `{BuildMode}.

Lemma insert_at_unfold sd b a i o :
  heap_of b !! a = Some o → side o = side_char sd → 0 ≤ i < kLevels →
  insert_at b a i =
    ('(h, l) ← add_order (<[a := set_level_idx i o]> (heap_of b)) (levels sd b !!! i) (Some a);
     Ok (set_best sd (if (best sd b <? 0) || (i <? best sd b) then i else best sd b)
           (set_levels sd (<[i := l]> (levels sd b)) (set_heap h b)))).
Proof.
  intros Ha Hs Hi. unfold insert_at. heap_step.
  rewrite (deref_ok _ _ (set_level_idx i o)) by (apply list_lookup_insert_eq; by eapply lookup_lt_Some).
  simpl. rewrite Hs. destruct sd; simpl; rewrite level_at_ok by done; simpl;
    destruct (add_order _ _ _) as [[h l]|]; simpl; try done; by case_match.
Qed.

(** The other side of the book only sees its frame. *)
Lemma other_side_ok b q sd sd' i a h' :
  sides_ok b q → sd ≠ sd' → (∀ j, a ∉ q sd' j) →
  (∀ c, c ∉ a :: q sd i → h' !! c = heap_of b !! c) →
  side_ok h' sd' (refp sd' b) (levels sd' b) (best sd' b) (q sd').
Proof.
  intros [_ Hss] Hne Hnin Hfr. eapply side_ok_frame; [apply Hss|]. intros j c Hc. apply Hfr.
  intros [->|Hc']%elem_of_cons; [by eapply Hnin|].
  by apply Hne, (sides_disjoint _ _ _ _ _ _ _ _ _ _ _ _ _ _ (Hss sd) (Hss sd') Hc' Hc).
Qed.

(** One queue of side [sd] changed: enough to re-establish both sides. *)
Lemma sides_ok_update b b' q sd i l a :
  sides_ok b q → same_meta b b' → heap_ok (heap_of b') →
  (∀ sd', sd ≠ sd' →
     levels sd' b' = levels sd' b ∧ best sd' b' = best sd' b ∧ ∀ j, a ∉ q sd' j) →
  (∀ c, c ∉ a :: q sd i → heap_of b' !! c = heap_of b !! c) →
  side_ok (heap_of b') sd (refp sd b) (levels sd b') (best sd b') (<[i := l]> (q sd)) →
  sides_ok b' (q_set q sd i l).
Proof.
  intros Hok Hm Hh Hother Hfr Hs. split; [done|]. intros sd'. rewrite (sm_ref _ _ Hm).
  destruct (decide (sd = sd')) as [<-|Hne]; [by rewrite q_set_eq|].
  rewrite q_set_ne by done. destruct (Hother sd' Hne) as (-> & -> & Hnin).
  by apply (other_side_ok b q sd sd' i a).
Qed.

Lemma not_other_side b q sd sd' i a :
  sides_ok b q → a ∈ q sd i → sd ≠ sd' → ∀ j, a ∉ q sd' j.
Proof.
  intros [_ Hss] Ha Hne j Hj.
  by apply Hne, (sides_disjoint _ _ _ _ _ _ _ _ _ _ _ _ _ _ (Hss sd) (Hss sd') Ha Hj).
Qed.

Lemma insert_at_ok b q sd i a o :
  sides_ok b q → heap_of b !! a = Some o → level_idx o < 0 → side o = side_char sd →
  price_idx sd (refp sd b) (price o) = i → 0 ≤ i < kLevels →
  ∃ b', insert_at b a i = Ok b' ∧ sides_ok b' (q_set q sd i (q sd i ++ [a])) ∧ same_meta b b' ∧
    same_data (<[a := set_level_idx i o]> (heap_of b)) (heap_of b') ∧
    ∀ c, c ∉ a :: q sd i → heap_of b' !! c = heap_of b !! c.
Proof.
  intros Hok Ha Hneg Hsd Hidx Hi. pose proof Hok as [Hh Hss].
  assert (Hnin : ∀ sd' j, a ∉ q sd' j) by (intros sd'; by eapply detached_not_queued).
  set (h1 := <[a := set_level_idx i o]> (heap_of b)).
  assert (Hh1 : heap_ok h1) by (apply heap_ok_insert; [done|exact (ho_shares _ Hh a o Ha)]).
  assert (Hr1 : level_rep h1 (levels sd b !!! i) (q sd i)).
  { eapply level_rep_frame; [apply (sk_rep _ _ _ _ _ _ (Hss sd))|]. intros c Hc.
    unfold h1. rewrite list_lookup_insert_ne; [done|]. intros ->. by eapply Hnin. }
  assert (Ha1 : h1 !! a = Some (set_level_idx i o))
    by (apply list_lookup_insert_eq; by eapply lookup_lt_Some).
  destruct (add_order_ok h1 _ _ a _ Hh1 Hr1 Ha1 (Hnin sd i)) as (h' & l' & E & Hr' & Hd & Hfr).
  rewrite (insert_at_unfold sd b a i o) by done. fold h1. rewrite E. simpl.
  eexists. split; [done|].
  assert (Hfr' : ∀ c, c ∉ a :: q sd i → h' !! c = heap_of b !! c).
  { intros c Hc. rewrite Hfr by done. apply list_lookup_insert_ne. set_solver. }
  pose proof (side_ok_add _ h' sd _ _ l' _ _ i a o (Hss sd) Ha Hneg Hsd Hidx Hi Hr' Hd Hfr') as Hsame.
  split_and!; [|destruct sd; split; try done; by intros []|by destruct sd|by destruct sd].
  assert (Hheap : heap_ok h') by (by rewrite <-Hd).
  eapply sides_ok_update; try done; [..|by destruct sd].
  - destruct sd; split; try done; by intros [].
  - by destruct sd.
  - intros sd' ?. split_and!; [by destruct sd, sd'|by destruct sd, sd'|apply Hnin].
  - by destruct sd.
Qed.

(** ** advance_best_bid / advance_best_ask *)

(** [scan_levels] finds the first non-empty queue at or after [s]. *)
Lemma scan_levels_ok lv (q : Z → list addr) n s :
  (∀ i, level_empty (lv !!! i) = bool_decide (q i = [])) → 0 ≤ s → s + Z.of_nat n = kLevels →
  ∃ k, scan_levels lv n s = Ok k ∧
    ((k = -1 ∧ ∀ i, s ≤ i < kLevels → q i = []) ∨
     (s ≤ k < kLevels ∧ q k ≠ [] ∧ ∀ i, s ≤ i < k → q i = [])).
Proof.
  intros He. revert s; induction n as [|n IH]; intros s Hs Hn; simpl.
  { exists (-1). split; [done|]. left. split; [done|]. lia. }
  rewrite level_at_ok by lia. simpl. rewrite He.
  case_bool_decide as Hq; simpl.
  - destruct (IH (s + 1)) as (k & E & Hk); [lia..|]. exists k. split; [done|].
    destruct Hk as [[-> Hk]|(? & ? & Hk)]; [left|right].
    + split; [done|]. intros i ?. destruct (decide (i = s)) as [->|]; [done|]. apply Hk. lia.
    + split_and!; [lia|lia|done|]. intros i ?.
      destruct (decide (i = s)) as [->|]; [done|]. apply Hk. lia.
  - exists s. split; [done|]. right. split_and!; [lia|lia|done|]. lia.
Qed.

(** The best index after level [i] changed, with the code's rule: keep it unless it
    was [i] and the level is now empty, else advance. *)
Lemma best_after_remove h sd r lv bst (q q' : Z → list addr) i :
  side_ok h sd r lv bst q → q i ≠ [] → 0 ≤ i < kLevels → q' = <[i := q' i]> q →
  (∀ j, q' j ≠ [] → j < kLevels) →
  ∀ lv', (∀ j, level_empty (lv' !!! j) = bool_decide (q' j = [])) →
  ∃ k, (if (i =? bst) && level_empty (lv' !!! i)
        then scan_levels lv' (Z.to_nat (kLevels - (bst + 1))) (bst + 1) else Ok bst) = Ok k ∧
       best_ok k q'.
Proof.
  intros Hs Hqi Hi Hq' Hmax lv' He.
  assert (Hne : ∀ j, j ≠ i → q' j = q j) by (intros j ?; rewrite Hq'; by apply fn_lookup_insert_ne).
  destruct (sk_best _ _ _ _ _ _ Hs) as [[_ Hall]|(Hb & Hbne & Hlow)]; [by rewrite Hall in Hqi|].
  rewrite He. case_bool_decide as Hemp; rewrite ?andb_true_r, ?andb_false_r.
  - destruct (Z.eqb_spec i bst) as [->|Hib].
    + destruct (scan_levels_ok lv' q' (Z.to_nat (kLevels - (bst + 1))) (bst + 1)) as (k & E & Hk);
        [done|lia|lia|].
      exists k. split; [done|]. destruct Hk as [[-> Hk]|(? & ? & Hk)]; [left|right].
      * split; [done|]. intros j. destruct (Z.lt_trichotomy j bst) as [?|[->|?]]; [|done|].
        -- rewrite Hne by lia. apply Hlow. lia.
        -- destruct (decide (j < kLevels)); [apply Hk; lia|].
           destruct (decide (q' j = [])) as [|Hj]; [done|]. specialize (Hmax j Hj). lia.
      * split_and!; [lia|done|]. intros j ?. destruct (Z.lt_trichotomy j bst) as [?|[->|?]]; [|done|].
        -- rewrite Hne by lia. apply Hlow. lia.
        -- apply Hk. lia.
    + exists bst. split; [done|]. right. split_and!; [done|by rewrite Hne|].
      intros j ?. destruct (decide (j = i)) as [->|]; [done|]. rewrite Hne by done. by apply Hlow.
  - exists bst. split; [done|]. right. split_and!; [done| |].
    + destruct (decide (bst = i)) as [->|]; [done|]. by rewrite Hne.
    + intros j Hj. destruct (decide (j = i)) as [->|]; [|rewrite Hne by done; by apply Hlow].
      by rewrite Hlow in Hqi.
Qed.

(** ** book_remove_order *)
Lemma book_remove_unfold sd b a o :
  heap_of b !! a = Some o → side o = side_char sd → 0 ≤ level_idx o < kLevels →
  book_remove_order b a =
    ('(h, l) ← remove_order (heap_of b) (levels sd b !!! level_idx o) (Some a);
     let lv := <[level_idx o := l]> (levels sd b) in
     k ← (if (level_idx o =? best sd b) && level_empty (lv !!! level_idx o)
          then scan_levels lv (Z.to_nat (kLevels - (best sd b + 1))) (best sd b + 1)
          else Ok (best sd b));
     h ← modify h (Some a) (set_level_idx (-1));
     Ok (set_best sd k (set_levels sd lv (set_heap h b)))).
Proof.
  intros Ha Hs Hi. unfold book_remove_order. heap_step.
  rewrite cassert_true by (apply Z.leb_le; lia). simpl. rewrite Hs.
  destruct sd; simpl; rewrite level_at_ok by done; simpl;
    (destruct (remove_order _ _ _) as [[h l]|]; simpl; [|done]);
    rewrite lookup_total_insert_eq; case_match; simpl; try done;
    (unfold advance_best_bid, advance_best_ask; simpl; destruct (scan_levels _ _ _); simpl; done).
Qed.

(** Deleting [a] from the queue of its level, one side. *)
Lemma side_ok_remove h h' sd r lv l' bst k q i l1 a l2 :
  side_ok h sd r lv bst q → q i = l1 ++ a :: l2 → level_rep h' l' (l1 ++ l2) →
  best_ok k (<[i := l1 ++ l2]> q) →
  (∀ c, c ≠ a → erase_links <$> h' !! c = erase_links <$> h !! c) →
  (∀ c, c ∉ q i → h' !! c = h !! c) →
  side_ok h' sd r (<[i := l']> lv) k (<[i := l1 ++ l2]> q).
Proof.
  intros Hs Hq Hrep Hbest Hdata Hfr.
  pose proof (lr_nodup _ _ _ (sk_rep _ _ _ _ _ _ Hs i)) as Hnd. rewrite Hq in Hnd.
  destruct (NoDup_middle _ _ _ Hnd) as (Hn1 & Hn2 & _).
  assert (Hsub : ∀ j c, c ∈ <[i := l1 ++ l2]> q j → c ∈ q j ∧ (i = j → c ≠ a)).
  { intros j c. destruct (decide (i = j)) as [<-|Hne].
    - rewrite fn_lookup_insert, Hq. intros Hc. split; [set_solver|]. intros _ ->. set_solver.
    - by rewrite fn_lookup_insert_ne. }
  assert (Ha : a ∈ q i) by (rewrite Hq; set_solver).
  split; [| | |done].
  - intros j. destruct (decide (i = j)) as [<-|Hne].
    + by rewrite lookup_total_insert_eq, fn_lookup_insert.
    + rewrite lookup_total_insert_ne, fn_lookup_insert_ne by done.
      eapply level_rep_frame; [apply (sk_rep _ _ _ _ _ _ Hs)|]. intros c Hc. apply Hfr.
      intros Hc'. by apply Hne, (queues_disjoint _ _ _ _ _ _ _ _ _ Hs Hc' Hc).
  - intros j c [Hc _]%Hsub. by apply (sk_range _ _ _ _ _ _ Hs j c).
  - intros j c [Hc Hca]%Hsub.
    assert (c ≠ a).
    { intros ->. by apply (Hca (queues_disjoint _ _ _ _ _ _ _ _ _ Hs Ha Hc)). }
    destruct (sk_placed _ _ _ _ _ _ Hs j c Hc) as (oc & Hoc & H1 & H2 & H3).
    specialize (Hdata c). rewrite Hoc in Hdata.
    destruct (h' !! c) as [oc'|]; [|by specialize (Hdata ltac:(done))].
    exists oc'. split; [done|]. assert (He : erase_links oc' = erase_links oc)
      by (apply (inj Some); by apply Hdata).
    inversion He. split_and!; congruence.
Qed.

Lemma detached_same_data h l1 a l2 o :
  same_data (<[a := set_level_idx (-1) o]> h) (detached h l1 a l2 o).
Proof. apply same_data_insert_both; [apply unlinked_same_data|done]. Qed.

Lemma detached_frame h l1 a l2 o c :
  NoDup (l1 ++ a :: l2) → c ∉ l1 ++ a :: l2 → detached h l1 a l2 o !! c = h !! c.
Proof.
  intros (Hn1 & Hn2 & _)%NoDup_middle [Hc1 [Hca Hc2]%not_elem_of_cons]%not_elem_of_app.
  unfold detached. rewrite list_lookup_insert_ne, unlinked_lookup, decide_False by done.
  destruct (h !! c); simpl; [|done]. by rewrite relink_id.
Qed.

Lemma detached_other_data h l1 a l2 o c :
  c ≠ a → erase_links <$> detached h l1 a l2 o !! c = erase_links <$> h !! c.
Proof.
  intros Hne. pose proof (detached_same_data h l1 a l2 o) as Hd.
  apply (f_equal (lookup c)) in Hd. rewrite !list_lookup_fmap in Hd.
  rewrite <-Hd, list_lookup_insert_ne by done. done.
Qed.

Lemma side_remove_ok h sd r lv bst q i l1 a l2 o :
  heap_ok h → side_ok h sd r lv bst q → h !! a = Some o → q i = l1 ++ a :: l2 →
  ∃ l' k, remove_order h (lv !!! i) (Some a) = Ok (unlinked h l1 a l2, l') ∧
    (let lv' := <[i := l']> lv in
     if (i =? bst) && level_empty (lv' !!! i)
     then scan_levels lv' (Z.to_nat (kLevels - (bst + 1))) (bst + 1) else Ok bst) = Ok k ∧
    side_ok (detached h l1 a l2 o) sd r (<[i := l']> lv) k (<[i := l1 ++ l2]> q).
Proof.
  intros Hh Hs Ha Hq. assert (Hain : a ∈ q i) by (rewrite Hq; set_solver).
  pose proof (sk_range _ _ _ _ _ _ Hs i a Hain) as Hi.
  pose proof (sk_rep _ _ _ _ _ _ Hs i) as Hr. rewrite Hq in Hr.
  destruct (remove_order_ok _ _ l1 a l2 o Hh Hr Ha) as (l' & E & Hr').
  destruct (NoDup_middle _ _ _ (lr_nodup _ _ _ Hr)) as (Hn1 & Hn2 & _).
  set (q' := <[i := l1 ++ l2]> q). set (lv' := <[i := l']> lv).
  assert (He : ∀ j, level_empty (lv' !!! j) = bool_decide (q' j = [])).
  { intros j. unfold lv', q'. destruct (decide (i = j)) as [<-|Hne].
    - rewrite lookup_total_insert_eq, fn_lookup_insert. by eapply level_empty_rep.
    - rewrite lookup_total_insert_ne, fn_lookup_insert_ne by done.
      eapply level_empty_rep, (sk_rep _ _ _ _ _ _ Hs). }
  destruct (best_after_remove _ _ _ _ _ _ q' i Hs) with (lv' := lv') as (k & Ek & Hk); [..|done|].
  { rewrite Hq. by destruct l1. } { done. } { unfold q'. by rewrite fn_lookup_insert. }
  { intros j. unfold q'. destruct (decide (i = j)) as [<-|Hne]; [lia|].
    rewrite fn_lookup_insert_ne by done. destruct (q j) as [|c qj] eqn:Hj; [done|]. intros _.
    apply (sk_range _ _ _ _ _ _ Hs j c). rewrite Hj. by left. }
  exists l', k. split_and!; [done|done|].
  eapply side_ok_remove; try done.
  - eapply level_rep_frame; [done|]. intros c Hc. apply list_lookup_insert_ne.
    intros ->. apply elem_of_app in Hc. tauto.
  - intros c Hc. by apply detached_other_data.
  - intros c Hc. apply detached_frame; [apply (lr_nodup _ _ _ Hr)|by rewrite <-Hq].
Qed.

Lemma book_remove_order_ok b q sd i l1 a l2 o :
  sides_ok b q → heap_of b !! a = Some o → q sd i = l1 ++ a :: l2 →
  ∃ b', book_remove_order b a = Ok b' ∧ sides_ok b' (q_set q sd i (l1 ++ l2)) ∧ same_meta b b' ∧
    same_data (<[a := set_level_idx (-1) o]> (heap_of b)) (heap_of b') ∧
    ∀ c, c ∉ q sd i → heap_of b' !! c = heap_of b !! c.
Proof.
  intros Hok Ha Hq. pose proof Hok as [Hh Hss]. pose proof (Hss sd) as Hs.
  assert (Hain : a ∈ q sd i) by (rewrite Hq; set_solver).
  pose proof (sk_range _ _ _ _ _ _ Hs i a Hain) as Hi.
  destruct (sk_placed _ _ _ _ _ _ Hs i a Hain) as (o' & Ha' & Hsd & Hli & _).
  rewrite Ha in Ha'. injection Ha' as <-.
  destruct (side_remove_ok _ _ _ _ _ _ _ l1 a l2 o Hh Hs Ha Hq) as (l' & k & E & Ek & Hs').
  rewrite (book_remove_unfold sd b a o), Hli, E by (by rewrite ?Hli). rewrite bind_ok. cbv zeta in Ek |- *.
  rewrite Ek, bind_ok.
  assert (Hnd : NoDup (l1 ++ a :: l2)) by (rewrite <-Hq; apply (lr_nodup _ _ _ (sk_rep _ _ _ _ _ _ Hs i))).
  destruct (NoDup_middle _ _ _ Hnd) as (Hn1 & Hn2 & _).
  rewrite (modify_ok _ _ (erase_links o))
    by (rewrite unlinked_lookup, decide_True, Ha by done; done).
  rewrite bind_ok. eexists. split; [done|]. fold (detached (heap_of b) l1 a l2 o).
  assert (Hfr : ∀ c, c ∉ q sd i → detached (heap_of b) l1 a l2 o !! c = heap_of b !! c)
    by (intros c Hc; apply detached_frame; [done|by rewrite <-Hq]).
  pose proof (detached_same_data (heap_of b) l1 a l2 o) as Hd.
  split_and!; [|destruct sd; split; try done; by intros []|by destruct sd|by destruct sd].
  assert (Hheap : heap_ok (detached (heap_of b) l1 a l2 o)).
  { rewrite <-Hd. apply heap_ok_insert; [done|exact (ho_shares _ Hh a o Ha)]. }
  eapply (sides_ok_update b _ q sd i _ a); try done; [..|by destruct sd].
  - destruct sd; split; try done; by intros [].
  - by destruct sd.
  - intros sd' Hne. split_and!; [by destruct sd, sd'..|by eapply not_other_side].
  - intros c [_ Hc]%not_elem_of_cons. destruct sd; by apply Hfr.
Qed.

(** ** book_reduce_shares *)
Lemma book_reduce_unfold sd b a o n :
  heap_of b !! a = Some o → side o = side_char sd → 0 ≤ level_idx o < kLevels →
  book_reduce_shares b a n =
    ('(h, l) ← reduce_shares (heap_of b) (levels sd b !!! level_idx o) (Some a) n;
     Ok (set_levels sd (<[level_idx o := l]> (levels sd b)) (set_heap h b))).
Proof.
  intros Ha Hs Hi. unfold book_reduce_shares. heap_step.
  rewrite cassert_true by (apply Z.leb_le; lia). simpl. rewrite Hs.
  destruct sd; simpl; rewrite level_at_ok by done; done.
Qed.

Lemma side_ok_reduce h sd r lv l' bst q i a o n :
  side_ok h sd r lv bst q → h !! a = Some o → a ∈ q i →
  level_rep (<[a := set_shares n o]> h) l' (q i) →
  side_ok (<[a := set_shares n o]> h) sd r (<[i := l']> lv) bst q.
Proof.
  intros Hs Ha Hain Hrep. pose proof (lookup_lt_Some _ _ _ Ha) as Hlt. split.
  - intros j. destruct (decide (i = j)) as [<-|Hne]; [by rewrite lookup_total_insert_eq|].
    rewrite lookup_total_insert_ne by done.
    eapply level_rep_frame; [apply (sk_rep _ _ _ _ _ _ Hs)|]. intros c Hc.
    apply list_lookup_insert_ne. intros <-.
    by apply Hne, (queues_disjoint _ _ _ _ _ _ _ _ _ Hs Hain Hc).
  - apply (sk_range _ _ _ _ _ _ Hs).
  - intros j c Hc. destruct (sk_placed _ _ _ _ _ _ Hs j c Hc) as (oc & Hoc & ?).
    destruct (decide (a = c)) as [<-|Hne].
    + exists (set_shares n o). rewrite list_lookup_insert_eq by done. split; [done|].
      rewrite Ha in Hoc. by injection Hoc as <-.
    + exists oc. by rewrite list_lookup_insert_ne.
  - apply (sk_best _ _ _ _ _ _ Hs).
Qed.

Lemma book_reduce_shares_ok b q sd i a o n :
  sides_ok b q → heap_of b !! a = Some o → a ∈ q sd i → 0 ≤ n ≤ shares o →
  ∃ b', book_reduce_shares b a n = Ok b' ∧ sides_ok b' q ∧ same_meta b b' ∧
    heap_of b' = <[a := set_shares (shares o - n) o]> (heap_of b).
Proof.
  intros Hok Ha Hain Hn. pose proof Hok as [Hh Hss]. pose proof (Hss sd) as Hs.
  pose proof (sk_range _ _ _ _ _ _ Hs i a Hain) as Hi.
  destruct (sk_placed _ _ _ _ _ _ Hs i a Hain) as (o' & Ha' & Hsd & Hli & _).
  rewrite Ha in Ha'. injection Ha' as <-.
  destruct (reduce_shares_ok _ _ _ a o n Hh (sk_rep _ _ _ _ _ _ Hs i) Hain Ha Hn) as (l' & E & Hr').
  rewrite (book_reduce_unfold sd b a o), Hli, E by (by rewrite ?Hli). rewrite bind_ok.
  eexists. split; [done|].
  set (h' := <[a := set_shares (shares o - n) o]> (heap_of b)) in *.
  assert (Hh' : heap_ok h').
  { apply heap_ok_insert; [done|]. simpl. pose proof (ho_shares _ Hh a o Ha). lia. }
  assert (Hs' : side_ok h' sd (refp sd b) (<[i := l']> (levels sd b)) (best sd b) (q sd))
    by (by apply side_ok_reduce).
  split_and!; [|destruct sd; split; try done; by intros []|by destruct sd].
  split; [by destruct sd|]. intros sd'. destruct (decide (sd = sd')) as [<-|Hne]; [by destruct sd|].
  pose proof (not_other_side b q sd sd' i a Hok Hain Hne) as Hnin.
  assert (Ho : side_ok h' sd' (refp sd' b) (levels sd' b) (best sd' b) (q sd')).
  { apply (other_side_ok b q sd sd' i a); [done..|].
    intros c [? _]%not_elem_of_cons. by apply list_lookup_insert_ne. }
  by destruct sd, sd'.
Qed.

(** ** Recentring *)

Lemma recentre_unfold sd it b r :
  recentre sd it b r =
  foldM (recentre_step sd) (entries it (order_map b))
    (set_refp sd r (set_best sd (-1) (set_levels sd ∅ b))).
Proof. by destruct sd. Qed.

Lemma q_recentred_eq h q sd r l i : q_recentred h q sd r l sd i = filter (at_level h sd r i) l.
Proof. unfold q_recentred. by rewrite fn_lookup_insert. Qed.

Lemma q_recentred_ne h q sd sd' r l : sd ≠ sd' → q_recentred h q sd r l sd' = q sd'.
Proof. intros. unfold q_recentred. by rewrite fn_lookup_insert_ne. Qed.

Lemma at_level_Some h sd r i a o :
  h !! a = Some o → side o = side_char sd →
  at_level h sd r i a = (price_idx sd r (price o) =? i) && in_range i.
Proof. intros Ha Hs. unfold at_level. rewrite Ha, Hs, Z.eqb_refl. done. Qed.

Lemma at_level_other h sd r i a o :
  h !! a = Some o → side o ≠ side_char sd → at_level h sd r i a = false.
Proof. intros Ha Hs. unfold at_level. rewrite Ha. by rewrite (proj2 (Z.eqb_neq _ _)). Qed.

(** Processing one more order extends the queue of its level, if it has one. *)
Lemma filter_at_level_snoc h sd r i l a :
  filter (at_level h sd r i) (l ++ [a]) =
  filter (at_level h sd r i) l ++ (if at_level h sd r i a then [a] else []).
Proof. rewrite filter_app. f_equal. rewrite filter_cons, filter_nil. by destruct (at_level h sd r i a). Qed.

Lemma recentring_init b q sd r :
  sides_ok b q →
  recentring b q sd r [] (set_refp sd r (set_best sd (-1) (set_levels sd ∅ b))).
Proof.
  intros [Hh Hss].
  split; try (by destruct sd); try (intros c o o' Hc; by apply not_elem_of_nil in Hc).
  - split; [by destruct sd|]. intros sd'. destruct (decide (sd = sd')) as [<-|Hne].
    + apply (side_ok_ext _ _ _ _ _ (λ _, [])); [by intros i; rewrite q_recentred_eq|].
      split; try (intros i a Ha; by apply not_elem_of_nil in Ha).
      * intros i. destruct sd; simpl; rewrite lookup_total_empty; apply level_rep_default.
      * left. by destruct sd.
    + rewrite q_recentred_ne by done. specialize (Hss sd'). by destruct sd, sd'.
  - intros sd' ?. by destruct sd, sd'.
Qed.

(** Clearing an unprocessed order's location disturbs nothing. *)
Lemma recentring_clear b0 q sd r l b a o :
  recentring b0 q sd r l b → a ∉ l → heap_of b0 !! a = Some o → side o = side_char sd →
  let o1 := set_level_idx (-1) (erase_links o) in
  sides_ok (set_heap (<[a := o1]> (heap_of b)) b) (q_recentred (heap_of b0) q sd r l).
Proof.
  intros Hrc Hal Ha Hs o1. pose proof (rc_sides _ _ _ _ _ _ Hrc) as [Hh Hss].
  assert (Hab : heap_of b !! a = Some o) by (by rewrite (rc_frame _ _ _ _ _ _ Hrc)).
  split; [by apply heap_ok_insert; [|exact (ho_shares _ Hh a o Hab)]|].
  intros sd'. eapply (side_ok_frame (heap_of b)).
  - specialize (Hss sd'). by destruct sd'.
  - intros i c Hc. apply list_lookup_insert_ne. intros ->.
    destruct (decide (sd = sd')) as [<-|Hne].
    + rewrite q_recentred_eq in Hc. apply list_elem_of_filter in Hc as [_ Hc]. done.
    + destruct (sk_placed _ _ _ _ _ _ (Hss sd') i c Hc) as (o' & Ho' & Hs' & _).
      apply Hne, side_char_inj. congruence.
Qed.

Lemma erase_loc_insert (h : heap) (a : addr) o o' :
  h !! a = Some o → erase_loc o' = erase_loc o → erase_loc <$> <[a := o']> h = erase_loc <$> h.
Proof.
  intros Ha E. rewrite list_fmap_insert, E. apply list_insert_id. by rewrite list_lookup_fmap, Ha.
Qed.

Lemma same_data_erase_loc (h h' : heap) : same_data h h' → erase_loc <$> h' = erase_loc <$> h.
Proof.
  intros Hd. apply list_eq. intros i. rewrite !list_lookup_fmap.
  assert (E : erase_links <$> h !! i = erase_links <$> h' !! i)
    by (rewrite <-!list_lookup_fmap; by rewrite Hd).
  destruct (h !! i), (h' !! i); simpl in *; try done. f_equal. unfold erase_loc. congruence.
Qed.

(** Assemble the invariant after one more order of side [sd]: [o2] is what the
    order became, in level [i] or in none. *)
Lemma recentring_extend b0 q sd r l b b2 a o o2 :
  recentring b0 q sd r l b → a ∉ l → heap_of b0 !! a = Some o → side o = side_char sd →
  sides_ok b2 (q_recentred (heap_of b0) q sd r (l ++ [a])) → same_meta b b2 →
  heap_of b2 !! a = Some o2 → erase_loc o2 = erase_loc o →
  level_idx o2 = (if in_range (price_idx sd r (price o)) then price_idx sd r (price o) else -1) →
  (∀ c, c ≠ a → c ∉ l → heap_of b2 !! c = heap_of b !! c) →
  (∀ c oc, c ≠ a → heap_of b !! c = Some oc → ∃ oc', heap_of b2 !! c = Some oc' ∧
     level_idx oc' = level_idx oc) →
  (∀ c oc, heap_of b !! c = Some oc → side oc ≠ side_char sd → heap_of b2 !! c = Some oc) →
  erase_loc <$> heap_of b2 = erase_loc <$> heap_of b0 →
  recentring b0 q sd r (l ++ [a]) b2.
Proof.
  intros Hrc Hal Ha Hs Hok Hm Ha2 Heq Hidx Hfr Hlv Hoth Hdata.
  destruct Hm as [Hm1 Hm2 Hm3 Hm4]. destruct Hrc as [R1 R2 R3 R4 R5 R6 R7 R8 R9 R10].
  split; try done; try congruence.
  - intros sd' Hne. rewrite Hm4. by apply R6.
  - intros c [Hc1 Hc2]%not_elem_of_app. rewrite Hfr, R8 by set_solver. done.
  - intros c oc Hc Hsc. apply Hoth; [by apply R9|done].
  - intros c oc oc' Hc Hc0 Hsc Hc2. destruct (decide (c = a)) as [->|Hne].
    + rewrite Ha in Hc0. injection Hc0 as <-. rewrite Ha2 in Hc2. injection Hc2 as <-. done.
    + assert (Hcl : c ∈ l) by set_solver. destruct (heap_of b !! c) as [oc1|] eqn:E.
      * destruct (Hlv c oc1 Hne E) as (oc2 & E2 & El). rewrite Hc2 in E2. injection E2 as <-.
        rewrite El. by eapply R10.
      * apply (f_equal (lookup c)) in R7. rewrite !list_lookup_fmap, E, Hc0 in R7. done.
Qed.

(** An order of the other side is skipped. *)
Lemma recentring_skip b0 q sd r l b a o :
  recentring b0 q sd r l b → heap_of b0 !! a = Some o → side o ≠ side_char sd →
  recentring b0 q sd r (l ++ [a]) b.
Proof.
  intros [R1 R2 R3 R4 R5 R6 R7 R8 R9 R10] Ha Hs. split; try done.
  - eapply sides_ok_ext; [|done]. intros sd' i. destruct (decide (sd = sd')) as [<-|Hne].
    + rewrite !q_recentred_eq, filter_at_level_snoc, (at_level_other _ _ _ _ _ o) by done.
      by rewrite app_nil_r.
    + by rewrite !q_recentred_ne.
  - intros c [Hc _]%not_elem_of_app. by apply R8.
  - intros c oc oc' Hc Hc0 Hsc Hc'. apply (R10 c oc); try done.
    apply elem_of_app in Hc as [?|Hc]; [done|].
    apply list_elem_of_singleton in Hc as ->. congruence.
Qed.

(** An order whose price has no index in the new range is left in no level. *)
Lemma recentring_drop b0 q sd r l b a o :
  recentring b0 q sd r l b → a ∉ l → heap_of b0 !! a = Some o → side o = side_char sd →
  in_range (price_idx sd r (price o)) = false →
  recentring b0 q sd r (l ++ [a])
    (set_heap (<[a := set_level_idx (-1) (erase_links o)]> (heap_of b)) b).
Proof.
  intros Hrc Hal Ha Hs Hir.
  assert (Hab : heap_of b !! a = Some o) by (by rewrite (rc_frame _ _ _ _ _ _ Hrc)).
  pose proof (recentring_clear b0 q sd r l b a o Hrc Hal Ha Hs) as Hclr. cbv zeta in Hclr.
  set (o1 := set_level_idx (-1) (erase_links o)) in *.
  assert (Ha1 : <[a := o1]> (heap_of b) !! a = Some o1)
    by (apply list_lookup_insert_eq; by eapply lookup_lt_Some).
  assert (Hne : ∀ c, c ≠ a → <[a := o1]> (heap_of b) !! c = heap_of b !! c)
    by (intros c ?; by apply list_lookup_insert_ne).
  apply (recentring_extend b0 q sd r l b _ a o o1); try done.
  - eapply sides_ok_ext; [|done]. intros sd' i. destruct (decide (sd = sd')) as [<-|?];
      [|by rewrite !q_recentred_ne].
    rewrite !q_recentred_eq, filter_at_level_snoc, (at_level_Some _ _ _ _ _ o) by done.
    destruct (Z.eqb_spec (price_idx sd r (price o)) i) as [<-|]; simpl; by rewrite ?Hir, app_nil_r.
  - by rewrite Hir.
  - intros c ? _. by apply Hne.
  - intros c oc Hc E. exists oc. split; [|done]. simpl. by rewrite Hne.
  - intros c oc E Hsc. simpl. rewrite Hne; [done|]. intros ->. congruence.
  - rewrite heap_of_set_heap, (erase_loc_insert _ _ o) by done. apply (rc_data _ _ _ _ _ _ Hrc).
Qed.

(** An order whose price has an index goes to the back of that level. *)
Lemma recentring_insert b0 q sd r l b a o i :
  recentring b0 q sd r l b → a ∉ l → heap_of b0 !! a = Some o → side o = side_char sd →
  price_idx sd r (price o) = i → 0 ≤ i < kLevels →
  ∃ b', insert_at (set_heap (<[a := set_level_idx (-1) (erase_links o)]> (heap_of b)) b) a i = Ok b' ∧
        recentring b0 q sd r (l ++ [a]) b'.
Proof.
  intros Hrc Hal Ha Hs Hidx Hi. pose proof (proj2 (in_range_true i) Hi) as Hir.
  assert (Hab : heap_of b !! a = Some o) by (by rewrite (rc_frame _ _ _ _ _ _ Hrc)).
  pose proof (recentring_clear b0 q sd r l b a o Hrc Hal Ha Hs) as Hclr. cbv zeta in Hclr.
  set (o1 := set_level_idx (-1) (erase_links o)) in *.
  set (h1 := <[a := o1]> (heap_of b)) in *.
  assert (Ha1 : h1 !! a = Some o1) by (apply list_lookup_insert_eq; by eapply lookup_lt_Some).
  destruct (insert_at_ok (set_heap h1 b) _ sd i a o1 Hclr Ha1) as (b2 & E & Hok2 & Hm2 & Hd2 & Hfr2);
    try done.
  { destruct sd; simpl; rewrite <-(rc_ref _ _ _ _ _ _ Hrc) in Hidx; done. }
  exists b2. split; [done|]. simpl in Hd2, Hfr2. rewrite q_recentred_eq in Hok2, Hfr2.
  set (ql := filter (at_level (heap_of b0) sd r i) l) in *.
  assert (Hlk : ∀ c oc, <[a := set_level_idx i o1]> h1 !! c = Some oc →
            ∃ oc', heap_of b2 !! c = Some oc' ∧ erase_links oc = erase_links oc')
    by (intros c oc; by apply same_data_lookup).
  assert (Hne : ∀ c, c ≠ a → h1 !! c = heap_of b !! c) by (intros c ?; by apply list_lookup_insert_ne).
  destruct (Hlk a (set_level_idx i o1)) as (o2 & Ho2 & He2).
  { apply list_lookup_insert_eq. by eapply lookup_lt_Some. }
  apply (recentring_extend b0 q sd r l b b2 a o o2); try done.
  - eapply sides_ok_ext; [|done]. intros sd' j. destruct (decide (sd = sd')) as [<-|?].
    + rewrite q_set_eq, q_recentred_eq, filter_at_level_snoc, (at_level_Some _ _ _ _ _ o), Hidx by done.
      destruct (Z.eqb_spec i j) as [<-|]; [by rewrite Hir, fn_lookup_insert|].
      by rewrite fn_lookup_insert_ne, q_recentred_eq, app_nil_r.
    + by rewrite q_set_ne, !q_recentred_ne.
  - etransitivity; [|done]. by split.
  - unfold erase_loc. rewrite <-He2. done.
  - rewrite Hidx, Hir. inversion He2. congruence.
  - intros c Hc Hcl. rewrite Hfr2; [by rewrite heap_of_set_heap, Hne|]. intros [?|Hcq]%elem_of_cons; [done|].
    by apply list_elem_of_filter in Hcq as [_ ?].
  - intros c oc Hc E'. destruct (Hlk c oc) as (oc' & ? & He).
    { by rewrite list_lookup_insert_ne, Hne. }
    exists oc'. split; [done|]. inversion He. congruence.
  - intros c oc E' Hsc. assert (c ≠ a) by (intros ->; congruence).
    rewrite Hfr2; [by rewrite Hne|]. intros [?|Hcq]%elem_of_cons; [done|]. apply Hsc.
    destruct (sk_placed _ _ _ _ _ _ (ss_side _ _ (rc_sides _ _ _ _ _ _ Hrc) sd) i c) as (oc' & ? & ? & _).
    { by rewrite q_recentred_eq. }
    congruence.
  - etransitivity; [by apply same_data_erase_loc|].
    rewrite <-(rc_data _ _ _ _ _ _ Hrc). rewrite (erase_loc_insert _ _ o1) by done.
    by apply (erase_loc_insert _ _ o).
Qed.

Lemma recentring_step b0 q sd r l b e :
  recentring b0 q sd r l b → 0 ≤ r < 2 ^ 31 → e.2 ∉ l → listed (heap_of b0) e.2 →
  ∃ b', recentre_step sd b e = Ok b' ∧ recentring b0 q sd r (l ++ [e.2]) b'.
Proof.
  intros Hrc Hr Hal (o & sd1 & Ha & Hs & Hp). destruct e as [ref a]; simpl in *.
  assert (Hab : heap_of b !! a = Some o) by (by rewrite (rc_frame _ _ _ _ _ _ Hrc)).
  unfold recentre_step. simpl. rewrite (deref_ok _ _ o), bind_ok by done.
  destruct (Z.eqb_spec (side o) (side_char sd)) as [Hsd|Hne]; simpl.
  - heap_step. rewrite idx_of_ok by (rewrite ?(rc_ref _ _ _ _ _ _ Hrc); done).
    rewrite bind_ok, (rc_ref _ _ _ _ _ _ Hrc).
    destruct (in_range (price_idx sd r (price o))) eqn:Hir.
    + by apply (recentring_insert b0 q sd r l b a o), in_range_true.
    + eexists. split; [done|]. by apply (recentring_drop b0 q sd r l b a o).
  - exists b. split; [done|]. by apply (recentring_skip b0 q sd r l b a o).
Qed.

Lemma recentre_ok b q sd it r :
  sides_ok b q → 0 ≤ r < 2 ^ 31 → NoDup (entries it (order_map b)).*2 →
  (∀ ref a, order_map b !! ref = Some a → listed (heap_of b) a) →
  ∃ b', recentre sd it b r = Ok b' ∧ recentring b q sd r (entries it (order_map b)).*2 b'.
Proof.
  intros Hok Hr Hnd Hlist. rewrite recentre_unfold.
  destruct (foldM_ind (recentre_step sd) (λ es b', recentring b q sd r es.*2 b')
    (entries it (order_map b)) (set_refp sd r (set_best sd (-1) (set_levels sd ∅ b))))
    as (b' & E & Hrc); [by apply recentring_init| |by exists b'].
  intros es e todo b1 Heq Hrc. rewrite fmap_app. simpl.
  apply recentring_step; try done.
  - rewrite Heq, fmap_app, fmap_cons in Hnd. apply NoDup_app in Hnd as (_ & Hd & _).
    intros He. apply (Hd _ He). by left.
  - apply (Hlist e.1). apply elem_of_map_to_list. rewrite <-(entries_perm it), Heq.
    destruct e. simpl. set_solver.
Qed.
End InvLemmas.
