(* ===== verification/BookWf.v ===== *)
(** * Well-formed books and what the handlers preserve

    [core] is the invariant of the live orders (map, queues, reference prices);
    [book_wf] adds the pool: every slot is either on the free list or a live order.
    The lemmas give, for each handler, the state it reaches from a well-formed book
    and the effect on the live orders [abs_orders]; the theorems about them are in
    [BookSpec]. *)

From S2P Require Import Prelude Bytes Messages Parser Order PriceLevel OrderBook BookInv.

(** ** Abstraction *)

(** A live order, as the outside world knows it. *)
Record SOrder := mkSOrder {
  s_side : Z;
  s_price : Z;
  s_shares : Z;
}.

Definition to_sorder (o : Order) : SOrder := mkSOrder (side o) (price o) (shares o).

(** The live orders by reference number. *)
Definition abs_orders (b : OrderBook) : gmap Z SOrder :=
  omap (λ a, to_sorder <$> heap_of b !! a) (order_map b).

(** ** Invariants *)

(** What is known of a live order. *)
Definition live_ok (b : OrderBook) (q : queues) (ref : Z) (a : addr) : Prop :=
  ∃ o sd, heap_of b !! a = Some o ∧ order_ref o = ref ∧ side o = side_char sd ∧
    0 < price o < 2 ^ 31 ∧ (level_idx o = -1 ∨ a ∈ q sd (level_idx o)).

Record core (b : OrderBook) (q : queues) : Prop := {
  co_sides : sides_ok b q;
  co_live : ∀ ref a, order_map b !! ref = Some a → live_ok b q ref a;
  co_queued : ∀ sd i a, a ∈ q sd i → ∃ ref, order_map b !! ref = Some a;
  co_refs : ∀ sd, 0 ≤ refp sd b < 2 ^ 31;
  co_ref0 : ∀ sd, refp sd b = 0 → ∀ i, q sd i = [];
}.

Record book_wf (b : OrderBook) (q : queues) (fs : list addr) : Prop := {
  wf_core : core b q;
  wf_pool : pool_ok (pool b) fs;
  wf_count : (length fs + size (order_map b) = length (heap_of b))%nat;
  wf_cap : (0 < length (heap_of b))%nat;
}.

(** A book satisfying the invariants, whatever its queues and free list. *)
Definition wf (b : OrderBook) : Prop := ∃ q fs, book_wf b q fs.

(** Every live order is in a level. *)
Definition attached (b : OrderBook) : Prop :=
  ∀ ref a o, order_map b !! ref = Some a → heap_of b !! a = Some o → level_idx o ≠ -1.

(** [a] is allocated and filled in, but not yet in the map or in a level. *)
Record pending (b : OrderBook) (a : addr) (o : Order) (sd : bside) : Prop := {
  pe_heap : heap_of b !! a = Some o;
  pe_idx : level_idx o = -1;
  pe_side : side o = side_char sd;
  pe_price : 0 < price o < 2 ^ 31;
  pe_fresh : ∀ ref, order_map b !! ref ≠ Some a;
}.

(** With live orders [m] and reference price [r], an order at price [p] on side [sd]
    leaves every live order a level: no reference price is set, or the price is in the
    window, or every live order of the side is in the window around [p]. *)
Definition lossless (m : gmap Z SOrder) (r : Z) (sd : bside) (p : Z) : Prop :=
  r = 0 ∨ in_range (price_idx sd r p) = true ∨
  ∀ ref s, m !! ref = Some s → s_side s = side_char sd →
    in_range (price_idx sd p (s_price s)) = true.

(** ** Lemmas: live orders *)
Lemma core_inj b q r1 r2 a :
  core b q → order_map b !! r1 = Some a → order_map b !! r2 = Some a → r1 = r2.
Proof.
  intros Hc H1 H2. destruct (co_live _ _ Hc _ _ H1) as (o1 & ? & E1 & <- & _).
  destruct (co_live _ _ Hc _ _ H2) as (o2 & ? & E2 & <- & _). congruence.
Qed.

Lemma core_listed b q ref a : core b q → order_map b !! ref = Some a → listed (heap_of b) a.
Proof.
  intros Hc Hm. destruct (co_live _ _ Hc _ _ Hm) as (o & sd & Ho & _ & Hs & Hp & _).
  exists o, sd. split_and!; [done|done|lia|lia].
Qed.

Lemma entries_elem it m ref a : (ref, a) ∈ entries it m ↔ m !! ref = Some a.
Proof. rewrite (entries_perm it). apply elem_of_map_to_list. Qed.

Lemma entries_snd it m a : a ∈ (entries it m).*2 ↔ ∃ ref, m !! ref = Some a.
Proof.
  rewrite list_elem_of_fmap. split.
  - intros ([ref a'] & -> & Hin). exists ref. by apply entries_elem in Hin.
  - intros [ref Hm]. exists (ref, a). by rewrite entries_elem.
Qed.

Lemma core_entries_nodup b q it : core b q → NoDup (entries it (order_map b)).*2.
Proof.
  intros Hc. apply NoDup_fmap_2_strong.
  - intros [r1 a1] [r2 a2] H1%entries_elem H2%entries_elem. simpl. intros ->.
    f_equal. by eapply core_inj.
  - rewrite (entries_perm it). apply NoDup_map_to_list.
Qed.

Lemma abs_orders_lookup b ref s :
  abs_orders b !! ref = Some s ↔
  ∃ a o, order_map b !! ref = Some a ∧ heap_of b !! a = Some o ∧ s = to_sorder o.
Proof.
  unfold abs_orders. rewrite lookup_omap_Some. split.
  - intros (a & E & Hm). apply fmap_Some in E as (o & ? & ->). eauto.
  - intros (a & o & Hm & Ho & ->). exists a. by rewrite Ho.
Qed.

Lemma abs_orders_None b q ref :
  core b q → abs_orders b !! ref = None ↔ order_map b !! ref = None.
Proof.
  intros Hc. unfold abs_orders. rewrite lookup_omap.
  destruct (order_map b !! ref) as [a|] eqn:Hm; simpl; [|done].
  destruct (co_live _ _ Hc _ _ Hm) as (o & ? & -> & _). done.
Qed.

Lemma abs_orders_size b q : core b q → size (abs_orders b) = size (order_map b).
Proof.
  intros Hc. assert (E : (dom (abs_orders b) : gset Z) = dom (order_map b)).
  { apply set_eq. intros ref. rewrite !elem_of_dom, <-!not_eq_None_Some.
    apply not_iff_compat, (abs_orders_None _ _ _ Hc). }
  by rewrite <-(size_dom (D:=gset Z)), E, size_dom.
Qed.

(** Equal contents up to location give equal live orders. *)
Lemma abs_orders_proper b b' :
  order_map b' = order_map b → erase_loc <$> heap_of b' = erase_loc <$> heap_of b →
  abs_orders b' = abs_orders b.
Proof.
  intros Hm Hd. unfold abs_orders. rewrite Hm. apply map_eq. intros ref.
  rewrite !lookup_omap. destruct (order_map b !! ref) as [a|]; [|done]. simpl.
  apply (f_equal (lookup a)) in Hd. rewrite !list_lookup_fmap in Hd.
  destruct (heap_of b' !! a) as [o1|], (heap_of b !! a) as [o2|]; simpl in *; try done.
  f_equal. apply (inj Some) in Hd. inversion Hd. unfold to_sorder. congruence.
Qed.

(** ** Lemmas: frames *)
Lemma core_ext b q q' : (∀ sd i, q sd i = q' sd i) → core b q → core b q'.
Proof.
  intros E [Hs Hl Hq Hr H0]. split; [by eapply sides_ok_ext| | |done|].
  - intros ref a Hm. destruct (Hl ref a Hm) as (o & sd & ?). exists o, sd. by rewrite <-E.
  - intros sd i a. rewrite <-E. apply Hq.
  - intros sd Hz i. rewrite <-E. by apply H0.
Qed.

Lemma q_set_ext q q' sd i l l' :
  (∀ sd i, q sd i = q' sd i) → l = l' → ∀ sd' j, q_set q sd i l sd' j = q_set q' sd i l' sd' j.
Proof.
  intros E -> sd' j. destruct (decide (sd = sd')) as [<-|]; [|by rewrite !q_set_ne].
  rewrite !q_set_eq. destruct (decide (i = j)) as [<-|]; [by rewrite !fn_lookup_insert|].
  by rewrite !fn_lookup_insert_ne.
Qed.


(** Changing the heap outside the live orders. *)
Lemma core_frame b q p :
  core b q → heap_ok (slots p) →
  (∀ ref c, order_map b !! ref = Some c → slots p !! c = heap_of b !! c) →
  core (set_pool p b) q.
Proof.
  intros [Hs Hl Hq Hr H0] Hh Hfr. split; try done.
  - split; [done|]. intros sd. eapply side_ok_frame.
    + pose proof (ss_side _ _ Hs sd) as Hss. by destruct sd.
    + intros i c Hc. destruct (Hq sd i c Hc) as [ref Hm]. by eapply Hfr.
  - intros ref c Hm. destruct (Hl ref c Hm) as (o & sd & Ho & ?). exists o, sd.
    split; [|done]. unfold heap_of. simpl. by rewrite (Hfr ref c Hm).
Qed.

(** Free slots are not live. *)
Lemma free_not_live b q fs a ref : book_wf b q fs → a ∈ fs → order_map b !! ref ≠ Some a.
Proof.
  intros [Hc [Hf _] _ _] Ha Hm. destruct (free_list_lookup _ _ _ _ Hf Ha) as (n & Hn).
  destruct (co_live _ _ Hc _ _ Hm) as (o & sd & Ho & _ & _ & Hp & _).
  unfold heap_of in Ho. rewrite Hn in Ho. injection Ho as <-. simpl in Hp. lia.
Qed.

Lemma pending_not_queued b q a o sd :
  sides_ok b q → pending b a o sd → ∀ sd' i, a ∉ q sd' i.
Proof.
  intros [_ Hss] [Ha Hi _ _ _] sd'. eapply detached_not_queued; [done..|]. lia.
Qed.

(** ** Lemmas: insertion *)
Section Insert.
Context `{BuildMode}.

(** The state reached by recentring side [sd] on [r] while [a] is pending. *)
Lemma recentre_core b q it sd r a o sda :
  core b q → 0 < r < 2 ^ 31 → pending b a o sda →
  ∃ b' , let q' := q_recentred (heap_of b) q sd r (entries it (order_map b)).*2 in
    recentre sd it b r = Ok b' ∧ core b' q' ∧ pending b' a o sda ∧
    recentring b q sd r (entries it (order_map b)).*2 b'.
Proof.
  intros Hc Hr Hp. set (l := (entries it (order_map b)).*2).
  destruct (recentre_ok b q sd it r) as (b' & E & Hrc);
    [apply Hc|lia|by eapply core_entries_nodup|by intros; eapply core_listed|].
  fold l in Hrc. exists b'. cbv zeta. split_and!; [done| | |done].
  - split.
    + apply Hrc.
    + intros ref c Hm. rewrite (rc_map _ _ _ _ _ _ Hrc) in Hm.
      assert (Hcl : c ∈ l) by (apply entries_snd; eauto).
      destruct (co_live _ _ Hc ref c Hm) as (oc & sdc & Hoc & Href & Hsc & Hpc & Hloc).
      destruct (decide (sd = sdc)) as [<-|Hne].
      * pose proof (rc_data _ _ _ _ _ _ Hrc) as Hd. apply (f_equal (lookup c)) in Hd.
        rewrite !list_lookup_fmap, Hoc in Hd. destruct (heap_of b' !! c) as [oc'|] eqn:Hoc'; [|done].
        pose proof (rc_idx _ _ _ _ _ _ Hrc c oc oc' Hcl Hoc Hsc Hoc') as Hidx.
        apply (inj Some) in Hd. inversion Hd. exists oc', sd. split_and!; try congruence; [lia..|].
        destruct (in_range (price_idx sd r (price oc))) eqn:Hir; [right|by left].
        rewrite q_recentred_eq, Hidx. apply list_elem_of_filter. split; [|done].
        rewrite (at_level_Some _ _ _ _ _ oc), Z.eqb_refl, Hir by done. done.
      * exists oc, sdc. rewrite q_recentred_ne by done. split_and!; try done; [|lia..].
        apply (rc_other _ _ _ _ _ _ Hrc c oc Hoc). rewrite Hsc. by intros ?%side_char_inj.
    + intros sd' i c Hin. rewrite (rc_map _ _ _ _ _ _ Hrc).
      destruct (decide (sd = sd')) as [<-|Hne].
      * rewrite q_recentred_eq in Hin. apply list_elem_of_filter in Hin as [_ Hin].
        by apply entries_snd in Hin.
      * rewrite q_recentred_ne in Hin by done. by eapply (co_queued _ _ Hc).
    + intros sd'. destruct (decide (sd = sd')) as [<-|Hne].
      * rewrite (rc_ref _ _ _ _ _ _ Hrc). lia.
      * rewrite (rc_other_ref _ _ _ _ _ _ Hrc) by done. apply Hc.
    + intros sd'. destruct (decide (sd = sd')) as [<-|Hne].
      * rewrite (rc_ref _ _ _ _ _ _ Hrc). lia.
      * rewrite (rc_other_ref _ _ _ _ _ _ Hrc), q_recentred_ne by done. apply Hc.
  - destruct Hp as [Ha Hi Hs Hpr Hf]. split; try done.
    + rewrite (rc_frame _ _ _ _ _ _ Hrc); [done|]. intros [ref Hm]%entries_snd. by apply (Hf ref).
    + intros ref. rewrite (rc_map _ _ _ _ _ _ Hrc). apply Hf.
Qed.

(** Inserting the pending order at its index and then in the map. *)
Lemma insert_commit b q a o sd i :
  core b q → pending b a o sd → order_map b !! order_ref o = None → refp sd b ≠ 0 →
  price_idx sd (refp sd b) (price o) = i → 0 ≤ i < kLevels →
  ∃ b', insert_at b a i = Ok b' ∧
    core (set_order_map (<[order_ref o := a]> (order_map b')) b') (q_set q sd i (q sd i ++ [a])) ∧
    same_meta b b' ∧
    same_data (<[a := set_level_idx i o]> (heap_of b)) (heap_of b') ∧
    ∀ c, c ∉ a :: q sd i → heap_of b' !! c = heap_of b !! c.
Proof.
  intros Hc Hp Hnew Hr0 Hidx Hi. destruct Hp as [Ha Hli Hs Hpr Hf].
  destruct (insert_at_ok b q sd i a o) as (b' & E & Hok & Hm & Hd & Hfr); [apply Hc|done|lia|done..|].
  exists b'. split_and!; try done.
  set (q' := q_set q sd i (q sd i ++ [a])).
  assert (Hq' : ∀ sd' j c, c ∈ q sd' j → c ∈ q' sd' j).
  { intros sd' j c Hin. unfold q'. destruct (decide (sd = sd')) as [<-|Hne]; [|by rewrite q_set_ne].
    rewrite q_set_eq. destruct (decide (i = j)) as [<-|]; [|by rewrite fn_lookup_insert_ne].
    rewrite fn_lookup_insert. set_solver. }
  assert (Hlk : ∀ c oc, <[a := set_level_idx i o]> (heap_of b) !! c = Some oc →
            ∃ oc', heap_of b' !! c = Some oc' ∧ erase_links oc = erase_links oc')
    by (intros c oc; by apply same_data_lookup).
  split.
  - destruct Hok as [Hh Hss]. split; [done|]. intros sd'. specialize (Hss sd'). by destruct sd'.
  - intros ref c. simpl. rewrite lookup_insert_Some, (sm_map _ _ Hm).
    intros [[<- <-]|[Hne Hmc]].
    + destruct (Hlk a (set_level_idx i o)) as (o' & Ho' & He).
      { apply list_lookup_insert_eq. by eapply lookup_lt_Some. }
      inversion He. exists o', sd. split_and!; [done|congruence..|lia|lia|]. right.
      unfold q'. rewrite q_set_eq. replace (level_idx o') with i by congruence.
      rewrite fn_lookup_insert. set_solver.
    + destruct (co_live _ _ Hc ref c Hmc) as (oc & sdc & Hoc & ? & ? & ? & Hloc).
      assert (a ≠ c) by (intros ->; by apply (Hf ref)).
      destruct (Hlk c oc) as (oc' & Hoc' & He); [by rewrite list_lookup_insert_ne|].
      inversion He. exists oc', sdc. split_and!; [done|congruence..|lia|lia|].
      replace (level_idx oc') with (level_idx oc) by congruence.
      destruct Hloc as [?|Hin]; [by left|right]. by apply Hq'.
  - intros sd' j c Hin. simpl. rewrite (sm_map _ _ Hm). destruct (decide (c = a)) as [->|Hne].
    { exists (order_ref o). by rewrite lookup_insert_eq. }
    assert (Hin' : c ∈ q sd' j).
    { unfold q' in Hin. destruct (decide (sd = sd')) as [<-|?]; [|by rewrite q_set_ne in Hin].
      rewrite q_set_eq in Hin. destruct (decide (i = j)) as [<-|]; [|by rewrite fn_lookup_insert_ne in Hin].
      rewrite fn_lookup_insert in Hin. set_solver. }
    destruct (co_queued _ _ Hc sd' j c Hin') as [ref Hm']. exists ref.
    rewrite lookup_insert_ne; [done|]. intros <-. congruence.
  - intros sd'. pose proof (sm_ref _ _ Hm sd') as Href. pose proof (co_refs _ _ Hc sd').
    rewrite <-Href in H0. by destruct sd'.
  - intros sd' H0 j. assert (Href : refp sd' b' = 0) by (by destruct sd').
    rewrite (sm_ref _ _ Hm) in Href. unfold q'.
    destruct (decide (sd = sd')) as [<-|Hne]; [done|]. rewrite q_set_ne by done.
    by apply (co_ref0 _ _ Hc).
Qed.

Lemma insert_order_unfold sd it b a o :
  heap_of b !! a = Some o → side o = side_char sd →
  insert_order it b a =
    (let b := if refp sd b =? 0 then set_refp sd (price o) b else b in
     idx ← idx_of sd b (price o);
     '(b, idx) ← (if (idx <? 0) || (kLevels <=? idx) then
                    b ← recentre sd it b (price o);
                    idx ← idx_of sd b (price o);
                    Ok (b, idx)
                  else Ok (b, idx));
     cassert (in_range idx);;
     insert_at b a idx).
Proof.
  intros Ha Hs. unfold insert_order. rewrite (deref_ok _ _ o), bind_ok, Hs by done. by destruct sd.
Qed.

Lemma out_of_range_test i : (i <? 0) || (kLevels <=? i) = negb (in_range i).
Proof. unfold in_range. destruct (Z.ltb_spec i 0), (Z.leb_spec kLevels i), (Z.leb_spec 0 i), (Z.ltb_spec i kLevels); simpl; lia || done. Qed.

(** The first order of a side sets its reference price. *)
Lemma core_set_ref b q sd r :
  core b q → refp sd b = 0 → 0 < r < 2 ^ 31 → core (set_refp sd r b) q.
Proof.
  intros [[Hh Hss] Hl Hq Hr H0] Hz Hrp. pose proof (H0 sd Hz) as Hemp. split.
  - split; [by destruct sd|]. intros sd'. specialize (Hss sd').
    destruct (decide (sd = sd')) as [<-|Hne]; [|by destruct sd, sd'].
    destruct Hss as [H1 H2 H3 H4]. destruct sd; split; try done;
      intros i c Hc; rewrite Hemp in Hc; by apply not_elem_of_nil in Hc.
  - intros ref c Hm. destruct (Hl ref c) as (oc & sdc & ?); [by destruct sd|].
    exists oc, sdc. by destruct sd.
  - intros sd' i c Hc. destruct (Hq sd' i c Hc) as [ref ?]. exists ref. by destruct sd.
  - intros sd'. pose proof (Hr sd'). destruct sd, sd'; simpl in *; lia.
  - intros sd'. pose proof (H0 sd'). destruct sd, sd'; simpl in *; lia || done.
Qed.

Lemma pending_set_ref b a o sd sd' r : pending b a o sd → pending (set_refp sd' r b) a o sd.
Proof. intros []. by destruct sd'. Qed.

(** What insertion of the pending order [a] guarantees of the state [b'] it returns;
    [q'] are the queues once [a] is in the map. *)
Record inserted (b : OrderBook) (a : addr) (o : Order) (b' : OrderBook) (q' : queues) : Prop := {
  in_core : core (set_order_map (<[order_ref o := a]> (order_map b')) b') q';
  in_map : order_map b' = order_map b;
  in_open : is_open b' = is_open b;
  in_free : free_head (pool b') = free_head (pool b);
  in_data : erase_loc <$> heap_of b' = erase_loc <$> heap_of b;
  in_frame : ∀ c, c ≠ a → (∀ ref, order_map b !! ref ≠ Some c) → heap_of b' !! c = heap_of b !! c;
  in_attached : ∀ o', heap_of b' !! a = Some o' → level_idx o' ≠ -1;
}.

Lemma inserted_at b q a o sd i :
  core b q → pending b a o sd → order_map b !! order_ref o = None → refp sd b ≠ 0 →
  price_idx sd (refp sd b) (price o) = i → 0 ≤ i < kLevels →
  ∃ b', insert_at b a i = Ok b' ∧ inserted b a o b' (q_set q sd i (q sd i ++ [a])) ∧
    (∀ sd', refp sd' b' = refp sd' b) ∧
    ∀ c oc, c ≠ a → heap_of b !! c = Some oc →
      ∃ oc', heap_of b' !! c = Some oc' ∧ level_idx oc' = level_idx oc.
Proof.
  intros Hc Hp Hnew Hr0 Hidx Hi.
  destruct (insert_commit b q a o sd i) as (b' & E & Hc' & Hm & Hd & Hfr); [done..|].
  exists b'. pose proof (pe_heap _ _ _ _ Hp) as Ha. split_and!; [done| |apply Hm|].
  - split; [done|apply Hm|apply Hm|apply Hm| | |].
    + rewrite (same_data_erase_loc _ _ Hd). by apply (erase_loc_insert _ _ o).
    + intros c Hne Hnl. apply Hfr. intros [?|Hin]%elem_of_cons; [done|].
      destruct (co_queued _ _ Hc _ _ _ Hin) as [ref ?]. by apply (Hnl ref).
    + intros o' Ho'. destruct (same_data_lookup _ _ a (set_level_idx i o) Hd) as (o2 & Ho2 & He).
      { apply list_lookup_insert_eq. by eapply lookup_lt_Some. }
      rewrite Ho' in Ho2. injection Ho2 as <-. inversion He. lia.
  - intros c oc Hne Hoc. destruct (same_data_lookup _ _ c oc Hd) as (oc' & Hoc' & He).
    { by rewrite list_lookup_insert_ne. }
    exists oc'. split; [done|]. inversion He. congruence.
Qed.

(** Inside the window: the order joins the back of its level, nothing else moves. *)
Lemma insert_order_window b q it a o sd :
  core b q → pending b a o sd → order_map b !! order_ref o = None →
  refp sd b = 0 ∨ in_range (price_idx sd (refp sd b) (price o)) = true →
  let r := if refp sd b =? 0 then price o else refp sd b in
  let i := price_idx sd r (price o) in
  ∃ b', insert_order it b a = Ok b' ∧ inserted b a o b' (q_set q sd i (q sd i ++ [a])) ∧
    refp sd b' = r ∧ (∀ sd', sd ≠ sd' → refp sd' b' = refp sd' b) ∧
    ∀ c oc, c ≠ a → heap_of b !! c = Some oc →
      ∃ oc', heap_of b' !! c = Some oc' ∧ level_idx oc' = level_idx oc.
Proof.
  intros Hc Hp Hnew Hw r i. pose proof Hp as [Ha _ Hs Hpr _].
  pose proof (co_refs _ _ Hc sd) as Hrb.
  rewrite (insert_order_unfold sd it b a o) by done. cbv zeta.
  set (b1 := if refp sd b =? 0 then set_refp sd (price o) b else b).
  assert (Hr : refp sd b1 = r) by (unfold b1, r; destruct (refp sd b =? 0); by destruct sd).
  assert (Hother : ∀ sd', sd ≠ sd' → refp sd' b1 = refp sd' b)
    by (intros sd' ?; unfold b1; destruct (refp sd b =? 0); by destruct sd, sd').
  assert (Hc1 : core b1 q).
  { unfold b1. destruct (Z.eqb_spec (refp sd b) 0); [by apply core_set_ref|done]. }
  assert (Hp1 : pending b1 a o sd).
  { unfold b1. destruct (refp sd b =? 0); [by apply pending_set_ref|done]. }
  assert (Hr0 : 0 < r < 2 ^ 31) by (unfold r; destruct (Z.eqb_spec (refp sd b) 0); lia).
  assert (Hi : 0 ≤ i < kLevels).
  { unfold i, r. destruct (Z.eqb_spec (refp sd b) 0) as [E|E].
    - destruct sd; simpl; unfold kLevels; lia.
    - destruct Hw as [|?%in_range_true]; [done|lia]. }
  assert (Hb1 : order_map b1 = order_map b ∧ is_open b1 = is_open b ∧ pool b1 = pool b)
    by (unfold b1; destruct (refp sd b =? 0); by destruct sd).
  destruct Hb1 as (Hm1 & Ho1 & Hpool1).
  rewrite idx_of_ok, bind_ok, Hr, out_of_range_test by (rewrite ?Hr; lia). fold i.
  rewrite (proj2 (in_range_true i) Hi). simpl. rewrite cassert_true, bind_ok by (by apply in_range_true).
  destruct (inserted_at b1 q a o sd i) as (b' & E & Hin & Hrf & Hlv);
    [done|done|by rewrite Hm1|lia|by rewrite Hr|done|].
  exists b'. rewrite Hrf. split_and!; [done| |done| |].
  - destruct Hin. unfold heap_of in *. rewrite Hpool1 in *. split; congruence || eauto.
    intros c ? ?. rewrite Hm1 in *. auto.
  - intros sd' ?. rewrite Hrf. by apply Hother.
  - unfold heap_of in *. by rewrite Hpool1 in Hlv.
Qed.

(** Outside the window: the side is rebuilt around the new price, whose index is 0,
    and the new order joins the back of level 0. *)
Lemma insert_order_recentre b q it a o sd :
  core b q → pending b a o sd → order_map b !! order_ref o = None →
  refp sd b ≠ 0 → in_range (price_idx sd (refp sd b) (price o)) = false →
  let l := (entries it (order_map b)).*2 in
  let q1 := q_recentred (heap_of b) q sd (price o) l in
  ∃ b' b1, insert_order it b a = Ok b' ∧ inserted b a o b' (q_set q1 sd 0 (q1 sd 0 ++ [a])) ∧
    refp sd b' = price o ∧ (∀ sd', sd ≠ sd' → refp sd' b' = refp sd' b) ∧
    recentring b q sd (price o) l b1 ∧
    ∀ c oc, c ≠ a → heap_of b1 !! c = Some oc →
      ∃ oc', heap_of b' !! c = Some oc' ∧ level_idx oc' = level_idx oc.
Proof.
  intros Hc Hp Hnew Hr0 Hw l q1. pose proof Hp as [Ha _ Hs Hpr Hnl].
  rewrite (insert_order_unfold sd it b a o) by done. cbv zeta.
  rewrite (proj2 (Z.eqb_neq _ _) Hr0).
  rewrite idx_of_ok, bind_ok, out_of_range_test, Hw by (try apply (co_refs _ _ Hc); lia).
  destruct (recentre_core b q it sd (price o) a o sd Hc Hpr Hp) as (b1 & E & Hc1 & Hp1 & Hrc).
  cbv zeta in Hc1. fold l q1 in Hc1, Hrc. simpl. rewrite E, bind_ok.
  pose proof (rc_ref _ _ _ _ _ _ Hrc) as Hr1.
  assert (Hidx : price_idx sd (price o) (price o) = 0) by (destruct sd; simpl; lia).
  rewrite idx_of_ok, bind_ok, Hr1, Hidx by (rewrite ?Hr1; lia). rewrite bind_ok.
  rewrite cassert_true, bind_ok by done.
  destruct (inserted_at b1 q1 a o sd 0) as (b' & E' & Hin & Hrf & Hlv);
    [done|done|by rewrite (rc_map _ _ _ _ _ _ Hrc)|lia|by rewrite Hr1|done|].
  exists b', b1. rewrite Hrf. split_and!; try done.
  - destruct Hin as [I1 I2 I3 I4 I5 I6 I7], Hrc as [_ R2 R3 R4 _ _ R7 R8 _ _].
    split; try congruence; try done. intros c Hne Hc'.
    rewrite I6, R8; [done| |done|by rewrite R2]. intros [ref Hm]%entries_snd. by apply (Hc' ref).
  - intros sd' ?. rewrite Hrf. by apply (rc_other_ref _ _ _ _ _ _ Hrc).
Qed.

Lemma inserted_attached b a o b' q' :
  inserted b a o b' q' →
  (∀ ref c oc, order_map b !! ref = Some c → c ≠ a → heap_of b' !! c = Some oc → level_idx oc ≠ -1) →
  attached (set_order_map (<[order_ref o := a]> (order_map b')) b').
Proof.
  intros Hin Hl ref c oc Hm Hoc. simpl in Hm. rewrite (in_map _ _ _ _ _ Hin) in Hm.
  destruct (decide (c = a)) as [->|Hne]; [by apply (in_attached _ _ _ _ _ Hin)|].
  apply lookup_insert_Some in Hm as [[_ ?]|[_ Hm]]; [congruence|]. by apply (Hl ref c).
Qed.

(** Insertion in general. *)
Lemma insert_order_ok b q it a o sd :
  core b q → pending b a o sd → order_map b !! order_ref o = None →
  ∃ b' q', insert_order it b a = Ok b' ∧ inserted b a o b' q' ∧
    (∀ sd', sd ≠ sd' → refp sd' b' = refp sd' b) ∧
    refp sd b' = (if refp sd b =? 0 then price o
                  else if in_range (price_idx sd (refp sd b) (price o)) then refp sd b else price o) ∧
    (attached b → lossless (abs_orders b) (refp sd b) sd (price o) →
     attached (set_order_map (<[order_ref o := a]> (order_map b')) b')).
Proof.
  intros Hc Hp Hnew. pose proof Hp as [Ha _ Hs Hpr Hnl].
  destruct (decide (refp sd b = 0 ∨ in_range (price_idx sd (refp sd b) (price o)) = true)) as [Hw|Hw].
  - destruct (insert_order_window b q it a o sd Hc Hp Hnew Hw) as (b' & E & Hin & Hr & Hro & Hlv).
    do 2 eexists. split_and!; [done|done|done| |].
    + rewrite Hr. destruct (refp sd b =? 0) eqn:E0; [done|].
      destruct Hw as [Hz| ->]; [|done]. rewrite Hz in E0. done.
    + intros Hatt _. eapply inserted_attached; [done|].
      intros ref c oc Hm Hne Hoc. destruct (co_live _ _ Hc _ _ Hm) as (oc0 & _ & Hoc0 & _).
      destruct (Hlv c oc0 Hne Hoc0) as (oc' & Hoc' & He). pose proof (Hatt ref c oc0 Hm Hoc0). congruence.
  - assert (Hr0 : refp sd b ≠ 0) by tauto.
    assert (Hir : in_range (price_idx sd (refp sd b) (price o)) = false)
      by (destruct (in_range _); tauto).
    destruct (insert_order_recentre b q it a o sd Hc Hp Hnew Hr0 Hir)
      as (b' & b1 & E & Hin & Hr & Hro & Hrc & Hlv).
    do 2 eexists. split_and!; [done|done|done| |].
    + by rewrite Hr, (proj2 (Z.eqb_neq _ _) Hr0), Hir.
    + intros Hatt [?|[?|Hall]]; [done|congruence|]. eapply inserted_attached; [done|].
      intros ref c oc Hm Hne Hoc.
      destruct (co_live _ _ Hc _ _ Hm) as (oc0 & sdc & Hoc0 & _ & Hsc & _).
      assert (Hcl : c ∈ (entries it (order_map b)).*2) by (apply entries_snd; eauto).
      destruct (heap_of b1 !! c) as [oc1|] eqn:Hoc1.
      2:{ pose proof (rc_data _ _ _ _ _ _ Hrc) as Hd. apply (f_equal (lookup c)) in Hd.
          by rewrite !list_lookup_fmap, Hoc0, Hoc1 in Hd. }
      destruct (Hlv c oc1 Hne Hoc1) as (oc' & Hoc' & He). rewrite Hoc in Hoc'. injection Hoc' as <-.
      rewrite He. destruct (decide (sd = sdc)) as [<-|Hsd].
      * rewrite (rc_idx _ _ _ _ _ _ Hrc c oc0 oc1) by done.
        assert (Hir1 : in_range (price_idx sd (price o) (price oc0)) = true).
        { apply (Hall ref (to_sorder oc0)); [|done]. apply abs_orders_lookup. eauto. }
        rewrite Hir1. apply in_range_true in Hir1. lia.
      * assert (side oc0 ≠ side_char sd) by (rewrite Hsc; by intros ?%side_char_inj).
        pose proof (rc_other _ _ _ _ _ _ Hrc c oc0 Hoc0 ltac:(done)) as Hoc1'.
        rewrite Hoc1 in Hoc1'. injection Hoc1' as ->. by apply (Hatt ref c).
Qed.

End Insert.
