(* ===== verification/BookHandlers.v ===== *)
(** * What each message handler does to a well-formed book

    One lemma per handler body: the state it reaches from a book satisfying
    [book_wf], the free list it leaves, and its effect on the live orders.  The
    bodies shared by several handlers ([add_body], [reduce_body], [drop_body]) are
    stated once; the handlers unfold to them. *)

From S2P Require Import Prelude Bytes Messages Parser Order PriceLevel OrderBook BookInv BookWf.

Section Bodies.
Context `{BuildMode}.

(** Both [on_add] overloads, and the second half of [on_replace]. *)
Definition add_body (it : IterOrder) (b : OrderBook) (ref shares price side : Z)
  : outcome OrderBook :=
  '(o, p) ← make_order (pool b) ref shares price side;
  b ← insert_order it (set_pool p b) o;
  Ok (set_order_map (<[ref := o]> (order_map b)) b).

(** Unlink, forget and free a live order: [on_delete], and the end of the others. *)
Definition drop_body (b : OrderBook) (ref : Z) (o : addr) : outcome OrderBook :=
  b ← book_remove_order b o;
  let b := set_order_map (delete ref (order_map b)) b in
  p ← free (pool b) (Some o);
  Ok (set_pool p b).

(** [on_execute] (both overloads) and [on_cancel]. *)
Definition reduce_body (b : OrderBook) (ref qty : Z) : outcome OrderBook :=
  match order_map b !! ref with
  | None => Ok b
  | Some o =>
      b ← book_reduce_shares b o qty;
      c ← deref (heap_of b) (Some o);
      if shares c =? 0 then drop_body b ref o else Ok b
  end.

End Bodies.

(** What a handler keeps besides the live orders. *)
Record kept (b b' : OrderBook) : Prop := {
  kp_open : is_open b' = is_open b;
  kp_cap : pool_capacity (pool b') = pool_capacity (pool b);
}.

#[export] Instance kept_refl : Reflexive kept.
Proof. by split. Qed.
#[export] Instance kept_trans : Transitive kept.
Proof. intros ??? [] []. split; congruence. Qed.

(** ** Lemmas: the pool *)
Section PoolSteps.
Context `{BuildMode}.

Lemma make_order_ok p a fs ref sh pr sd :
  pool_ok p (a :: fs) →
  ∃ p', make_order p ref sh pr sd = Ok (a, p') ∧ pool_ok p' fs ∧
        slots p' = <[a := mkOrder ref sh pr sd (-1) None None]> (slots p) ∧ (a < length (slots p))%nat.
Proof.
  intros Hp. destruct (alloc_ok _ _ _ Hp) as (p1 & E & [Hf Hnd] & Hs).
  destruct (free_list_lookup _ _ _ a (po_chain _ _ Hp)) as (n & Ha); [by left|].
  pose proof (lookup_lt_Some _ _ _ Ha) as Hlt.
  assert (Ha1 : slots p1 !! a = Some (blank None)) by (rewrite Hs; by apply list_lookup_insert_eq).
  unfold make_order. rewrite E. simpl. heap_step. eexists. split; [done|]. simpl.
  split; [split; [|done]|split; [by rewrite Hs, list_insert_insert_eq|done]].
  eapply free_list_frame; [done|].
  intros c Hc. simpl. rewrite list_lookup_insert_ne; [done|]. intros ->.
  by pose proof (po_nodup _ _ Hp) as [? _]%NoDup_cons.
Qed.

Lemma make_order_exhausted p ref sh pr sd :
  pool_ok p [] → make_order p ref sh pr sd = Fault (if ndebug then NullDeref else AssertFailed).
Proof. intros Hp. unfold make_order. by rewrite (alloc_exhausted _ Hp). Qed.

End PoolSteps.

(** ** Lemmas: live orders *)

(** The live orders once [a], holding [o], enters the map. *)
Lemma abs_orders_insert b b' ref a o :
  order_map b' = <[ref := a]> (order_map b) → (a < length (heap_of b))%nat →
  erase_loc <$> heap_of b' = erase_loc <$> <[a := o]> (heap_of b) →
  (∀ r, order_map b !! r ≠ Some a) →
  abs_orders b' = <[ref := to_sorder o]> (abs_orders b).
Proof.
  intros Hm Hlt Hd Hf. unfold abs_orders. rewrite Hm. apply map_eq. intros r.
  assert (Hlk : ∀ c, erase_loc <$> heap_of b' !! c = erase_loc <$> <[a := o]> (heap_of b) !! c)
    by (intros c; rewrite <-!list_lookup_fmap; by rewrite Hd).
  assert (Hts : ∀ c, to_sorder <$> heap_of b' !! c = to_sorder <$> <[a := o]> (heap_of b) !! c).
  { intros c. specialize (Hlk c).
    destruct (heap_of b' !! c) as [o1|], (<[a := o]> (heap_of b) !! c) as [o2|]; simpl in *; try done.
    apply (inj Some) in Hlk. inversion Hlk. unfold to_sorder. congruence. }
  rewrite lookup_omap. destruct (decide (r = ref)) as [->|Hne].
  - rewrite !lookup_insert_eq. simpl. by rewrite Hts, list_lookup_insert_eq.
  - rewrite !lookup_insert_ne by done. rewrite lookup_omap.
    destruct (order_map b !! r) as [c|] eqn:Hc; [|done]. simpl.
    rewrite Hts, list_lookup_insert_ne; [done|]. intros ->. by apply (Hf r).
Qed.

Lemma abs_orders_frame b p :
  (∀ ref c, order_map b !! ref = Some c → slots p !! c = heap_of b !! c) →
  abs_orders (set_pool p b) = abs_orders b.
Proof.
  intros Hfr. unfold abs_orders. simpl. apply map_eq. intros r. rewrite !lookup_omap.
  destruct (order_map b !! r) as [c|] eqn:Hc; [|done]. simpl. unfold heap_of. simpl.
  by rewrite (Hfr r c Hc).
Qed.

Lemma free_head_fresh b q a fs : book_wf b q (a :: fs) → ∀ ref, order_map b !! ref ≠ Some a.
Proof. intros Hw ref. eapply free_not_live; [done|by left]. Qed.

Section Handlers.
Context `{BuildMode}.

(** ** Adding *)
Lemma make_pending b q a fs ref sh pr sd :
  book_wf b q (a :: fs) → 0 ≤ sh < 2 ^ 32 → 0 < pr < 2 ^ 31 →
  let o := mkOrder ref sh pr (side_char sd) (-1) None None in
  ∃ p, make_order (pool b) ref sh pr (side_char sd) = Ok (a, p) ∧ pool_ok p fs ∧
    slots p = <[a := o]> (heap_of b) ∧ (a < length (heap_of b))%nat ∧
    core (set_pool p b) q ∧ pending (set_pool p b) a o sd.
Proof.
  intros Hw Hsh Hpr o.
  destruct (make_order_ok (pool b) a fs ref sh pr (side_char sd)) as (p & E & Hp & Hs & Hlt); [apply Hw|].
  pose proof (free_head_fresh _ _ _ _ Hw) as Hf.
  exists p. split_and!; [done|done|done|done| |].
  - apply core_frame; [apply Hw| |].
    + rewrite Hs. apply heap_ok_insert; [apply (wf_core _ _ _ Hw)|done].
    + intros r c Hc. rewrite Hs. apply list_lookup_insert_ne. intros ->. by apply (Hf r).
  - split; simpl; try done. unfold heap_of. simpl. rewrite Hs. by apply list_lookup_insert_eq.
Qed.

(** The state after an order enters the book. *)
Lemma inserted_wf b q a fs p o b1 q1 :
  book_wf b q (a :: fs) → pool_ok p fs → slots p = <[a := o]> (heap_of b) →
  (a < length (heap_of b))%nat → order_map b !! order_ref o = None →
  inserted (set_pool p b) a o b1 q1 →
  let b' := set_order_map (<[order_ref o := a]> (order_map b1)) b1 in
  book_wf b' q1 fs ∧ abs_orders b' = <[order_ref o := to_sorder o]> (abs_orders b) ∧ kept b b'.
Proof.
  intros Hw Hp Hs Hlt Hnew [Hc Hm Ho Hfr Hd Hframe _] b'. simpl in *.
  pose proof (free_head_fresh _ _ _ _ Hw) as Hfresh.
  assert (Hlen : length (heap_of b1) = length (heap_of b)).
  { rewrite <-(length_fmap erase_loc (heap_of b1)), Hd, length_fmap. unfold heap_of at 1. simpl.
    by rewrite Hs, length_insert. }
  split_and!.
  - split; [done| | |].
    + split; [|apply Hp]. simpl. rewrite Hfr. eapply free_list_frame; [apply Hp|].
      intros c Hc'. apply Hframe.
      * intros ->. by pose proof (po_nodup _ _ (wf_pool _ _ _ Hw)) as [? _]%NoDup_cons.
      * intros ref. eapply free_not_live; [done|by right].
    + simpl. rewrite Hm, map_size_insert_None by done.
      pose proof (wf_count _ _ _ Hw) as Hcnt. simpl in Hcnt. unfold b', heap_of in *; simpl in *. lia.
    + pose proof (wf_cap _ _ _ Hw). unfold b', heap_of in *; simpl in *. lia.
  - eapply abs_orders_insert; [by simpl; rewrite Hm|done| |done].
    rewrite <-Hs. exact Hd.
  - split; [done|]. unfold pool_capacity. exact Hlen.
Qed.

Lemma add_body_ok b q a fs it ref sh pr sd :
  book_wf b q (a :: fs) → order_map b !! ref = None → 0 ≤ sh < 2 ^ 32 → 0 < pr < 2 ^ 31 →
  ∃ b' q', add_body it b ref sh pr (side_char sd) = Ok b' ∧ book_wf b' q' fs ∧
    abs_orders b' = <[ref := mkSOrder (side_char sd) pr sh]> (abs_orders b) ∧ kept b b' ∧
    (∀ sd', sd ≠ sd' → refp sd' b' = refp sd' b) ∧
    refp sd b' = (if refp sd b =? 0 then pr
                  else if in_range (price_idx sd (refp sd b) pr) then refp sd b else pr) ∧
    (attached b → lossless (abs_orders b) (refp sd b) sd pr → attached b') ∧
    order_map b' !! ref = Some a ∧ ∀ o', heap_of b' !! a = Some o' → level_idx o' ≠ -1.
Proof.
  intros Hw Hnew Hsh Hpr.
  destruct (make_pending b q a fs ref sh pr sd Hw Hsh Hpr) as (p & E & Hp & Hs & Hlt & Hc & Hpe).
  destruct (insert_order_ok (set_pool p b) q it a _ sd Hc Hpe) as (b1 & q1 & E1 & Hin & Hro & Hr & Hatt);
    [done|].
  destruct (inserted_wf _ _ _ _ _ _ _ _ Hw Hp Hs Hlt Hnew Hin) as (Hw' & Habs & Hk).
  unfold add_body. rewrite E, bind_ok. simpl. rewrite E1, bind_ok.
  pose proof (free_head_fresh _ _ _ _ Hw) as Hfresh.
  do 2 eexists. split_and!; [done|done|done|done| | | | |apply Hin].
  - intros sd' Hne. specialize (Hro sd' Hne). by destruct sd'.
  - by destruct sd.
  - intros Ha Hl. apply Hatt.
    + intros r c oc Hm Hoc. apply (Ha r c oc Hm).
      unfold heap_of in Hoc. simpl in Hoc. rewrite Hs, list_lookup_insert_ne in Hoc; [exact Hoc|].
      intros ->. by apply (Hfresh r).
    + rewrite (abs_orders_frame b p); [by destruct sd|]. intros r c Hc'. rewrite Hs.
      apply list_lookup_insert_ne. intros ->. by apply (Hfresh r).
  - apply lookup_insert_eq.
Qed.

(** Inside the window the order joins the back of its level and no queue changes
    otherwise. *)
Lemma add_body_window b q a fs it ref sh pr sd :
  book_wf b q (a :: fs) → order_map b !! ref = None → 0 ≤ sh < 2 ^ 32 → 0 < pr < 2 ^ 31 →
  refp sd b = 0 ∨ in_range (price_idx sd (refp sd b) pr) = true →
  let i := price_idx sd (if refp sd b =? 0 then pr else refp sd b) pr in
  ∃ b', add_body it b ref sh pr (side_char sd) = Ok b' ∧
    core b' (q_set q sd i (q sd i ++ [a])) ∧ order_map b' = <[ref := a]> (order_map b) ∧
    refp sd b' = (if refp sd b =? 0 then pr else refp sd b).
Proof.
  intros Hw Hnew Hsh Hpr Hwin i.
  destruct (make_pending b q a fs ref sh pr sd Hw Hsh Hpr) as (p & E & Hp & Hs & Hlt & Hc & Hpe).
  assert (Hrp : refp sd (set_pool p b) = refp sd b) by (by destruct sd).
  destruct (insert_order_window (set_pool p b) q it a _ sd Hc Hpe) as (b' & E1 & Hin & Hr & _);
    [done|by rewrite Hrp|]. simpl in Hin, Hr. rewrite Hrp in Hin, Hr. fold i in Hin.
  unfold add_body. rewrite E, bind_ok. simpl. rewrite E1, bind_ok.
  eexists. split_and!; [done|apply Hin| |by destruct sd]. simpl. by rewrite (in_map _ _ _ _ _ Hin).
Qed.

(** Outside the window the side is rebuilt around the new price. *)
Lemma add_body_recentre b q a fs it ref sh pr sd :
  book_wf b q (a :: fs) → order_map b !! ref = None → 0 ≤ sh < 2 ^ 32 → 0 < pr < 2 ^ 31 →
  refp sd b ≠ 0 → in_range (price_idx sd (refp sd b) pr) = false →
  let q1 := q_recentred (heap_of b) q sd pr (entries it (order_map b)).*2 in
  ∃ b', add_body it b ref sh pr (side_char sd) = Ok b' ∧
    core b' (q_set q1 sd 0 (q1 sd 0 ++ [a])) ∧ order_map b' = <[ref := a]> (order_map b).
Proof.
  intros Hw Hnew Hsh Hpr Hr0 Hir q1. pose proof (free_head_fresh _ _ _ _ Hw) as Hfresh.
  destruct (make_pending b q a fs ref sh pr sd Hw Hsh Hpr) as (p & E & Hp & Hs & Hlt & Hc & Hpe).
  assert (Hrp : refp sd (set_pool p b) = refp sd b) by (by destruct sd).
  destruct (insert_order_recentre (set_pool p b) q it a _ sd Hc Hpe)
    as (b' & b1 & E1 & Hin & _); [done|by rewrite Hrp|by rewrite Hrp|].
  pose proof (in_core _ _ _ _ _ Hin) as Hc'. simpl in Hc'.
  unfold add_body. rewrite E, bind_ok. simpl. rewrite E1, bind_ok.
  eexists. split; [done|]. split; [|simpl; by rewrite (in_map _ _ _ _ _ Hin)].
  assert (Hq : ∀ sd' i, q_recentred (heap_of (set_pool p b)) q sd pr (entries it (order_map b)).*2 sd' i
                       = q1 sd' i).
  { intros sd' i. unfold q1. destruct (decide (sd = sd')) as [<-|]; [|by rewrite !q_recentred_ne].
    rewrite !q_recentred_eq. apply filter_ext_in. intros c [r Hr]%entries_snd.
    unfold at_level, heap_of at 1. simpl. rewrite Hs, list_lookup_insert_ne; [done|].
    intros ->. by apply (Hfresh r). }
  eapply core_ext; [|exact Hc']. apply q_set_ext; [done|]. by rewrite Hq.
Qed.


Lemma add_body_exhausted b q it ref sh pr sd :
  book_wf b q [] →
  add_body it b ref sh pr sd = Fault (if ndebug then NullDeref else AssertFailed).
Proof. intros Hw. unfold add_body. by rewrite make_order_exhausted by apply Hw. Qed.

(** ** Removing *)

(** The queues without [a]. *)
Lemma q_removed_elem b q sd i l1 a l2 :
  sides_ok b q → q sd i = l1 ++ a :: l2 →
  ∀ sd' j c, c ∈ q_set q sd i (l1 ++ l2) sd' j ↔ c ∈ q sd' j ∧ c ≠ a.
Proof.
  intros Hs Hq sd' j c. pose proof (ss_side _ _ Hs sd) as Hsd.
  pose proof (lr_nodup _ _ _ (sk_rep _ _ _ _ _ _ Hsd i)) as Hnd.
  rewrite Hq in Hnd. apply NoDup_middle in Hnd as (Hn1 & Hn2 & _).
  assert (Hain : a ∈ q sd i) by (rewrite Hq; set_solver).
  destruct (decide (sd = sd')) as [<-|Hne].
  - rewrite q_set_eq. destruct (decide (i = j)) as [<-|Hij].
    + rewrite fn_lookup_insert, Hq. set_solver.
    + rewrite fn_lookup_insert_ne by done. split; [|tauto]. intros Hcj. split; [done|].
      intros ->. by eapply Hij, (queues_disjoint _ _ _ _ _ _ _ _ _ Hsd).
  - rewrite q_set_ne by done. split; [|tauto]. intros Hcj. split; [done|]. intros ->.
    by eapply (not_other_side _ _ _ _ _ _ Hs Hain Hne).
Qed.

Lemma q_removed_filter b q sd i l1 a l2 :
  sides_ok b q → q sd i = l1 ++ a :: l2 →
  ∀ sd' j, q_set q sd i (l1 ++ l2) sd' j = filter (λ x, x ≠ a) (q sd' j).
Proof.
  intros Hs Hq sd' j. pose proof (q_removed_elem _ _ _ _ _ _ _ Hs Hq sd' j) as Hel.
  pose proof (lr_nodup _ _ _ (sk_rep _ _ _ _ _ _ (ss_side _ _ Hs sd) i)) as Hnd.
  rewrite Hq in Hnd. destruct (decide (sd = sd' ∧ i = j)) as [[<- <-]|Hne].
  - by rewrite q_set_eq, fn_lookup_insert, Hq, filter_ne_middle.
  - assert (E : q_set q sd i (l1 ++ l2) sd' j = q sd' j).
    { destruct (decide (sd = sd')) as [<-|]; [|by rewrite q_set_ne].
      rewrite q_set_eq, fn_lookup_insert_ne; [done|]. intros ->. tauto. }
    rewrite E in *. rewrite filter_ne_id; [done|]. intros Ha. by apply (Hel a).
Qed.

(** Unlinking and forgetting a live order. *)
Lemma core_delete b b1 q ref a o sd i l1 l2 :
  core b q → order_map b !! ref = Some a → heap_of b !! a = Some o → q sd i = l1 ++ a :: l2 →
  sides_ok b1 (q_set q sd i (l1 ++ l2)) → same_meta b b1 →
  same_data (<[a := set_level_idx (-1) o]> (heap_of b)) (heap_of b1) →
  core (set_order_map (delete ref (order_map b1)) b1) (q_set q sd i (l1 ++ l2)).
Proof.
  intros Hc Hm Ha Hq Hs Hsm Hd.
  pose proof (q_removed_elem _ _ _ _ _ _ _ (co_sides _ _ Hc) Hq) as Hin.
  split.
  - destruct Hs as [Hh Hss]. split; [done|]. intros sd'. specialize (Hss sd'). by destruct sd'.
  - intros r c. simpl. rewrite (sm_map _ _ Hsm), lookup_delete_Some. intros [Hne Hmc].
    destruct (co_live _ _ Hc r c Hmc) as (oc & sdc & Hoc & ? & ? & ? & Hloc).
    assert (Hca : c ≠ a) by (intros ->; by apply Hne, (core_inj _ _ _ _ _ Hc Hm)).
    destruct (same_data_lookup _ _ c oc Hd) as (oc' & Hoc' & He).
    { by rewrite list_lookup_insert_ne. }
    inversion He. exists oc', sdc. split_and!; [done|congruence..|lia|lia|].
    replace (level_idx oc') with (level_idx oc) by congruence.
    destruct Hloc as [?|?]; [by left|right]. by apply Hin.
  - intros sd' j c [Hcj Hca]%Hin. simpl. rewrite (sm_map _ _ Hsm).
    destruct (co_queued _ _ Hc _ _ _ Hcj) as [r Hr]. exists r.
    rewrite lookup_delete_ne; [done|]. intros ->. congruence.
  - intros sd'. pose proof (co_refs _ _ Hc sd') as Hr. rewrite <-(sm_ref _ _ Hsm sd') in Hr. by destruct sd'.
  - intros sd' H0 j. assert (Href : refp sd' b1 = 0) by (by destruct sd').
    rewrite (sm_ref _ _ Hsm) in Href. pose proof (co_ref0 _ _ Hc sd' Href j) as He.
    destruct (q_set q sd i (l1 ++ l2) sd' j) as [|c t] eqn:E; [done|].
    assert (Hcj : c ∈ q sd' j) by (apply Hin; rewrite E; by left).
    rewrite He in Hcj. by apply not_elem_of_nil in Hcj.
Qed.

(** The live orders once [ref] leaves the map and the others keep their data. *)
Lemma abs_orders_delete b b' ref :
  order_map b' = delete ref (order_map b) →
  (∀ r c, r ≠ ref → order_map b !! r = Some c →
     to_sorder <$> heap_of b' !! c = to_sorder <$> heap_of b !! c) →
  abs_orders b' = delete ref (abs_orders b).
Proof.
  intros Hm Hd. unfold abs_orders. rewrite Hm. apply map_eq. intros r. rewrite lookup_omap.
  destruct (decide (r = ref)) as [->|Hne]; [by rewrite !lookup_delete_eq|].
  rewrite !lookup_delete_ne, lookup_omap by done.
  destruct (order_map b !! r) as [c|] eqn:Hc; [|done]. simpl. by apply (Hd r c).
Qed.

(** Every slot that is not live is untouched by an operation on live orders. *)
Lemma pool_ok_frame b q fs p :
  book_wf b q fs → free_head p = free_head (pool b) →
  (∀ c, (∀ ref, order_map b !! ref ≠ Some c) → slots p !! c = heap_of b !! c) → pool_ok p fs.
Proof.
  intros Hw Hf Hfr. split; [|apply Hw]. rewrite Hf. eapply free_list_frame; [apply Hw|].
  intros c Hc. apply Hfr. intros ref. by eapply free_not_live.
Qed.

Lemma not_live_not_queued b q sd i c :
  core b q → (∀ ref, order_map b !! ref ≠ Some c) → c ∉ q sd i.
Proof. intros Hc Hn Hin. destruct (co_queued _ _ Hc _ _ _ Hin) as [ref ?]. by apply (Hn ref). Qed.

(** The state between unlinking the live order [ref] and freeing its slot [a]. *)
Record unlinked_live (b : OrderBook) (q : queues) (fs : list addr) (ref : Z) (a : addr)
    (b1 : OrderBook) (q' : queues) : Prop := {
  ul_queues : ∀ sd i, q' sd i = filter (λ x, x ≠ a) (q sd i);
  ul_core : core (set_order_map (delete ref (order_map b1)) b1) q';
  ul_pool : pool_ok (pool b1) fs;
  ul_meta : same_meta b b1;
  ul_heap : heap_ok (heap_of b1);
  ul_len : length (heap_of b1) = length (heap_of b);
  ul_others : ∀ r c, r ≠ ref → order_map b !! r = Some c → c ≠ a ∧ ∃ oc oc',
    heap_of b !! c = Some oc ∧ heap_of b1 !! c = Some oc' ∧ erase_links oc = erase_links oc';
}.

Lemma unlink_live b q fs ref a o :
  book_wf b q fs → order_map b !! ref = Some a → heap_of b !! a = Some o → level_idx o ≠ -1 →
  ∃ b1 q', book_remove_order b a = Ok b1 ∧ unlinked_live b q fs ref a b1 q'.
Proof.
  intros Hw Hm Ha Hidx. pose proof (wf_core _ _ _ Hw) as Hc.
  destruct (co_live _ _ Hc _ _ Hm) as (o' & sd & Ha' & _ & _ & _ & [?|Hq]); [congruence|].
  assert (o' = o) as -> by congruence. apply list_elem_of_split in Hq as (l1 & l2 & Hq).
  destruct (book_remove_order_ok b q sd (level_idx o) l1 a l2 o) as (b1 & E & Hs & Hsm & Hd & Hfr);
    [apply Hc|done..|].
  do 2 eexists. split; [done|]. split; [|by eapply core_delete| |done|apply Hs| |].
  - by eapply q_removed_filter; [apply Hc|].
  - eapply pool_ok_frame; [done|apply Hsm|]. intros c Hnl. apply Hfr. by eapply not_live_not_queued.
  - rewrite (same_data_length _ _ Hd). apply length_insert.
  - intros r c Hr Hcm. destruct (co_live _ _ Hc _ _ Hcm) as (oc & _ & Hoc & _).
    assert (Hca : c ≠ a) by (intros ->; by apply Hr, (core_inj _ _ _ _ _ Hc Hcm Hm)).
    split; [done|].
    destruct (same_data_lookup _ _ c oc Hd) as (oc' & Hoc' & He); [by rewrite list_lookup_insert_ne|].
    by exists oc, oc'.
Qed.

Lemma drop_body_ok b q fs ref a o :
  book_wf b q fs → order_map b !! ref = Some a → heap_of b !! a = Some o → level_idx o ≠ -1 →
  ∃ b' q', drop_body b ref a = Ok b' ∧ book_wf b' q' (a :: fs) ∧
    abs_orders b' = delete ref (abs_orders b) ∧ kept b b' ∧
    (∀ sd, refp sd b' = refp sd b) ∧ (attached b → attached b') ∧
    order_map b' = delete ref (order_map b) ∧ ∀ sd i, q' sd i = filter (λ x, x ≠ a) (q sd i).
Proof.
  intros Hw Hm Ha Hidx. destruct (unlink_live _ _ _ _ _ _ Hw Hm Ha Hidx) as (b1 & q' & E & U).
  pose proof (ul_meta _ _ _ _ _ _ _ U) as Hsm. pose proof (ul_len _ _ _ _ _ _ _ U) as Hlen.
  destruct (lookup_lt_is_Some_2 (heap_of b1) a) as [o1 Ha1].
  { rewrite Hlen. by eapply lookup_lt_Some. }
  destruct (free_ok (pool b1) a o1 fs) as (p & E' & Hp & Hsl); [apply U|done| |].
  { intros Hin. by eapply free_not_live. }
  assert (Hlk : ∀ c, c ≠ a → slots p !! c = heap_of b1 !! c)
    by (intros c ?; rewrite Hsl; by apply list_lookup_insert_ne).
  assert (Hplen : length (slots p) = length (heap_of b)) by (by rewrite Hsl, length_insert).
  unfold drop_body. rewrite E. simpl. rewrite E'. simpl.
  eexists _, _. split; [done|]. split_and!.
  - split; [|done| |].
    + apply core_frame; [apply U| |].
      * rewrite Hsl. apply heap_ok_insert; [apply U|done].
      * intros r c. simpl. rewrite lookup_delete_Some, (sm_map _ _ Hsm). intros [Hr Hcm].
        apply Hlk, (ul_others _ _ _ _ _ _ _ U r c); done.
    + unfold heap_of; simpl. rewrite Hplen, (sm_map _ _ Hsm), map_size_delete_Some by done.
      pose proof (wf_count _ _ _ Hw).
      assert (size (order_map b) ≠ 0%nat) by (apply map_size_ne_0_lookup; eauto). lia.
    + unfold heap_of at 1; simpl. rewrite Hplen. apply (wf_cap _ _ _ Hw).
  - apply abs_orders_delete; [by simpl; rewrite (sm_map _ _ Hsm)|]. intros r c Hr Hcm.
    destruct (ul_others _ _ _ _ _ _ _ U r c Hr Hcm) as (? & oc & oc' & Hoc & Hoc' & He).
    unfold heap_of at 1; simpl. rewrite Hlk, Hoc, Hoc' by done. simpl. inversion He.
    unfold to_sorder. congruence.
  - split; [apply Hsm|]. exact Hplen.
  - intros sd'. rewrite <-(sm_ref _ _ Hsm). by destruct sd'.
  - intros Hatt r c oc. simpl. rewrite lookup_delete_Some, (sm_map _ _ Hsm). intros [Hr Hcm] Hoc.
    destruct (ul_others _ _ _ _ _ _ _ U r c) as (? & oc0 & oc' & Hoc0 & Hoc' & He); [done..|].
    unfold heap_of in Hoc; simpl in Hoc. pose proof (Hatt r c oc0 Hcm Hoc0).
    rewrite Hlk, Hoc' in Hoc by done. injection Hoc as ->. inversion He. congruence.
  - simpl. by rewrite (sm_map _ _ Hsm).
  - apply U.
Qed.

(** ** Reducing *)
Lemma core_reduce b b1 q ref a o n :
  core b q → order_map b !! ref = Some a → heap_of b !! a = Some o →
  sides_ok b1 q → same_meta b b1 → heap_of b1 = <[a := set_shares n o]> (heap_of b) → core b1 q.
Proof.
  intros Hc Hm Ha Hs Hsm Hh. pose proof (lookup_lt_Some _ _ _ Ha) as Hlt. split; [done| | | |].
  - intros r c. rewrite (sm_map _ _ Hsm). intros Hcm.
    destruct (co_live _ _ Hc _ _ Hcm) as (oc & sdc & Hoc & Hrest). unfold live_ok. rewrite Hh.
    destruct (decide (c = a)) as [->|Hne].
    + exists (set_shares n o), sdc. rewrite list_lookup_insert_eq by done.
      rewrite Ha in Hoc. injection Hoc as <-. done.
    + exists oc, sdc. by rewrite list_lookup_insert_ne.
  - intros sd i c Hin. rewrite (sm_map _ _ Hsm). by apply (co_queued _ _ Hc) in Hin.
  - intros sd. rewrite (sm_ref _ _ Hsm). apply Hc.
  - intros sd. rewrite (sm_ref _ _ Hsm). apply Hc.
Qed.

(** The state after [shares] and the level's total go down by [n]. *)
Lemma reduce_live b q fs ref a o n :
  book_wf b q fs → order_map b !! ref = Some a → heap_of b !! a = Some o → level_idx o ≠ -1 →
  0 ≤ n ≤ shares o →
  ∃ b1, book_reduce_shares b a n = Ok b1 ∧ book_wf b1 q fs ∧ same_meta b b1 ∧
    heap_of b1 = <[a := set_shares (shares o - n) o]> (heap_of b).
Proof.
  intros Hw Hm Ha Hidx Hn. pose proof (wf_core _ _ _ Hw) as Hc.
  destruct (co_live _ _ Hc _ _ Hm) as (o' & sd & Ha' & _ & _ & _ & [?|Hq]); [congruence|].
  assert (o' = o) as -> by congruence.
  destruct (book_reduce_shares_ok b q sd (level_idx o) a o n) as (b1 & E & Hs & Hsm & Hh);
    [apply Hc|done..|].
  exists b1. split_and!; [done| |done|done]. split.
  - by eapply core_reduce.
  - eapply pool_ok_frame; [done|apply Hsm|]. intros c Hnl. change (heap_of b1 !! c = heap_of b !! c).
    rewrite Hh. apply list_lookup_insert_ne. intros ->. by apply (Hnl ref).
  - rewrite (sm_map _ _ Hsm), Hh, length_insert. apply Hw.
  - rewrite Hh, length_insert. apply Hw.
Qed.

Lemma abs_orders_reduce b b1 q ref a o n :
  core b q → order_map b !! ref = Some a → heap_of b !! a = Some o → order_map b1 = order_map b →
  heap_of b1 = <[a := set_shares n o]> (heap_of b) →
  abs_orders b1 = <[ref := mkSOrder (side o) (price o) n]> (abs_orders b).
Proof.
  intros Hc Hm Ha Hm1 Hh. apply map_eq. intros r. unfold abs_orders. rewrite Hm1, lookup_omap.
  destruct (decide (r = ref)) as [->|Hr].
  - rewrite lookup_insert_eq, Hm. simpl. by rewrite Hh, list_lookup_insert_eq by (by eapply lookup_lt_Some).
  - rewrite lookup_insert_ne, lookup_omap by done. destruct (order_map b !! r) as [c|] eqn:Hcm; [|done].
    simpl. rewrite Hh, list_lookup_insert_ne; [done|]. intros <-.
    by apply Hr, (core_inj _ _ _ _ _ Hc Hcm Hm).
Qed.

Lemma reduce_body_ok b q fs ref a o n :
  book_wf b q fs → order_map b !! ref = Some a → heap_of b !! a = Some o → level_idx o ≠ -1 →
  0 ≤ n ≤ shares o →
  ∃ b' q', reduce_body b ref n = Ok b' ∧
    book_wf b' q' (if shares o =? n then a :: fs else fs) ∧
    abs_orders b' = (if shares o =? n then delete ref (abs_orders b)
                     else <[ref := mkSOrder (side o) (price o) (shares o - n)]> (abs_orders b)) ∧
    kept b b' ∧ (∀ sd, refp sd b' = refp sd b) ∧ (attached b → attached b') ∧
    order_map b' = (if shares o =? n then delete ref (order_map b) else order_map b) ∧
    ∀ sd i, q' sd i = if shares o =? n then filter (λ x, x ≠ a) (q sd i) else q sd i.
Proof.
  intros Hw Hm Ha Hidx Hn.
  destruct (reduce_live _ _ _ _ _ _ _ Hw Hm Ha Hidx Hn) as (b1 & E & Hw1 & Hsm & Hh).
  assert (Ha1 : heap_of b1 !! a = Some (set_shares (shares o - n) o)).
  { rewrite Hh. apply list_lookup_insert_eq. by eapply lookup_lt_Some. }
  assert (Hk : kept b b1).
  { split; [apply Hsm|]. change (length (heap_of b1) = length (heap_of b)). by rewrite Hh, length_insert. }
  assert (Hatt1 : attached b → attached b1).
  { intros Hatt r c oc. rewrite (sm_map _ _ Hsm), Hh. intros Hcm.
    destruct (decide (a = c)) as [<-|Hne].
    - rewrite list_lookup_insert_eq by (by eapply lookup_lt_Some). by intros [= <-].
    - rewrite list_lookup_insert_ne by done. exact (Hatt r c oc Hcm). }
  unfold reduce_body. rewrite Hm, E. simpl. rewrite (deref_ok _ _ _ Ha1). simpl.
  replace (shares o - n =? 0) with (shares o =? n) by lia.
  pose proof (abs_orders_reduce _ _ _ _ _ _ _ (wf_core _ _ _ Hw) Hm Ha (sm_map _ _ Hsm) Hh) as Habs1.
  destruct (Z.eqb_spec (shares o) n) as [Heq|Hne].
  - destruct (drop_body_ok b1 q fs ref a (set_shares (shares o - n) o))
      as (b' & q' & E' & Hw' & Habs & Hk' & Hr & Hat & Hmap & Hq');
      [done|by rewrite (sm_map _ _ Hsm)|done..|].
    exists b', q'. split_and!; [done|done| |by etrans| |by auto| |done].
    + rewrite Habs, Habs1. apply delete_insert_eq.
    + intros sd. by rewrite Hr, (sm_ref _ _ Hsm).
    + by rewrite Hmap, (sm_map _ _ Hsm).
  - exists b1, q. split_and!; [done|done|done|done|apply Hsm|done|apply Hsm|done].
Qed.

(** ** Replacing *)
Lemma replace_body_ok b q fs it old new a o sh pr sd :
  book_wf b q fs → order_map b !! old = Some a → heap_of b !! a = Some o → level_idx o ≠ -1 →
  delete old (order_map b) !! new = None → 0 ≤ sh < 2 ^ 32 → 0 < pr < 2 ^ 31 →
  side o = side_char sd →
  ∃ b' q', (b ← drop_body b old a; add_body it b new sh pr (side o)) = Ok b' ∧ book_wf b' q' fs ∧
    abs_orders b' = <[new := mkSOrder (side o) pr sh]> (delete old (abs_orders b)) ∧ kept b b' ∧
    (∀ sd', sd ≠ sd' → refp sd' b' = refp sd' b) ∧
    refp sd b' = (if refp sd b =? 0 then pr
                  else if in_range (price_idx sd (refp sd b) pr) then refp sd b else pr) ∧
    (attached b → lossless (delete old (abs_orders b)) (refp sd b) sd pr → attached b').
Proof.
  intros Hw Hm Ha Hidx Hnew Hsh Hpr Hsd.
  destruct (drop_body_ok _ _ _ _ _ _ Hw Hm Ha Hidx) as (b1 & q1 & E & Hw1 & Habs & Hk & Hr & Hat & Hmap & _).
  destruct (add_body_ok b1 q1 a fs it new sh pr sd Hw1) as (b2 & q2 & E2 & Hw2 & Habs2 & Hk2 & Hr2 & Hr3 & Hat2 & _);
    [by rewrite Hmap|done..|].
  exists b2, q2. rewrite E, bind_ok, Hsd, E2, Habs2, Habs. split_and!; try done.
  - by etrans.
  - intros sd' Hne. by rewrite Hr2, Hr.
  - by rewrite Hr3, !Hr.
  - intros Hatt Hl. apply Hat2; [auto|]. by rewrite Habs, Hr.
Qed.

(** ** Stray orders *)

(** Unlinking an order that is in no level. *)
Lemma remove_detached b a o :
  heap_of b !! a = Some o → level_idx o = -1 →
  book_remove_order b a = Fault (if ndebug then OutOfRange else AssertFailed).
Proof.
  intros Ha Hidx. unfold book_remove_order, cassert. rewrite (deref_ok _ _ _ Ha), bind_ok, Hidx. simpl.
  destruct ndebug; [|done]. simpl. by destruct (side o =? ch_B).
Qed.

Lemma reduce_detached b a o n :
  heap_of b !! a = Some o → level_idx o = -1 →
  book_reduce_shares b a n = Fault (if ndebug then OutOfRange else AssertFailed).
Proof.
  intros Ha Hidx. unfold book_reduce_shares, cassert. rewrite (deref_ok _ _ _ Ha), bind_ok, Hidx. simpl.
  destruct ndebug; [|done]. simpl. by destruct (side o =? ch_B).
Qed.

(** ** System events *)

Lemma side_ok_empty h sd r : side_ok h sd r ∅ (-1) (λ _, []).
Proof.
  split.
  - intros i. rewrite lookup_total_empty. split; try done; [by apply NoDup_nil_2|].
    intros l1 a l2 Hl. by destruct l1.
  - intros i a Ha. by apply not_elem_of_nil in Ha.
  - intros i a Ha. by apply not_elem_of_nil in Ha.
  - by left.
Qed.

Lemma new_pool_heap_ok n p :
  OrderPool_new n = Ok p → Z.of_nat n < 2 ^ 32 → heap_ok (slots p).
Proof.
  intros E Hn. destruct (decide (n = 0)%nat) as [->|Hpos]; [done|].
  destruct (OrderPool_new_ok n) as (p' & E' & [Hf Hnd] & Hlen); [lia|].
  assert (p' = p) as -> by congruence. split; [lia|]. intros a o Ha.
  assert (Hin : a ∈ seq 0 n).
  { apply elem_of_seq. apply lookup_lt_Some in Ha. lia. }
  destruct (free_list_lookup _ _ _ _ Hf Hin) as (m & Hm). rewrite Ha in Hm. by injection Hm as ->.
Qed.

(** A book without orders, as the constructor and a halt leave it. *)
Lemma empty_book_wf p n rb ra op :
  OrderPool_new n = Ok p → Z.of_nat n < 2 ^ 32 → 0 ≤ rb < 2 ^ 31 → 0 ≤ ra < 2 ^ 31 →
  let b := mkBook ∅ ∅ ∅ p rb ra (-1) (-1) op in
  book_wf b (λ _ _, []) (seq 0 n) ∧ abs_orders b = ∅ ∧ attached b.
Proof.
  intros E Hn Hrb Hra b. pose proof (new_pool_heap_ok _ _ E Hn) as Hh.
  destruct (decide (n = 0)%nat) as [->|Hpos]; [done|].
  destruct (OrderPool_new_ok n) as (p' & E' & Hp & Hlen); [lia|].
  assert (p' = p) as -> by congruence. split_and!.
  - split; [|done| |].
    + split.
      * split; [done|]. intros []; apply side_ok_empty.
      * intros ref a. simpl. by rewrite lookup_empty.
      * intros sd i a Ha. by apply not_elem_of_nil in Ha.
      * by intros [].
      * done.
    + simpl. by rewrite length_seq, map_size_empty, Nat.add_0_r.
    + unfold heap_of. simpl. lia.
  - done.
  - intros ref a o Hm. simpl in Hm. by rewrite lookup_empty in Hm.
Qed.

(** The loop of the halt: every live order is cleared. *)
Lemma halt_loop_ok b q it :
  core b q →
  ∃ h, foldM (λ h (e : Z * addr),
          h ← modify h (Some e.2) (set_prev None);
          h ← modify h (Some e.2) (set_next None);
          modify h (Some e.2) (set_level_idx (-1)))
        (entries it (order_map b)) (heap_of b) = Ok h ∧ length h = length (heap_of b).
Proof.
  intros Hc. apply (foldM_ind _ (λ _ h, length h = length (heap_of b))); [done|].
  intros done [r a] todo h Hl Hlen.
  assert (Hm : order_map b !! r = Some a) by (apply (entries_elem it); rewrite Hl; set_solver).
  destruct (co_live _ _ Hc _ _ Hm) as (o & _ & Ho & _).
  destruct (lookup_lt_is_Some_2 h a) as [o' Ho']; [rewrite Hlen; by eapply lookup_lt_Some|].
  heap_step. eexists. split; [done|]. by rewrite length_insert.
Qed.

Lemma book_wf_set_open b q fs v : book_wf b q fs → book_wf (set_open v b) q fs.
Proof.
  intros [[[H1 H2] H3 H4 H5 H6] Hp Hn Hcap]. by split; try done; split.
Qed.

(** The halt empties the book. *)
Lemma halt_ok b q fs it t :
  book_wf b q fs → sys_event_code t = ch_H →
  ∃ b' q', on_system_event it b t = Ok b' ∧
    book_wf b' q' (seq 0 (pool_capacity (pool b))) ∧ abs_orders b' = ∅ ∧
    is_open b' = false ∧ pool_capacity (pool b') = pool_capacity (pool b) ∧ attached b' ∧
    (∀ sd, refp sd b' = refp sd b).
Proof.
  intros Hw Ht. pose proof (wf_core _ _ _ Hw) as Hc.
  destruct (halt_loop_ok b q it Hc) as (h & E & Hlen).
  destruct (OrderPool_new_ok (pool_capacity (pool b))) as (p & E' & Hp & Hplen);
    [exact (wf_cap _ _ _ Hw)|].
  assert (Hsz : Z.of_nat (pool_capacity (pool b)) < 2 ^ 32)
    by exact (ho_size _ (ss_heap _ _ (co_sides _ _ Hc))).
  pose proof (co_refs _ _ Hc Bid) as Hrb. pose proof (co_refs _ _ Hc Ask) as Hra.
  destruct (empty_book_wf p _ (bid_ref b) (ask_ref b) false E' Hsz Hrb Hra) as (Hw' & Habs & Hatt).
  do 2 eexists. split; [|split_and!; [exact Hw'|exact Habs|done|done|exact Hatt|by intros []]].
  unfold on_system_event. rewrite Ht. simpl. change (heap_of (set_open false b)) with (heap_of b).
  rewrite E, bind_ok. unfold pool_capacity in *. simpl. rewrite Hlen. unfold heap_of. by rewrite E'.
Qed.

End Handlers.
