(* ===== verification/Dispatch.v ===== *)
(** * Message dispatch (src/main.cpp)

    [dispatch] is the visitor of src/main.cpp; [run_book] is the book thread's loop
    over the messages it pops, one iteration order of the hash map per message. *)

From S2P Require Import Prelude Bytes Messages Parser Order PriceLevel OrderBook.

Section Dispatch.
Context `{BuildMode}.

Definition dispatch (it : IterOrder) (book : OrderBook) (msg : ParsedMessage) : outcome OrderBook :=
  match msg with
  | MSystemEvent m => on_system_event it book m
  | MAddOrder m => on_add it book m
  | MAddOrderMPID m => on_add_mpid it book m
  | MExecuteOrder m => on_execute book m
  | MExecuteOrderWithPrice m => on_execute_with_price book m
  | MCancelOrder m => on_cancel book m
  | MDeleteOrder m => on_delete book m
  | MReplaceOrder m => on_replace it book m
  | MTrade _ => Ok book
  | Monostate => Ok book
  end.

Definition run_book (book : OrderBook) (msgs : list (IterOrder * ParsedMessage)) : outcome OrderBook :=
  foldM (λ b e, dispatch e.1 b e.2) msgs book.

End Dispatch.
