(* ===== verification/Samples.v ===== *)
(** * Sample messages

    Messages as the exchange sends them, built from host-order values, and a short
    session; used by the examples and witnesses of the other files. *)

From S2P Require Import Prelude Bytes Messages Parser Order PriceLevel OrderBook Dispatch.

Definition sample_header (tag : Z) : Header := mkHeader tag 256 0 [0; 0; 0; 0; 0; 7].
Definition sample_stock : list Z := [65; 65; 80; 76; 32; 32; 32; 32].

Definition msg_system (code : Z) : ParsedMessage :=
  MSystemEvent (mkSystemEvent (sample_header ch_S) code).
Definition msg_add (ref side shares price : Z) : ParsedMessage :=
  MAddOrder (mkAddOrder (sample_header ch_A) (be64 ref) side (be32 shares) sample_stock (be32 price)).
Definition msg_execute (ref n : Z) : ParsedMessage :=
  MExecuteOrder (mkExecuteOrder (sample_header ch_E) (be64 ref) (be32 n) 0).
Definition msg_cancel (ref n : Z) : ParsedMessage :=
  MCancelOrder (mkCancelOrder (sample_header ch_X) (be64 ref) (be32 n)).
Definition msg_delete (ref : Z) : ParsedMessage :=
  MDeleteOrder (mkDeleteOrder (sample_header ch_D) (be64 ref)).
Definition msg_replace (old new shares price : Z) : ParsedMessage :=
  MReplaceOrder (mkReplaceOrder (sample_header ch_U) (be64 old) (be64 new) (be32 shares) (be32 price)).

(** Open; three bids on two levels, one above the first; two asks; an execution, a
    partial cancel, a replacement, a full deletion. *)
Definition sample_session : list ParsedMessage :=
  [msg_system ch_O;
   msg_add 1 ch_B 100 1500000; msg_add 2 ch_B 50 1500100; msg_add 3 ch_B 70 1500000;
   msg_add 4 ch_S 30 1500200; msg_add 5 ch_S 40 1500300;
   msg_execute 4 30; msg_cancel 1 40; msg_replace 2 6 20 1500050; msg_delete 9].

Definition sample_add_msg (ref side shares price : Z) : AddOrderMsg :=
  mkAddOrder (sample_header ch_A) (be64 ref) side (be32 shares) sample_stock (be32 price).
Definition sample_delete_msg (ref : Z) : DeleteOrderMsg := mkDeleteOrder (sample_header ch_D) (be64 ref).
Definition sample_execute_msg (ref n : Z) : ExecuteOrderMsg :=
  mkExecuteOrder (sample_header ch_E) (be64 ref) (be32 n) 0.

(** One order in a pool of one. *)
Definition full_session : list ParsedMessage := [msg_system ch_O; msg_add 1 ch_B 100 1500000].

(** Two bids 10000 ticks apart, the better one first. *)
Definition wide_session : list ParsedMessage :=
  [msg_system ch_O; msg_add 1 ch_B 100 1500000; msg_add 2 ch_B 50 1490000].

(** Two bids at one price, then a bid one tick above the window's ceiling. *)
Definition recentre_session : list ParsedMessage :=
  [msg_system ch_O; msg_add 1 ch_B 100 1500000; msg_add 2 ch_B 100 1500000;
   msg_add 3 ch_B 100 1500001].

(** Alternating iteration orders of the hash map. *)
Fixpoint with_iters (ms : list ParsedMessage) : list (IterOrder * ParsedMessage) :=
  match ms with
  | m1 :: m2 :: ms => (iter_forward, m1) :: (iter_backward, m2) :: with_iters ms
  | [m] => [(iter_forward, m)]
  | [] => []
  end.

(** The book after a session, from a fresh book with room for [cap] orders. *)
Definition session `{BuildMode} (cap : nat) (ms : list ParsedMessage) : outcome OrderBook :=
  OrderBook_new cap ≫= λ b, run_book b (with_iters ms).

Definition session_book (cap : nat) (ms : list ParsedMessage) : OrderBook :=
  ok_or (mkBook ∅ ∅ ∅ (mkPool [] None) 0 0 (-1) (-1) false) (@session debug_build cap ms).

Lemma with_iters_snd ms : (with_iters ms).*2 = ms.
Proof.
  cut ((with_iters ms).*2 = ms ∧ ∀ m, (with_iters (m :: ms)).*2 = m :: ms); [tauto|].
  induction ms as [|m ms [IH1 IH2]]; [done|]. split; [apply IH2|]. intros m'.
  change (m' :: m :: (with_iters ms).*2 = m' :: m :: ms). by rewrite IH1.
Qed.
