(* ===== verification/BookSpec.v ===== *)
(** * What the book promises, and that it keeps it

    The abstract book [SBook] is the set of live orders by reference number and the
    open flag: no price levels, no window, no pool.  [command_of] is what a message
    asks for, [spec_step] its effect, [spec_bbo] the best bid and offer read off the
    set of orders.  The theorems say that the book of [OrderBook] implements it
    ([simulates] is the refinement relation), and where it does not. *)

From S2P Require Import Prelude Bytes Messages Parser Order PriceLevel OrderBook BookInv BookWf.
From S2P Require Import BookHandlers Dispatch.

(** ** The abstract book *)
Record SBook := mkSBook {
  s_orders : gmap Z SOrder;
  s_open : bool;
}.

(** What a message asks the book to do. *)
Inductive command :=
| CIgnore
| COpen (open : bool)
| CHalt
| CAdd (ref side price shares : Z)
| CReduce (ref qty : Z)
| CDelete (ref : Z)
| CReplace (old new price shares : Z).

Definition command_of (m : ParsedMessage) : command :=
  match m with
  | Monostate | MTrade _ => CIgnore
  | MSystemEvent m =>
      if sys_event_code m =? ch_O then COpen true
      else if sys_event_code m =? ch_C then COpen false
      else if sys_event_code m =? ch_H then CHalt
      else CIgnore
  | MAddOrder m =>
      CAdd (be64 (add_order_ref_num m)) (add_buy_sell m) (be32 (add_price m)) (be32 (add_shares m))
  | MAddOrderMPID m =>
      CAdd (be64 (mpid_order_ref_num m)) (mpid_buy_sell m) (be32 (mpid_price m)) (be32 (mpid_shares m))
  | MExecuteOrder m => CReduce (be64 (exec_order_ref_num m)) (be32 (exec_executed_shares m))
  | MExecuteOrderWithPrice m =>
      CReduce (be64 (execp_order_ref_num m)) (be32 (execp_executed_shares m))
  | MCancelOrder m => CReduce (be64 (cancel_order_ref_num m)) (be32 (cancel_cancelled_shares m))
  | MDeleteOrder m => CDelete (be64 (del_order_ref_num m))
  | MReplaceOrder m =>
      CReplace (be64 (repl_original_order_ref_num m)) (be64 (repl_new_order_ref_num m))
        (be32 (repl_price m)) (be32 (repl_shares m))
  end.

Definition spec_command (s : SBook) (c : command) : SBook :=
  match c with
  | CIgnore => s
  | COpen v => mkSBook (s_orders s) v
  | CHalt => mkSBook ∅ false
  | CAdd ref sd pr sh =>
      if s_open s then mkSBook (<[ref := mkSOrder sd pr sh]> (s_orders s)) (s_open s) else s
  | CReduce ref n =>
      match s_orders s !! ref with
      | None => s
      | Some o =>
          mkSBook (if s_shares o =? n then delete ref (s_orders s)
                   else <[ref := mkSOrder (s_side o) (s_price o) (s_shares o - n)]> (s_orders s))
            (s_open s)
      end
  | CDelete ref => mkSBook (delete ref (s_orders s)) (s_open s)
  | CReplace old new pr sh =>
      match s_orders s !! old with
      | None => s
      | Some o =>
          mkSBook (<[new := mkSOrder (s_side o) pr sh]> (delete old (s_orders s))) (s_open s)
      end
  end.

Definition spec_step (s : SBook) (m : ParsedMessage) : SBook := spec_command s (command_of m).

Definition spec_run (s : SBook) (ms : list ParsedMessage) : SBook := foldl spec_step s ms.

(** ** What the feed must respect *)
Definition price_ok (p : Z) : bool := (0 <? p) && (p <? 2 ^ 31).
Definition fresh_ref (m : gmap Z SOrder) (ref : Z) : bool := bool_decide (m !! ref = None).

(** The command fits the state: a new reference is unused, the side is B or S, the
    price is representable, a reduction is covered by the order, and there is room for
    [cap] orders. *)
Definition admissible (cap : nat) (s : SBook) (c : command) : bool :=
  match c with
  | CIgnore | COpen _ | CHalt | CDelete _ => true
  | CAdd ref sd pr sh =>
      negb (s_open s) ||
      (fresh_ref (s_orders s) ref && ((sd =? ch_B) || (sd =? ch_S)) && price_ok pr &&
       (size (s_orders s) <? cap)%nat)
  | CReduce ref n =>
      match s_orders s !! ref with None => true | Some o => n <=? s_shares o end
  | CReplace old new pr sh =>
      match s_orders s !! old with
      | None => true
      | Some _ => fresh_ref (delete old (s_orders s)) new && price_ok pr
      end
  end.

(** The price a command brings to a side of the book, if any. *)
Definition new_price (s : SBook) (c : command) : option (Z * Z) :=
  match c with
  | CAdd _ sd pr _ => if s_open s then Some (sd, pr) else None
  | CReplace old _ pr _ => match s_orders s !! old with Some o => Some (s_side o, pr) | None => None end
  | _ => None
  end.

(** All prices of a side lie in a band as wide as the level array, [lo] its bottom. *)
Definition in_band (lo p : Z) : bool := (lo <=? p) && (p <? lo + kLevels).
Definition band_of (lo_bid lo_ask sd : Z) : Z := if sd =? ch_B then lo_bid else lo_ask.
Definition banded (lo_bid lo_ask : Z) (s : SBook) (c : command) : bool :=
  match new_price s c with
  | Some (sd, pr) => in_band (band_of lo_bid lo_ask sd) pr
  | None => true
  end.

(** A feed whose every message is admissible and in the band when it arrives. *)
Fixpoint good_feed (cap : nat) (lo_bid lo_ask : Z) (s : SBook) (ms : list ParsedMessage) : bool :=
  match ms with
  | [] => true
  | m :: ms =>
      admissible cap s (command_of m) && banded lo_bid lo_ask s (command_of m) &&
      good_feed cap lo_bid lo_ask (spec_step s m) ms
  end.

(** ** Best bid and offer of a set of orders *)
Definition side_orders (m : gmap Z SOrder) (sd p : Z) : list SOrder :=
  filter (λ o, s_side o = sd ∧ s_price o = p) (map_to_list m).*2.

(** Total shares, and number of orders, at a price. *)
Definition depth (m : gmap Z SOrder) (sd p : Z) : Z :=
  foldr (λ o t, s_shares o + t) 0 (side_orders m sd p).

Definition prices (m : gmap Z SOrder) (sd : Z) : list Z :=
  s_price <$> filter (λ o, s_side o = sd) (map_to_list m).*2.

Definition best_of (pick : Z → Z → Z) (ps : list Z) : option Z :=
  match ps with [] => None | p :: ps => Some (foldr pick p ps) end.

Definition spec_bbo (m : gmap Z SOrder) : BBO :=
  let bid := best_of Z.max (prices m ch_B) in
  let ask := best_of Z.min (prices m ch_S) in
  let qty sd p := match p with Some p => u32 (depth m sd p) | None => 0 end in
  mkBBO (default 0 bid) (qty ch_B bid) (default 0 ask) (qty ch_S ask).

(** ** Refinement relation *)
Record simulates (cap : nat) (b : OrderBook) (s : SBook) : Prop := {
  si_wf : wf b;
  si_attached : attached b;
  si_orders : abs_orders b = s_orders s;
  si_open : is_open b = s_open s;
  si_cap : pool_capacity (pool b) = cap;
}.

(** Keeping every live order in a level, step by step. *)
Definition lossless_step (b : OrderBook) (s : SBook) (c : command) : Prop :=
  match c with
  | CAdd _ sd pr _ => s_open s = true →
      ∀ sd', sd = side_char sd' → lossless (s_orders s) (refp sd' b) sd' pr
  | CReplace old _ pr _ => ∀ o sd', s_orders s !! old = Some o → s_side o = side_char sd' →
      lossless (delete old (s_orders s)) (refp sd' b) sd' pr
  | _ => True
  end.

(** The step from [b] for command [c], as every handler's lemma states it: the book
    reached refines the abstract one, and the reference prices move as computed. *)
Definition ref_after (r p sd : Z) (sd' : bside) : Z :=
  if sd =? side_char sd' then
    (if r =? 0 then p else if in_range (price_idx sd' r p) then r else p)
  else r.

Definition refs_after (b : OrderBook) (np : option (Z * Z)) (sd' : bside) : Z :=
  match np with Some (sd, p) => ref_after (refp sd' b) p sd sd' | None => refp sd' b end.

Definition refines (cap : nat) (b : OrderBook) (s : SBook) (c : command) (r : outcome OrderBook) : Prop :=
  ∃ b', r = Ok b' ∧ simulates cap b' (spec_command s c) ∧
    ∀ sd, refp sd b' = refs_after b (new_price s c) sd.

(** ** Lemmas: handlers as commands *)
Section Refine.
Context `{BuildMode}.

Lemma on_replace_unfold it b m :
  on_replace it b m =
    match order_map b !! be64 (repl_original_order_ref_num m) with
    | None => Ok b
    | Some a =>
        c ← deref (heap_of b) (Some a);
        b ← drop_body b (be64 (repl_original_order_ref_num m)) a;
        add_body it b (be64 (repl_new_order_ref_num m)) (be32 (repl_shares m))
          (be32 (repl_price m)) (side c)
    end.
Proof.
  unfold on_replace, drop_body. destruct (order_map b !! _) as [a|]; [|done].
  destruct (deref _ _) as [c|]; [|done]. simpl. destruct (book_remove_order b a) as [b1|]; [|done].
  simpl. by destruct (free _ _).
Qed.

(** A live order, on both sides of the refinement. *)
Lemma simulates_live cap b s ref so :
  simulates cap b s → s_orders s !! ref = Some so →
  ∃ a o, order_map b !! ref = Some a ∧ heap_of b !! a = Some o ∧ level_idx o ≠ -1 ∧ so = to_sorder o.
Proof.
  intros Hs Hl. rewrite <-(si_orders _ _ _ Hs) in Hl.
  apply abs_orders_lookup in Hl as (a & o & Hm & Ha & ->). exists a, o. split_and!; try done.
  by apply (si_attached _ _ _ Hs ref a).
Qed.

Lemma simulates_absent cap b s ref :
  simulates cap b s → s_orders s !! ref = None ↔ order_map b !! ref = None.
Proof.
  intros Hs. destruct (si_wf _ _ _ Hs) as (q & fs & Hw). rewrite <-(si_orders _ _ _ Hs).
  apply (abs_orders_None _ q), Hw.
Qed.

Lemma simulates_kept cap b b' s m q fs :
  simulates cap b s → book_wf b' q fs → abs_orders b' = m → kept b b' → attached b' →
  simulates cap b' (mkSBook m (s_open s)).
Proof.
  intros [_ _ _ Ho Hc] Hw Hm [Hk1 Hk2] Ha. split; [by exists q, fs|done|done|simpl; congruence|congruence].
Qed.

Lemma price_ok_true p : price_ok p = true ↔ 0 < p < 2 ^ 31.
Proof. unfold price_ok. rewrite andb_true_iff, !Z.ltb_lt. lia. Qed.

Lemma side_of_char z : (z =? ch_B) || (z =? ch_S) = true → ∃ sd, z = side_char sd.
Proof.
  intros [Hz|Hz]%orb_true_iff; apply Z.eqb_eq in Hz as ->; [by exists Bid|by exists Ask].
Qed.

(** Room in the pool. *)
Lemma wf_room cap b s q fs :
  simulates cap b s → book_wf b q fs → (size (s_orders s) < cap)%nat → ∃ a fs', fs = a :: fs'.
Proof.
  intros Hs Hw Hlt. pose proof (wf_count _ _ _ Hw) as Hn.
  rewrite <-(si_orders _ _ _ Hs), (abs_orders_size b q) in Hlt by apply Hw.
  rewrite <-(si_cap _ _ _ Hs) in Hlt. unfold pool_capacity, heap_of in *.
  destruct fs as [|a fs]; [simpl in Hn; lia|eauto].
Qed.

Lemma ref_after_ne r p sd sd' : sd ≠ sd' → ref_after r p (side_char sd) sd' = r.
Proof. intros Hne. unfold ref_after. by destruct sd, sd'. Qed.

Lemma refines_add cap b s it ref sd pr sh :
  simulates cap b s → is_open b = true → 0 ≤ sh < 2 ^ 32 →
  admissible cap s (CAdd ref sd pr sh) = true → lossless_step b s (CAdd ref sd pr sh) →
  refines cap b s (CAdd ref sd pr sh) (add_body it b ref sh pr sd).
Proof.
  intros Hs Ho Hsh Hadm Hll. pose proof (si_open _ _ _ Hs) as Hos. simpl in Hadm, Hll.
  rewrite Ho in Hos. rewrite <-Hos in Hadm, Hll. simpl in Hadm.
  apply andb_true_iff in Hadm as [[[Hfr Hsd]%andb_true_iff Hpr%price_ok_true]%andb_true_iff Hroom%Nat.ltb_lt].
  apply side_of_char in Hsd as [sd' ->]. apply bool_decide_eq_true in Hfr.
  destruct (si_wf _ _ _ Hs) as (q & fs & Hw).
  destruct (wf_room _ _ _ _ _ Hs Hw Hroom) as (a & fs' & ->).
  destruct (add_body_ok b q a fs' it ref sh pr sd' Hw) as (b' & q' & E & Hw' & Habs & Hk & Hro & Hr & Hatt & _);
    [by eapply simulates_absent|done..|].
  exists b'. split_and!; [done| |].
  - simpl. rewrite <-Hos, Hos. eapply simulates_kept; try done.
    + by rewrite Habs, (si_orders _ _ _ Hs).
    + apply Hatt; [apply Hs|]. rewrite (si_orders _ _ _ Hs). by apply Hll.
  - intros sd. simpl. rewrite <-Hos. simpl. destruct (decide (sd' = sd)) as [<-|Hne].
    + unfold ref_after. by rewrite Z.eqb_refl.
    + rewrite ref_after_ne by done. by apply Hro.
Qed.

Lemma refines_reduce cap b s ref n :
  simulates cap b s → 0 ≤ n → admissible cap s (CReduce ref n) = true →
  refines cap b s (CReduce ref n) (reduce_body b ref n).
Proof.
  intros Hs Hn Hadm. simpl in Hadm. unfold refines. simpl.
  destruct (s_orders s !! ref) as [so|] eqn:Hl.
  - apply Z.leb_le in Hadm. destruct (si_wf _ _ _ Hs) as (q & fs & Hw).
    destruct (simulates_live _ _ _ _ _ Hs Hl) as (a & o & Hm & Ha & Hidx & ->). simpl in *.
    destruct (reduce_body_ok b q fs ref a o n) as (b' & q' & E & Hw' & Habs & Hk & Hr & Hatt & _); [done..|].
    exists b'. split_and!; [done| |done]. eapply simulates_kept; try done.
    + by rewrite Habs, (si_orders _ _ _ Hs).
    + apply Hatt, Hs.
  - exists b. split_and!; [|done|done]. unfold reduce_body.
    by rewrite (proj1 (simulates_absent _ _ _ _ Hs) Hl).
Qed.

Lemma refines_delete cap b s m :
  simulates cap b s →
  refines cap b s (CDelete (be64 (del_order_ref_num m))) (on_delete b m).
Proof.
  intros Hs. set (ref := be64 (del_order_ref_num m)). unfold refines. simpl.
  change (on_delete b m) with
    (match order_map b !! ref with None => Ok b | Some o => drop_body b ref o end).
  destruct (s_orders s !! ref) as [so|] eqn:Hl.
  - destruct (si_wf _ _ _ Hs) as (q & fs & Hw).
    destruct (simulates_live _ _ _ _ _ Hs Hl) as (a & o & Hm & Ha & Hidx & ->). rewrite Hm.
    destruct (drop_body_ok b q fs ref a o) as (b' & q' & E & Hw' & Habs & Hk & Hr & Hatt & _); [done..|].
    exists b'. split_and!; [done| |done]. eapply simulates_kept; try done.
    + by rewrite Habs, (si_orders _ _ _ Hs).
    + apply Hatt, Hs.
  - rewrite (proj1 (simulates_absent _ _ _ _ Hs) Hl). exists b. split_and!; [done| |done].
    rewrite delete_id by done. by destruct s.
Qed.

Lemma refines_replace cap b s it m :
  simulates cap b s →
  let c := command_of (MReplaceOrder m) in
  admissible cap s c = true → lossless_step b s c →
  refines cap b s c (on_replace it b m).
Proof.
  intros Hs. rewrite on_replace_unfold. cbn [command_of]. unfold refines. simpl.
  set (old := be64 (repl_original_order_ref_num m)). set (new := be64 (repl_new_order_ref_num m)).
  intros Hadm Hll. destruct (s_orders s !! old) as [so|] eqn:Hl.
  - apply andb_true_iff in Hadm as [Hfr%bool_decide_eq_true Hpr%price_ok_true].
    destruct (si_wf _ _ _ Hs) as (q & fs & Hw).
    destruct (simulates_live _ _ _ _ _ Hs Hl) as (a & o & Hm & Ha & Hidx & ->).
    rewrite Hm, (deref_ok _ _ _ Ha). simpl.
    destruct (co_live _ _ (wf_core _ _ _ Hw) _ _ Hm) as (o' & sd & Ho' & _ & Hsd & _).
    assert (o' = o) as -> by congruence.
    assert (Hnew : delete old (order_map b) !! new = None).
    { rewrite <-(si_orders _ _ _ Hs) in Hfr. apply lookup_delete_None in Hfr as [<-|Hfr].
      - apply lookup_delete_eq.
      - apply (abs_orders_None _ q) in Hfr; [|apply Hw]. apply lookup_delete_None. by right. }
    destruct (replace_body_ok b q fs it old new a o (be32 (repl_shares m)) (be32 (repl_price m)) sd)
      as (b' & q' & E & Hw' & Habs & Hk & Hro & Hr & Hatt); try done; [apply be32_bound|].
    exists b'. split_and!; [exact E| |].
    + eapply simulates_kept; try done.
      * by rewrite Habs, Hsd, (si_orders _ _ _ Hs).
      * apply Hatt; [apply Hs|]. rewrite (si_orders _ _ _ Hs). by eapply Hll.
    + intros sd'. rewrite Hsd. destruct (decide (sd = sd')) as [<-|Hne].
      * unfold ref_after. by rewrite Z.eqb_refl.
      * rewrite ref_after_ne by done. by apply Hro.
  - rewrite (proj1 (simulates_absent _ _ _ _ Hs) Hl). by exists b.
Qed.

Lemma refines_system cap b s it m :
  simulates cap b s →
  refines cap b s (command_of (MSystemEvent m)) (on_system_event it b m).
Proof.
  intros Hs. destruct (si_wf _ _ _ Hs) as (q & fs & Hw). cbn [command_of].
  assert (Hopen : ∀ v, simulates cap (set_open v b) (mkSBook (s_orders s) v)).
  { intros v. destruct Hs. split; try done. exists q, fs. by apply book_wf_set_open. }
  destruct (Z.eqb_spec (sys_event_code m) ch_H) as [Hc|Hc].
  - destruct (halt_ok b q fs it m Hw Hc) as (b' & q' & E & Hw' & Habs & Ho & Hcap & Hatt & Hr).
    rewrite Hc. simpl. exists b'. split_and!; [done| |done].
    split; [by do 2 eexists|done|done|done|]. rewrite Hcap. apply Hs.
  - unfold on_system_event. rewrite (proj2 (Z.eqb_neq _ _) Hc).
    destruct (sys_event_code m =? ch_O); [by exists (set_open true b)|].
    destruct (sys_event_code m =? ch_C); [by exists (set_open false b)|by exists b].
Qed.

(** One message. *)
Lemma refines_dispatch cap b s it m :
  simulates cap b s → admissible cap s (command_of m) = true → lossless_step b s (command_of m) →
  refines cap b s (command_of m) (dispatch it b m).
Proof.
  intros Hs Hadm Hll.
  assert (Hadd : ∀ ref sd pr sh, 0 ≤ sh < 2 ^ 32 → admissible cap s (CAdd ref sd pr sh) = true →
    lossless_step b s (CAdd ref sd pr sh) →
    refines cap b s (CAdd ref sd pr sh) (if negb (is_open b) then Ok b else add_body it b ref sh pr sd)).
  { intros ref sd pr sh Hsh Ha Hl. destruct (is_open b) eqn:Ho; simpl; [by apply refines_add|].
    pose proof (si_open _ _ _ Hs) as Hos. rewrite Ho in Hos.
    exists b. unfold refines. simpl. rewrite <-Hos. by split_and!. }
  destruct m as [|m|m|m|m|m|m|m|m|m].
  - by exists b.
  - by apply refines_system.
  - apply Hadd; [apply be32_bound|done..].
  - apply Hadd; [apply be32_bound|done..].
  - apply refines_reduce; [done|apply be32_bound|done].
  - apply refines_reduce; [done|apply be32_bound|done].
  - apply refines_reduce; [done|apply be32_bound|done].
  - by apply refines_delete.
  - by apply refines_replace.
  - by exists b.
Qed.

End Refine.
