(* ===== verification/Depth.v ===== *)
(** * Aggregation: levels, depth, best bid and offer

    On a well-formed book whose live orders are all in levels, the queue of a level
    is exactly the set of live orders at its price, so its totals are the depth of
    the abstract book there, and the best indices give the abstract best prices.  On any
    well-formed book the same holds of the live orders that are in a level
    ([in_levels]): the queries do not read the map, so an order without a level can be
    taken out of it ([core_seen]). *)

From S2P Require Import Prelude Bytes Messages Parser Order PriceLevel OrderBook BookInv BookWf.
From S2P Require Import BookHandlers BookSpec.

(** The live order stored at an address. *)
Definition sorder_at (h : heap) (a : addr) : SOrder :=
  default (mkSOrder 0 0 0) (to_sorder <$> h !! a).

Definition side_pick (sd : bside) : Z → Z → Z := match sd with Bid => Z.max | Ask => Z.min end.

(** A live order that no level holds: a recentring left its index at -1. *)
Definition stranded (b : OrderBook) (ref : Z) : Prop :=
  ∃ a o, order_map b !! ref = Some a ∧ heap_of b !! a = Some o ∧ level_idx o = -1.

Definition has_level (b : OrderBook) (ref : Z) : bool :=
  bool_decide (level_idx <$> (order_map b !! ref ≫= (heap_of b !!.)) ≠ Some (-1)).

(** The live orders that are in a level. *)
Definition in_levels (b : OrderBook) : gmap Z SOrder := filter (λ e, has_level b e.1 = true) (abs_orders b).

(** The price of level [i]. *)
Definition idx_price (sd : bside) (r i : Z) : Z := match sd with Bid => r - i | Ask => r + i end.

(** ** Levels *)

(** A level's queue is exactly the live orders at its price. *)
Lemma level_members b q sd i a :
  core b q → attached b →
  a ∈ q sd i ↔ ∃ ref o, order_map b !! ref = Some a ∧ heap_of b !! a = Some o ∧
    side o = side_char sd ∧ price_idx sd (refp sd b) (price o) = i.
Proof.
  intros Hc Hatt. split.
  - intros Hin. destruct (co_queued _ _ Hc _ _ _ Hin) as [ref Hm].
    destruct (sk_placed _ _ _ _ _ _ (ss_side _ _ (co_sides _ _ Hc) sd) i a Hin) as (o & ? & ? & _ & ?).
    eauto 10.
  - intros (ref & o & Hm & Ha & Hs & Hi). destruct (co_live _ _ Hc _ _ Hm) as (o' & sd' & Ha' & _ & Hs' & _ & Hl).
    assert (o' = o) as -> by congruence. rewrite Hs in Hs'. apply side_char_inj in Hs' as <-.
    destruct Hl as [Hl|Hin]; [by destruct (Hatt _ _ _ Hm Ha)|].
    destruct (sk_placed _ _ _ _ _ _ (ss_side _ _ (co_sides _ _ Hc) sd) _ a Hin) as (o' & Ha2 & _ & _ & Hi').
    assert (o' = o) as -> by congruence. congruence.
Qed.

Lemma abs_orders_fmap b q : core b q → abs_orders b = sorder_at (heap_of b) <$> order_map b.
Proof.
  intros Hc. apply map_eq. intros ref. unfold abs_orders. rewrite lookup_omap, lookup_fmap.
  destruct (order_map b !! ref) as [a|] eqn:Hm; [|done]. simpl.
  destruct (co_live _ _ Hc _ _ Hm) as (o & _ & Ho & _). unfold sorder_at. by rewrite Ho.
Qed.

Lemma abs_orders_list b q :
  core b q →
  (map_to_list (abs_orders b)).*2 ≡ₚ sorder_at (heap_of b) <$> (map_to_list (order_map b)).*2.
Proof.
  intros Hc. rewrite (abs_orders_fmap _ _ Hc), map_to_list_fmap, <-!list_fmap_compose. done.
Qed.

Lemma core_map_nodup b q : core b q → NoDup (map_to_list (order_map b)).*2.
Proof. apply (core_entries_nodup b q iter_forward). Qed.

(** The orders of a side at a price, as the queue of the level of that price. *)
Lemma side_orders_queue b q sd p :
  core b q → attached b →
  side_orders (abs_orders b) (side_char sd) p ≡ₚ
    sorder_at (heap_of b) <$> q sd (price_idx sd (refp sd b) p).
Proof.
  intros Hc Hatt. unfold side_orders. rewrite (abs_orders_list _ _ Hc), filter_fmap_comm.
  apply fmap_Permutation, NoDup_Permutation.
  - apply NoDup_filter. by eapply core_map_nodup.
  - apply (sk_rep _ _ _ _ _ _ (ss_side _ _ (co_sides _ _ Hc) sd)).
  - intros a. rewrite list_elem_of_filter, (level_members b q sd _ a Hc Hatt).
    rewrite (entries_snd iter_forward (order_map b) a). unfold sorder_at. simpl. split.
    + intros [[Hs Hp] [ref Hm]]. destruct (co_live _ _ Hc _ _ Hm) as (o & _ & Ho & _).
      rewrite Ho in Hs, Hp. simpl in *. exists ref, o. by rewrite Hp.
    + intros (ref & o & Hm & Ho & Hs & Hp). rewrite Ho. simpl. split; [|by exists ref].
      split; [done|]. destruct sd; simpl in *; lia.
Qed.

Lemma sum_shares_perm l1 l2 :
  l1 ≡ₚ l2 → foldr (λ o t, s_shares o + t) 0 l1 = foldr (λ o t, s_shares o + t) 0 l2.
Proof. induction 1; simpl; lia. Qed.

Lemma depth_queue b q sd p :
  core b q → attached b →
  depth (abs_orders b) (side_char sd) p = qty (heap_of b) (q sd (price_idx sd (refp sd b) p)).
Proof.
  intros Hc Hatt. unfold depth. 
  rewrite (sum_shares_perm _ _ (side_orders_queue b q sd p Hc Hatt)).
  induction (q sd _) as [|a l IH]; [done|]. rewrite fmap_cons. cbn [foldr qty]. rewrite IH. f_equal.
  unfold sorder_at, shares_of. by destruct (heap_of b !! a).
Qed.

(** ** Best bid and offer *)
Lemma prices_elem b q sd p :
  core b q → attached b →
  p ∈ prices (abs_orders b) (side_char sd) ↔ q sd (price_idx sd (refp sd b) p) ≠ [].
Proof.
  intros Hc Hatt. unfold prices.
  setoid_rewrite (abs_orders_list _ _ Hc). rewrite filter_fmap_comm, <-list_fmap_compose, list_elem_of_fmap.
  split.
  - intros (a & -> & [Hs Hin]%list_elem_of_filter).
    apply (entries_snd iter_forward) in Hin as [ref Hm].
    destruct (co_live _ _ Hc _ _ Hm) as (o & _ & Ho & _). simpl. unfold sorder_at in *. rewrite Ho in *.
    assert (Ha : a ∈ q sd (price_idx sd (refp sd b) (price o))).
    { apply (level_members b q); eauto 10. }
    intros He. simpl in He. rewrite He in Ha. by apply not_elem_of_nil in Ha.
  - destruct (q sd _) as [|a l] eqn:Hq; [done|]. intros _.
    assert (Ha : a ∈ q sd (price_idx sd (refp sd b) p)) by (rewrite Hq; by left).
    apply (level_members b q) in Ha as (ref & o & Hm & Ho & Hs & Hp); [|done..].
    exists a. unfold sorder_at. simpl. rewrite Ho. simpl. split.
    + destruct sd; simpl in *; lia.
    + apply list_elem_of_filter. rewrite Ho. split; [done|]. apply (entries_snd iter_forward). eauto.
Qed.

Lemma prices_elem_orders m sd p :
  p ∈ prices m sd ↔ ∃ ref o, m !! ref = Some o ∧ s_side o = sd ∧ s_price o = p.
Proof.
  unfold prices. rewrite list_elem_of_fmap. split.
  - intros (o & -> & [Hsd Ho]%list_elem_of_filter). apply list_elem_of_fmap in Ho as ([ref o'] & -> & Hin).
    apply elem_of_map_to_list in Hin. eauto.
  - intros (ref & o & Hm & Hsd & Hp). exists o. split; [done|]. apply list_elem_of_filter. split; [done|].
    apply list_elem_of_fmap. exists (ref, o). split; [done|]. by apply elem_of_map_to_list.
Qed.

Lemma foldr_pick_elem (pick : Z → Z → Z) p ps :
  (∀ a b, pick a b = a ∨ pick a b = b) → foldr pick p ps ∈ p :: ps.
Proof.
  intros Hpick. induction ps as [|x ps IH]; simpl; [by left|].
  destruct (Hpick x (foldr pick p ps)) as [->| ->]; [by right; left|].
  apply elem_of_cons in IH as [->|IH]; [by left|by right; right].
Qed.

(** The best price of a side: 0 without orders, one of their prices otherwise. *)
Lemma best_of_elem pick ps :
  (∀ a b, pick a b = a ∨ pick a b = b) →
  (ps = [] ∧ best_of pick ps = None) ∨ ∃ p, best_of pick ps = Some p ∧ p ∈ ps.
Proof.
  intros Hpick. destruct ps as [|p ps]; [by left|right]. eexists. split; [done|].
  by apply foldr_pick_elem.
Qed.

Lemma best_price_ok b q sd :
  core b q → attached b →
  best_of (side_pick sd) (prices (abs_orders b) (side_char sd)) =
    (if 0 <=? best sd b then Some (idx_price sd (refp sd b) (best sd b)) else None).
Proof.
  intros Hc Hatt. set (r := refp sd b).
  assert (Hel : ∀ p, p ∈ prices (abs_orders b) (side_char sd) ↔ q sd (price_idx sd r p) ≠ [])
    by (intros p; by apply prices_elem).
  pose proof (sk_best _ _ _ _ _ _ (ss_side _ _ (co_sides _ _ Hc) sd)) as [[-> Hall]|(Hpos & Hne & Hmin)].
  - simpl. destruct (prices _ _) as [|p ps]; [done|]. destruct (proj1 (Hel p)); [by left|apply Hall].
  - rewrite (proj2 (Z.leb_le _ _) Hpos). set (i := best sd b) in *.
    assert (Hin : idx_price sd r i ∈ prices (abs_orders b) (side_char sd)).
    { apply Hel. by replace (price_idx sd r (idx_price sd r i)) with i by (destruct sd; simpl; lia). }
    assert (Hle : ∀ y, y ∈ prices (abs_orders b) (side_char sd) → i ≤ price_idx sd r y).
    { intros y Hy%Hel. destruct (decide (i ≤ price_idx sd r y)); [done|]. destruct Hy. apply Hmin. lia. }
    destruct (prices _ _) as [|p ps]; [by apply not_elem_of_nil in Hin|]. unfold best_of. f_equal.
    destruct sd; simpl in *.
    + apply foldr_max_unique; [done|]. intros y Hy%Hle. lia.
    + apply foldr_min_unique; [done|]. intros y Hy%Hle. lia.
Qed.

(** Every level of the window shows the orders at its price. *)
Lemma level_depth b q sd i :
  core b q → attached b → 0 ≤ i < kLevels →
  total_qty (levels sd b !!! i) = depth (abs_orders b) (side_char sd) (idx_price sd (refp sd b) i) ∧
  order_count (levels sd b !!! i) =
    Z.of_nat (length (side_orders (abs_orders b) (side_char sd) (idx_price sd (refp sd b) i))).
Proof.
  intros Hc Hatt Hi. pose proof (sk_rep _ _ _ _ _ _ (ss_side _ _ (co_sides _ _ Hc) sd) i) as Hr.
  assert (E : price_idx sd (refp sd b) (idx_price sd (refp sd b) i) = i) by (destruct sd; simpl; lia).
  rewrite (depth_queue _ q), (side_orders_queue _ q), length_fmap, E by done. split; apply Hr.
Qed.

Lemma best_idx_range b q sd :
  core b q → attached b → 0 ≤ best sd b →
  best sd b < kLevels ∧ 0 < idx_price sd (refp sd b) (best sd b) < 2 ^ 31.
Proof.
  intros Hc Hatt Hpos. pose proof (ss_side _ _ (co_sides _ _ Hc) sd) as Hss.
  destruct (sk_best _ _ _ _ _ _ Hss) as [[? _]|(_ & Hne & _)]; [lia|].
  destruct (q sd (best sd b)) as [|a l] eqn:Hq; [done|].
  assert (Ha : a ∈ q sd (best sd b)) by (rewrite Hq; by left).
  split; [eapply sk_range; done|].
  destruct (proj1 (level_members b q sd _ a Hc Hatt) Ha) as (ref & o & Hm & Ho & _ & Hp).
  destruct (co_live _ _ Hc _ _ Hm) as (o' & _ & Ho' & _ & _ & Hpr & _).
  assert (o' = o) as -> by congruence. destruct sd; simpl in *; lia.
Qed.

Lemma bbo_side b q sd :
  core b q → attached b → 0 ≤ best sd b →
  level_at (levels sd b) (best sd b) = Ok (levels sd b !!! best sd b) ∧
  u32 (idx_price sd (refp sd b) (u32 (best sd b))) = idx_price sd (refp sd b) (best sd b) ∧
  total_qty (levels sd b !!! best sd b) =
    depth (abs_orders b) (side_char sd) (idx_price sd (refp sd b) (best sd b)).
Proof.
  intros Hc Hatt Hpos. destruct (best_idx_range b q sd Hc Hatt Hpos) as [Hi Hp]. split_and!.
  - by apply level_at_ok.
  - rewrite (u32_small (best sd b)), u32_small; [done|lia|unfold kLevels in Hi; lia].
  - by apply (level_depth b q).
Qed.

Lemma best_bid_offer_abs b q :
  core b q → attached b → best_bid_offer b = Ok (spec_bbo (abs_orders b)).
Proof.
  intros Hc Hatt. unfold spec_bbo.
  pose proof (best_price_ok b q Bid Hc Hatt) as Hbid. pose proof (best_price_ok b q Ask Hc Hatt) as Hask.
  pose proof (bbo_side b q Bid Hc Hatt) as Hb. pose proof (bbo_side b q Ask Hc Hatt) as Ha.
  simpl in *. rewrite Hbid, Hask. unfold best_bid_offer, price_from_bid_idx, price_from_ask_idx.
  destruct (Z.leb_spec 0 (best_bid_idx b)) as [H1|H1];
    [destruct (Hb H1) as (-> & E & E'); simpl; rewrite E, E'|];
    (destruct (Z.leb_spec 0 (best_ask_idx b)) as [H2|H2];
      [destruct (Ha H2) as (E1 & E2 & E3); simpl; rewrite E1; simpl; rewrite E2, E3|]; done).
Qed.

(** ** Orders without a level *)

(** A live order is stranded when no queue holds it. *)
Lemma stranded_queue b q ref a :
  core b q → order_map b !! ref = Some a → stranded b ref ↔ ∀ sd i, a ∉ q sd i.
Proof.
  intros Hc Hm. split.
  - intros (a' & o & Hm' & Ho & Hi) sd i Hin. assert (a' = a) as -> by congruence.
    pose proof (ss_side _ _ (co_sides _ _ Hc) sd) as Hs.
    destruct (sk_placed _ _ _ _ _ _ Hs i a Hin) as (o' & Ho' & _ & Hi' & _).
    pose proof (sk_range _ _ _ _ _ _ Hs i a Hin). assert (o' = o) as -> by congruence. lia.
  - intros Hn. destruct (co_live _ _ Hc _ _ Hm) as (o & sd & Ho & _ & _ & _ & [Hi|Hin]); [|by destruct (Hn _ _ Hin)].
    by exists a, o.
Qed.

Lemma stranded_live b ref : stranded b ref → is_Some (order_map b !! ref).
Proof. intros (a & o & -> & _). by eexists. Qed.

Lemma not_stranded_idx b ref a o :
  order_map b !! ref = Some a → heap_of b !! a = Some o → ¬ stranded b ref → level_idx o ≠ -1.
Proof. intros Hm Ho Hn Hi. apply Hn. by exists a, o. Qed.

Lemma has_level_stranded b ref : has_level b ref = true ↔ ¬ stranded b ref.
Proof.
  unfold has_level. rewrite bool_decide_eq_true. apply not_iff_compat. unfold stranded.
  destruct (order_map b !! ref) as [a|] eqn:Hm; simpl; [|naive_solver].
  destruct (heap_of b !! a) as [o|] eqn:Ho; simpl; [|naive_solver]. split; [intros [= Hi]; eauto|].
  intros (a' & o' & [= <-] & Ho' & Hi). congruence.
Qed.

Lemma in_levels_lookup b ref o : in_levels b !! ref = Some o ↔ abs_orders b !! ref = Some o ∧ ¬ stranded b ref.
Proof. unfold in_levels. rewrite map_lookup_filter_Some. simpl. by rewrite has_level_stranded. Qed.

Lemma in_levels_attached b : attached b → in_levels b = abs_orders b.
Proof.
  intros Hatt. apply map_eq. intros ref. apply option_eq. intros o. rewrite in_levels_lookup.
  split; [by intros [? _]|]. intros Ho. split; [done|]. intros (a & oc & Hm & Hoc & Hi). by destruct (Hatt _ _ _ Hm Hoc).
Qed.

(** The book with a map of the orders in its levels only: every order of it is in a
    level, and no query can tell. *)
Lemma core_seen b q :
  core b q → ∃ m, let b' := set_order_map m b in core b' q ∧ attached b' ∧ abs_orders b' = in_levels b.
Proof.
  intros Hc. set (m := filter (λ e, has_level b e.1 = true) (order_map b)).
  assert (Hm : ∀ ref a, m !! ref = Some a ↔ order_map b !! ref = Some a ∧ ¬ stranded b ref).
  { intros ref a. unfold m. rewrite map_lookup_filter_Some. simpl. by rewrite has_level_stranded. }
  exists m. cbv zeta. split_and!.
  - split.
    + destruct (co_sides _ _ Hc) as [Hh Hss]. split; [exact Hh|]. intros sd. specialize (Hss sd). by destruct sd.
    + intros ref a [Ha _]%Hm. exact (co_live _ _ Hc ref a Ha).
    + intros sd i a Hin. destruct (co_queued _ _ Hc _ _ _ Hin) as [ref Ha]. exists ref. apply Hm. split; [done|].
      intros Hs. by apply (proj1 (stranded_queue b q ref a Hc Ha) Hs sd i).
    + intros sd. pose proof (co_refs _ _ Hc sd). by destruct sd.
    + intros sd. pose proof (co_ref0 _ _ Hc sd). by destruct sd.
  - intros ref a o [Ha Hn]%Hm Ho. by apply (not_stranded_idx b ref a).
  - apply map_eq. intros ref. apply option_eq. intros o.
    rewrite in_levels_lookup, !abs_orders_lookup. simpl. setoid_rewrite Hm. naive_solver.
Qed.
