(* ===== verification/BookTheorems.v ===== *)
(** * Theorems about the order book

    Refinement of the abstract book message by message and over a feed, the best bid
    and offer, the levels, the halt, the pool, and the behaviours outside the contract:
    recentring that strands live orders, reductions that exceed the order. *)

From S2P Require Import Prelude Bytes Messages Parser Order PriceLevel OrderBook BookInv BookWf.
From S2P Require Import BookHandlers Dispatch Samples BookSpec Depth.

(** ** Definitions *)

(** The reference prices and the live orders are in the band. *)
Definition in_bands (lo_bid lo_ask : Z) (b : OrderBook) (s : SBook) : Prop :=
  ∀ sd, (refp sd b = 0 ∨ in_band (band_of lo_bid lo_ask (side_char sd)) (refp sd b) = true) ∧
    ∀ ref o, s_orders s !! ref = Some o → s_side o = side_char sd →
      in_band (band_of lo_bid lo_ask (side_char sd)) (s_price o) = true.

Definition empty_sbook : SBook := mkSBook ∅ false.

(** The sample session's book. *)
Definition sample_book : OrderBook := session_book 8 sample_session.
Definition sample_state : SBook := spec_run empty_sbook sample_session.

(** ** Lemmas: feeds in a band *)
Lemma in_band_true lo p : in_band lo p = true ↔ lo ≤ p < lo + kLevels.
Proof. unfold in_band. rewrite andb_true_iff, Z.leb_le, Z.ltb_lt. done. Qed.

(** A live order of a simulated book is in its side's window. *)
Lemma simulates_window cap b s ref o sd :
  simulates cap b s → s_orders s !! ref = Some o → s_side o = side_char sd →
  in_range (price_idx sd (refp sd b) (s_price o)) = true.
Proof.
  intros Hs Hl Hsd. destruct (si_wf _ _ _ Hs) as (q & fs & Hw). pose proof (wf_core _ _ _ Hw) as Hc.
  destruct (simulates_live _ _ _ _ _ Hs Hl) as (a & oc & Hm & Ha & _ & ->). simpl in *.
  assert (Hin : a ∈ q sd (price_idx sd (refp sd b) (price oc))).
  { apply (level_members b q); [done|apply Hs|]. eauto 10. }
  apply in_range_true. by eapply sk_range, Hin; apply (ss_side _ _ (co_sides _ _ Hc)).
Qed.

(** In a band, a price outside the window is better than every live order, and the
    window around it still reaches them all. *)
Lemma band_lossless cap lo_bid lo_ask b s m sd p :
  simulates cap b s → in_bands lo_bid lo_ask b s → m ⊆ s_orders s →
  in_band (band_of lo_bid lo_ask (side_char sd)) p = true → lossless m (refp sd b) sd p.
Proof.
  intros Hs Hb Hsub Hp. destruct (Hb sd) as [[Hr|Hr] Hl]; [by left|]. right.
  destruct (in_range (price_idx sd (refp sd b) p)) eqn:Hir; [by left|right].
  intros ref o Hm Hsd. pose proof (lookup_weaken _ _ _ _ Hm Hsub) as Hm'.
  pose proof (simulates_window _ _ _ _ _ _ Hs Hm' Hsd) as Hw.
  specialize (Hl ref o Hm' Hsd). apply in_band_true in Hl, Hp, Hr. apply in_range_true in Hw.
  apply not_true_iff_false in Hir. rewrite in_range_true in Hir. apply in_range_true.
  destruct sd; simpl in *; lia.
Qed.

Lemma banded_lossless cap lo_bid lo_ask b s c :
  simulates cap b s → in_bands lo_bid lo_ask b s → banded lo_bid lo_ask s c = true →
  lossless_step b s c.
Proof.
  intros Hs Hb Hc. destruct c as [| | |ref sd p sh| | |old new p sh]; try done; simpl.
  - intros Ho sd' ->. unfold banded in Hc. simpl in Hc. rewrite Ho in Hc.
    by eapply band_lossless.
  - intros o sd' Hl Hsd. unfold banded in Hc. simpl in Hc. rewrite Hl, Hsd in Hc.
    eapply band_lossless; [done|done|apply delete_subseteq|done].
Qed.

(** The orders of a book after a command are old ones or at the command's new price. *)
Lemma spec_command_orders s c ref o :
  s_orders (spec_command s c) !! ref = Some o →
  new_price s c = Some (s_side o, s_price o) ∨
  ∃ ref' o', s_orders s !! ref' = Some o' ∧ s_side o' = s_side o ∧ s_price o' = s_price o.
Proof.
  destruct c as [| | |r sd p sh|r n|r|old new p sh]; simpl; eauto 6.
  - by rewrite lookup_empty.
  - destruct (s_open s); [|by eauto 6]. simpl.
    intros [[<- <-]|[? ?]]%lookup_insert_Some; eauto 6.
  - destruct (s_orders s !! r) as [o'|] eqn:Hl; [|by eauto 6]. simpl. case_match.
    + intros [? ?]%lookup_delete_Some. eauto 6.
    + intros [[<- <-]|[? ?]]%lookup_insert_Some; right; eauto 6.
  - intros [? ?]%lookup_delete_Some. eauto 6.
  - destruct (s_orders s !! old) as [o'|] eqn:Hl; [|by eauto 6]. simpl.
    intros [[<- <-]|[? [? ?]%lookup_delete_Some]]%lookup_insert_Some; eauto 6.
Qed.

Lemma in_bands_step lo_bid lo_ask b b' s c :
  in_bands lo_bid lo_ask b s → banded lo_bid lo_ask s c = true →
  (∀ sd, refp sd b' = refs_after b (new_price s c) sd) →
  in_bands lo_bid lo_ask b' (spec_command s c).
Proof.
  intros Hb Hc Hr sd. destruct (Hb sd) as [Hrb Hl]. unfold banded in Hc. split.
  - rewrite Hr. unfold refs_after. destruct (new_price s c) as [[sd' p]|]; [|done].
    unfold ref_after. destruct (Z.eqb_spec sd' (side_char sd)) as [->|]; [|done].
    repeat case_match; auto.
  - intros ref o Ho Hsd. destruct (spec_command_orders _ _ _ _ Ho) as [Hnp|(r' & o' & Hl' & Hs' & Hp')].
    + rewrite Hnp, Hsd in Hc. done.
    + rewrite <-Hp'. apply (Hl r'); [done|congruence].
Qed.

Section Feed.
Context `{BuildMode}.

Lemma feed_simulates cap lo_bid lo_ask msgs b s :
  simulates cap b s → in_bands lo_bid lo_ask b s → good_feed cap lo_bid lo_ask s msgs.*2 = true →
  ∃ b', run_book b msgs = Ok b' ∧ simulates cap b' (spec_run s msgs.*2).
Proof.
  revert b s. induction msgs as [|[it m] msgs IH]; intros b s Hs Hb Hg; [by exists b|].
  simpl in Hg. apply andb_true_iff in Hg as [[Hadm Hband]%andb_true_iff Hg].
  destruct (refines_dispatch cap b s it m Hs Hadm) as (b1 & E & Hs1 & Hr1).
  { by eapply banded_lossless. }
  destruct (IH b1 (spec_step s m)) as (b' & E' & Hs'); [done|by eapply in_bands_step|done|].
  exists b'. split; [|done]. unfold run_book in *. simpl. by rewrite E.
Qed.

Lemma new_book_simulates cap b :
  OrderBook_new cap = Ok b → Z.of_nat cap < 2 ^ 32 →
  simulates cap b empty_sbook ∧ ∀ sd, refp sd b = 0.
Proof.
  unfold OrderBook_new. intros E Hn. destruct (OrderPool_new cap) as [p|] eqn:Ep; [|done].
  simpl in E. injection E as <-.
  destruct (empty_book_wf p cap 0 0 false Ep Hn) as (Hw & Habs & Hatt); [done..|].
  split; [|by intros []]. split; [by do 2 eexists|done|done|done|].
  destruct (decide (cap = 0%nat)) as [->|]; [done|].
  destruct (OrderPool_new_ok cap) as (p' & E' & _ & Hlen); [lia|]. rewrite Ep in E'. by injection E' as <-.
Qed.

Lemma kPoolSize_value : Z.of_nat kPoolSize = 2 ^ 20.
Proof. apply Z2Nat.id. done. Qed.

#[global] Opaque kPoolSize.

Lemma new_book_ok cap : (0 < cap)%nat → ∃ b, OrderBook_new cap = Ok b.
Proof.
  intros Hc. destruct (OrderPool_new_ok cap Hc) as (p & E & _). unfold OrderBook_new. rewrite E. by eexists.
Qed.

End Feed.

(** ** Lemmas: sample books *)

(** A good session gives a concrete book that simulates the abstract one. *)
Lemma session_simulates cap lo_bid lo_ask ms :
  (0 < cap)%nat → Z.of_nat cap < 2 ^ 32 → good_feed cap lo_bid lo_ask empty_sbook ms = true →
  @session debug_build cap ms = Ok (session_book cap ms) ∧
  simulates cap (session_book cap ms) (spec_run empty_sbook ms).
Proof.
  intros Hpos Hcap Hg. destruct (new_book_ok cap Hpos) as [b0 E0].
  destruct (new_book_simulates cap b0 E0 Hcap) as [Hs0 Hr0].
  destruct (@feed_simulates debug_build cap lo_bid lo_ask (with_iters ms) b0 empty_sbook Hs0)
    as (b & E & Hs); [|by rewrite with_iters_snd|].
  { intros sd. split; [by left|]. intros ref o Hl. simpl in Hl. by rewrite lookup_empty in Hl. }
  unfold session_book, session. rewrite E0, bind_ok, E. rewrite with_iters_snd in Hs. done.
Qed.

Lemma sample_simulates : simulates 8 sample_book sample_state.
Proof. apply (session_simulates 8 1500000 1500000); [lia|lia|vm_compute; reflexivity]. Qed.

(** ** Theorems *)
Section Theorems.
Context `{BuildMode}.

(** One message.  From a book that simulates an abstract one, an admissible message
    whose price leaves no live order out of reach is handled without fault, in
    both build modes and whatever the hash map's iteration order, and the book
    reached simulates the abstract book after the message. *)
Theorem dispatch_refines cap b s it m :
  simulates cap b s → admissible cap s (command_of m) = true → lossless_step b s (command_of m) →
  ∃ b', dispatch it b m = Ok b' ∧ simulates cap b' (spec_step s m).
Proof.
  intros Hs Ha Hl. destruct (refines_dispatch cap b s it m Hs Ha Hl) as (b' & E & Hs' & _). eauto.
Qed.

(** C1. A whole session.  A feed whose messages are admissible and whose bid and ask
    prices each stay in a band of [kLevels] ticks is consumed without fault from
    a fresh book, and then the book's best bid and offer, its number of orders
    and the presence of each reference are those of the abstract book. *)
Theorem feed_refines cap lo_bid lo_ask msgs :
  (0 < cap)%nat → Z.of_nat cap < 2 ^ 32 →
  good_feed cap lo_bid lo_ask empty_sbook msgs.*2 = true →
  ∃ b0 b, OrderBook_new cap = Ok b0 ∧ run_book b0 msgs = Ok b ∧
    let m := s_orders (spec_run empty_sbook msgs.*2) in
    best_bid_offer b = Ok (spec_bbo m) ∧
    book_order_count b = Z.of_nat (size m) ∧
    ∀ ref, has_order b ref = bool_decide (is_Some (m !! ref)).
Proof.
  intros Hpos Hcap Hg. destruct (new_book_ok cap Hpos) as [b0 E0].
  destruct (new_book_simulates cap b0 E0 Hcap) as [Hs0 Hr0].
  destruct (feed_simulates cap lo_bid lo_ask msgs b0 empty_sbook Hs0) as (b & E & Hs); [|done|].
  { intros sd. split; [by left|]. intros ref o Hl. simpl in Hl. by rewrite lookup_empty in Hl. }
  exists b0, b. split_and!; [done|done|..]. simpl.
  destruct (si_wf _ _ _ Hs) as (q & fs & Hw). pose proof (wf_core _ _ _ Hw) as Hc.
  rewrite <-(si_orders _ _ _ Hs). split_and!.
  - eapply best_bid_offer_abs; [done|apply Hs].
  - by rewrite (abs_orders_size b q).
  - intros ref. unfold has_order. apply bool_decide_ext. rewrite <-!not_eq_None_Some.
    apply not_iff_compat. symmetry. by apply (abs_orders_None b q).
Qed.

Lemma levels_attached b q i :
  core b q → attached b → 0 ≤ i < kLevels →
  ∃ lb la, bid_level b i = Some lb ∧ ask_level b i = Some la ∧
    total_qty lb = depth (abs_orders b) ch_B (bid_ref b - i) ∧ 0 ≤ total_qty lb < 2 ^ 64 ∧
    order_count lb = Z.of_nat (length (side_orders (abs_orders b) ch_B (bid_ref b - i))) ∧
    total_qty la = depth (abs_orders b) ch_S (ask_ref b + i) ∧ 0 ≤ total_qty la < 2 ^ 64 ∧
    order_count la = Z.of_nat (length (side_orders (abs_orders b) ch_S (ask_ref b + i))).
Proof.
  intros Hc Hatt Hi.
  assert (Hb : ∀ sd, 0 ≤ total_qty (levels sd b !!! i) < 2 ^ 64).
  { intros sd. pose proof (sk_rep _ _ _ _ _ _ (ss_side _ _ (co_sides _ _ Hc) sd) i) as Hr.
    rewrite (lr_qty _ _ _ Hr). apply qty_u64; apply Hr || apply (ss_heap _ _ (co_sides _ _ Hc)). }
  destruct (level_depth b q Bid i Hc Hatt Hi) as [Hb1 Hb2].
  destruct (level_depth b q Ask i Hc Hatt Hi) as [Ha1 Ha2].
  exists (bid_levels b !!! i), (ask_levels b !!! i). unfold bid_level, ask_level.
  rewrite out_of_range_test, (proj2 (in_range_true i) Hi). simpl.
  split_and!; try done; first [apply (Hb Bid)|apply (Hb Ask)].
Qed.

(** C7. Best bid and offer.  On any well-formed book the query returns the highest bid and
    the lowest ask among the live orders that are in a level, with the total of their
    shares at each price modulo 2^32, zeros on an empty side; when no recentring has left
    an order without a level, these are all the live orders. *)
Theorem best_bid_offer_correct b :
  wf b → best_bid_offer b = Ok (spec_bbo (in_levels b)) ∧ (attached b → in_levels b = abs_orders b).
Proof.
  intros (q & fs & Hw). split; [|apply in_levels_attached].
  destruct (core_seen b q (wf_core _ _ _ Hw)) as (m & Hc & Hatt & <-).
  exact (best_bid_offer_abs (set_order_map m b) q Hc Hatt).
Qed.

(** C8. Levels.  On any well-formed book the bid level at index [i] of the window shows exactly
    the bids at the reference price minus [i] among the live orders that are in a level:
    their total shares, which never wrap the 64-bit accumulator, and their number;
    likewise for asks.  When no recentring has left an order without a level, these are
    all the live orders at that price. *)
Theorem levels_correct b i :
  wf b → 0 ≤ i < kLevels →
  (∃ lb la, bid_level b i = Some lb ∧ ask_level b i = Some la ∧
    total_qty lb = depth (in_levels b) ch_B (bid_ref b - i) ∧ 0 ≤ total_qty lb < 2 ^ 64 ∧
    order_count lb = Z.of_nat (length (side_orders (in_levels b) ch_B (bid_ref b - i))) ∧
    total_qty la = depth (in_levels b) ch_S (ask_ref b + i) ∧ 0 ≤ total_qty la < 2 ^ 64 ∧
    order_count la = Z.of_nat (length (side_orders (in_levels b) ch_S (ask_ref b + i)))) ∧
  (attached b → in_levels b = abs_orders b).
Proof.
  intros (q & fs & Hw) Hi. split; [|apply in_levels_attached].
  destruct (core_seen b q (wf_core _ _ _ Hw)) as (m & Hc & Hatt & <-).
  exact (levels_attached (set_order_map m b) q i Hc Hatt Hi).
Qed.

(** Best indices.  On every well-formed book, live orders in levels or not, the
    best index of a side is its lowest non-empty level, or -1 when all are empty. *)
Theorem best_idx_lowest b sd :
  wf b →
  (best sd b = -1 ∧ ∀ i, level_empty (levels sd b !!! i) = true) ∨
  (0 ≤ best sd b < kLevels ∧ level_empty (levels sd b !!! best sd b) = false ∧
   ∀ i, i < best sd b → level_empty (levels sd b !!! i) = true).
Proof.
  intros (q & fs & Hw). pose proof (ss_side _ _ (co_sides _ _ (wf_core _ _ _ Hw)) sd) as Hs.
  assert (He : ∀ i, level_empty (levels sd b !!! i) = bool_decide (q sd i = []))
    by (intros i; apply (level_empty_rep (heap_of b)), (sk_rep _ _ _ _ _ _ Hs)).
  destruct (sk_best _ _ _ _ _ _ Hs) as [[-> Hall]|(Hpos & Hne & Hlow)].
  - left. split; [done|]. intros i. by rewrite He, bool_decide_eq_true_2.
  - right. split_and!; [done| | |].
    + destruct (q sd (best sd b)) as [|a l] eqn:Hq; [done|].
      eapply (sk_range _ _ _ _ _ _ Hs _ a). rewrite Hq. by left.
    + by rewrite He, bool_decide_eq_false_2.
    + intros i Hi. by rewrite He, bool_decide_eq_true_2 by auto.
Qed.

(** Halt.  The halt event empties the book whatever its state: no live order, no
    best price, every level empty, market closed, and the whole pool free again
    (an add that is admissible for an empty book is accepted after reopening). *)
Theorem halt_resets b it m :
  wf b → sys_event_code m = ch_H →
  ∃ b', on_system_event it b m = Ok b' ∧ wf b' ∧ is_open b' = false ∧
    book_order_count b' = 0 ∧ best_bid_offer b' = Ok bbo_default ∧
    pool_ok (pool b') (seq 0 (pool_capacity (pool b))).
Proof.
  intros (q & fs & Hw) Hm.
  destruct (halt_ok b q fs it m Hw Hm) as (b' & q' & E & Hw' & Habs & Ho & Hcap & Hatt & _).
  exists b'. split_and!; [done|by do 2 eexists|done| | |].
  - unfold book_order_count. rewrite <-(abs_orders_size b' q'), Habs by apply Hw'. done.
  - rewrite (best_bid_offer_abs b' q'), Habs by (apply Hw' || done). done.
  - rewrite <-Hcap in *. apply (wf_pool _ _ _ Hw').
Qed.

End Theorems.

(** ** Instances on the sample session *)
Lemma dispatch_refines_witness :
  ∃ b', @dispatch debug_build iter_backward sample_book (msg_add 7 ch_B 10 1499000) = Ok b' ∧
    simulates 8 b' (spec_step sample_state (msg_add 7 ch_B 10 1499000)).
Proof.
  apply (@dispatch_refines debug_build 8 sample_book sample_state iter_backward).
  - exact sample_simulates.
  - vm_compute. reflexivity.
  - intros _ sd Hsd. right. left. assert (sd = Bid) as -> by (destruct sd; [done|by vm_compute in Hsd]).
    vm_compute. reflexivity.
Defined.

Lemma feed_refines_witness :
  ∃ b0 b, OrderBook_new 8 = Ok b0 ∧ @run_book release_build b0 (with_iters sample_session) = Ok b ∧
    best_bid_offer b = Ok (mkBBO 1500050 20 1500300 40) ∧ book_order_count b = 4.
Proof.
  destruct (@feed_refines release_build 8 1500000 1500000 (with_iters sample_session))
    as (b0 & b & E0 & E & Hbbo & Hcnt & _); [lia|lia|vm_compute; reflexivity|].
  exists b0, b. split; [exact E0|]. split; [exact E|]. split.
  - rewrite Hbbo. vm_compute. reflexivity.
  - rewrite Hcnt. vm_compute. reflexivity.
Defined.

Lemma best_bid_offer_correct_witness :
  best_bid_offer sample_book = Ok (spec_bbo (abs_orders sample_book)) ∧
  spec_bbo (abs_orders sample_book) = mkBBO 1500050 20 1500300 40.
Proof.
  split.
  - destruct (best_bid_offer_correct sample_book (si_wf _ _ _ sample_simulates)) as [E Hl].
    rewrite <-(Hl (si_attached _ _ _ sample_simulates)). exact E.
  - vm_compute. reflexivity.
Defined.

Lemma levels_correct_witness :
  ∃ lb la, bid_level sample_book 100 = Some lb ∧ ask_level sample_book 100 = Some la ∧
    total_qty lb = 130 ∧ order_count lb = 2 ∧ total_qty la = 40.
Proof.
  destruct (levels_correct sample_book 100 (si_wf _ _ _ sample_simulates))
    as [(lb & la & Eb & Ea & Hb & _ & Hc & Ha & _) _]; [split; [discriminate|reflexivity]|].
  exists lb, la. rewrite Hb, Hc, Ha. vm_compute. auto.
Defined.

Lemma best_idx_lowest_witness :
  0 ≤ best Bid sample_book < kLevels ∧ ∀ i, i < best Bid sample_book →
    level_empty (bid_levels sample_book !!! i) = true.
Proof.
  destruct (best_idx_lowest sample_book Bid (si_wf _ _ _ sample_simulates)) as [[E _]|(H1 & _ & H2)].
  - exfalso. vm_compute in E. discriminate E.
  - exact (conj H1 H2).
Defined.

Lemma halt_resets_witness :
  ∃ b', on_system_event iter_forward sample_book (mkSystemEvent (sample_header ch_S) ch_H) = Ok b' ∧
    book_order_count b' = 0.
Proof.
  destruct (halt_resets sample_book iter_forward (mkSystemEvent (sample_header ch_S) ch_H)
    (si_wf _ _ _ sample_simulates) eq_refl) as (b' & E & _ & _ & Hc & _).
  exists b'. exact (conj E Hc).
Defined.

