(* ===== verification/BookView.v ===== *)
(** * What a client of the book relies on

    The drivers, the tests and the benchmarks use the book through its messages and its
    queries.  [BookView R ok]: as long as the messages satisfy [ok], the book answers like
    the abstract book related to it by [R].  Its instance [tracks] is a well-formed book
    whose orders keep to a band of prices per side, fed with admissible messages. *)

From S2P Require Import Prelude Bytes Messages Parser Order PriceLevel OrderBook BookInv BookWf.
From S2P Require Import BookHandlers Dispatch Samples BookSpec Depth BookTheorems.

Class BookView `{BuildMode} (R : OrderBook → SBook → Prop) (ok : SBook → ParsedMessage → bool) := {
  view_step it b s m : R b s → ok s m = true → ∃ b', dispatch it b m = Ok b' ∧ R b' (spec_step s m);
  view_bbo b s : R b s → best_bid_offer b = Ok (spec_bbo (s_orders s));
  view_count b s : R b s → book_order_count b = Z.of_nat (size (s_orders s));
  view_has b s ref : R b s → has_order b ref = bool_decide (is_Some (s_orders s !! ref));
  view_open b s : R b s → is_open b = s_open s;
}.

(** A message the book is meant for, at its price and with its references. *)
Definition fits (cap : nat) (lo_bid lo_ask : Z) (s : SBook) (m : ParsedMessage) : bool :=
  admissible cap s (command_of m) && banded lo_bid lo_ask s (command_of m).

Record tracks (cap : nat) (lo_bid lo_ask : Z) (b : OrderBook) (s : SBook) : Prop := {
  tr_sim : simulates cap b s;
  tr_band : in_bands lo_bid lo_ask b s;
}.

Section View.
Context `{BuildMode}.
Context {cap : nat} {lo_bid lo_ask : Z}.

Abbreviation tracks := (tracks cap lo_bid lo_ask).
Abbreviation fits := (fits cap lo_bid lo_ask).

Lemma tracks_new b : OrderBook_new cap = Ok b → Z.of_nat cap < 2 ^ 32 → tracks b empty_sbook.
Proof.
  intros E Hcap. destruct (new_book_simulates cap b E Hcap) as [Hs Hr]. split; [done|].
  intros sd. split; [by left|]. intros ref o Hl. simpl in Hl. by rewrite lookup_empty in Hl.
Qed.

Lemma tracks_step it b s m :
  tracks b s → fits s m = true → ∃ b', dispatch it b m = Ok b' ∧ tracks b' (spec_step s m).
Proof.
  intros [Hs Hb] [Hadm Hband]%andb_true_iff.
  destruct (refines_dispatch cap b s it m Hs Hadm) as (b' & E & Hs' & Hr); [by eapply banded_lossless|].
  exists b'. split; [done|]. split; [done|]. by eapply in_bands_step.
Qed.

Lemma tracks_bbo b s : tracks b s → best_bid_offer b = Ok (spec_bbo (s_orders s)).
Proof.
  intros [Hs _]. destruct (si_wf _ _ _ Hs) as (q & fs & Hw). rewrite <-(si_orders _ _ _ Hs).
  eapply best_bid_offer_abs; [apply Hw|apply Hs].
Qed.

Lemma tracks_count b s : tracks b s → book_order_count b = Z.of_nat (size (s_orders s)).
Proof.
  intros [Hs _]. destruct (si_wf _ _ _ Hs) as (q & fs & Hw). unfold book_order_count.
  by rewrite <-(si_orders _ _ _ Hs), (abs_orders_size b q) by apply Hw.
Qed.

Lemma tracks_has b s ref : tracks b s → has_order b ref = bool_decide (is_Some (s_orders s !! ref)).
Proof.
  intros [Hs _]. destruct (si_wf _ _ _ Hs) as (q & fs & Hw). rewrite <-(si_orders _ _ _ Hs).
  unfold has_order. apply bool_decide_ext. rewrite <-!not_eq_None_Some.
  apply not_iff_compat. symmetry. apply (abs_orders_None b q), Hw.
Qed.

Lemma tracks_open b s : tracks b s → is_open b = s_open s.
Proof. intros [Hs _]. apply Hs. Qed.

#[export] Instance tracks_view : BookView tracks fits :=
  {| view_step := tracks_step; view_bbo := tracks_bbo; view_count := tracks_count;
     view_has := tracks_has; view_open := tracks_open |}.

End View.

#[export] Hint Resolve tracks_bbo tracks_count tracks_has tracks_open : book.
