(* ===== verification/BookClient.v ===== *)
(** * Programs that use a book

    [prog]: a sequential program that sends messages to one book, queries it, numbers its
    orders, draws random numbers and states expectations.  [BookApi] is what the program
    needs of a book; the order book of [OrderBook] provides it, and so does the abstract
    book of [BookSpec] as long as the messages keep to a contract.  [run_refines]: what a
    program does on the abstract book it does on any book related to it by a [BookView]. *)

From S2P Require Import Prelude Bytes Messages Parser Order PriceLevel OrderBook BookInv BookWf.
From S2P Require Import BookHandlers Dispatch Samples BookSpec Depth BookTheorems BookView.

(** ** Books *)
Class BookApi (B : Type) := {
  book_send : IterOrder → B → ParsedMessage → outcome B;
  book_bbo : B → outcome BBO;
  book_count : B → Z;
  book_has : B → Z → bool;
  book_is_open : B → bool;
}.

(** [book_send it b (MAddOrder m)] is [on_add it b m], and so on for each handler. *)
#[export] Instance OrderBook_api `{BuildMode} : BookApi OrderBook :=
  {| book_send := dispatch; book_bbo := best_bid_offer; book_count := book_order_count;
     book_has := has_order; book_is_open := is_open |}.

(** The abstract book under the contract [ok]; a message outside it is refused. *)
Definition contract_api (ok : SBook → ParsedMessage → bool) : BookApi SBook :=
  {| book_send _ s m := if ok s m then Ok (spec_step s m) else Fault AssertFailed;
     book_bbo s := Ok (spec_bbo (s_orders s)); book_count s := Z.of_nat (size (s_orders s));
     book_has s ref := bool_decide (is_Some (s_orders s !! ref)); book_is_open := s_open |}.

(** ** Randomness: the [n]-th draw, from a uniform distribution over [lo] to [hi].
    The values are unspecified but for their range. *)
Record Rng := mkRng {
  uniform : nat → Z → Z → Z;
  uniform_range : ∀ n lo hi, lo ≤ hi → lo ≤ uniform n lo hi ≤ hi;
}.

(** Two sequences of random numbers: always the largest, always the smallest. *)
Definition rng_max : Rng := mkRng (λ _ lo hi, hi) (λ _ lo hi Hle, conj Hle (Z.le_refl hi)).
Definition rng_min : Rng := mkRng (λ _ lo hi, lo) (λ _ lo hi Hle, conj (Z.le_refl lo) Hle).

(** ** Programs *)
Inductive call :=
| Send (m : ParsedMessage)
| BestBidOffer
| OrderCount
| HasOrder (ref : Z)
| IsOpen
| NextRef                (* [next_ref_++] *)
| LastRef                (* [next_ref_ - 1] *)
| Draw (lo hi : Z)
| Expect (ok : bool).    (* an EXPECT of the test framework: recorded, not fatal *)

Definition result (c : call) : Type :=
  match c with
  | Send _ | Expect _ => unit
  | BestBidOffer => BBO
  | OrderCount | NextRef | LastRef | Draw _ _ => Z
  | HasOrder _ | IsOpen => bool
  end.

Inductive prog (A : Type) :=
| Ret (a : A)
| Call (c : call) (k : result c → prog A).
Arguments Ret {A} a.
Arguments Call {A} c k.

Fixpoint prog_bind {A B} (f : A → prog B) (p : prog A) : prog B :=
  match p with
  | Ret a => f a
  | Call c k => Call c (λ r, prog_bind f (k r))
  end.

#[export] Instance prog_ret : MRet prog := @Ret.
#[export] Instance prog_mbind : MBind prog := @prog_bind.

Definition do_call (c : call) : prog (result c) := Call c Ret.

(** [for (auto x : l) f(x);] *)
Fixpoint for_each {B} (l : list B) (f : B → prog unit) : prog unit :=
  match l with [] => Ret () | x :: l => f x;; for_each l f end.

(** ** Running a program on a book *)

(** The state of a program: its book, the next order reference, how many numbers were
    drawn, how many messages were sent, and whether every expectation held. *)
Record client (B : Type) := mkClient {
  cl_book : B;
  next_ref_ : Z;
  draws : nat;
  sends : nat;
  passed : bool;
}.
Arguments mkClient {B}.
Arguments cl_book {B}.
Arguments next_ref_ {B}.
Arguments draws {B}.
Arguments sends {B}.
Arguments passed {B}.

Section Run.
(** The iteration order of the hash map at each message, and the random draws. *)
Context {B : Type} `{BookApi B} (it : nat → IterOrder) (rng : Rng).

Definition handle (c : call) (t : client B) : outcome (result c * client B) :=
  match c with
  | Send m =>
      b ← book_send (it (sends t)) (cl_book t) m;
      Ok ((), mkClient b (next_ref_ t) (draws t) (S (sends t)) (passed t))
  | BestBidOffer => q ← book_bbo (cl_book t); Ok (q, t)
  | OrderCount => Ok (book_count (cl_book t), t)
  | HasOrder ref => Ok (book_has (cl_book t) ref, t)
  | IsOpen => Ok (book_is_open (cl_book t), t)
  | NextRef =>
      Ok (next_ref_ t, mkClient (cl_book t) (u64 (next_ref_ t + 1)) (draws t) (sends t) (passed t))
  | LastRef => Ok (u64 (next_ref_ t - 1), t)
  | Draw lo hi =>
      Ok (uniform rng (draws t) lo hi,
          mkClient (cl_book t) (next_ref_ t) (S (draws t)) (sends t) (passed t))
  | Expect ok =>
      Ok ((), mkClient (cl_book t) (next_ref_ t) (draws t) (sends t) (passed t && ok))
  end.

Fixpoint run {A} (p : prog A) (t : client B) : outcome (A * client B) :=
  match p with
  | Ret a => Ok (a, t)
  | Call c k => '(r, t) ← handle c t; run (k r) t
  end.

Lemma run_bind {A C} (p : prog A) (f : A → prog C) t :
  run (p ≫= f) t = '(a, t) ← run p t; run (f a) t.
Proof.
  revert t. induction p as [a|c k IH]; intros t; [done|]. simpl.
  destruct (handle c t) as [[r t']|]; [apply IH|done].
Qed.

Lemma run_do_call c t : run (do_call c) t = handle c t.
Proof. simpl. by destruct (handle c t) as [[? ?]|]. Qed.

End Run.

(** ** Refinement *)
Section Refine.
Context `{BuildMode} {R : OrderBook → SBook → Prop} {ok : SBook → ParsedMessage → bool} `{!BookView R ok}.
Context (it : nat → IterOrder) (rng : Rng).

(** Two runs of a program at the same point. *)
Definition same_point (t : client OrderBook) (t' : client SBook) : Prop :=
  R (cl_book t) (cl_book t') ∧ next_ref_ t = next_ref_ t' ∧ draws t = draws t' ∧
  sends t = sends t' ∧ passed t = passed t'.

Lemma handle_refines c t t' r u' :
  same_point t t' → @handle _ (contract_api ok) it rng c t' = Ok (r, u') →
  ∃ u, handle it rng c t = Ok (r, u) ∧ same_point u u'.
Proof.
  destruct t as [b n d s p], t' as [b' n' d' s' p']. intros (HR & En & Ed & Es & Ep) E. simpl in *. subst.
  destruct c; simpl in *.
  - destruct (ok b' m) eqn:Hok; [|done]. simpl in E. injection E as <- <-.
    destruct (view_step (it s') b b' m HR Hok) as (b1 & -> & HR1). simpl.
    eexists. split; [done|]. by split.
  - rewrite (view_bbo _ _ HR). injection E as <- <-. eexists. split; [done|]. by split.
  - rewrite (view_count _ _ HR). injection E as <- <-. eexists. split; [done|]. by split.
  - rewrite (view_has _ _ _ HR). injection E as <- <-. eexists. split; [done|]. by split.
  - rewrite (view_open _ _ HR). injection E as <- <-. eexists. split; [done|]. by split.
  - injection E as <- <-. eexists. split; [done|]. by split.
  - injection E as <- <-. eexists. split; [done|]. by split.
  - injection E as <- <-. eexists. split; [done|]. by split.
  - injection E as <- <-. eexists. split; [done|]. by split.
Qed.

Lemma run_refines {A} (p : prog A) t t' a u' :
  same_point t t' → @run _ (contract_api ok) it rng A p t' = Ok (a, u') →
  ∃ u, run it rng p t = Ok (a, u) ∧ same_point u u'.
Proof.
  revert t t'. induction p as [a0|c k IH]; intros t t' Hsp E; simpl in *.
  - injection E as <- <-. by exists t.
  - destruct (handle it rng c t') as [[r t1']|] eqn:E1; [|done]. simpl in E.
    destruct (handle_refines c t t' r t1' Hsp E1) as (t1 & -> & Hsp1). simpl. by eapply IH.
Qed.

End Refine.

(** ** On a fresh book *)
Section Fresh.
Context `{BuildMode} {lo_bid lo_ask : Z} (it : nat → IterOrder) (rng : Rng).

(** A program that keeps to the contract from an empty book. *)
Lemma client_run {A} cap (p : prog A) (a : A) t u :
  (0 < cap)%nat → Z.of_nat cap < 2 ^ 32 → cl_book t = empty_sbook →
  @run _ (contract_api (fits cap lo_bid lo_ask)) it rng A p t = Ok (a, u) →
  ∃ b u', OrderBook_new cap = Ok b ∧
    run it rng p (mkClient b (next_ref_ t) (draws t) (sends t) (passed t)) = Ok (a, u') ∧
    same_point (R := tracks cap lo_bid lo_ask) u' u.
Proof.
  intros Hp Hc Ht E. destruct (new_book_ok cap Hp) as [b Eb]. exists b.
  destruct (run_refines (R := tracks cap lo_bid lo_ask) it rng p
    (mkClient b (next_ref_ t) (draws t) (sends t) (passed t)) t a u) as (u' & E' & Hu); [|done|by exists u'].
  destruct t. simpl in *. subst. split; [by apply tracks_new|done].
Qed.

(** C3. Contextual refinement.  A sequential program that sends messages, reads the best bid
    and offer, the number of orders, the presence of references and the session state,
    and branches on what it reads, cannot tell a fresh order book from the abstract one:
    if it keeps to the contract on the abstract book, then on the order book it runs
    without fault in both builds, whatever the hash map's iteration order, to the same result
    and the same expectations. *)
Theorem client_refines {A} cap (p : prog A) (a : A) u :
  (0 < cap)%nat → Z.of_nat cap < 2 ^ 32 →
  @run _ (contract_api (fits cap lo_bid lo_ask)) it rng A p (mkClient empty_sbook 1 0 0 true) = Ok (a, u) →
  ∃ b u', OrderBook_new cap = Ok b ∧ run it rng p (mkClient b 1 0 0 true) = Ok (a, u') ∧
    passed u' = passed u ∧ sends u' = sends u ∧ best_bid_offer (cl_book u') = Ok (spec_bbo (s_orders (cl_book u))).
Proof.
  intros Hp Hc E.
  destruct (client_run cap p a (mkClient empty_sbook 1 0 0 true) u Hp Hc eq_refl E) as (b & u' & Eb & E' & (HR & _ & _ & Hs & Hv)).
  exists b, u'. split_and!; try done. by eapply tracks_bbo.
Qed.

End Fresh.

(** ** Instances: two bids, the better one deleted if it shows *)
Definition sample_prog : prog Z :=
  do_call (Send (msg_system ch_O));;
  do_call (Send (msg_add 1 ch_B 100 1500000));;
  do_call (Send (msg_add 2 ch_B 50 1500100));;
  q ← do_call BestBidOffer;
  (if bid_price q =? 1500100 then do_call (Send (msg_delete 2)) else Ret ());;
  q ← do_call BestBidOffer;
  do_call (Expect (bid_qty q =? 100));;
  Ret (bid_price q).

Lemma client_refines_witness :
  ∃ b u, OrderBook_new 8 = Ok b ∧
    @run _ (@OrderBook_api debug_build) (λ _, iter_backward) rng_max _ sample_prog (mkClient b 1 0 0 true) = Ok (1500000, u) ∧
    passed u = true.
Proof.
  destruct (@client_refines debug_build 1500000 1500000 (λ _, iter_backward) rng_max Z 8 sample_prog 1500000
    (ok_or (mkClient empty_sbook 0 0 0 false)
       (snd <$> @run _ (contract_api (fits 8 1500000 1500000)) (λ _, iter_backward) rng_max Z sample_prog
                  (mkClient empty_sbook 1 0 0 true)))) as (b & u & Eb & E & Hp & _); [lia|lia|vm_compute; reflexivity|].
  exists b, u. split; [exact Eb|]. split; [exact E|]. rewrite Hp. vm_compute. reflexivity.
Defined.
