(* ===== verification/BookLimits.v ===== *)
(** * Outside the contract

    What the book does when a message breaks an assumption of [BookSpec]: a price that
    recentres its side beyond the reach of live orders, a reduction larger than the
    order, a full pool.  [ignored] collects the messages without effect. *)

From S2P Require Import Prelude Bytes Messages Parser Order PriceLevel OrderBook BookInv BookWf.
From S2P Require Import BookHandlers Dispatch Samples BookSpec Depth BookTheorems.

(** ** Definitions *)

(** A message that leaves the book as it is. *)
Definition ignored (b : OrderBook) (c : command) : bool :=
  match c with
  | CIgnore => true
  | CAdd _ _ _ _ => negb (is_open b)
  | CReduce ref _ | CDelete ref | CReplace ref _ _ _ => negb (has_order b ref)
  | COpen _ | CHalt => false
  end.

(** The fault of a method that uses an order that is in no level. *)
Definition stray_fault `{BuildMode} : fault := if ndebug then OutOfRange else AssertFailed.

(** ** Lemmas *)
Section Lemmas.
Context `{BuildMode}.

Lemma on_delete_unfold b m :
  on_delete b m =
    match order_map b !! be64 (del_order_ref_num m) with
    | None => Ok b
    | Some o => drop_body b (be64 (del_order_ref_num m)) o
    end.
Proof. reflexivity. Qed.

Lemma on_execute_unfold b m :
  on_execute b m = reduce_body b (be64 (exec_order_ref_num m)) (be32 (exec_executed_shares m)).
Proof. reflexivity. Qed.

Lemma on_add_unfold it b m :
  on_add it b m =
    if negb (is_open b) then Ok b
    else add_body it b (be64 (add_order_ref_num m)) (be32 (add_shares m)) (be32 (add_price m))
           (add_buy_sell m).
Proof. reflexivity. Qed.

(** The orders an add recentres away. *)
Lemma add_body_strands b q a fs it ref sh pr sd ref0 c oc :
  book_wf b q (a :: fs) → order_map b !! ref = None → 0 ≤ sh < 2 ^ 32 → 0 < pr < 2 ^ 31 →
  refp sd b ≠ 0 → in_range (price_idx sd (refp sd b) pr) = false →
  order_map b !! ref0 = Some c → heap_of b !! c = Some oc → side oc = side_char sd →
  in_range (price_idx sd pr (price oc)) = false →
  ∃ b', add_body it b ref sh pr (side_char sd) = Ok b' ∧ stranded b' ref0 ∧ refp sd b' = pr.
Proof.
  intros Hw Hnew Hsh Hpr Hr0 Hir Hm Hoc Hsd Hout. pose proof (free_head_fresh _ _ _ _ Hw) as Hfresh.
  destruct (make_pending b q a fs ref sh pr sd Hw Hsh Hpr) as (p & E & Hp & Hs & Hlt & Hc & Hpe).
  assert (Hrp : refp sd (set_pool p b) = refp sd b) by (by destruct sd).
  destruct (insert_order_recentre (set_pool p b) q it a _ sd Hc Hpe)
    as (b' & b1 & E1 & Hin & Hr & _ & Hrc & Hlv); [done|by rewrite Hrp|by rewrite Hrp|].
  assert (Hca : c ≠ a) by (intros ->; by apply (Hfresh ref0)).
  assert (Hoc' : heap_of (set_pool p b) !! c = Some oc).
  { unfold heap_of. simpl. by rewrite Hs, list_lookup_insert_ne. }
  assert (Hcl : c ∈ (entries it (order_map (set_pool p b))).*2) by (apply entries_snd; eauto).
  destruct (heap_of b1 !! c) as [oc1|] eqn:Hoc1.
  2:{ pose proof (rc_data _ _ _ _ _ _ Hrc) as Hd. apply (f_equal (lookup c)) in Hd.
      by rewrite !list_lookup_fmap, Hoc', Hoc1 in Hd. }
  pose proof (rc_idx _ _ _ _ _ _ Hrc c oc oc1 Hcl Hoc' Hsd Hoc1) as Hidx. simpl in Hidx.
  rewrite Hout in Hidx. destruct (Hlv c oc1 Hca Hoc1) as (oc2 & Hoc2 & Hidx2).
  unfold add_body. rewrite E, bind_ok. simpl. rewrite E1, bind_ok. eexists. split_and!; [done| |by destruct sd].
  exists c, oc2. simpl. rewrite (in_map _ _ _ _ _ Hin). split_and!; [|done|congruence].
  rewrite lookup_insert_ne; [done|]. intros <-. congruence.
Qed.

Lemma wf_room_free b :
  wf b → (size (order_map b) < pool_capacity (pool b))%nat → ∃ q a fs, book_wf b q (a :: fs).
Proof.
  intros (q & fs & Hw) Hlt. pose proof (wf_count _ _ _ Hw) as Hn. unfold heap_of, pool_capacity in *.
  destruct fs as [|a fs]; [simpl in Hn; lia|eauto].
Qed.

Lemma live_in_level b q ref a o :
  core b q → order_map b !! ref = Some a → heap_of b !! a = Some o → level_idx o ≠ -1 →
  ∃ sd, side o = side_char sd ∧ 0 ≤ level_idx o < kLevels ∧ level_idx o = price_idx sd (refp sd b) (price o).
Proof.
  intros Hc Hm Ha Hi. destruct (co_live _ _ Hc _ _ Hm) as (o' & sd & Ho & _ & Hs & _ & Hl).
  assert (o' = o) as -> by congruence. destruct Hl as [?|Hq]; [done|]. exists sd. split; [done|].
  pose proof (ss_side _ _ (co_sides _ _ Hc) sd) as Hss. split; [eapply sk_range; [exact Hss|exact Hq]|].
  destruct (sk_placed _ _ _ _ _ _ Hss _ _ Hq) as (o' & Ho' & _ & _ & Hp). congruence.
Qed.

(** The three messages that reduce an order. *)
Lemma reduce_command it b m ref n :
  command_of m = CReduce ref n → dispatch it b m = reduce_body b ref n ∧ 0 ≤ n < 2 ^ 32.
Proof.
  destruct m as [|m|m|m|m|m|m|m|m|m]; simpl; try discriminate.
  { by repeat case_match. }
  all: intros [= <- <-]; split; [done|apply be32_bound].
Qed.

(** A reduction beyond the shares of an order that is in a level. *)
Lemma reduce_body_too_much b q ref a oc n :
  core b q → order_map b !! ref = Some a → heap_of b !! a = Some oc → level_idx oc ≠ -1 →
  shares oc < n → n < 2 ^ 32 →
  if ndebug then
    ∃ b' sd, reduce_body b ref n = Ok b' ∧
      abs_orders b' = <[ref := mkSOrder (side oc) (price oc) (2 ^ 32 + shares oc - n)]> (abs_orders b) ∧
      side oc = side_char sd ∧
      let i := price_idx sd (refp sd b) (price oc) in
      total_qty (levels sd b' !!! i) = u64 (total_qty (levels sd b !!! i) - n)
  else reduce_body b ref n = Fault AssertFailed.
Proof.
  intros Hc Hm Ha Hidx Hlt Hn. destruct (live_in_level b q ref a oc Hc Hm Ha Hidx) as (sd & Hsd & Hi & Hp).
  pose proof (ho_shares _ (ss_heap _ _ (co_sides _ _ Hc)) a oc Ha) as Hsh.
  unfold reduce_body. rewrite Hm, (book_reduce_unfold sd b a oc n Ha Hsd Hi).
  rewrite (reduce_shares_too_much _ _ _ _ _ Ha Hlt). destruct ndebug; [|done]. simpl.
  assert (E : u32 (shares oc - n) = 2 ^ 32 + shares oc - n).
  { unfold u32. rewrite <-(Z.mod_add _ 1) by lia. rewrite Z.mod_small; lia. }
  rewrite E. set (b1 := set_levels _ _ _).
  assert (Hh : heap_of b1 = <[a := set_shares (2 ^ 32 + shares oc - n) oc]> (heap_of b))
    by (unfold b1; by destruct sd).
  rewrite (deref_ok _ _ (set_shares (2 ^ 32 + shares oc - n) oc)).
  2:{ rewrite Hh. apply list_lookup_insert_eq. by eapply lookup_lt_Some. }
  simpl. rewrite (proj2 (Z.eqb_neq _ 0)) by lia. exists b1, sd. split_and!; [done| |done|].
  - eapply abs_orders_reduce; try done. unfold b1. by destruct sd.
  - rewrite <-Hp. unfold b1. destruct sd; simpl; by rewrite lookup_total_insert_eq.
Qed.

End Lemmas.

(** ** Theorems *)
Section Limits.
Context `{BuildMode}.

(** Adds never fail on a well-formed book with room, and keep it
    well-formed with the new order live and in a level, whether or not its price
    recentres the side. *)
Theorem on_add_safe it b m :
  wf b → is_open b = true → fresh_ref (abs_orders b) (be64 (add_order_ref_num m)) = true →
  (add_buy_sell m =? ch_B) || (add_buy_sell m =? ch_S) = true →
  price_ok (be32 (add_price m)) = true → (size (order_map b) < pool_capacity (pool b))%nat →
  ∃ b', on_add it b m = Ok b' ∧ wf b' ∧
    abs_orders b' = <[be64 (add_order_ref_num m) :=
      mkSOrder (add_buy_sell m) (be32 (add_price m)) (be32 (add_shares m))]> (abs_orders b) ∧
    ¬ stranded b' (be64 (add_order_ref_num m)).
Proof.
  intros Hw Ho Hfr [sd Hside]%side_of_char Hpr%price_ok_true Hroom.
  destruct (wf_room_free b Hw Hroom) as (q & a & fs & Hbw).
  apply bool_decide_eq_true, (abs_orders_None b q) in Hfr; [|apply Hbw].
  destruct (add_body_ok b q a fs it _ (be32 (add_shares m)) _ sd Hbw Hfr (be32_bound _) Hpr)
    as (b' & q' & E & Hw' & Habs & _ & _ & _ & _ & Hm & Hin).
  exists b'. rewrite on_add_unfold, Ho, Hside. split_and!; [done|by do 2 eexists|done|].
  intros (c & o & Hm' & Hc & Hi). rewrite Hm in Hm'. injection Hm' as <-. by apply (Hin o).
Qed.

(** C14. Recentring strands orders.  An add whose price is outside the window succeeds,
    and every live order of that side that the window around the new price does
    not reach stays in the map (so [has_order] still reports it) but is in no
    level: deleting it then fails, with an assertion in a debug build and an
    out-of-range array access in a release build. *)
Theorem recentre_strands it b m ref0 sd o0 d :
  wf b → is_open b = true → fresh_ref (abs_orders b) (be64 (add_order_ref_num m)) = true →
  add_buy_sell m = side_char sd → price_ok (be32 (add_price m)) = true →
  (size (order_map b) < pool_capacity (pool b))%nat →
  refp sd b ≠ 0 → in_range (price_idx sd (refp sd b) (be32 (add_price m))) = false →
  abs_orders b !! ref0 = Some o0 → s_side o0 = side_char sd →
  in_range (price_idx sd (be32 (add_price m)) (s_price o0)) = false →
  be64 (del_order_ref_num d) = ref0 →
  ∃ b', on_add it b m = Ok b' ∧ has_order b' ref0 = true ∧ stranded b' ref0 ∧
    on_delete b' d = Fault stray_fault.
Proof.
  intros Hw Ho Hfr Hside Hpr%price_ok_true Hroom Hr0 Hir Habs Hs0 Hout <-.
  destruct (wf_room_free b Hw Hroom) as (q & a & fs & Hbw).
  apply bool_decide_eq_true, (abs_orders_None b q) in Hfr; [|apply Hbw].
  apply abs_orders_lookup in Habs as (c & oc & Hm & Hoc & ->).
  destruct (add_body_strands b q a fs it _ (be32 (add_shares m)) _ sd _ c oc Hbw Hfr (be32_bound _)
              Hpr Hr0 Hir Hm Hoc Hs0 Hout) as (b' & E & Hst & _).
  exists b'. rewrite on_add_unfold, Ho, Hside. split; [done|].
  pose proof Hst as (c' & o' & Hm' & Hc' & Hi). split_and!; [|done|].
  - apply bool_decide_eq_true. eauto.
  - rewrite on_delete_unfold, Hm'. unfold drop_body. by rewrite (remove_detached _ _ _ Hc' Hi).
Qed.

(** C40. A reduction too large.  Take a well-formed book and an execution, with or without a
    price, or a cancel, of more shares than a live order has.  If the order is in a level, a
    debug build stops at an assertion; a release build lets the order's shares wrap modulo
    2^32 and keeps it live, and takes the full quantity off its level's total, modulo 2^64.
    If a recentring has left it without a level, the message is a fault in both builds. *)
Theorem reduction_too_much it b m ref n o :
  wf b → command_of m = CReduce ref n → abs_orders b !! ref = Some o → s_shares o < n →
  if negb (has_level b ref) then dispatch it b m = Fault (if ndebug then OutOfRange else AssertFailed)
  else if ndebug then
    ∃ b' sd, dispatch it b m = Ok b' ∧
      abs_orders b' = <[ref := mkSOrder (s_side o) (s_price o) (2 ^ 32 + s_shares o - n)]> (abs_orders b) ∧
      s_side o = side_char sd ∧
      let i := price_idx sd (refp sd b) (s_price o) in
      total_qty (levels sd b' !!! i) = u64 (total_qty (levels sd b !!! i) - n)
  else dispatch it b m = Fault AssertFailed.
Proof.
  intros (q & fs & Hw) Hcmd Habs Hlt. pose proof (wf_core _ _ _ Hw) as Hc.
  destruct (reduce_command it b m ref n Hcmd) as [-> Hn].
  apply abs_orders_lookup in Habs as (a & oc & Hm & Ha & ->). simpl in *.
  destruct (has_level b ref) eqn:Hl; simpl.
  - apply has_level_stranded in Hl.
    pose proof (reduce_body_too_much b q ref a oc n Hc Hm Ha (not_stranded_idx b ref a oc Hm Ha Hl) Hlt (proj2 Hn)) as Hr.
    by destruct ndebug.
  - unfold has_level in Hl. rewrite Hm in Hl. simpl in Hl. rewrite Ha in Hl.
    apply bool_decide_eq_false, dec_stable in Hl. injection Hl as Hi.
    unfold reduce_body. by rewrite Hm, (reduce_detached _ _ _ _ Ha Hi).
Qed.

(** When every slot of the pool holds a live order, an add fails, and nothing
    else is tried: a null pointer is used in a release build, an assertion fails in a
    debug build. *)
Theorem on_add_exhausted it b m :
  wf b → is_open b = true → size (order_map b) = pool_capacity (pool b) →
  on_add it b m = Fault (if ndebug then NullDeref else AssertFailed).
Proof.
  intros (q & fs & Hw) Ho Hfull. rewrite on_add_unfold, Ho. simpl.
  pose proof (wf_count _ _ _ Hw) as Hn. unfold heap_of, pool_capacity in *.
  destruct fs as [|a fs]; [|simpl in Hn; lia]. by eapply add_body_exhausted.
Qed.

(** Messages for unknown references, adds while the market is closed, trades and
    other messages without effect return the very same book, on any state. *)
Theorem dispatch_ignored it b m : ignored b (command_of m) = true → dispatch it b m = Ok b.
Proof.
  assert (Hno : ∀ r, negb (has_order b r) = true → order_map b !! r = None).
  { intros r Hr%negb_true_iff%bool_decide_eq_false. by apply eq_None_not_Some. }
  destruct m as [|m|m|m|m|m|m|m|m|m]; simpl; try done.
  - unfold on_system_event.
    destruct (sys_event_code m =? ch_O), (sys_event_code m =? ch_C), (sys_event_code m =? ch_H); done.
  - rewrite on_add_unfold. by intros ->.
  - unfold on_add_mpid. by intros ->.
  - intros Hm%Hno. unfold on_execute. by rewrite Hm.
  - intros Hm%Hno. unfold on_execute_with_price. by rewrite Hm.
  - intros Hm%Hno. unfold on_cancel. by rewrite Hm.
  - intros Hm%Hno. unfold on_delete. by rewrite Hm.
  - intros Hm%Hno. unfold on_replace. by rewrite Hm.
Qed.

End Limits.

(** The better of two bids disappears from the best bid when the second one
    recentres the side: both orders are still counted, the abstract book's best bid
    is the first. *)
Theorem wide_session_wrong_bbo (mode : BuildMode) :
  (@session mode 8 wide_session ≫= best_bid_offer) = Ok (mkBBO 1490000 50 0 0) ∧
  (book_order_count <$> @session mode 8 wide_session) = Ok 2 ∧
  spec_bbo (s_orders (spec_run empty_sbook wide_session)) = mkBBO 1500000 100 0 0.
Proof. destruct mode; vm_compute; auto. Qed.

(** ** Instances on the sample session *)
Lemma on_add_safe_witness :
  ∃ b', @on_add debug_build iter_forward sample_book (sample_add_msg 7 ch_B 10 1400000) = Ok b' ∧ wf b'.
Proof.
  destruct (@on_add_safe debug_build iter_forward sample_book (sample_add_msg 7 ch_B 10 1400000))
    as (b' & E & Hw & _); [exact (si_wf _ _ _ sample_simulates)|by_vm..|].
  exists b'. exact (conj E Hw).
Defined.

Lemma recentre_strands_witness :
  ∃ b', @on_add debug_build iter_forward sample_book (sample_add_msg 7 ch_B 10 1400000) = Ok b' ∧
    has_order b' 1 = true ∧
    @on_delete debug_build b' (sample_delete_msg 1) = Fault AssertFailed.
Proof.
  destruct (@recentre_strands debug_build iter_forward sample_book (sample_add_msg 7 ch_B 10 1400000)
    1 Bid (mkSOrder ch_B 1500000 60) (sample_delete_msg 1))
    as (b' & E & Hh & _ & Hd); [exact (si_wf _ _ _ sample_simulates)|by_vm..|].
  exists b'. exact (conj E (conj Hh Hd)).
Defined.

Lemma reduction_too_much_witness :
  @dispatch debug_build iter_forward sample_book (msg_cancel 5 41) = Fault AssertFailed ∧
  ∃ b', @dispatch release_build iter_forward sample_book (msg_cancel 5 41) = Ok b' ∧
    abs_orders b' !! 5 = Some (mkSOrder ch_S 1500300 4294967295).
Proof.
  assert (Hl : has_level sample_book 5 = true) by (vm_compute; reflexivity).
  assert (Ho : abs_orders sample_book !! 5 = Some (mkSOrder ch_S 1500300 40)) by (vm_compute; reflexivity).
  split.
  - pose proof (@reduction_too_much debug_build iter_forward sample_book (msg_cancel 5 41) 5 41
      (mkSOrder ch_S 1500300 40) (si_wf _ _ _ sample_simulates) eq_refl Ho eq_refl) as Hr.
    rewrite Hl in Hr. exact Hr.
  - pose proof (@reduction_too_much release_build iter_forward sample_book (msg_cancel 5 41) 5 41
      (mkSOrder ch_S 1500300 40) (si_wf _ _ _ sample_simulates) eq_refl Ho eq_refl) as Hr.
    rewrite Hl in Hr. destruct Hr as (b' & sd & E & Habs & _). exists b'. split; [exact E|].
    rewrite Habs. vm_compute. reflexivity.
Defined.

Lemma on_add_exhausted_witness :
  @on_add release_build iter_forward (session_book 1 full_session) (sample_add_msg 2 ch_S 10 1500100) =
    Fault NullDeref.
Proof.
  apply (@on_add_exhausted release_build).
  - apply (si_wf 1 _ (spec_run empty_sbook full_session)).
    apply (session_simulates 1 1500000 1500000); [lia|lia|by_vm].
  - by_vm.
  - by_vm.
Defined.

Lemma dispatch_ignored_witness :
  @dispatch debug_build iter_forward sample_book (msg_delete 77) = Ok sample_book.
Proof. apply (@dispatch_ignored debug_build). by_vm. Defined.

