(* ===== verification/BookWide.v ===== *)
(** * The book without the price band

    [BookSpec] describes the book as long as each side's prices keep to a band.  Here is
    what it does with prices anywhere in (0, 2^31), on messages that satisfy [wide_ok] in
    the state they meet: the abstract book [WBook] also remembers each side's
    reference price and which orders are in no level ([w_lost]), and [wide_step] computes
    the effect of a command or the fault it runs into.  An add outside the window moves the
    window; the orders of its side that the new window does not reach are lost until a
    later window reaches them, and any message about a lost order is a fault. *)

From S2P Require Import Prelude Bytes Messages Parser Order PriceLevel OrderBook BookInv BookWf.
From S2P Require Import BookHandlers Dispatch Samples BookSpec Depth BookTheorems BookLimits.

(** ** The abstract book *)
Record WBook := mkWBook {
  w_orders : gmap Z SOrder;
  w_lost : gset Z;
  w_refs : bside → Z;
  w_open : bool;
}.

Definition empty_wbook : WBook := mkWBook ∅ ∅ (λ _, 0) false.

Definition side_of (c : Z) : bside := if c =? ch_B then Bid else Ask.

(** Whether an order is in a level once side [sd] is rebuilt around price [p]. *)
Definition reached (w : WBook) (sd : bside) (p ref : Z) (o : SOrder) : bool :=
  if s_side o =? side_char sd then in_range (price_idx sd p (s_price o)) else bool_decide (ref ∉ w_lost w).

Definition out_of_reach (w : WBook) (sd : bside) (p : Z) : gset Z :=
  dom (filter (λ e, reached w sd p e.1 e.2 = false) (w_orders w)).

Definition wide_insert (w : WBook) (ref c p sh : Z) : WBook :=
  let sd := side_of c in
  let r := w_refs w sd in
  let orders := <[ref := mkSOrder c p sh]> (w_orders w) in
  if r =? 0 then mkWBook orders (w_lost w) (<[sd := p]> (w_refs w)) (w_open w)
  else if in_range (price_idx sd r p) then mkWBook orders (w_lost w) (w_refs w) (w_open w)
  else mkWBook orders (out_of_reach w sd p) (<[sd := p]> (w_refs w)) (w_open w).

Definition with_orders (m : gmap Z SOrder) (w : WBook) : WBook := mkWBook m (w_lost w) (w_refs w) (w_open w).

(** The orders that are in a level: what the queries see. *)
Definition visible (w : WBook) : gmap Z SOrder := filter (λ e, e.1 ∉ w_lost w) (w_orders w).

Section Spec.
Context `{BuildMode}.

Definition exhausted_fault : fault := if ndebug then NullDeref else AssertFailed.

Definition wide_step (cap : nat) (w : WBook) (c : command) : outcome WBook :=
  match c with
  | CIgnore => Ok w
  | COpen v => Ok (mkWBook (w_orders w) (w_lost w) (w_refs w) v)
  | CHalt => Ok (mkWBook ∅ ∅ (w_refs w) false)
  | CAdd ref sd p sh =>
      if negb (w_open w) then Ok w
      else if (cap <=? size (w_orders w))%nat then Fault exhausted_fault
      else Ok (wide_insert w ref sd p sh)
  | CReduce ref n =>
      match w_orders w !! ref with
      | None => Ok w
      | Some o =>
          if decide (ref ∈ w_lost w) then Fault stray_fault
          else if s_shares o <? n then Fault AssertFailed
          else Ok (with_orders (if s_shares o =? n then delete ref (w_orders w)
                     else <[ref := mkSOrder (s_side o) (s_price o) (s_shares o - n)]> (w_orders w)) w)
      end
  | CDelete ref =>
      match w_orders w !! ref with
      | None => Ok w
      | Some _ => if decide (ref ∈ w_lost w) then Fault stray_fault
                  else Ok (with_orders (delete ref (w_orders w)) w)
      end
  | CReplace old new p sh =>
      match w_orders w !! old with
      | None => Ok w
      | Some o => if decide (old ∈ w_lost w) then Fault stray_fault
                  else Ok (wide_insert (with_orders (delete old (w_orders w)) w) new (s_side o) p sh)
      end
  end.

(** What is asked of a message: new references unused, sides B or S, prices that fit, and
    for a release build no reduction beyond the order's shares. *)
Definition wide_ok (w : WBook) (c : command) : bool :=
  match c with
  | CAdd ref sd p _ => negb (w_open w) || (fresh_ref (w_orders w) ref && ((sd =? ch_B) || (sd =? ch_S)) && price_ok p)
  | CReduce ref n => match w_orders w !! ref with None => true | Some o => negb ndebug || (n <=? s_shares o) end
  | CReplace old new p _ =>
      match w_orders w !! old with None => true | Some _ => fresh_ref (delete old (w_orders w)) new && price_ok p end
  | _ => true
  end.

Definition wide_run (cap : nat) (w : WBook) (ms : list ParsedMessage) : outcome WBook :=
  foldM (λ w m, wide_step cap w (command_of m)) ms w.

(** Every message up to the first fault fits the state it meets. *)
Fixpoint wide_feed (cap : nat) (w : WBook) (ms : list ParsedMessage) : bool :=
  match ms with
  | [] => true
  | m :: ms => wide_ok w (command_of m) &&
      match wide_step cap w (command_of m) with Ok w => wide_feed cap w ms | Fault _ => true end
  end.

End Spec.

(** ** Refinement relation *)
Record tracks_wide (cap : nat) (b : OrderBook) (w : WBook) : Prop := {
  tw_wf : wf b;
  tw_orders : abs_orders b = w_orders w;
  tw_lost : ∀ ref, ref ∈ w_lost w ↔ stranded b ref;
  tw_refs : ∀ sd, refp sd b = w_refs w sd;
  tw_open : is_open b = w_open w;
  tw_cap : pool_capacity (pool b) = cap;
}.

(** What a book shows of the abstract one: every reference of the map, but in the levels
    and in the best bid and offer only the orders that are not lost. *)
Record shows_wide (b : OrderBook) (w : WBook) : Prop := {
  sw_bbo : best_bid_offer b = Ok (spec_bbo (visible w));
  sw_count : book_order_count b = Z.of_nat (size (w_orders w));
  sw_has : ∀ ref, has_order b ref = bool_decide (is_Some (w_orders w !! ref));
  sw_open : is_open b = w_open w;
  sw_levels : ∀ sd i, 0 ≤ i < kLevels → let p := idx_price sd (w_refs w sd) i in
    total_qty (levels sd b !!! i) = depth (visible w) (side_char sd) p ∧
    order_count (levels sd b !!! i) = Z.of_nat (length (side_orders (visible w) (side_char sd) p));
}.

(** A call's result is what the specification computes, up to [tracks_wide]. *)
Definition wide_result (cap : nat) (r : outcome OrderBook) (s : outcome WBook) : Prop :=
  match s with Ok w' => ∃ b', r = Ok b' ∧ tracks_wide cap b' w' | Fault e => r = Fault e end.

(** ** Lemmas: stranded orders *)

(** What is stranded once [ref] enters the map and a queue. *)
Lemma stranded_insert b b' q' ref a r :
  core b' q' → order_map b' = <[ref := a]> (order_map b) → (∃ sd i, a ∈ q' sd i) →
  stranded b' r ↔ r ≠ ref ∧ ∃ c, order_map b !! r = Some c ∧ ∀ sd i, c ∉ q' sd i.
Proof.
  intros Hc Hm (sd & i & Hin). destruct (decide (r = ref)) as [->|Hne].
  - rewrite (stranded_queue b' q' ref a Hc) by (rewrite Hm; apply lookup_insert_eq). split; [|by intros [? _]].
    intros Hn. by destruct (Hn sd i).
  - assert (Hl : order_map b' !! r = order_map b !! r) by (rewrite Hm; by apply lookup_insert_ne, not_eq_sym). split.
    + intros Hs. destruct (stranded_live _ _ Hs) as [c Hcm]. rewrite Hl in Hcm. split; [done|]. exists c. split; [done|].
      apply (stranded_queue b' q' r c Hc); [by rewrite Hl|done].
    + intros (_ & c & Hcm & Hn). apply (stranded_queue b' q' r c Hc); [by rewrite Hl|done].
Qed.

(** A queue of the side's rebuilt window holds the live orders at its price. *)
Lemma recentred_elem b q sd r it a o :
  core b q → heap_of b !! a = Some o → a ∈ (entries it (order_map b)).*2 →
  (∃ sd' i, a ∈ q_recentred (heap_of b) q sd r (entries it (order_map b)).*2 sd' i) ↔
    if side o =? side_char sd then in_range (price_idx sd r (price o)) = true else ∃ sd' i, a ∈ q sd' i.
Proof.
  intros Hc Ha He. pose proof (co_sides _ _ Hc) as Hs.
  assert (Hq : ∀ sd' i, a ∈ q sd' i → side o = side_char sd').
  { intros sd' i Hin. destruct (sk_placed _ _ _ _ _ _ (ss_side _ _ Hs sd') i a Hin) as (o' & Ho' & Hsd & _). congruence. }
  destruct (Z.eqb_spec (side o) (side_char sd)) as [Hsd|Hsd]; split.
  - intros (sd' & i & Hin). destruct (decide (sd = sd')) as [<-|Hne].
    + rewrite q_recentred_eq in Hin. apply list_elem_of_filter in Hin as [Hat _]. unfold at_level in Hat.
      rewrite Ha, Hsd, Z.eqb_refl in Hat. apply Is_true_true, andb_true_iff in Hat as [<-%Z.eqb_eq Hr]. done.
    + rewrite q_recentred_ne in Hin by done. apply Hq in Hin. rewrite Hsd in Hin. by apply side_char_inj in Hin.
  - intros Hr. exists sd, (price_idx sd r (price o)). rewrite q_recentred_eq. apply list_elem_of_filter. split; [|done].
    unfold at_level. rewrite Ha, Hsd, !Z.eqb_refl, Hr. done.
  - intros (sd' & i & Hin). destruct (decide (sd = sd')) as [<-|Hne].
    + rewrite q_recentred_eq in Hin. apply list_elem_of_filter in Hin as [Hat _]. unfold at_level in Hat.
      by rewrite Ha, (proj2 (Z.eqb_neq _ _) Hsd) in Hat.
    + rewrite q_recentred_ne in Hin by done. eauto.
  - intros (sd' & i & Hin). exists sd', i. rewrite q_recentred_ne; [done|]. intros <-. by apply Hsd, (Hq sd i).
Qed.

Lemma q_snoc_elem (q : queues) sd i a sd' j c :
  c ≠ a → c ∈ q_set q sd i (q sd i ++ [a]) sd' j ↔ c ∈ q sd' j.
Proof.
  intros Hne. destruct (decide (sd = sd')) as [<-|Hs]; [|by rewrite q_set_ne]. rewrite q_set_eq.
  destruct (decide (i = j)) as [<-|Hij]; [rewrite fn_lookup_insert|by rewrite fn_lookup_insert_ne].
  rewrite elem_of_app, list_elem_of_singleton. tauto.
Qed.

Lemma q_snoc_new (q : queues) sd i a : a ∈ q_set q sd i (q sd i ++ [a]) sd i.
Proof. rewrite q_set_eq, fn_lookup_insert, elem_of_app, list_elem_of_singleton. by right. Qed.

Lemma out_of_reach_elem w sd p ref :
  ref ∈ out_of_reach w sd p ↔ ∃ o, w_orders w !! ref = Some o ∧ reached w sd p ref o = false.
Proof.
  unfold out_of_reach. rewrite elem_of_dom. unfold is_Some. by setoid_rewrite map_lookup_filter_Some.
Qed.

(** ** Lemmas: the bodies *)
Section Refine.
Context `{BuildMode} {cap : nat}.

Lemma side_of_side_char sd : side_of (side_char sd) = sd.
Proof. by destruct sd. Qed.

Lemma wide_live b w ref o :
  tracks_wide cap b w → w_orders w !! ref = Some o →
  ∃ a oc, order_map b !! ref = Some a ∧ heap_of b !! a = Some oc ∧ o = to_sorder oc.
Proof.
  intros Hw Hl. rewrite <-(tw_orders _ _ _ Hw) in Hl. apply abs_orders_lookup in Hl as (a & oc & Hm & Ha & ->). eauto.
Qed.

Lemma wide_absent b w ref : tracks_wide cap b w → w_orders w !! ref = None ↔ order_map b !! ref = None.
Proof.
  intros Hw. destruct (tw_wf _ _ _ Hw) as (q & fs & Hbw). rewrite <-(tw_orders _ _ _ Hw).
  apply (abs_orders_None _ q), Hbw.
Qed.

(** What an add leaves stranded, with its window kept or new, and rebuilt. *)
Lemma lost_window b q a fs it ref sd p sh b' r :
  book_wf b q (a :: fs) → order_map b !! ref = None → 0 ≤ sh < 2 ^ 32 → 0 < p < 2 ^ 31 →
  refp sd b = 0 ∨ in_range (price_idx sd (refp sd b) p) = true →
  add_body it b ref sh p (side_char sd) = Ok b' → stranded b' r ↔ stranded b r.
Proof.
  intros Hbw Hnew Hsh Hp Hwin E. pose proof (wf_core _ _ _ Hbw) as Hc. pose proof (free_head_fresh _ _ _ _ Hbw) as Hf.
  destruct (add_body_window b q a fs it ref sh p sd Hbw Hnew Hsh Hp Hwin) as (b1 & E1 & Hc' & Hm & _).
  rewrite E in E1. injection E1 as <-. rewrite (stranded_insert b b' _ ref a r Hc' Hm) by (do 2 eexists; apply q_snoc_new).
  split.
  - intros (Hne & c & Hcm & Hn). apply (stranded_queue b q r c Hc Hcm). intros sd' i Hin.
    apply (Hn sd' i). apply q_snoc_elem; [|done]. intros ->. by apply (Hf r).
  - intros Hs. destruct (stranded_live _ _ Hs) as [c Hcm]. split; [intros ->; congruence|]. exists c. split; [done|].
    intros sd' i. rewrite q_snoc_elem by (intros ->; by apply (Hf r)). by apply (stranded_queue b q r c Hc Hcm).
Qed.

Lemma lost_recentre b w q a fs it ref sd p sh b' r :
  tracks_wide cap b w → book_wf b q (a :: fs) → order_map b !! ref = None → 0 ≤ sh < 2 ^ 32 → 0 < p < 2 ^ 31 →
  refp sd b ≠ 0 → in_range (price_idx sd (refp sd b) p) = false →
  add_body it b ref sh p (side_char sd) = Ok b' → stranded b' r ↔ r ∈ out_of_reach w sd p.
Proof.
  intros Hw Hbw Hnew Hsh Hp Hr0 Hir E. pose proof (wf_core _ _ _ Hbw) as Hc. pose proof (free_head_fresh _ _ _ _ Hbw) as Hf.
  destruct (add_body_recentre b q a fs it ref sh p sd Hbw Hnew Hsh Hp Hr0 Hir) as (b1 & E1 & Hc' & Hm).
  rewrite E in E1. injection E1 as <-. rewrite (stranded_insert b b' _ ref a r Hc' Hm) by (do 2 eexists; apply q_snoc_new).
  rewrite out_of_reach_elem.
  assert (Hr : ∀ c oc, order_map b !! r = Some c → heap_of b !! c = Some oc →
    (∀ sd' i, c ∉ q_set (q_recentred (heap_of b) q sd p (entries it (order_map b)).*2) sd 0
       (q_recentred (heap_of b) q sd p (entries it (order_map b)).*2 sd 0 ++ [a]) sd' i) ↔
    reached w sd p r (to_sorder oc) = false).
  { intros c oc Hcm Hoc. assert (Hca : c ≠ a) by (intros ->; by apply (Hf r)).
    assert (Hin : c ∈ (entries it (order_map b)).*2) by (apply entries_snd; eauto).
    pose proof (recentred_elem b q sd p it c oc Hc Hoc Hin) as He. unfold reached. simpl.
    setoid_rewrite (λ sd' i, q_snoc_elem _ sd 0 a sd' i c Hca).
    destruct (side oc =? side_char sd).
    - rewrite <-not_true_iff_false, <-He. naive_solver.
    - rewrite bool_decide_eq_false, (tw_lost _ _ _ Hw), (stranded_queue b q r c Hc Hcm). naive_solver. }
  split.
  - intros (_ & c & Hcm & Hn). destruct (co_live _ _ Hc _ _ Hcm) as (oc & _ & Hoc & _).
    exists (to_sorder oc). split; [|by apply (Hr c)]. rewrite <-(tw_orders _ _ _ Hw). apply abs_orders_lookup. eauto.
  - intros (o & Ho & Hn). destruct (wide_live b w r o Hw Ho) as (c & oc & Hcm & Hoc & ->).
    split; [intros ->; congruence|]. exists c. split; [done|]. by apply (Hr c oc).
Qed.

(** Adding, where the pool has a slot. *)
Lemma wide_add b w it ref sd p sh q a fs :
  tracks_wide cap b w → book_wf b q (a :: fs) → w_orders w !! ref = None → 0 ≤ sh < 2 ^ 32 → 0 < p < 2 ^ 31 →
  ∃ b', add_body it b ref sh p (side_char sd) = Ok b' ∧ tracks_wide cap b' (wide_insert w ref (side_char sd) p sh).
Proof.
  intros Hw Hbw Hnew%(wide_absent b) Hsh Hp; [|done].
  destruct (add_body_ok b q a fs it ref sh p sd Hbw Hnew Hsh Hp)
    as (b' & q' & E & Hbw' & Habs & Hk & Hro & Hr & _ & Hm' & Hidx).
  pose proof (wf_core _ _ _ Hbw) as Hc. pose proof (free_head_fresh _ _ _ _ Hbw) as Hfresh.
  assert (Hrefs : ∀ sd', refp sd' b' = w_refs (wide_insert w ref (side_char sd) p sh) sd').
  { intros sd'. unfold wide_insert. rewrite side_of_side_char. rewrite <-(tw_refs _ _ _ Hw).
    destruct (decide (sd = sd')) as [<-|Hne].
    - rewrite Hr. destruct (refp sd b =? 0); simpl; [by rewrite fn_lookup_insert|].
      destruct (in_range _); simpl; [apply Hw|by rewrite fn_lookup_insert].
    - rewrite Hro by done. repeat case_match; simpl; rewrite ?fn_lookup_insert_ne by done; apply Hw. }
  exists b'. split; [done|]. split; [by do 2 eexists| | |exact Hrefs| |].
  - rewrite Habs, (tw_orders _ _ _ Hw). unfold wide_insert. by repeat case_match.
  - intros r. unfold wide_insert. rewrite side_of_side_char, <-(tw_refs _ _ _ Hw).
    destruct (Z.eqb_spec (refp sd b) 0) as [E0|E0]; [|destruct (in_range _) eqn:Hir]; cbn [w_lost].
    + rewrite (tw_lost _ _ _ Hw). symmetry. eapply lost_window; [done..|by left|done].
    + rewrite (tw_lost _ _ _ Hw). symmetry. eapply lost_window; [done..|by right|done].
    + symmetry. by eapply lost_recentre.
  - rewrite (kp_open _ _ Hk), (tw_open _ _ _ Hw). unfold wide_insert. by repeat case_match.
  - rewrite (kp_cap _ _ Hk). apply Hw.
Qed.

(** What stays stranded when a queued order leaves. *)
Lemma lost_drop b b' q q' ref a r :
  core b q → core b' q' → order_map b' = delete ref (order_map b) → order_map b !! ref = Some a →
  (∀ sd i, q' sd i = filter (λ x, x ≠ a) (q sd i)) → ¬ stranded b ref → stranded b' r ↔ stranded b r.
Proof.
  intros Hc Hc' Hm Ha Hq Hns. destruct (decide (r = ref)) as [->|Hne].
  - split; [|done]. intros [c Hcm]%stranded_live. by rewrite Hm, lookup_delete_eq in Hcm.
  - destruct (order_map b !! r) as [c|] eqn:Hcm.
    + rewrite (stranded_queue b q r c), (stranded_queue b' q' r c); [|done|by rewrite Hm, lookup_delete_ne|done..].
      assert (Hca : c ≠ a) by (intros ->; by apply Hne, (core_inj _ _ _ _ _ Hc Hcm Ha)).
      setoid_rewrite Hq. setoid_rewrite list_elem_of_filter. naive_solver.
    + split; intros [c' Hcm']%stranded_live; [|congruence]. rewrite Hm, lookup_delete_ne in Hcm' by done. congruence.
Qed.

Lemma lost_same b b' q r :
  core b q → core b' q → order_map b' = order_map b → stranded b' r ↔ stranded b r.
Proof.
  intros Hc Hc' Hm. destruct (order_map b !! r) as [c|] eqn:Hcm.
  - rewrite (stranded_queue b q r c), (stranded_queue b' q r c); [done|done|by rewrite Hm|done..].
  - split; intros [c' Hcm']%stranded_live; congruence.
Qed.

(** A live order that is not lost. *)
Lemma wide_kept b w q fs ref o :
  tracks_wide cap b w → book_wf b q fs → w_orders w !! ref = Some o → ref ∉ w_lost w →
  ∃ a oc sd, order_map b !! ref = Some a ∧ heap_of b !! a = Some oc ∧ level_idx oc ≠ -1 ∧ side oc = side_char sd ∧
    o = to_sorder oc.
Proof.
  intros Hw Hbw Hl Hn. destruct (wide_live b w ref o Hw Hl) as (a & oc & Hm & Ha & ->).
  destruct (co_live _ _ (wf_core _ _ _ Hbw) _ _ Hm) as (o' & sd & Ho' & _ & Hsd & _).
  assert (o' = oc) as -> by congruence. exists a, oc, sd. split_and!; [done|done| |done|done].
  apply (not_stranded_idx b ref a); [done|done|]. by rewrite <-(tw_lost _ _ _ Hw).
Qed.

Lemma wide_drop b w q fs ref a oc :
  tracks_wide cap b w → book_wf b q fs → order_map b !! ref = Some a → heap_of b !! a = Some oc → level_idx oc ≠ -1 →
  ref ∉ w_lost w →
  ∃ b' q', drop_body b ref a = Ok b' ∧ book_wf b' q' (a :: fs) ∧
    tracks_wide cap b' (with_orders (delete ref (w_orders w)) w).
Proof.
  intros Hw Hbw Hm Ha Hidx Hn.
  destruct (drop_body_ok b q fs ref a oc Hbw Hm Ha Hidx) as (b' & q' & E & Hbw' & Habs & Hk & Hr & _ & Hm' & Hq).
  exists b', q'. split; [done|]. split; [done|]. split; cbn [w_orders w_lost w_refs w_open with_orders].
  - by do 2 eexists.
  - by rewrite Habs, (tw_orders _ _ _ Hw).
  - intros r. rewrite (tw_lost _ _ _ Hw) in Hn |- *. symmetry.
    eapply lost_drop; [apply Hbw|apply Hbw'|done..].
  - intros sd. rewrite Hr. apply Hw.
  - rewrite (kp_open _ _ Hk). apply Hw.
  - rewrite (kp_cap _ _ Hk). apply Hw.
Qed.

Lemma wide_reduce b w q fs ref a oc n :
  tracks_wide cap b w → book_wf b q fs → order_map b !! ref = Some a → heap_of b !! a = Some oc → level_idx oc ≠ -1 →
  ref ∉ w_lost w → 0 ≤ n ≤ shares oc →
  ∃ b', reduce_body b ref n = Ok b' ∧
    tracks_wide cap b' (with_orders (if shares oc =? n then delete ref (w_orders w)
      else <[ref := mkSOrder (side oc) (price oc) (shares oc - n)]> (w_orders w)) w).
Proof.
  intros Hw Hbw Hm Ha Hidx Hn Hsh.
  destruct (reduce_body_ok b q fs ref a oc n Hbw Hm Ha Hidx Hsh) as (b' & q' & E & Hbw' & Habs & Hk & Hr & _ & Hm' & Hq).
  exists b'. split; [done|]. split; cbn [w_orders w_lost w_refs w_open with_orders].
  - by do 2 eexists.
  - by rewrite Habs, (tw_orders _ _ _ Hw).
  - intros r. rewrite (tw_lost _ _ _ Hw) in Hn |- *. symmetry. destruct (shares oc =? n).
    + eapply lost_drop; [apply Hbw|apply Hbw'|done..].
    + apply (lost_same b b' q); [apply Hbw| |done]. eapply core_ext; [exact Hq|apply Hbw'].
  - intros sd. rewrite Hr. apply Hw.
  - rewrite (kp_open _ _ Hk). apply Hw.
  - rewrite (kp_cap _ _ Hk). apply Hw.
Qed.

(** A message about a lost order. *)
Lemma drop_lost b w ref a :
  tracks_wide cap b w → order_map b !! ref = Some a → ref ∈ w_lost w → drop_body b ref a = Fault stray_fault.
Proof.
  intros Hw Hm (a' & o & Hm' & Ho & Hi)%(tw_lost _ _ _ Hw). assert (a' = a) as -> by congruence.
  unfold drop_body. by rewrite (remove_detached _ _ _ Ho Hi).
Qed.

Lemma reduce_lost b w ref n :
  tracks_wide cap b w → ref ∈ w_lost w → reduce_body b ref n = Fault stray_fault.
Proof.
  intros Hw (a & o & Hm & Ho & Hi)%(tw_lost _ _ _ Hw).
  unfold reduce_body. by rewrite Hm, (reduce_detached _ _ _ _ Ho Hi).
Qed.

(** ** Lemmas: handlers as commands *)

Lemma wide_refines_add b w it ref sd p sh :
  tracks_wide cap b w → 0 ≤ sh < 2 ^ 32 → wide_ok w (CAdd ref sd p sh) = true →
  wide_result cap (if negb (is_open b) then Ok b else add_body it b ref sh p sd) (wide_step cap w (CAdd ref sd p sh)).
Proof.
  intros Hw Hsh Hok. simpl in *. rewrite (tw_open _ _ _ Hw). destruct (w_open w); simpl in *; [|by exists b].
  apply andb_true_iff in Hok as [[Hfr%bool_decide_eq_true [sd' ->]%BookSpec.side_of_char]%andb_true_iff Hp%price_ok_true].
  destruct (tw_wf _ _ _ Hw) as (q & fs & Hbw). pose proof (wf_count _ _ _ Hbw) as Hcnt.
  pose proof (tw_cap _ _ _ Hw) as Hcap. unfold pool_capacity in Hcap.
  rewrite <-(tw_orders _ _ _ Hw), (abs_orders_size b q) in * by apply Hbw.
  destruct (Nat.leb_spec cap (size (order_map b))) as [Hfull|Hroom]; destruct fs as [|a fs]; simpl in Hcnt; unfold heap_of in Hcnt; try lia.
  - simpl. unfold exhausted_fault. by eapply add_body_exhausted.
  - simpl. apply (wide_add b w it ref sd' p sh q a fs); [done|done|by rewrite <-(tw_orders _ _ _ Hw)|done..].
Qed.

Lemma wide_refines_reduce b w ref n :
  tracks_wide cap b w → 0 ≤ n < 2 ^ 32 → wide_ok w (CReduce ref n) = true →
  wide_result cap (reduce_body b ref n) (wide_step cap w (CReduce ref n)).
Proof.
  intros Hw Hn Hok. simpl in *. destruct (w_orders w !! ref) as [o|] eqn:Hl.
  2: { exists b. split; [|done]. unfold reduce_body. by rewrite (proj1 (wide_absent b w ref Hw) Hl). }
  destruct (decide (ref ∈ w_lost w)) as [Hlost|Hkept]; [by apply reduce_lost with w|].
  destruct (tw_wf _ _ _ Hw) as (q & fs & Hbw).
  destruct (wide_kept b w q fs ref o Hw Hbw Hl Hkept) as (a & oc & sd & Hm & Ha & Hidx & Hsd & ->). simpl in *.
  destruct (Z.ltb_spec (shares oc) n) as [Hlt|Hle].
  - pose proof (reduce_body_too_much b q ref a oc n (wf_core _ _ _ Hbw) Hm Ha Hidx Hlt (proj2 Hn)) as Hr.
    destruct ndebug; [|exact Hr]. apply Z.leb_le in Hok. lia.
  - apply (wide_reduce b w q fs ref a oc n); (done || lia).
Qed.

Lemma wide_refines_delete b w m :
  tracks_wide cap b w → wide_result cap (on_delete b m) (wide_step cap w (CDelete (be64 (del_order_ref_num m)))).
Proof.
  intros Hw. rewrite on_delete_unfold. set (ref := be64 (del_order_ref_num m)). simpl.
  destruct (w_orders w !! ref) as [o|] eqn:Hl; [|exists b; by rewrite (proj1 (wide_absent b w ref Hw) Hl)].
  destruct (wide_live b w ref o Hw Hl) as (a & oc & Hm & _). rewrite Hm.
  destruct (decide (ref ∈ w_lost w)) as [Hlost|Hkept]; [by apply (drop_lost b w)|].
  destruct (tw_wf _ _ _ Hw) as (q & fs & Hbw).
  destruct (wide_kept b w q fs ref o Hw Hbw Hl Hkept) as (a' & oc' & sd & Hm' & Ha & Hidx & _).
  assert (a' = a) as -> by congruence.
  destruct (wide_drop b w q fs ref a oc' Hw Hbw Hm Ha Hidx Hkept) as (b' & q' & E & _ & Hw'). by exists b'.
Qed.

Lemma wide_refines_replace b w it m :
  tracks_wide cap b w → let c := command_of (MReplaceOrder m) in
  wide_ok w c = true → wide_result cap (on_replace it b m) (wide_step cap w c).
Proof.
  intros Hw. rewrite on_replace_unfold. cbn [command_of]. simpl.
  set (old := be64 (repl_original_order_ref_num m)). set (new := be64 (repl_new_order_ref_num m)).
  destruct (w_orders w !! old) as [o|] eqn:Hl; [|exists b; by rewrite (proj1 (wide_absent b w old Hw) Hl)].
  intros [Hfr%bool_decide_eq_true Hp%price_ok_true]%andb_true_iff.
  destruct (wide_live b w old o Hw Hl) as (a & oc & Hm & Ha & ->). rewrite Hm, (deref_ok _ _ _ Ha), bind_ok.
  destruct (decide (old ∈ w_lost w)) as [Hlost|Hkept]; [by rewrite (drop_lost b w) by done|].
  destruct (tw_wf _ _ _ Hw) as (q & fs & Hbw).
  destruct (wide_kept b w q fs old _ Hw Hbw Hl Hkept) as (a' & oc' & sd & Hm' & Ha' & Hidx & Hsd & _).
  assert (a' = a) as -> by congruence. assert (oc' = oc) as -> by congruence.
  destruct (wide_drop b w q fs old a oc Hw Hbw Hm Ha Hidx Hkept) as (b1 & q1 & E & Hbw1 & Hw1).
  rewrite E, bind_ok. simpl. rewrite Hsd. apply (wide_add b1 _ it new sd _ _ q1 a fs Hw1 Hbw1); [done|apply be32_bound|done].
Qed.

Lemma wide_refines_system b w it m :
  tracks_wide cap b w → wide_result cap (on_system_event it b m) (wide_step cap w (command_of (MSystemEvent m))).
Proof.
  intros Hw. destruct (tw_wf _ _ _ Hw) as (q & fs & Hbw). cbn [command_of].
  assert (Hopen : ∀ v, tracks_wide cap (set_open v b) (mkWBook (w_orders w) (w_lost w) (w_refs w) v)).
  { intros v. destruct Hw. split; try done. exists q, fs. by apply book_wf_set_open. }
  destruct (Z.eqb_spec (sys_event_code m) ch_H) as [Hc|Hc].
  - destruct (halt_ok b q fs it m Hbw Hc) as (b' & q' & E & Hbw' & Habs & Ho & Hcap & _ & Hr).
    rewrite Hc. simpl. exists b'. split; [done|]. split; simpl; [by do 2 eexists|done| | |done|].
    + intros ref. split; [set_solver|]. intros [a Hm]%stranded_live.
      pose proof (proj1 (abs_orders_None b' q' ref (wf_core _ _ _ Hbw'))) as Hn. rewrite Habs, Hm in Hn. by discriminate Hn.
    + intros sd. rewrite Hr. apply Hw.
    + rewrite Hcap. apply Hw.
  - unfold on_system_event. rewrite (proj2 (Z.eqb_neq _ _) Hc).
    destruct (sys_event_code m =? ch_O); [by exists (set_open true b)|].
    destruct (sys_event_code m =? ch_C); [by exists (set_open false b)|by exists b].
Qed.

Lemma wide_refines_dispatch b w it m :
  tracks_wide cap b w → wide_ok w (command_of m) = true →
  wide_result cap (dispatch it b m) (wide_step cap w (command_of m)).
Proof.
  intros Hw Hok. destruct m as [|m|m|m|m|m|m|m|m|m].
  - by exists b.
  - by apply wide_refines_system.
  - apply wide_refines_add; [done|apply be32_bound|done].
  - apply wide_refines_add; [done|apply be32_bound|done].
  - apply wide_refines_reduce; [done|apply be32_bound|done].
  - apply wide_refines_reduce; [done|apply be32_bound|done].
  - apply wide_refines_reduce; [done|apply be32_bound|done].
  - by apply wide_refines_delete.
  - by apply wide_refines_replace.
  - by exists b.
Qed.

Lemma wide_refines_feed b w feed :
  tracks_wide cap b w → wide_feed cap w feed.*2 = true → wide_result cap (run_book b feed) (wide_run cap w feed.*2).
Proof.
  revert b w. induction feed as [|[it m] feed IH]; intros b w Hw Hf; [by exists b|].
  simpl in Hf. apply andb_true_iff in Hf as [Hok Hf]. pose proof (wide_refines_dispatch b w it m Hw Hok) as Hstep.
  unfold run_book, wide_run. simpl. destruct (wide_step cap w (command_of m)) as [w1|e].
  - destruct Hstep as (b1 & -> & Hw1). simpl. by apply IH.
  - simpl in Hstep. by rewrite Hstep.
Qed.

Lemma wide_new b : OrderBook_new cap = Ok b → Z.of_nat cap < 2 ^ 32 → tracks_wide cap b empty_wbook.
Proof.
  intros E Hn. destruct (new_book_simulates cap b E Hn) as [[Hw Ha Ho Hop Hcap] Hr]. split; try done.
  intros ref. split; [set_solver|]. intros (a & o & Hm & Hoc & Hi). by destruct (Ha ref a o Hm Hoc).
Qed.

(** ** Lemmas: queries *)

(** The book without its lost orders is one whose every order is in a level. *)
Lemma wide_seen b w :
  tracks_wide cap b w → ∃ m q, let b' := set_order_map m b in core b' q ∧ attached b' ∧ abs_orders b' = visible w.
Proof.
  intros Hw. destruct (tw_wf _ _ _ Hw) as (q & fs & Hbw). pose proof (wf_core _ _ _ Hbw) as Hc.
  destruct (core_seen b q Hc) as (m & Hc' & Hatt & Habs). exists m, q. split_and!; [done|done|].
  rewrite Habs. apply map_eq. intros ref. apply option_eq. intros o. unfold visible.
  rewrite in_levels_lookup, map_lookup_filter_Some, (tw_orders _ _ _ Hw). simpl. by rewrite (tw_lost _ _ _ Hw).
Qed.

Lemma wide_bbo b w : tracks_wide cap b w → best_bid_offer b = Ok (spec_bbo (visible w)).
Proof.
  intros Hw. destruct (wide_seen b w Hw) as (m & q & Hc & Hatt & <-).
  exact (best_bid_offer_abs (set_order_map m b) q Hc Hatt).
Qed.

Lemma wide_levels b w sd i :
  tracks_wide cap b w → 0 ≤ i < kLevels →
  let p := idx_price sd (w_refs w sd) i in
  total_qty (levels sd b !!! i) = depth (visible w) (side_char sd) p ∧
  order_count (levels sd b !!! i) = Z.of_nat (length (side_orders (visible w) (side_char sd) p)).
Proof.
  intros Hw Hi. destruct (wide_seen b w Hw) as (m & q & Hc & Hatt & <-). cbv zeta. rewrite <-(tw_refs _ _ _ Hw).
  pose proof (level_depth (set_order_map m b) q sd i Hc Hatt Hi) as Hl. by destruct sd.
Qed.

Lemma wide_count b w : tracks_wide cap b w → book_order_count b = Z.of_nat (size (w_orders w)).
Proof.
  intros Hw. destruct (tw_wf _ _ _ Hw) as (q & fs & Hbw). unfold book_order_count.
  by rewrite <-(tw_orders _ _ _ Hw), (abs_orders_size b q) by apply Hbw.
Qed.

Lemma wide_has b w ref : tracks_wide cap b w → has_order b ref = bool_decide (is_Some (w_orders w !! ref)).
Proof.
  intros Hw. unfold has_order. apply bool_decide_ext. rewrite <-!not_eq_None_Some.
  apply not_iff_compat. symmetry. by apply wide_absent.
Qed.

(** ** Lemmas: inside a band *)

(** With nothing lost it is the abstract book of [BookSpec]. *)
Lemma wide_simulates b w s :
  simulates cap b s → tracks_wide cap b w → w_orders w = s_orders s ∧ w_lost w = ∅ ∧ w_open w = s_open s.
Proof.
  intros Hs Hw. split_and!.
  - by rewrite <-(tw_orders _ _ _ Hw), (si_orders _ _ _ Hs).
  - apply set_eq. intros ref. rewrite (tw_lost _ _ _ Hw). split; [|set_solver].
    intros (a & o & Hm & Ho & Hi). by destruct (si_attached _ _ _ Hs ref a o Hm Ho).
  - by rewrite <-(tw_open _ _ _ Hw), (si_open _ _ _ Hs).
Qed.

Lemma admissible_wide_ok s w c :
  w_orders w = s_orders s → w_open w = s_open s → admissible cap s c = true → wide_ok w c = true.
Proof.
  intros Eo Ep. unfold wide_ok, admissible. rewrite Eo, Ep. destruct c as [| | |ref sd p sh|ref n| |]; try done.
  - destruct (s_open s); simpl; [|done]. by intros [? _]%andb_true_iff.
  - destruct (s_orders s !! ref); [|done]. intros ->. apply orb_true_r.
Qed.

Lemma good_feed_wide lo_bid lo_ask b s w ms :
  simulates cap b s → in_bands lo_bid lo_ask b s → tracks_wide cap b w →
  good_feed cap lo_bid lo_ask s ms = true → wide_feed cap w ms = true.
Proof.
  revert b s w. induction ms as [|m ms IH]; intros b s w Hs Hb Hw Hg; [done|].
  simpl in Hg. apply andb_true_iff in Hg as [[Hadm Hband]%andb_true_iff Hg].
  destruct (wide_simulates b w s Hs Hw) as (Eo & _ & Ep). pose proof (admissible_wide_ok s w _ Eo Ep Hadm) as Hok.
  simpl. rewrite Hok. simpl. pose proof (wide_refines_dispatch b w iter_forward m Hw Hok) as Hstep.
  destruct (refines_dispatch cap b s iter_forward m Hs Hadm) as (b1 & E & Hs1 & Hr1); [by eapply banded_lossless|].
  rewrite E in Hstep. destruct (wide_step cap w (command_of m)) as [w1|e]; [|done].
  destruct Hstep as (b2 & [= <-] & Hw1). apply (IH b1 (spec_step s m)); [done|by eapply in_bands_step|done|done].
Qed.

End Refine.

(** ** Theorems *)
Section Theorems.
Context `{BuildMode}.

(** C2. A session without the price band.  Take a fresh book of 1 to 2^32 - 1 slots and a
    feed whose messages, each in the state it meets and up to the first fault, satisfy
    [wide_feed]: the references of new orders are not those of live ones, their sides are B
    or S, their prices are in (0, 2^31), and in a release build no reduction exceeds its
    order's shares; prices may lie anywhere in that range.  In either build and whatever the
    hash map's iteration orders, the session ends in a fault exactly when the abstract book
    runs into it, and it is that fault: an add when the pool has no slot left, a message
    about an order that no level holds, in a debug build a reduction beyond the order's
    shares.  Otherwise every live reference is known and counted, but the levels, exact in
    shares and orders, and the best bid and offer show the orders that are not lost: those
    the last window of their side reached, or that were added or reached since. *)
Theorem unbanded_session cap feed :
  (0 < cap)%nat → Z.of_nat cap < 2 ^ 32 → wide_feed cap empty_wbook feed.*2 = true →
  ∃ b0, OrderBook_new cap = Ok b0 ∧
    match wide_run cap empty_wbook feed.*2 with
    | Ok w => ∃ b, run_book b0 feed = Ok b ∧ shows_wide b w
    | Fault e => run_book b0 feed = Fault e
    end.
Proof.
  intros Hpos Hcap Hf. destruct (new_book_ok cap Hpos) as [b0 E0]. exists b0. split; [done|].
  pose proof (wide_refines_feed b0 empty_wbook feed (wide_new b0 E0 Hcap) Hf) as Hr.
  destruct (wide_run cap empty_wbook feed.*2) as [w|e]; [|done]. destruct Hr as (b & E & Hw). exists b. split; [done|].
  split; [by eapply wide_bbo|by eapply wide_count|intros ref; by eapply wide_has|apply Hw|].
  intros sd i Hi. by eapply wide_levels.
Qed.

(** Inside a band nothing is lost: on a good feed of [BookSpec] the two abstract books
    agree. *)
Theorem wide_conservative cap lo_bid lo_ask ms :
  (0 < cap)%nat → Z.of_nat cap < 2 ^ 32 → good_feed cap lo_bid lo_ask empty_sbook ms = true →
  wide_feed cap empty_wbook ms = true ∧
  ∃ w, wide_run cap empty_wbook ms = Ok w ∧ w_lost w = ∅ ∧
    w_orders w = s_orders (spec_run empty_sbook ms) ∧ w_open w = s_open (spec_run empty_sbook ms).
Proof.
  intros Hpos Hcap Hg. destruct (new_book_ok cap Hpos) as [b0 E0].
  destruct (new_book_simulates cap b0 E0 Hcap) as [Hs0 Hr0]. pose proof (wide_new b0 E0 Hcap) as Hw0.
  assert (Hb0 : in_bands lo_bid lo_ask b0 empty_sbook).
  { intros sd. split; [by left|]. intros ref o Hl. simpl in Hl. by rewrite lookup_empty in Hl. }
  pose proof (good_feed_wide lo_bid lo_ask b0 empty_sbook empty_wbook ms Hs0 Hb0 Hw0 Hg) as Hf. split; [done|].
  destruct (feed_simulates cap lo_bid lo_ask (with_iters ms) b0 empty_sbook Hs0 Hb0) as (b & E & Hs);
    [by rewrite with_iters_snd|].
  pose proof (wide_refines_feed b0 empty_wbook (with_iters ms) Hw0) as Hr. rewrite with_iters_snd in Hr, Hs. specialize (Hr Hf).
  rewrite E in Hr. destruct (wide_run cap empty_wbook ms) as [w|e]; [|done]. destruct Hr as (b' & [= <-] & Hw).
  destruct (wide_simulates b w _ Hs Hw) as (? & ? & ?). by exists w.
Qed.

End Theorems.

(** ** Witness: order 1 is lost, reached again and deleted; order 2 is lost when its delete comes *)
Definition regained_session : list ParsedMessage :=
  wide_session ++ [msg_add 3 ch_B 20 1495000; msg_add 4 ch_B 10 1500050; msg_delete 1].

Lemma unbanded_session_witness :
  (∃ b0 b, OrderBook_new 8 = Ok b0 ∧ @run_book debug_build b0 (with_iters regained_session) = Ok b ∧
     book_order_count b = 3 ∧ best_bid_offer b = Ok (mkBBO 1500050 10 0 0)) ∧
  ∃ b0, OrderBook_new 8 = Ok b0 ∧
    @run_book release_build b0 (with_iters (regained_session ++ [msg_delete 2])) = Fault OutOfRange.
Proof.
  split.
  - destruct (@unbanded_session debug_build 8 (with_iters regained_session)) as (b0 & E0 & Hr);
      [lia|lia|rewrite with_iters_snd; vm_compute; reflexivity|].
    rewrite with_iters_snd in Hr. remember (wide_run 8 empty_wbook regained_session) as r eqn:Er in Hr.
    vm_compute in Er. subst r. destruct Hr as (b & E & Hs). exists b0, b. split; [exact E0|]. split; [exact E|].
    rewrite (sw_count _ _ Hs), (sw_bbo _ _ Hs). vm_compute. auto.
  - destruct (@unbanded_session release_build 8 (with_iters (regained_session ++ [msg_delete 2]))) as (b0 & E0 & Hr);
      [lia|lia|rewrite with_iters_snd; vm_compute; reflexivity|].
    rewrite with_iters_snd in Hr. remember (wide_run 8 empty_wbook _) as r eqn:Er in Hr.
    vm_compute in Er. subst r. exists b0. exact (conj E0 Hr).
Defined.
