(* ===== verification/TestBook.v ===== *)
(** * The order book's unit tests (test/test_book.cpp)

    One program per TEST_F, over the fixture's book ([BookClient]), each a sequence of
    messages and expectations as in the source.  [run_test] is the fixture: a book of 512
    orders, the session opened by SetUp, the body; its result says whether every expectation
    held, and is a fault when the program under test aborts or is undefined.

    Proved, in both builds and whatever the hash map's iteration order: every deterministic
    test passes, and so does the stress test for any sequence of random numbers, as long as
    no more than 512 references are live at a time; with more it crashes. *)

From S2P Require Import Prelude Bytes Messages Parser Order PriceLevel OrderBook BookInv BookWf.
From S2P Require Import BookHandlers Dispatch Samples BookSpec Depth BookTheorems BookView BookClient BookLimits.

(** ** The fixture *)
Definition test_header (c : Z) (locate : Z) : Header := mkHeader c locate 0 (replicate 6 0).

Definition system_event (code : Z) : SystemEventMsg := mkSystemEvent (test_header ch_S 0) code.

Definition SetUp : prog unit := do_call (Send (MSystemEvent (system_event ch_O))).

Definition test_make_add (side price_raw shares : Z) : prog AddOrderMsg :=
  ref ← do_call NextRef;
  Ret (mkAddOrder (test_header ch_A (bswap 2 1)) (bswap 8 ref) side (bswap 4 shares) (replicate 8 0)
         (bswap 4 price_raw)).

Definition test_make_delete (ref : Z) : DeleteOrderMsg := mkDeleteOrder (test_header ch_D 0) (bswap 8 ref).

Definition test_make_cancel (ref qty : Z) : CancelOrderMsg :=
  mkCancelOrder (test_header ch_X 0) (bswap 8 ref) (bswap 4 qty).

Definition test_make_execute (ref qty : Z) : ExecuteOrderMsg :=
  mkExecuteOrder (test_header ch_E 0) (bswap 8 ref) (bswap 4 qty) 0.

Definition test_make_replace (old_ref price_raw shares : Z) : prog ReplaceOrderMsg :=
  ref ← do_call NextRef;
  Ret (mkReplaceOrder (test_header ch_U 0) (bswap 8 old_ref) (bswap 8 ref) (bswap 4 shares)
         (bswap 4 price_raw)).

(** [book.on_add(make_add(...))] and so on. *)
Definition add (side price_raw shares : Z) : prog unit :=
  m ← test_make_add side price_raw shares; do_call (Send (MAddOrder m)).
Definition del (ref : Z) : prog unit := do_call (Send (MDeleteOrder (test_make_delete ref))).
Definition cancel (ref qty : Z) : prog unit := do_call (Send (MCancelOrder (test_make_cancel ref qty))).
Definition execute (ref qty : Z) : prog unit := do_call (Send (MExecuteOrder (test_make_execute ref qty))).
Definition replace (old_ref price_raw shares : Z) : prog unit :=
  m ← test_make_replace old_ref price_raw shares; do_call (Send (MReplaceOrder m)).

Definition EXPECT_EQ (a b : Z) : prog unit := do_call (Expect (a =? b)).
Definition EXPECT_TRUE (b : bool) : prog unit := do_call (Expect b).
Definition EXPECT_FALSE (b : bool) : prog unit := do_call (Expect (negb b)).
Definition expect_count (n : Z) : prog unit := c ← do_call OrderCount; EXPECT_EQ c n.

Definition check_invariants : prog unit :=
  bbo ← do_call BestBidOffer;
  if (0 <? bid_price bbo) && (0 <? ask_price bbo) then do_call (Expect (bid_price bbo <? ask_price bbo))
  else Ret ().

Definition t_kBid : Z := 1500000.
Definition t_kAsk : Z := 1500100.

(** [TEST_F(BookTest, ...)]: a fresh fixture, SetUp, the body. *)
Definition run_test `{BuildMode} (it : nat → IterOrder) (rng : Rng) (body : prog unit) : outcome bool :=
  b ← OrderBook_new 512;
  '(_, t) ← run it rng (SetUp;; body) (mkClient b 1 0 0 true);
  Ok (passed t).

(** ** The tests *)

(** A second book, never opened, takes the place of the fixture's. *)
Definition SystemEvent_PreOpen_OrdersIgnored_body : prog unit :=
  add ch_B t_kBid 100;;
  expect_count 0;;
  bbo ← do_call BestBidOffer; EXPECT_EQ (bid_price bbo) 0.
Definition SystemEvent_PreOpen_OrdersIgnored `{BuildMode} (it : nat → IterOrder) (rng : Rng) : outcome bool :=
  b ← OrderBook_new 512;
  '(_, t) ← run it rng SetUp (mkClient b 1 0 0 true);
  closed_book ← OrderBook_new 16;
  '(_, t) ← run it rng SystemEvent_PreOpen_OrdersIgnored_body
    (mkClient closed_book (next_ref_ t) (draws t) (sends t) (passed t));
  Ok (passed t).

Definition SystemEvent_Close_StopsNewOrders : prog unit :=
  add ch_B t_kBid 100;;
  expect_count 1;;
  do_call (Send (MSystemEvent (system_event ch_C)));;
  add ch_B t_kBid 200;;
  expect_count 1.

Definition SystemEvent_Halt_DrainsBook : prog unit :=
  add ch_B t_kBid 100;;
  add ch_S t_kAsk 200;;
  expect_count 2;;
  do_call (Send (MSystemEvent (system_event ch_H)));;
  expect_count 0;;
  open ← do_call IsOpen; EXPECT_FALSE open;;
  bbo ← do_call BestBidOffer; EXPECT_EQ (bid_price bbo) 0.

Definition AddBid_BBO_Updated : prog unit :=
  add ch_B t_kBid 100;;
  bbo ← do_call BestBidOffer;
  EXPECT_EQ (bid_price bbo) t_kBid;;
  EXPECT_EQ (bid_qty bbo) 100;;
  EXPECT_EQ (ask_price bbo) 0;;
  check_invariants.

Definition AddAsk_BBO_Updated : prog unit :=
  add ch_S t_kAsk 200;;
  bbo ← do_call BestBidOffer;
  EXPECT_EQ (ask_price bbo) t_kAsk;;
  EXPECT_EQ (ask_qty bbo) 200;;
  EXPECT_EQ (bid_price bbo) 0;;
  check_invariants.

Definition AddBidAndAsk_BBO_Valid : prog unit :=
  add ch_B t_kBid 100;;
  add ch_S t_kAsk 200;;
  bbo ← do_call BestBidOffer;
  EXPECT_EQ (bid_price bbo) t_kBid;;
  EXPECT_EQ (ask_price bbo) t_kAsk;;
  EXPECT_TRUE (bbo_valid bbo);;
  check_invariants.

Definition BestBid_IsHighestPrice : prog unit :=
  add ch_B (u32 (t_kBid - 200)) 50;;
  add ch_B t_kBid 100;;
  add ch_B (u32 (t_kBid - 100)) 75;;
  bbo ← do_call BestBidOffer; EXPECT_EQ (bid_price bbo) t_kBid;;
  check_invariants.

Definition BestAsk_IsLowestPrice : prog unit :=
  add ch_S (u32 (t_kAsk + 200)) 50;;
  add ch_S t_kAsk 100;;
  add ch_S (u32 (t_kAsk + 100)) 75;;
  bbo ← do_call BestBidOffer; EXPECT_EQ (ask_price bbo) t_kAsk;;
  check_invariants.

Definition DeleteBestBid_AdvancesToNext : prog unit :=
  add ch_B t_kBid 100;;
  add ch_B (u32 (t_kBid - 100)) 50;;
  del 1;;
  bbo ← do_call BestBidOffer; EXPECT_EQ (bid_price bbo) (u32 (t_kBid - 100));;
  expect_count 1;;
  check_invariants.

Definition DeleteLastOrder_BBOEmpty : prog unit :=
  add ch_B t_kBid 100;;
  del 1;;
  bbo ← do_call BestBidOffer; EXPECT_EQ (bid_price bbo) 0;;
  expect_count 0.

Definition DeleteUnknownRef_NoOp : prog unit :=
  add ch_B t_kBid 100;;
  del 9999;;
  expect_count 1.

Definition PartialCancel_ReducesQty : prog unit :=
  add ch_B t_kBid 100;;
  cancel 1 40;;
  bbo ← do_call BestBidOffer; EXPECT_EQ (bid_qty bbo) 60;;
  expect_count 1;;
  check_invariants.

Definition FullCancel_RemovesOrder : prog unit :=
  add ch_B t_kBid 100;;
  cancel 1 100;;
  bbo ← do_call BestBidOffer; EXPECT_EQ (bid_price bbo) 0;;
  expect_count 0.

Definition PartialExecute_ReducesQty : prog unit :=
  add ch_B t_kBid 100;;
  execute 1 30;;
  bbo ← do_call BestBidOffer; EXPECT_EQ (bid_qty bbo) 70;;
  expect_count 1;;
  check_invariants.

Definition FullExecute_RemovesOrder : prog unit :=
  add ch_B t_kBid 100;;
  execute 1 100;;
  bbo ← do_call BestBidOffer; EXPECT_EQ (bid_price bbo) 0;;
  expect_count 0.

Definition Replace_UpdatesPriceAndQty : prog unit :=
  add ch_B t_kBid 100;;
  replace 1 (u32 (t_kBid + 50)) 50;;
  has1 ← do_call (HasOrder 1); EXPECT_FALSE has1;;
  has2 ← do_call (HasOrder 2); EXPECT_TRUE has2;;
  bbo ← do_call BestBidOffer;
  EXPECT_EQ (bid_price bbo) (u32 (t_kBid + 50));;
  EXPECT_EQ (bid_qty bbo) 50;;
  expect_count 1;;
  check_invariants.

Definition Replace_PriceDowngrade_BestBidUpdates : prog unit :=
  add ch_B t_kBid 100;;
  add ch_B (u32 (t_kBid - 100)) 50;;
  replace 1 (u32 (t_kBid - 200)) 100;;
  bbo ← do_call BestBidOffer; EXPECT_EQ (bid_price bbo) (u32 (t_kBid - 100));;
  check_invariants.

Definition OrderCount_TracksAddAndRemove : prog unit :=
  for_each (seqZ 0 10) (λ i, add ch_B (u32 (t_kBid - u32 i * 10)) 10);;
  expect_count 10;;
  for_each (seqZ 1 5) del;;
  expect_count 5.

Definition SameLevel_QtyAccumulates : prog unit :=
  add ch_S t_kAsk 100;;
  add ch_S t_kAsk 200;;
  add ch_S t_kAsk 300;;
  bbo ← do_call BestBidOffer;
  EXPECT_EQ (ask_price bbo) t_kAsk;;
  EXPECT_EQ (ask_qty bbo) 600;;
  expect_count 3;;
  check_invariants.

Definition book_tests : list (prog unit) :=
  [SystemEvent_Close_StopsNewOrders; SystemEvent_Halt_DrainsBook; AddBid_BBO_Updated;
   AddAsk_BBO_Updated; AddBidAndAsk_BBO_Valid; BestBid_IsHighestPrice; BestAsk_IsLowestPrice;
   DeleteBestBid_AdvancesToNext; DeleteLastOrder_BBOEmpty; DeleteUnknownRef_NoOp;
   PartialCancel_ReducesQty; FullCancel_RemovesOrder; PartialExecute_ReducesQty;
   FullExecute_RemovesOrder; Replace_UpdatesPriceAndQty; Replace_PriceDowngrade_BestBidUpdates;
   OrderCount_TracksAddAndRemove; SameLevel_QtyAccumulates].

(** ** The stress test *)

Definition draw (lo hi : Z) : prog Z := do_call (Draw lo hi).

(** The operation of an iteration, 0 when no reference is held. *)
Definition stress_choice (live_refs : list Z) : prog Z :=
  if bool_decide (live_refs = []) then Ret 0 else draw 0 2.

(** The operation: add, cancel a share, or delete; the references held after it. *)
Definition stress_act (op : Z) (live_refs : list Z) : prog (list Z) :=
  if op =? 0 then
    d ← draw 0 1;
    let side := if negb (d =? 0) then ch_B else ch_S in
    delta ← (if side =? ch_B then draw (-40) (-1) else draw 1 40);
    let price := u32 (i32 t_kBid + delta * 100) in
    qty ← draw 1 1000;
    add side price qty;;
    ref ← do_call LastRef;
    Ret (live_refs ++ [ref])
  else if (op =? 1) && negb (bool_decide (live_refs = [])) then
    idx ← draw 0 (Z.of_nat (length live_refs) - 1);
    cancel (live_refs !!! Z.to_nat idx) 1;;
    Ret live_refs
  else
    idx ← draw 0 (Z.of_nat (length live_refs) - 1);
    del (live_refs !!! Z.to_nat idx);;
    Ret (base.delete (Z.to_nat idx) live_refs).

Definition stress_op (live_refs : list Z) : prog (list Z) :=
  op ← stress_choice live_refs;
  live_refs ← stress_act op live_refs;
  check_invariants;;
  Ret live_refs.

Fixpoint stress_ops (kOps : nat) (live_refs : list Z) : prog (list Z) :=
  match kOps with
  | O => Ret live_refs
  | S n => live_refs ← stress_op live_refs; stress_ops n live_refs
  end.

Definition Stress_RandomSequence (kOps : nat) : prog unit := stress_ops kOps [];; Ret ().
Definition kOps : nat := Z.to_nat 50000.

(** How an iteration moves the number of references held, and the draws it makes. *)
Definition live_step (rng : Rng) (len d : nat) : nat * nat :=
  let '(op, d) := if (len =? 0)%nat then (0, d) else (uniform rng d 0 2, S d) in
  if op =? 0 then (S len, S (S (S d))) else if op =? 1 then (len, S d) else (pred len, S d).

(** No more than [cap] references held during [n] iterations. *)
Fixpoint live_within (cap : nat) (rng : Rng) (n len d : nat) : bool :=
  match n with
  | O => true
  | S n => let '(len, d) := live_step rng len d in (len <=? cap)%nat && live_within cap rng n len d
  end.

(** ** The contract the tests keep to *)
Definition test_band : Z := t_kBid - 4000.
Abbreviation test_fits := (fits 512 test_band test_band).
Abbreviation test_api := (contract_api test_fits).
Definition start_client : client SBook := mkClient empty_sbook 1 0 0 true.

(** A live order of the stress test: at least a share, on its side of [t_kBid]. *)
Definition stress_order (o : SOrder) : bool :=
  (1 <=? s_shares o) &&
  (((s_side o =? ch_B) && (t_kBid - 4000 <=? s_price o) && (s_price o <? t_kBid)) ||
   ((s_side o =? ch_S) && (t_kBid <? s_price o) && (s_price o <=? t_kBid + 4000))).

(** The references held are among those given out, the live orders among those held. *)
Record stress_inv (live : list Z) (next : Z) (m : gmap Z SOrder) : Prop := {
  sv_live : Forall (λ r, 1 ≤ r < next) live;
  sv_orders : map_Forall (λ ref o, ref ∈ live ∧ stress_order o = true) m;
}.

(** ** Lemmas: a test on the abstract book *)
Section Fixture.
Context `{BuildMode} (it : nat → IterOrder) (rng : Rng).

Lemma run_test_ok body u :
  @run _ test_api it rng unit (SetUp;; body) start_client = Ok ((), u) →
  run_test it rng body = Ok (passed u).
Proof.
  intros E. destruct (client_run (lo_bid := test_band) (lo_ask := test_band) it rng 512 (SetUp;; body) () start_client u) as (b & u' & Eb & E' & Hu); [lia|lia|done|done|].
  unfold run_test. rewrite Eb, bind_ok. cbn [next_ref_ draws sends passed start_client] in E'. rewrite E', bind_ok.
  f_equal. apply Hu.
Qed.

(** The program keeps to the contract and its expectations hold of the abstract book. *)
Definition passes_on_contract (cap : nat) (body : prog unit) (t : client SBook) : bool :=
  match @run _ (contract_api (fits cap test_band test_band)) it rng unit body t with
  | Ok (_, u) => passed u
  | Fault _ => false
  end.

Lemma passes_on_contract_ok cap body t :
  (0 < cap)%nat → Z.of_nat cap < 2 ^ 32 → cl_book t = empty_sbook → passes_on_contract cap body t = true →
  ∃ b u, OrderBook_new cap = Ok b ∧
    run it rng body (mkClient b (next_ref_ t) (draws t) (sends t) (passed t)) = Ok ((), u) ∧ passed u = true.
Proof.
  intros Hp Hc Ht. unfold passes_on_contract. destruct (run it rng body t) as [[[] u]|] eqn:E; [|done].
  intros Hu. destruct (client_run (lo_bid := test_band) (lo_ask := test_band) it rng cap body () t u Hp Hc Ht E) as (b & u' & Eb & E' & (_ & _ & _ & _ & Hv)).
  exists b, u'. by rewrite Hv.
Qed.
End Fixture.

(** ** Lemmas: one iteration of the stress test *)

Lemma stress_order_true o :
  stress_order o = true ↔ 1 ≤ s_shares o ∧
    (s_side o = ch_B ∧ t_kBid - 4000 ≤ s_price o < t_kBid ∨
     s_side o = ch_S ∧ t_kBid < s_price o ≤ t_kBid + 4000).
Proof.
  unfold stress_order. rewrite andb_true_iff, orb_true_iff, !andb_true_iff, !Z.eqb_eq, !Z.leb_le, !Z.ltb_lt.
  lia.
Qed.

(** No more live orders than references held. *)
Lemma stress_size live next m : stress_inv live next m → (size m ≤ length live)%nat.
Proof.
  intros [_ Ho]. rewrite <-length_map_to_list, <-(length_fmap fst).
  apply submseteq_length, NoDup_submseteq; [apply NoDup_fst_map_to_list|].
  intros r ([r' o] & -> & Hr%elem_of_map_to_list)%list_elem_of_fmap. by apply (Ho r' o).
Qed.

Lemma side_price_bound live next m sd ps p :
  stress_inv live next m → ps = prices m sd → p ∈ ps →
  (sd = ch_B → p < t_kBid) ∧ (sd = ch_S → t_kBid < p).
Proof.
  intros [_ Ho] -> (r & o & Hr & <- & <-)%prices_elem_orders.
  destruct (Ho r o Hr) as [_ Hs%stress_order_true]. unfold ch_B, ch_S in *. lia.
Qed.

(** Bids below [t_kBid], asks above it: never crossed. *)
Lemma stress_uncrossed live next m :
  stress_inv live next m →
  let q := spec_bbo m in 0 < bid_price q → 0 < ask_price q → bid_price q < ask_price q.
Proof.
  intros Hi q. unfold q, spec_bbo. cbn [bid_price ask_price].
  destruct (best_of_elem Z.max (prices m ch_B)) as [[_ ->]|(pb & -> & Hb)]; [lia|by simpl|].
  destruct (best_of_elem Z.min (prices m ch_S)) as [[_ ->]|(pa & -> & Ha)]; [lia|by simpl|].
  simpl. destruct (side_price_bound _ _ _ _ _ _ Hi eq_refl Hb) as [H1 _].
  destruct (side_price_bound _ _ _ _ _ _ Hi eq_refl Ha) as [_ H2].
  specialize (H1 eq_refl). specialize (H2 eq_refl). lia.
Qed.

Lemma stress_inv_add live next m o :
  stress_inv live next m → 1 ≤ next → stress_order o = true →
  m !! next = None ∧ stress_inv (live ++ [next]) (next + 1) (<[next := o]> m).
Proof.
  intros [Hl Ho] Hn Hs. split.
  - destruct (m !! next) as [o'|] eqn:Hm; [|done]. destruct (Ho next o' Hm) as [Hin _].
    rewrite Forall_forall in Hl. specialize (Hl _ Hin). lia.
  - split.
    + apply Forall_app_2; [|apply Forall_singleton; lia]. eapply Forall_impl; [exact Hl|]. simpl. lia.
    + apply map_Forall_insert_2; [split; [|done]; apply elem_of_app; right; by left|].
      intros r o' Hr. destruct (Ho r o' Hr). split; [|done]. apply elem_of_app. by left.
Qed.

Lemma stress_inv_cancel live next m r :
  stress_inv live next m →
  let s := mkSBook m true in
  admissible 512 s (CReduce r 1) = true ∧
  ∃ m', spec_command s (CReduce r 1) = mkSBook m' true ∧ stress_inv live next m'.
Proof.
  intros [Hl Ho] s. simpl. destruct (m !! r) as [o|] eqn:Hr; [|split; [done|by exists m]].
  destruct (Ho r o Hr) as [Hin Hs]. pose proof (proj1 (stress_order_true o) Hs) as [H1 H2].
  split; [by apply Z.leb_le|]. eexists. split; [done|]. split; [done|]. destruct (Z.eqb_spec (s_shares o) 1).
  - by apply map_Forall_delete.
  - apply map_Forall_insert_2; [|done]. split; [done|]. apply stress_order_true. simpl. lia.
Qed.

Lemma stress_inv_delete live next m i r :
  stress_inv live next m → live !! i = Some r → stress_inv (base.delete i live) next (base.delete r m).
Proof.
  intros [Hl Ho] Hi. rewrite (delete_take_drop live i).
  rewrite <-(take_drop_middle _ _ _ Hi) in Hl, Ho. split.
  - apply Forall_app in Hl as [? [_ ?]%Forall_cons]. by apply Forall_app.
  - intros r' o [Hne Hr]%lookup_delete_Some. destruct (Ho r' o Hr) as [Hin Hs]. split; [|done].
    apply elem_of_app in Hin as [?|[?|?]%elem_of_cons]; [set_solver|congruence|set_solver].
Qed.

Section Stress.
Context (it : nat → IterOrder) (rng : Rng).

(** The program state on the abstract book, all expectations having held. *)
Definition at_orders (m : gmap Z SOrder) (next : Z) (d k : nat) : client SBook :=
  mkClient (mkSBook m true) next d k true.

Abbreviation crun := (@run _ test_api it rng _).
Abbreviation rbind := (@run_bind _ test_api it rng).
Lemma rcallb {A} c (f : result c → prog A) t :
  crun (do_call c ≫= f) t = '(r, t) ← @handle _ test_api it rng c t; crun (f r) t.
Proof. done. Qed.

Abbreviation rcall := (@run_do_call _ test_api it rng).

Lemma run_send m next d k msg m' :
  test_fits (mkSBook m true) msg = true → spec_step (mkSBook m true) msg = mkSBook m' true →
  crun (do_call (Send msg)) (at_orders m next d k) = Ok ((), at_orders m' next d (S k)).
Proof.
  intros Hf Hs. rewrite (rcall (Send msg)). unfold handle, at_orders. cbn [cl_book book_send contract_api].
  by rewrite Hf, bind_ok, Hs.
Qed.

Lemma run_check live next m d k :
  stress_inv live next m → crun check_invariants (at_orders m next d k) = Ok ((), at_orders m next d k).
Proof.
  intros Hi. pose proof (stress_uncrossed _ _ _ Hi) as Hq. unfold check_invariants.
  rewrite (rcallb BestBidOffer). cbn [handle at_orders book_bbo contract_api cl_book s_orders].
  rewrite !bind_ok. destruct (Z.ltb_spec 0 (bid_price (spec_bbo m))) as [H1|]; [|done].
  destruct (Z.ltb_spec 0 (ask_price (spec_bbo m))) as [H2|]; [|done]. cbn [andb].
  by rewrite (proj2 (Z.ltb_lt _ _) (Hq H1 H2)).
Qed.

Lemma run_add live next m d k sd p q :
  stress_inv live next m → 1 ≤ next < 2 ^ 64 - 1 → (size m < 512)%nat → q < 2 ^ 32 →
  stress_order (mkSOrder sd p q) = true →
  crun (add sd p q) (at_orders m next d k) =
    Ok ((), at_orders (<[next := mkSOrder sd p q]> m) (next + 1) d (S k)).
Proof.
  intros Hi Hn Hsz Hq Ho. destruct (stress_inv_add _ _ _ _ Hi (proj1 Hn) Ho) as [Hf _].
  pose proof (proj1 (stress_order_true _) Ho) as (H1 & H2). cbn [s_shares s_side s_price] in H1, H2.
  unfold t_kBid in H2. unfold add, test_make_add.
  rewrite rbind, (rcallb NextRef). cbn [handle at_orders cl_book next_ref_ draws sends passed].
  rewrite bind_ok. cbn [run]. rewrite bind_ok, u64_small by lia. apply (run_send m (next + 1) d k).
  - unfold fits, banded. cbn [command_of add_order_ref_num add_buy_sell add_price add_shares].
    rewrite be64_swap, !be32_swap by lia.
    cbn [admissible new_price s_open s_orders negb orb]. unfold fresh_ref. rewrite Hf.
    rewrite bool_decide_true by done. rewrite (proj2 (price_ok_true p)) by lia.
    rewrite (proj2 (Nat.ltb_lt _ _) Hsz). rewrite (proj2 (in_band_true _ _)).
    + by destruct H2 as [[-> _]|[-> _]].
    + unfold band_of, test_band, t_kBid, kLevels. case_match; lia.
  - unfold spec_step. cbn [command_of add_order_ref_num add_buy_sell add_price add_shares].
    rewrite be64_swap, !be32_swap by lia. done.
Qed.

Lemma run_cancel live next m d k r :
  stress_inv live next m → 0 ≤ r < 2 ^ 64 →
  ∃ m', crun (cancel r 1) (at_orders m next d k) = Ok ((), at_orders m' next d (S k)) ∧ stress_inv live next m'.
Proof.
  intros Hi Hr. destruct (stress_inv_cancel _ _ _ r Hi) as [Ha (m' & Hs & Hi')]. exists m'. split; [|done].
  apply run_send.
  - unfold fits. cbn [command_of test_make_cancel cancel_order_ref_num cancel_cancelled_shares].
    rewrite be64_swap, be32_swap by lia. by rewrite Ha.
  - unfold spec_step. cbn [command_of test_make_cancel cancel_order_ref_num cancel_cancelled_shares].
    by rewrite be64_swap, be32_swap by lia.
Qed.

Lemma run_del next m d k r :
  0 ≤ r < 2 ^ 64 →
  crun (del r) (at_orders m next d k) = Ok ((), at_orders (base.delete r m) next d (S k)).
Proof.
  intros Hr. apply run_send; [done|]. unfold spec_step.
  cbn [command_of test_make_delete del_order_ref_num]. by rewrite be64_swap by lia.
Qed.
End Stress.

Section StressOp.
Context (it : nat → IterOrder) (rng : Rng).
Abbreviation crun := (@run _ test_api it rng _).
Abbreviation rbind := (@run_bind _ test_api it rng).
Abbreviation rcallb := (rcallb it rng).

Lemma run_draw {A} lo hi (f : Z → prog A) m next d k :
  crun (draw lo hi ≫= f) (at_orders m next d k) =
    crun (f (uniform rng d lo hi)) (at_orders m next (S d) k).
Proof. done. Qed.

(** The order added by the stress test. *)
Lemma drawn_order sd delta q :
  1 ≤ q ≤ 1000 → (sd = ch_B ∧ -40 ≤ delta ≤ -1 ∨ sd = ch_S ∧ 1 ≤ delta ≤ 40) →
  stress_order (mkSOrder sd (u32 (i32 t_kBid + delta * 100)) q) = true.
Proof.
  intros Hq Hd. apply stress_order_true. cbn [s_shares s_side s_price].
  rewrite i32_small, u32_small by (unfold t_kBid; lia). unfold t_kBid. lia.
Qed.

Lemma add_drawn live next m d k sd delta :
  stress_inv live next m → 1 ≤ next < 2 ^ 64 - 1 → (size m < 512)%nat →
  (sd = ch_B ∧ -40 ≤ delta ≤ -1 ∨ sd = ch_S ∧ 1 ≤ delta ≤ 40) →
  ∃ m', crun (qty ← draw 1 1000;
              add sd (u32 (i32 t_kBid + delta * 100)) qty;;
              ref ← do_call LastRef; Ret (live ++ [ref])) (at_orders m next d k) =
      Ok (live ++ [next], at_orders m' (next + 1) (S d) (S k)) ∧
    stress_inv (live ++ [next]) (next + 1) m' ∧ size m' = S (size m).
Proof.
  intros Hi Hn Hsz Hd. pose proof (uniform_range rng d 1 1000 ltac:(lia)) as Hq.
  pose proof (drawn_order sd delta _ Hq Hd) as Ho. rewrite run_draw.
  destruct (stress_inv_add _ _ _ _ Hi (proj1 Hn) Ho) as [Hf Hi']. eexists. split_and!; [|exact Hi'|].
  - rewrite rbind, (run_add it rng live next m (S d) k) by (done || lia).
    cbn [mret]. rewrite bind_ok, (rcallb LastRef). cbn [handle at_orders next_ref_]. rewrite bind_ok.
    rewrite u64_small by lia. by replace (next + 1 - 1) with next by lia.
  - by apply map_size_insert_None.
Qed.

Lemma act_add live next m d k :
  stress_inv live next m → 1 ≤ next < 2 ^ 64 - 1 → (size m < 512)%nat →
  ∃ m', crun (stress_act 0 live) (at_orders m next d k) =
      Ok (live ++ [next], at_orders m' (next + 1) (S (S (S d))) (S k)) ∧
    stress_inv (live ++ [next]) (next + 1) m' ∧ size m' = S (size m).
Proof.
  intros Hi Hn Hsz. unfold stress_act. rewrite Z.eqb_refl. cbv iota. rewrite run_draw. cbv zeta.
  destruct (uniform rng d 0 1 =? 0); cbn [negb].
  - change (ch_S =? ch_B) with false. cbv iota. rewrite run_draw.
    apply add_drawn; try done. right. split; [done|]. apply uniform_range. lia.
  - change (ch_B =? ch_B) with true. cbv iota. rewrite run_draw.
    apply add_drawn; try done. left. split; [done|]. apply uniform_range. lia.
Qed.

(** The reference picked. *)
Lemma picked live next d :
  live ≠ [] → Forall (λ r, 1 ≤ r < next) live → next < 2 ^ 64 →
  let i := Z.to_nat (uniform rng d 0 (Z.of_nat (length live) - 1)) in
  live !! i = Some (live !!! i) ∧ 0 ≤ live !!! i < 2 ^ 64.
Proof.
  intros Hne Hl Hn i. assert (0 < length live)%nat by (destruct live; simpl; [done|lia]).
  pose proof (uniform_range rng d 0 (Z.of_nat (length live) - 1) ltac:(lia)).
  assert (Hi : live !! i = Some (live !!! i)) by (apply list_lookup_lookup_total_lt; unfold i; lia).
  split; [done|]. rewrite Forall_forall in Hl. pose proof (Hl _ (list_elem_of_lookup_2 _ _ _ Hi)). lia.
Qed.

Lemma act_cancel live next m d k :
  stress_inv live next m → live ≠ [] → next < 2 ^ 64 →
  ∃ m', crun (stress_act 1 live) (at_orders m next d k) = Ok (live, at_orders m' next (S d) (S k)) ∧
    stress_inv live next m'.
Proof.
  intros Hi Hne Hn. unfold stress_act. rewrite bool_decide_false by done. change (1 =? 0) with false. change (1 =? 1) with true. cbn [andb negb].
  rewrite run_draw. destruct (picked live next d Hne (sv_live _ _ _ Hi) Hn) as [_ Hr].
  destruct (run_cancel it rng live next m (S d) k _ Hi Hr) as (m' & E & Hi'). exists m'. split; [|done].
  by rewrite rbind, E.
Qed.

Lemma act_delete op live next m d k :
  stress_inv live next m → live ≠ [] → next < 2 ^ 64 → op ≠ 0 → op ≠ 1 →
  ∃ live' m', crun (stress_act op live) (at_orders m next d k) = Ok (live', at_orders m' next (S d) (S k)) ∧
    stress_inv live' next m' ∧ length live' = pred (length live).
Proof.
  intros Hi Hne Hn H0 H1. unfold stress_act. rewrite (proj2 (Z.eqb_neq _ _) H0), (proj2 (Z.eqb_neq _ _) H1).
  cbn [andb]. rewrite run_draw. destruct (picked live next d Hne (sv_live _ _ _ Hi) Hn) as [Hl Hr].
  eexists _, _. split_and!.
  - rewrite rbind, (run_del it rng next m (S d) k _ Hr). rewrite bind_ok. reflexivity.
  - by apply stress_inv_delete.
  - rewrite length_delete by (by eexists). lia.
Qed.

(** One iteration. *)
Lemma stress_op_ok live next m d k :
  stress_inv live next m → 1 ≤ next < 2 ^ 64 - 1 →
  let '(len', d') := live_step rng (length live) d in
  (len' ≤ 512)%nat →
  ∃ live' next' m', crun (stress_op live) (at_orders m next d k) = Ok (live', at_orders m' next' d' (S k)) ∧
    stress_inv live' next' m' ∧ next ≤ next' ≤ next + 1 ∧ length live' = len'.
Proof.
  intros Hi Hn. unfold live_step.
  assert (Hchoice : ∀ op d1, (if (length live =? 0)%nat then (0, d) else (uniform rng d 0 2, S d)) = (op, d1) →
    crun (stress_choice live) (at_orders m next d k) = Ok (op, at_orders m next d1 k) ∧ (op ≠ 0 → live ≠ [])).
  { intros op d1 E. unfold stress_choice. destruct live as [|r live]; simpl in E; injection E as <- <-; done. }
  destruct (if (length live =? 0)%nat then _ else _) as [op d1]. destruct (Hchoice op d1 eq_refl) as [Ec Hne].
  clear Hchoice. pose proof (stress_size _ _ _ Hi) as Hsz.
  assert (Hfin : ∀ live' next' m' d', 
    crun (stress_act op live) (at_orders m next d1 k) = Ok (live', at_orders m' next' d' (S k)) →
    stress_inv live' next' m' →
    crun (stress_op live) (at_orders m next d k) = Ok (live', at_orders m' next' d' (S k))).
  { intros live' next' m' d' E Hi'. unfold stress_op.
    rewrite rbind, Ec, bind_ok, rbind, E, bind_ok, rbind, (run_check it rng _ _ _ _ _ Hi'), bind_ok. done. }
  destruct (Z.eqb_spec op 0) as [->|H0]; [|destruct (Z.eqb_spec op 1) as [->|H1]]; intros Hlen.
  - destruct (act_add live next m d1 k Hi Hn) as (m' & E & Hi' & _); [lia|].
    exists (live ++ [next]), (next + 1), m'. split_and!; [by apply Hfin|done|lia|lia|].
    rewrite length_app. simpl. lia.
  - destruct (act_cancel live next m d1 k Hi) as (m' & E & Hi'); [by apply Hne|lia|].
    exists live, next, m'. split_and!; [by apply Hfin|done|lia|lia|done].
  - destruct (act_delete op live next m d1 k Hi) as (live' & m' & E & Hi' & Hl); [by apply Hne|lia|done|done|].
    exists live', next, m'. split_and!; [by apply Hfin|done|lia|lia|done].
Qed.

Lemma stress_ops_ok n live next m d k :
  stress_inv live next m → 1 ≤ next → next + Z.of_nat n < 2 ^ 64 →
  live_within 512 rng n (length live) d = true →
  ∃ live' u, crun (stress_ops n live) (at_orders m next d k) = Ok (live', u) ∧ passed u = true.
Proof.
  revert live next m d k. induction n as [|n IH]; intros live next m d k Hi Hn Hb Hl; [by do 2 eexists|].
  cbn [live_within stress_ops] in *.
  pose proof (stress_op_ok live next m d k Hi ltac:(lia)) as Hop.
  destruct (live_step rng (length live) d) as [len' d']. apply andb_true_iff in Hl as [Hle%Nat.leb_le Hl].
  destruct (Hop Hle) as (live' & next' & m' & E & Hi' & Hn' & <-).
  rewrite rbind, E, bind_ok. apply IH; [done|lia|lia|done].
Qed.

(** When every operation drawn is an add. *)
Lemma choice_add {B} `{BookApi B} live t :
  (∀ n, uniform rng n 0 2 = 0) → ∃ t', run it rng (stress_choice live) t = Ok (0, t') ∧ cl_book t' = cl_book t.
Proof.
  intros Hz. unfold stress_choice. destruct live; simpl; [by eexists|]. rewrite Hz. by eexists.
Qed.

Lemma stress_adds_ok n live next m d k :
  (∀ n, uniform rng n 0 2 = 0) → stress_inv live next m → 1 ≤ next →
  next + Z.of_nat n < 2 ^ 64 → (size m + n ≤ 512)%nat →
  ∃ live' next' m' d' k', crun (stress_ops n live) (at_orders m next d k) = Ok (live', at_orders m' next' d' k') ∧
    size m' = (size m + n)%nat.
Proof.
  intros Hz. revert live next m d k.
  induction n as [|n IH]; intros live next m d k Hi Hn Hb Hs; [do 5 eexists; split; [done|lia]|].
  destruct (choice_add (H := test_api) live (at_orders m next d k) Hz) as (t' & Ec & _).
  assert (∃ d1, t' = at_orders m next d1 k) as [d1 ->].
  { revert Ec. unfold stress_choice. destruct live; simpl; intros Et; simplify_eq; by eexists. }
  destruct (act_add live next m d1 k Hi) as (m' & E & Hi' & Hs'); [lia|lia|].
  cbn [stress_ops]. unfold stress_op at 1.
  rewrite !rbind, Ec, bind_ok, rbind, E, bind_ok, rbind, (run_check it rng _ _ _ _ _ Hi'), bind_ok.
  cbn [run]. rewrite bind_ok.
  destruct (IH (live ++ [next]) (next + 1) m' (S (S (S d1))) (S k) Hi') as (l & nx & mm & dd & kk & E' & Hs2);
    [lia|lia|lia|]. exists l, nx, mm, dd, kk. split; [exact E'|lia].
Qed.

End StressOp.

(** ** Lemmas: whole runs *)
Section Whole.
Context `{BuildMode} (it : nat → IterOrder) (rng : Rng).

Lemma setup_ok : @run _ test_api it rng _ SetUp start_client = Ok ((), at_orders ∅ 1 0 1).
Proof. done. Qed.

Lemma stress_inv_start : stress_inv [] 1 ∅.
Proof. by split. Qed.

Lemma run_ops_app {B} `{BookApi B} a b live (t : client B) :
  run it rng (stress_ops (a + b) live) t = '(l, t) ← run it rng (stress_ops a live) t; run it rng (stress_ops b l) t.
Proof.
  revert live t. induction a as [|a IH]; intros live t; [done|]. cbn [Nat.add stress_ops].
  rewrite !run_bind. destruct (run it rng (stress_op live) t) as [[l t']|]; [|done]. rewrite !bind_ok. apply IH.
Qed.

(** A number drawn. *)
Lemma run_draw_at {A} lo hi (f : Z → prog A) (t : client OrderBook) :
  run it rng (draw lo hi ≫= f) t =
    run it rng (f (uniform rng (draws t) lo hi))
      (mkClient (cl_book t) (next_ref_ t) (S (draws t)) (sends t) (passed t)).
Proof. done. Qed.

(** No room for another order. *)
Lemma act_add_full live (t : client OrderBook) :
  wf (cl_book t) → is_open (cl_book t) = true → size (order_map (cl_book t)) = pool_capacity (pool (cl_book t)) →
  run it rng (stress_act 0 live) t = Fault (if ndebug then NullDeref else AssertFailed).
Proof.
  intros Hw Ho Hs.
  assert (Hadd : ∀ sd p q t', cl_book t' = cl_book t →
    run it rng (add sd p q) t' = Fault (if ndebug then NullDeref else AssertFailed)).
  { intros sd p q t' Et. unfold add, test_make_add. simpl. rewrite Et. by rewrite on_add_exhausted. }
  assert (Htail : ∀ sd lo hi p t', cl_book t' = cl_book t →
    run it rng (delta ← draw lo hi; qty ← draw 1 1000; add sd (p delta) qty;;
                ref ← do_call LastRef; Ret (live ++ [ref])) t' = Fault (if ndebug then NullDeref else AssertFailed)).
  { intros sd lo hi p t' Et.
    by rewrite !run_draw_at, run_bind, Hadd. }
  unfold stress_act. rewrite Z.eqb_refl. cbv iota. rewrite run_draw_at.
  destruct (uniform rng (draws t) 0 1 =? 0); cbn [negb].
  - by refine (Htail ch_S 1 40 (λ delta, u32 (i32 t_kBid + delta * 100)) _ _).
  - by refine (Htail ch_B (-40) (-1) (λ delta, u32 (i32 t_kBid + delta * 100)) _ _).
Qed.

Lemma stress_full n live (t : client OrderBook) :
  (∀ n, uniform rng n 0 2 = 0) → wf (cl_book t) → is_open (cl_book t) = true →
  size (order_map (cl_book t)) = pool_capacity (pool (cl_book t)) →
  run it rng (stress_ops (S n) live) t = Fault (if ndebug then NullDeref else AssertFailed).
Proof.
  intros Hz Hw Ho Hs. destruct (choice_add it rng live t Hz) as (t' & Ec & Et).
  cbn [stress_ops]. unfold stress_op at 1. rewrite run_bind, run_bind, Ec, bind_ok, run_bind.
  rewrite act_add_full; rewrite ?Et; done.
Qed.

End Whole.

(** ** Theorems *)
Section Theorems.
Context `{BuildMode} (it : nat → IterOrder) (rng : Rng).

(** Every deterministic test of the fixture passes, in both builds and whatever
    the hash map's iteration order. *)
Theorem book_tests_pass :
  Forall (λ body, run_test it rng body = Ok true) book_tests ∧
  SystemEvent_PreOpen_OrdersIgnored it rng = Ok true.
Proof.
  split.
  - apply Forall_forall. intros body Hin.
    assert (Hall : forallb (λ body, passes_on_contract it rng 512 (SetUp;; body) start_client) book_tests = true)
      by (vm_compute; reflexivity).
    pose proof (proj1 (forallb_forall _ _) Hall body (proj1 (list_elem_of_In _ _) Hin)) as Hp. cbv beta in Hp.
    destruct (passes_on_contract_ok it rng 512 (SetUp;; body) start_client) as (b & u & Eb & E & Hu);
      [lia|lia|done|exact Hp|].
    cbn [next_ref_ draws sends passed start_client] in E. unfold run_test. by rewrite Eb, bind_ok, E, bind_ok, Hu.
  - unfold SystemEvent_PreOpen_OrdersIgnored.
    destruct (client_run (lo_bid := test_band) (lo_ask := test_band) it rng 512 SetUp () start_client (at_orders ∅ 1 0 1)) as (b & u & Eb & E & Hu);
      [lia|lia|done|done|].
    cbn [next_ref_ draws sends passed start_client] in E. rewrite Eb, bind_ok, E, bind_ok.
    destruct Hu as (_ & -> & -> & -> & ->). cbn [next_ref_ draws sends passed at_orders].
    destruct (passes_on_contract_ok it rng 16 SystemEvent_PreOpen_OrdersIgnored_body
      (mkClient empty_sbook 1 0 1 true)) as (c & v & Ec & Ev & Hv); [lia|lia|done|vm_compute; reflexivity|].
    cbn [next_ref_ draws sends passed] in Ev. by rewrite Ec, bind_ok, Ev, bind_ok, Hv.
Qed.

(** C17. The stress test.  For every sequence of random numbers (any values in the ranges of
    the distributions) that keeps at most 512 references live, the test passes: no operation
    faults, in both builds and whatever the hash map's iteration order, and after each one the
    best bid is below the best ask, if both sides have orders. *)
Theorem stress_random n :
  Z.of_nat n < 2 ^ 64 - 1 → live_within 512 rng n 0 0 = true →
  run_test it rng (Stress_RandomSequence n) = Ok true.
Proof.
  intros Hn Hl. destruct (stress_ops_ok it rng n [] 1 ∅ 0 1 stress_inv_start) as (l & u & E & Hu); [lia|lia|done|].
  rewrite (run_test_ok it rng _ u), Hu; [done|].
  rewrite run_bind, setup_ok, bind_ok. unfold Stress_RandomSequence. rewrite run_bind, E. done.
Qed.

(** When every operation drawn is an add, the 513th exhausts the fixture's pool: the test
    aborts in a debug build and is undefined in a release build. *)
Theorem stress_exhausts n :
  (∀ d, uniform rng d 0 2 = 0) → (512 < n)%nat →
  run_test it rng (Stress_RandomSequence n) = Fault (if ndebug then NullDeref else AssertFailed).
Proof.
  intros Hz Hn.
  destruct (stress_adds_ok it rng 512 [] 1 ∅ 0 1 Hz stress_inv_start) as (l & nx & m & d & k & E & Hm);
    [lia|lia|rewrite map_size_empty; lia|].
  destruct (client_run (lo_bid := test_band) (lo_ask := test_band) it rng 512 (SetUp;; stress_ops 512 []) l start_client (at_orders m nx d k))
    as (b & u & Eb & Eu & Hu); [lia|lia|done|by rewrite run_bind, setup_ok, bind_ok|].
  cbn [next_ref_ draws sends passed start_client] in Eu. rewrite run_bind in Eu.
  unfold run_test. rewrite Eb, bind_ok, run_bind.
  destruct (run it rng SetUp (mkClient b 1 0 0 true)) as [[[] t]|]; [|done].
  rewrite bind_ok in Eu. rewrite bind_ok.
  unfold Stress_RandomSequence. replace n with (512 + S (n - 513))%nat by lia.
  rewrite run_bind, run_ops_app, Eu, bind_ok.
  destruct Hu as (Ht & _). pose proof Ht as [Hs _]. pose proof (tracks_count _ _ Ht) as Hc.
  rewrite stress_full; [done|done|apply Hs|by rewrite (si_open _ _ _ Hs)|].
  rewrite (si_cap _ _ _ Hs). unfold book_order_count in Hc. cbn [cl_book s_orders at_orders] in Hc. rewrite map_size_empty in Hm. lia.
Qed.
End Theorems.

(** ** Instances *)
Lemma stress_random_witness :
  live_within 512 rng_max kOps 0 0 = true ∧
  @run_test debug_build (λ _, iter_backward) rng_max (Stress_RandomSequence kOps) = Ok true.
Proof.
  assert (Hl : live_within 512 rng_max kOps 0 0 = true) by (vm_compute; reflexivity).
  split; [exact Hl|].
  apply (@stress_random debug_build); [unfold kOps; rewrite Z2Nat.id; [reflexivity|discriminate]|exact Hl].
Defined.

Lemma stress_exhausts_witness :
  @run_test release_build (λ _, iter_forward) rng_min (Stress_RandomSequence kOps) = Fault NullDeref.
Proof.
  apply (@stress_exhausts release_build); [reflexivity|].
  apply Nat2Z.inj_lt. unfold kOps. rewrite Z2Nat.id; [reflexivity|discriminate].
Defined.
