(* ===== verification/BookHide.v ===== *)
(** * A book with an order its map has lost

    When the feed reuses a reference, an order can stay in its level after its entry has
    left the map.  [hide g c] is the book [c] without the map entry of [g].  As long as no
    window moves, no message finds the difference: each handler does to [hide g c] what it
    does to [c] ([hide_dispatch]).  Hence [hides R g]: a book that behaves as one related
    by [R] to the abstract book, the hidden order included, while the order itself can no
    longer be found. *)

From S2P Require Import Prelude Bytes Messages Parser Order PriceLevel OrderBook BookInv BookWf.
From S2P Require Import BookHandlers Dispatch Samples BookSpec Depth BookTheorems BookLimits BookView.

Definition hide (g : Z) (b : OrderBook) : OrderBook := set_order_map (delete g (order_map b)) b.

(** [b] hides the order [g] of a book that [R] relates to [s]. *)
Definition hides (R : OrderBook → SBook → Prop) (g : Z) (b : OrderBook) (s : SBook) : Prop :=
  ∃ c, R c s ∧ b = hide g c.

(** A price in the window of its side. *)
Definition windowed_at (b : OrderBook) (sd p i : Z) : Prop :=
  (if sd =? ch_B then bid_ref b else ask_ref b) ≠ 0 ∧
  (if sd =? ch_B then bid_idx b p else ask_idx b p) = Ok i ∧ in_range i = true.
Definition windowed (b : OrderBook) (sd p : Z) : Prop := ∃ i, windowed_at b sd p i.

(** A command that neither names [g] nor moves a window. *)
Definition spares (g : Z) (b : OrderBook) (c : command) : Prop :=
  match c with
  | CIgnore | COpen _ => True
  | CHalt => False
  | CAdd ref sd p _ => ref ≠ g ∧ windowed b sd p
  | CReduce ref _ | CDelete ref => ref ≠ g
  | CReplace old new p _ => old ≠ g ∧ new ≠ g ∧
      ∀ a o, order_map b !! old = Some a → heap_of b !! a = Some o → windowed b (side o) p
  end.

(** ** Lemmas: the map is read by the handlers only *)

(** Case analysis on a computation that both sides of an equation run. *)
Ltac run_both :=
  repeat (simpl; match goal with
  | |- context [mbind _ ?m] =>
      lazymatch m with (if _ then _ else _) => fail | mbind _ _ => fail | Ok _ => fail | _ => destruct m end
  | |- context [let '(_, _) := ?x in _] => is_var x; destruct x
  | |- context [if ?c then _ else _] => destruct c
  end); try reflexivity.

Section Map.
Context `{BuildMode}.

Lemma insert_at_map m b a i : insert_at (set_order_map m b) a i = set_order_map m <$> insert_at b a i.
Proof. unfold insert_at, heap_of. run_both. Qed.

Lemma remove_map m b a : book_remove_order (set_order_map m b) a = set_order_map m <$> book_remove_order b a.
Proof. unfold book_remove_order, advance_best_bid, advance_best_ask, heap_of. run_both. Qed.

Lemma reduce_map m b a n : book_reduce_shares (set_order_map m b) a n = set_order_map m <$> book_reduce_shares b a n.
Proof. unfold book_reduce_shares, heap_of. run_both. Qed.

End Map.

(** What a helper keeps: the map, the flag and the windows. *)
Record keeps (b b' : OrderBook) : Prop := {
  ks_map : order_map b' = order_map b;
  ks_open : is_open b' = is_open b;
  ks_bid : bid_ref b' = bid_ref b;
  ks_ask : ask_ref b' = ask_ref b;
}.

Section Commute.
Context `{BuildMode}.

Lemma insert_at_keeps b a i b' : insert_at b a i = Ok b' → keeps b b'.
Proof. unfold insert_at, heap_of. run_both; by intros [= <-]. Qed.

Lemma remove_keeps b a b' : book_remove_order b a = Ok b' → keeps b b'.
Proof.
  unfold book_remove_order, advance_best_bid, advance_best_ask, heap_of. run_both; by intros [= <-].
Qed.

Lemma reduce_keeps b a n b' : book_reduce_shares b a n = Ok b' → keeps b b'.
Proof. unfold book_reduce_shares, heap_of. run_both; by intros [= <-]. Qed.

Lemma windowed_keeps b b' sd p : keeps b b' → windowed b sd p → windowed b' sd p.
Proof. intros [_ _ Eb Ea]. unfold windowed, windowed_at, bid_idx, ask_idx. by rewrite Eb, Ea. Qed.

(** In the window an order is inserted at the index of its price. *)
Lemma insert_order_windowed it b a o i :
  heap_of b !! a = Some o → windowed_at b (side o) (price o) i → insert_order it b a = insert_at b a i.
Proof.
  intros Ha (Hr & Hi & Hir). unfold insert_order. rewrite (deref_ok _ _ _ Ha), bind_ok.
  pose proof Hir as [H0 H1]%in_range_true.
  destruct (side o =? ch_B); apply Z.eqb_neq in Hr; rewrite Hr, Hi, bind_ok, (proj2 (Z.ltb_ge i 0) H0),
    (proj2 (Z.leb_gt _ _) H1); cbn [orb]; by rewrite bind_ok, (cassert_true _ Hir), bind_ok.
Qed.

(** The new order holds what the message says. *)
Lemma make_order_fields p ref sh pr sd a p' :
  make_order p ref sh pr sd = Ok (a, p') → ∃ o, slots p' !! a = Some o ∧ side o = sd ∧ price o = pr.
Proof.
  unfold make_order. destruct (alloc p) as [[a1 p1]|]; [|done]. rewrite bind_ok. cbv beta iota.
  destruct (slots p1 !! a1) as [o|] eqn:Ha; [|].
  2: { assert (modify (slots p1) (Some a1) (set_order_ref ref) = Fault BadPointer) as -> by (unfold modify; by rewrite Ha). done. }
  heap_step. intros [= <- <-]. simpl. eexists. split; [apply list_lookup_insert_eq; by eapply lookup_lt_Some|done].
Qed.

(** The handlers' bodies on a book that hides [g]. *)
Lemma hide_add it g b ref sh p sd :
  ref ≠ g → windowed b sd p → add_body it (hide g b) ref sh p sd = hide g <$> add_body it b ref sh p sd.
Proof.
  intros Hne [i Hw]. unfold add_body. change (pool (hide g b)) with (pool b).
  destruct (make_order (pool b) ref sh p sd) as [[a pl]|] eqn:E; [|done]. rewrite !bind_ok.
  destruct (make_order_fields _ _ _ _ _ _ _ E) as (o & Ho & <- & <-).
  change (set_pool pl (hide g b)) with (set_order_map (delete g (order_map b)) (set_pool pl b)).
  rewrite (insert_order_windowed it (set_pool pl b) a o i Ho Hw).
  rewrite (insert_order_windowed it (set_order_map _ (set_pool pl b)) a o i Ho Hw), insert_at_map.
  destruct (insert_at (set_pool pl b) a i) as [b'|] eqn:Ei; [|done].
  apply insert_at_keeps in Ei as [Em _ _ _]. cbn. unfold hide. cbn. rewrite Em. cbn.
  by rewrite delete_insert_ne.
Qed.

Lemma hide_drop g b ref a : drop_body (hide g b) ref a = hide g <$> drop_body b ref a.
Proof.
  unfold drop_body. unfold hide at 1. rewrite remove_map. destruct (book_remove_order b a) as [b1|] eqn:E; [|done].
  apply remove_keeps in E as [Em _ _ _]. cbn [fmap outcome_fmap]. rewrite !bind_ok. cbv zeta. cbn [pool set_order_map].
  destruct (free (pool b1) (Some a)) as [p|]; [|done]. cbn. unfold hide. cbn. by rewrite Em, delete_delete.
Qed.

Lemma drop_windowed b ref a b' sd p : drop_body b ref a = Ok b' → windowed b sd p → windowed b' sd p.
Proof.
  unfold drop_body. destruct (book_remove_order b a) as [b1|] eqn:E; [|done]. apply remove_keeps in E.
  rewrite bind_ok. cbv zeta. destruct (free _ _) as [pl|]; [|done]. intros [= <-]. exact (windowed_keeps b b1 sd p E).
Qed.

Lemma hide_reduce g b ref n : ref ≠ g → reduce_body (hide g b) ref n = hide g <$> reduce_body b ref n.
Proof.
  intros Hne. unfold reduce_body. cbn [order_map hide set_order_map]. rewrite lookup_delete_ne by done.
  destruct (order_map b !! ref) as [a|]; [|done]. unfold hide at 1. rewrite reduce_map.
  destruct (book_reduce_shares b a n) as [b1|] eqn:E; [|done]. apply reduce_keeps in E as [Em _ _ _].
  cbn. change (heap_of (set_order_map _ b1)) with (heap_of b1). destruct (deref (heap_of b1) (Some a)) as [c|]; [|done].
  rewrite !bind_ok. destruct (shares c =? 0).
  - rewrite <-Em. apply hide_drop.
  - unfold hide. cbn. by rewrite Em.
Qed.

Lemma hide_dispatch it g b m :
  spares g b (command_of m) → dispatch it (hide g b) m = hide g <$> dispatch it b m.
Proof.
  destruct m as [|m|m|m|m|m|m|m|m|m]; cbn [command_of spares dispatch]; try done.
  - unfold on_system_event. destruct (sys_event_code m =? ch_O); [done|].
    destruct (sys_event_code m =? ch_C); [done|]. by destruct (sys_event_code m =? ch_H).
  - intros [Hne Hw]. rewrite !on_add_unfold. change (is_open (hide g b)) with (is_open b).
    destruct (is_open b); [by apply hide_add|done].
  - intros [Hne Hw]. change (is_open (hide g b)) with (is_open b).
    change (on_add_mpid it ?c m) with (if negb (is_open c) then Ok c else add_body it c (be64 (mpid_order_ref_num m))
      (be32 (mpid_shares m)) (be32 (mpid_price m)) (mpid_buy_sell m)).
    change (is_open (hide g b)) with (is_open b). destruct (is_open b); [by apply hide_add|done].
  - intros Hne. exact (hide_reduce g b _ _ Hne).
  - intros Hne. exact (hide_reduce g b _ _ Hne).
  - intros Hne. exact (hide_reduce g b _ _ Hne).
  - intros Hne. rewrite !on_delete_unfold. cbn [order_map hide set_order_map]. rewrite lookup_delete_ne by done.
    destruct (order_map b !! _) as [a|]; [apply hide_drop|done].
  - intros (Ho & Hn & Hw). rewrite !on_replace_unfold. cbn [order_map hide set_order_map].
    rewrite lookup_delete_ne by done. destruct (order_map b !! _) as [a|] eqn:Ea; [|done].
    change (heap_of (hide g b)) with (heap_of b). unfold deref. destruct (heap_of b !! a) as [c|] eqn:Ec; [|done].
    rewrite !bind_ok, hide_drop. destruct (drop_body b _ a) as [b1|] eqn:E1; [|done].
    apply hide_add; [done|]. eapply drop_windowed; [done|by eapply Hw].
Qed.
End Commute.

Lemma windowed_at_idx sd b p :
  refp sd b ≠ 0 → 0 ≤ refp sd b < 2 ^ 31 → 0 ≤ p < 2 ^ 31 → in_range (price_idx sd (refp sd b) p) = true →
  windowed_at b (side_char sd) p (price_idx sd (refp sd b) p).
Proof.
  intros Hr0 Hr Hp Hir. pose proof (idx_of_ok sd b p) as Hi. unfold windowed_at. rewrite side_char_B.
  destruct sd; simpl in *; (split_and!; [done|by apply Hi|done]).
Qed.

(** Where a live order stands, a new one of its side and price needs no new window. *)
Lemma simulates_windowed cap b s ref o :
  simulates cap b s → s_orders s !! ref = Some o → windowed b (s_side o) (s_price o).
Proof.
  intros Hs Hl. destruct (si_wf _ _ _ Hs) as (q & fs & Hw). pose proof (wf_core _ _ _ Hw) as Hc.
  destruct (simulates_live _ _ _ _ _ Hs Hl) as (a & oc & Hm & Ha & Hidx & ->). simpl in *.
  destruct (co_live _ _ Hc _ _ Hm) as (o' & sd & Ha' & _ & Hsd & Hp & [?|Hin]); [congruence|].
  assert (o' = oc) as -> by congruence. pose proof (co_refs _ _ Hc sd) as Hr.
  pose proof (simulates_window _ _ _ _ _ sd Hs Hl Hsd) as Hwin. simpl in Hwin.
  assert (Hr0 : refp sd b ≠ 0) by (intros E; rewrite (co_ref0 _ _ Hc sd E) in Hin; by apply elem_of_nil in Hin).
  rewrite Hsd. eexists. apply windowed_at_idx; [done|lia|lia|done].
Qed.

(** ** Lemmas: what a client sees *)
Section Hidden.
Context `{BuildMode} {R : OrderBook → SBook → Prop} {ok : SBook → ParsedMessage → bool} {V : BookView R ok}.

Lemma hides_step g b s it m :
  hides R g b s → ok s m = true → spares g b (command_of m) →
  ∃ b', dispatch it b m = Ok b' ∧ hides R g b' (spec_step s m).
Proof.
  intros (c & Hc & ->) Hok Hsp. destruct (view_step it c s m Hc Hok) as (c' & E & Hc').
  exists (hide g c'). split; [|by exists c']. rewrite hide_dispatch, E; [done|].
  destruct (command_of m); try exact Hsp. destruct Hsp as (Ho & Hn & Hw). split_and!; [done..|].
  intros a o Hm Ha. apply (Hw a o); [|done]. simpl. by rewrite lookup_delete_ne.
Qed.

Lemma hides_bbo g b s : hides R g b s → best_bid_offer b = Ok (spec_bbo (s_orders s)).
Proof. intros (c & Hc & ->). exact (view_bbo c s Hc). Qed.

Lemma hides_count g b s : hides R g b s → book_order_count b = Z.of_nat (size (delete g (s_orders s))).
Proof.
  intros (c & Hc & ->). pose proof (view_count c s Hc) as Hn. pose proof (view_has c s g Hc) as Hg.
  unfold book_order_count, has_order in *. simpl. rewrite !map_size_delete.
  destruct (order_map c !! g), (s_orders s !! g); unfold id; try lia; discriminate Hg.
Qed.

Lemma hides_has g b s ref :
  hides R g b s → has_order b ref = bool_decide (is_Some (delete g (s_orders s) !! ref)).
Proof.
  intros (c & Hc & ->). destruct (decide (g = ref)) as [->|Hne].
  - unfold has_order. simpl. by rewrite !lookup_delete_eq.
  - rewrite lookup_delete_ne by done. rewrite <-(view_has c s ref Hc). unfold has_order. simpl.
    by rewrite lookup_delete_ne.
Qed.

Lemma hides_open g b s : hides R g b s → is_open b = s_open s.
Proof. intros (c & Hc & ->). exact (view_open c s Hc). Qed.

End Hidden.
