(* ===== verification/BookReuse.v ===== *)
(** * Reusing a live reference number

    The exchange never reuses the reference of a live order, and the book does not check:
    the second add overwrites the map entry, so the older order stays in its level but no
    message can reach it any more.  Proved here for an add in the window followed by a
    delete of the same reference: every level and the best bid and offer are as before,
    the older order included, but the reference is no longer known: the book is the one
    before with that entry hidden ([BookHide]). *)

From S2P Require Import Prelude Bytes Messages Parser Order PriceLevel OrderBook BookInv BookWf.
From S2P Require Import BookHandlers Dispatch Samples BookSpec Depth BookTheorems BookLimits BookView BookHide.

(** What the levels of a book show. *)
Definition same_levels (b b' : OrderBook) : Prop :=
  ∀ sd i, total_qty (levels sd b' !!! i) = total_qty (levels sd b !!! i) ∧
    order_count (levels sd b' !!! i) = order_count (levels sd b !!! i).

(** ** Lemmas: books with the same queues *)
Lemma best_ok_unique k1 k2 (q : Z → list addr) : best_ok k1 q → best_ok k2 q → k1 = k2.
Proof.
  intros [[-> H1]|(P1 & N1 & L1)] [[-> H2]|(P2 & N2 & L2)]; [done| | |].
  - by rewrite H1 in N2.
  - by rewrite H2 in N1.
  - destruct (Z.lt_trichotomy k1 k2) as [?|[?|?]]; [by destruct N1; apply L2|done|by destruct N2; apply L1].
Qed.

Lemma same_queues_levels b b' q :
  sides_ok b q → sides_ok b' q →
  (∀ sd i a, a ∈ q sd i → shares_of (heap_of b') a = shares_of (heap_of b) a) →
  (∀ sd, refp sd b' = refp sd b) →
  same_levels b b' ∧ best_bid_offer b' = best_bid_offer b.
Proof.
  intros [_ Hss] [_ Hss'] Hsh Hr.
  assert (Hl : same_levels b b').
  { intros sd i. destruct (sk_rep _ _ _ _ _ _ (Hss sd) i), (sk_rep _ _ _ _ _ _ (Hss' sd) i).
    split; [|congruence]. rewrite lr_qty0, lr_qty. apply qty_frame. intros a Ha. by eapply Hsh. }
  split; [done|].
  assert (Hb : ∀ sd, best sd b' = best sd b).
  { intros sd. eapply best_ok_unique; [apply (sk_best _ _ _ _ _ _ (Hss' sd))|apply (sk_best _ _ _ _ _ _ (Hss sd))]. }
  pose proof (Hb Bid) as Eb. pose proof (Hb Ask) as Ea. pose proof (Hr Bid) as Rb. pose proof (Hr Ask) as Ra.
  simpl in *. unfold best_bid_offer, level_at, price_from_bid_idx, price_from_ask_idx.
  rewrite Eb, Ea, Rb, Ra. pose proof (proj1 (Hl Bid (best_bid_idx b))) as Tb.
  pose proof (proj1 (Hl Ask (best_ask_idx b))) as Ta. simpl in *.
  destruct (0 <=? best_bid_idx b), (in_range (best_bid_idx b)); simpl; rewrite ?Tb;
    destruct (0 <=? best_ask_idx b), (in_range (best_ask_idx b)); simpl; by rewrite ?Ta.
Qed.

(** Outside slot [a], the heap keeps its contents up to the links, and the slots that are in
    no queue keep everything. *)
Record untouched (q : queues) (a : addr) (h h' : heap) : Prop := {
  un_data : ∀ c, c ≠ a → erase_links <$> h' !! c = erase_links <$> h !! c;
  un_frame : ∀ c, c ≠ a → (∀ sd i, c ∉ q sd i) → h' !! c = h !! c;
  un_length : length h' = length h;
}.

#[export] Instance untouched_trans q a : Transitive (untouched q a).
Proof.
  intros h1 h2 h3 [D1 F1 L1] [D2 F2 L2]. split; [|intros c Hc Hq|congruence].
  - intros c Hc. by rewrite D2, D1.
  - by rewrite F2, F1.
Qed.

Lemma untouched_shares q a h h' c : untouched q a h h' → c ≠ a → shares_of h' c = shares_of h c.
Proof.
  intros [Hd _ _] Hc. specialize (Hd c Hc). unfold shares_of.
  destruct (h !! c) as [o|], (h' !! c) as [o'|]; simpl in Hd; try done. by inversion Hd.
Qed.

Lemma untouched_lookup q a h h' c o :
  untouched q a h h' → c ≠ a → h !! c = Some o → ∃ o', h' !! c = Some o' ∧ erase_links o' = erase_links o.
Proof.
  intros [Hd _ _] Hc Ho. specialize (Hd c Hc). rewrite Ho in Hd. destruct (h' !! c) as [o'|]; [|done].
  exists o'. split; [done|]. by apply (inj Some) in Hd.
Qed.

(** A step that rewrites slot [a] and the links of queued slots. *)
Lemma untouched_step q a h h' o :
  same_data (<[a := o]> h) h' → (∀ c, c ≠ a → (∀ sd i, c ∉ q sd i) → h' !! c = h !! c) → untouched q a h h'.
Proof.
  intros Hd Hfr. split; [|done|].
  - intros c Hc. rewrite <-!list_lookup_fmap. unfold same_data in Hd.
    by rewrite <-Hd, !list_lookup_fmap, list_lookup_insert_ne.
  - by rewrite (same_data_length _ _ Hd), length_insert.
Qed.

Lemma untouched_insert q a (h : heap) o : untouched q a h (<[a := o]> h).
Proof. apply (untouched_step q a h _ o); [done|]. intros c Hc _. by apply list_lookup_insert_ne. Qed.

Section Reuse.
Context `{BuildMode}.

(** A new slot [a] linked into the window and unlinked again: the queues are as before. *)
Lemma link_unlink b q sd i a o :
  sides_ok b q → heap_of b !! a = Some o → level_idx o < 0 → side o = side_char sd →
  price_idx sd (refp sd b) (price o) = i → 0 ≤ i < kLevels →
  ∃ b1, insert_at b a i = Ok b1 ∧ same_meta b b1 ∧
    ∀ m, ∃ b2 oa, book_remove_order (set_order_map m b1) a = Ok b2 ∧ sides_ok b2 q ∧
      order_map b2 = m ∧ is_open b2 = is_open b ∧ (∀ sd', refp sd' b2 = refp sd' b) ∧
      heap_of b2 !! a = Some oa ∧ free_head (pool b2) = free_head (pool b) ∧ untouched q a (heap_of b) (heap_of b2).
Proof.
  intros Hok Ha Hneg Hsd Hidx Hi.
  destruct (insert_at_ok b q sd i a o Hok Ha Hneg Hsd Hidx Hi) as (b1 & E1 & Hok1 & Hm1 & Hd1 & Hf1).
  exists b1. split; [done|]. split; [done|]. intros m.
  assert (Hlt : (a < length (heap_of b))%nat) by (by eapply lookup_lt_Some).
  destruct (same_data_lookup _ _ a (set_level_idx i o) Hd1) as (o1 & Ho1 & _); [by apply list_lookup_insert_eq|].
  assert (Hok1' : sides_ok (set_order_map m b1) (q_set q sd i (q sd i ++ [a]))).
  { destruct Hok1 as [Hh Hss]. split; [exact Hh|]. intros sd'. specialize (Hss sd'). by destruct sd'. }
  destruct (book_remove_order_ok (set_order_map m b1) _ sd i (q sd i) a [] o1 Hok1') as
    (b2 & E2 & Hok2 & Hm2 & Hd2 & Hf2); [done|by rewrite q_set_eq, fn_lookup_insert|].
  assert (Hlt1 : (a < length (heap_of b1))%nat) by (by eapply lookup_lt_Some).
  destruct (same_data_lookup _ _ a (set_level_idx (-1) o1) Hd2) as (oa & Hoa & _); [by apply list_lookup_insert_eq|].
  exists b2, oa. split_and!; [done| |apply Hm2|rewrite (sm_open _ _ Hm2); apply Hm1| |done| |].
  - eapply sides_ok_ext; [|exact Hok2]. intros sd' j. rewrite app_nil_r.
    destruct (decide (sd = sd')) as [<-|Hne]; [|by rewrite !q_set_ne].
    rewrite q_set_eq. destruct (decide (i = j)) as [<-|Hij]; [by rewrite fn_lookup_insert|].
    by rewrite fn_lookup_insert_ne, q_set_eq, fn_lookup_insert_ne.
  - intros sd'. rewrite (sm_ref _ _ Hm2), <-(sm_ref _ _ Hm1). by destruct sd'.
  - rewrite (sm_free _ _ Hm2). apply Hm1.
  - trans (heap_of b1); eapply untouched_step; [exact Hd1| |exact Hd2|].
    + intros c Hne Hn. apply Hf1. apply not_elem_of_cons. split; [done|]. intros Hin. by eapply Hn.
    + intros c Hne Hn. apply Hf2. rewrite q_set_eq, fn_lookup_insert. rewrite elem_of_app, list_elem_of_singleton.
      intros [Hin| ->]; [by eapply Hn|done].
Qed.

(** The book [c] holds what [b] holds, slot [a] apart. *)
Record same_book (q : queues) (a : addr) (b c : OrderBook) : Prop := {
  sb_map : order_map c = order_map b;
  sb_open : is_open c = is_open b;
  sb_refs : ∀ sd, refp sd c = refp sd b;
  sb_heap : untouched q a (heap_of b) (heap_of c);
}.

Lemma same_book_wf q a fs b c :
  book_wf b q (a :: fs) → same_book q a b c → sides_ok c q → pool_ok (pool c) (a :: fs) → book_wf c q (a :: fs).
Proof.
  intros Hw [Em _ Er Hh] Hok Hp. pose proof (wf_core _ _ _ Hw) as Hc.
  pose proof (free_head_fresh _ _ _ _ Hw) as Hf. pose proof (un_length _ _ _ _ Hh) as Hl. split; [|done|..].
  - split; [done| |intros sd i x; rewrite Em; apply Hc|intros sd; rewrite Er; apply Hc|intros sd; rewrite Er; apply Hc].
    intros ref x. rewrite Em. intros Hx. destruct (co_live _ _ Hc _ _ Hx) as (o & sd & Ho & Hlive).
    destruct (untouched_lookup _ _ _ _ x o Hh) as (o' & Ho' & E); [intros ->; by apply (Hf ref)|done|].
    exists o', sd. split; [done|]. by destruct o, o'; inversion E; subst.
  - rewrite Em, Hl. apply Hw.
  - rewrite Hl. apply Hw.
Qed.

Lemma same_book_abs q a fs b c :
  book_wf b q (a :: fs) → same_book q a b c → abs_orders c = abs_orders b ∧ (attached b → attached c).
Proof.
  intros Hw [Em _ _ Hh]. pose proof (free_head_fresh _ _ _ _ Hw) as Hf.
  assert (Hd : ∀ ref x, order_map b !! ref = Some x → erase_links <$> heap_of c !! x = erase_links <$> heap_of b !! x).
  { intros ref x Hx. apply (un_data _ _ _ _ Hh). intros ->. by apply (Hf ref). }
  split.
  - unfold abs_orders. rewrite Em. apply map_eq. intros ref. rewrite !lookup_omap.
    destruct (order_map b !! ref) as [x|] eqn:Hx; [|done]. specialize (Hd ref x Hx). simpl.
    destruct (heap_of c !! x) as [o'|], (heap_of b !! x) as [o|]; simpl in *; try done.
    f_equal. destruct o, o'. by inversion Hd.
  - intros Hatt ref x o'. rewrite Em. intros Hx Ho'. specialize (Hd ref x Hx). rewrite Ho' in Hd.
    destruct (heap_of b !! x) as [o|] eqn:Ho; [|done]. specialize (Hatt ref x o Hx Ho).
    destruct o, o'. by inversion Hd; subst.
Qed.

Lemma same_book_simulates q a fs cap b c s :
  book_wf b q (a :: fs) → same_book q a b c → book_wf c q (a :: fs) → simulates cap b s → simulates cap c s.
Proof.
  intros Hw Hb Hw' [_ Ha Ho Hp Hcap]. destruct (same_book_abs _ _ _ _ _ Hw Hb) as [Eo Hatt].
  destruct Hb as [_ Eop _ Hh]. split; [by exists q, (a :: fs)|by apply Hatt|congruence|congruence|].
  rewrite <-Hcap. apply Hh.
Qed.

Lemma same_book_tracks q a fs cap lo_bid lo_ask b c s :
  book_wf b q (a :: fs) → same_book q a b c → book_wf c q (a :: fs) →
  tracks cap lo_bid lo_ask b s → tracks cap lo_bid lo_ask c s.
Proof.
  intros Hw Hb Hw' [Hs Hbd]. split; [exact (same_book_simulates q a fs cap b c s Hw Hb Hw' Hs)|]. intros sd. rewrite (sb_refs _ _ _ _ Hb). apply Hbd.
Qed.

Lemma same_book_shows q a fs b c :
  book_wf b q (a :: fs) → same_book q a b c → book_wf c q (a :: fs) →
  same_levels b c ∧ best_bid_offer c = best_bid_offer b.
Proof.
  intros Hw Hb Hw'. apply (same_queues_levels b c q); [apply Hw|apply Hw'| |apply Hb].
  intros sd i x Hin. apply (untouched_shares q a); [apply Hb|]. intros ->. revert Hin.
  eapply not_live_not_queued; [apply Hw|]. by eapply free_head_fresh.
Qed.

(** Freeing a slot that no queue holds. *)
Lemma free_outside b q a oa fs m :
  sides_ok b q → heap_of b !! a = Some oa → (∀ sd i, a ∉ q sd i) → pool_ok (pool b) fs → a ∉ fs →
  ∃ p, free (pool b) (Some a) = Ok p ∧ sides_ok (set_pool p (set_order_map m b)) q ∧
    pool_ok p (a :: fs) ∧ untouched q a (heap_of b) (slots p).
Proof.
  intros [Hh Hss] Ha Hnin Hp Hfs. destruct (free_ok (pool b) a oa fs Hp Ha Hfs) as (p & E & Hp' & Hs).
  exists p. split_and!; [done| |done|rewrite Hs; apply untouched_insert]. split.
  - unfold heap_of. simpl. rewrite Hs. by apply heap_ok_insert.
  - intros sd. pose proof (Hss sd) as Hsd. eapply side_ok_frame in Hsd; [by destruct sd; exact Hsd|].
    intros i c Hc. unfold heap_of. simpl. rewrite Hs. apply list_lookup_insert_ne. intros ->. by eapply Hnin.
Qed.

(** A replace of an unknown reference is ignored. *)
Lemma replace_absent it b rep :
  order_map b !! be64 (repl_original_order_ref_num rep) = None → on_replace it b rep = Ok b.
Proof. intros E. unfold on_replace. by rewrite E. Qed.

(** The two calls, for any reference: the queues and everything they show come back, the
    reference leaves the map, and everything else is as before. *)
Lemma add_delete_queues it b q a fs add del sd :
  let ref := be64 (add_order_ref_num add) in
  book_wf b q (a :: fs) → is_open b = true → be64 (del_order_ref_num del) = ref →
  add_buy_sell add = side_char sd → price_ok (be32 (add_price add)) = true →
  refp sd b ≠ 0 → in_range (price_idx sd (refp sd b) (be32 (add_price add))) = true →
  ∃ b1 c, on_add it b add = Ok b1 ∧ on_delete b1 del = Ok (hide ref c) ∧
    same_book q a b c ∧ book_wf c q (a :: fs).
Proof.
  intros ref Hbw Hopen Hdel Hside Hpr%price_ok_true Hr0 Hir.
  pose proof (free_head_fresh _ _ _ _ Hbw) as Hfresh. pose proof (wf_core _ _ _ Hbw) as Hcore.
  assert (Hnin : ∀ sd' i, a ∉ q sd' i) by (intros; by eapply not_live_not_queued).
  destruct (make_pending b q a fs ref (be32 (add_shares add)) (be32 (add_price add)) sd Hbw (be32_bound _) Hpr)
    as (p & E & Hp & Hs & Hlt & Hc & Hpe).
  pose proof (co_refs _ _ Hcore sd) as Hrange.
  assert (Hrp : ∀ sd', refp sd' (set_pool p b) = refp sd' b) by (by intros []).
  pose proof (windowed_at_idx sd (set_pool p b) (be32 (add_price add))) as Hwin. rewrite !Hrp in Hwin.
  specialize (Hwin Hr0 Hrange ltac:(lia) Hir).
  destruct (link_unlink (set_pool p b) q sd (price_idx sd (refp sd b) (be32 (add_price add))) a _ (co_sides _ _ Hc)
    (pe_heap _ _ _ _ Hpe)) as (b1 & E1 & Hm1 & Hrest);
    [done|done|by rewrite Hrp|by apply in_range_true|].
  destruct (Hrest (<[ref := a]> (order_map b1))) as (b2 & oa & E2 & Hok2 & Hmap2 & Hop2 & Hrf2 & Hoa & Hfh & Hun).
  pose proof (po_nodup _ _ (wf_pool _ _ _ Hbw)) as [Hafs _]%NoDup_cons.
  destruct (free_outside b2 q a oa fs (order_map b) Hok2 Hoa Hnin) as (pf & E3 & Hok3 & Hp3 & Hun3); [|done|].
  { split; [|apply Hp]. rewrite Hfh. eapply free_list_frame; [apply Hp|]. intros c Hin.
    apply (un_frame _ _ _ _ Hun); [by intros ->|]. intros sd' i. eapply not_live_not_queued; [done|].
    intros r. apply (free_not_live b q (a :: fs)); [done|apply elem_of_cons; by right]. }
  pose proof (sm_map _ _ Hm1) as Em. simpl in Em.
  assert (Hsame : same_book q a b (set_pool pf (set_order_map (order_map b) b2))).
  { split; [done|exact Hop2|intros sd'; rewrite <-(Hrp sd'), <-Hrf2; by destruct sd'|].
    trans (heap_of b2); [|exact Hun3]. trans (heap_of (set_pool p b)); [|exact Hun].
    unfold heap_of at 2. simpl. rewrite Hs. apply untouched_insert. }
  exists (set_order_map (<[ref := a]> (order_map b1)) b1), (set_pool pf (set_order_map (order_map b) b2)).
  split_and!; [| |exact Hsame|by eapply same_book_wf].
  - rewrite on_add_unfold, Hopen. cbn [negb]. unfold add_body. fold ref. rewrite Hside, E, bind_ok. simpl.
    rewrite (insert_order_windowed it (set_pool p b) a _ _ (pe_heap _ _ _ _ Hpe) Hwin). by rewrite E1, bind_ok.
  - rewrite on_delete_unfold, Hdel. cbn [order_map set_order_map]. rewrite lookup_insert_eq.
    unfold drop_body. rewrite E2, bind_ok. cbv zeta. cbn [pool set_order_map]. rewrite E3, bind_ok, Hmap2, Em.
    cbn. by rewrite delete_insert_eq.
Qed.

(** C15. A reused reference.  In a well-formed open book with room, an add in the window of its
    side that reuses the reference of a live order succeeds, and so does the delete of that
    reference that follows.  Then every level shows what it showed before the add, and so
    does the best bid and offer: the older order is still counted.  But its reference is no
    longer in the map: it is never removed, and a replace of it is ignored.  That entry is
    all that is missing: whatever set of orders the book implemented, it is the book of the
    same set, the older order included, with the entry hidden. *)
Theorem reused_reference it b add del sd :
  let ref := be64 (add_order_ref_num add) in
  wf b → is_open b = true → (size (order_map b) < pool_capacity (pool b))%nat →
  has_order b ref = true → be64 (del_order_ref_num del) = ref →
  add_buy_sell add = side_char sd → price_ok (be32 (add_price add)) = true →
  refp sd b ≠ 0 → in_range (price_idx sd (refp sd b) (be32 (add_price add))) = true →
  ∃ b1 b2, on_add it b add = Ok b1 ∧ on_delete b1 del = Ok b2 ∧
    same_levels b b2 ∧ best_bid_offer b2 = best_bid_offer b ∧
    order_map b2 = delete ref (order_map b) ∧
    (∀ cap s, simulates cap b s → hides (simulates cap) ref b2 s) ∧
    ∀ it' rep, be64 (repl_original_order_ref_num rep) = ref → on_replace it' b2 rep = Ok b2.
Proof.
  intros ref Hw Hopen Hroom Hlive Hdel Hside Hpr Hr0 Hir.
  destruct (wf_room_free b Hw Hroom) as (q & a & fs & Hbw).
  destruct (add_delete_queues it b q a fs add del sd Hbw Hopen Hdel Hside Hpr Hr0 Hir)
    as (b1 & c & E1 & E2 & Hsame & Hcw).
  destruct (same_book_shows _ _ _ _ _ Hbw Hsame Hcw) as [Hlv Hbbo].
  exists b1, (hide ref c). split_and!; [done|done|exact Hlv|exact Hbbo| | |].
  - simpl. by rewrite (sb_map _ _ _ _ Hsame).
  - intros cap s Hs. exists c. split; [exact (same_book_simulates q a fs cap b c s Hbw Hsame Hcw Hs)|done].
  - intros it' rep Hrep. apply replace_absent. rewrite Hrep. apply lookup_delete_eq.
Qed.

End Reuse.

(** ** Witness: the live bid 1 of the sample book *)
Lemma reused_reference_witness :
  ∃ b1 b2, @on_add debug_build iter_forward sample_book (sample_add_msg 1 ch_B 100 1500000) = Ok b1 ∧
    @on_delete debug_build b1 (sample_delete_msg 1) = Ok b2 ∧
    has_order b2 1 = false ∧ best_bid_offer b2 = best_bid_offer sample_book.
Proof.
  destruct (@reused_reference debug_build iter_forward sample_book (sample_add_msg 1 ch_B 100 1500000)
    (sample_delete_msg 1) Bid (si_wf _ _ _ sample_simulates)
    ltac:(by_vm) ltac:(by_vm) ltac:(by_vm) ltac:(by_vm) ltac:(by_vm) ltac:(by_vm) ltac:(by_vm) ltac:(by_vm))
    as (b1 & b2 & E1 & E2 & _ & Hb & Hm & _ & _).
  exists b1, b2. split; [exact E1|]. split; [exact E2|]. split; [|exact Hb].
  unfold has_order. rewrite Hm. vm_compute. reflexivity.
Defined.
