(* ===== verification/BookFifo.v ===== *)
(** * Time priority

    [level_refs b sd i] is the queue of level [i] as the list of order references, head
    (oldest) first.  Orders join at the back, leave without disturbing the others, and
    keep their place when they are partially executed, as long as no recentring
    happens; a recentring rebuilds the queues in the hash map's iteration order. *)

From S2P Require Import Prelude Bytes Messages Parser Order PriceLevel OrderBook BookInv BookWf.
From S2P Require Import BookHandlers Dispatch Samples BookSpec Depth BookTheorems BookLimits.

(** ** Definitions *)
Definition ref_at (h : heap) (a : addr) : Z := default 0 (order_ref <$> h !! a).

Definition level_refs (b : OrderBook) (sd : bside) (i : Z) : list Z :=
  ref_at (heap_of b) <$> level_queue (heap_of b) (levels sd b !!! i).

(** The live order [ref] belongs to level [i] of side [sd] when the reference price is
    [p]. *)
Definition on_level (b : OrderBook) (sd : bside) (p i ref : Z) : bool :=
  match abs_orders b !! ref with
  | Some o => (s_side o =? side_char sd) && (price_idx sd p (s_price o) =? i) && in_range i
  | None => false
  end.

(** ** Lemmas *)
Lemma level_refs_queue b q sd i : core b q → level_refs b sd i = ref_at (heap_of b) <$> q sd i.
Proof.
  intros Hc. unfold level_refs. f_equal. apply level_queue_rep.
  apply (sk_rep _ _ _ _ _ _ (ss_side _ _ (co_sides _ _ Hc) sd)).
Qed.

Lemma ref_at_live b q ref a : core b q → order_map b !! ref = Some a → ref_at (heap_of b) a = ref.
Proof.
  intros Hc Hm. destruct (co_live _ _ Hc _ _ Hm) as (o & _ & Ho & Hr & _). unfold ref_at. by rewrite Ho.
Qed.

(** Queues of live orders have the same references in every book that maps them alike. *)
Lemma refs_frame b b' q q' (l : list addr) :
  core b q → core b' q' → (∀ a, a ∈ l → ∃ ref, order_map b !! ref = Some a ∧ order_map b' !! ref = Some a) →
  ref_at (heap_of b') <$> l = ref_at (heap_of b) <$> l.
Proof.
  intros Hc Hc' Hl. apply list_fmap_ext. intros i a Ha.
  destruct (Hl a) as (ref & H1 & H2); [by eapply list_elem_of_lookup_2|].
  by rewrite (ref_at_live _ _ _ _ Hc H1), (ref_at_live _ _ _ _ Hc' H2).
Qed.

Lemma refs_filter b q ref a (l : list addr) :
  core b q → order_map b !! ref = Some a → (∀ c, c ∈ l → ∃ r, order_map b !! r = Some c) →
  ref_at (heap_of b) <$> filter (λ x, x ≠ a) l = filter (λ r, r ≠ ref) (ref_at (heap_of b) <$> l).
Proof.
  intros Hc Hm Hl. rewrite filter_fmap_comm. f_equal. apply filter_ext_in.
  intros c Hcin. destruct (Hl c Hcin) as (r & Hr). rewrite (ref_at_live _ _ _ _ Hc Hr).
  split.
  - intros Hne ->. congruence.
  - intros Hne ->. by apply Hne, (core_inj _ _ _ _ _ Hc Hr Hm).
Qed.

(** The queues once the live order [ref] at [a] is gone. *)
Lemma level_refs_removed b b' q q' ref a sd i :
  core b q → core b' q' → order_map b !! ref = Some a → order_map b' = delete ref (order_map b) →
  q' sd i = filter (λ x, x ≠ a) (q sd i) →
  level_refs b' sd i = filter (λ r, r ≠ ref) (level_refs b sd i).
Proof.
  intros Hc Hc' Hm Hm' Hq. rewrite (level_refs_queue _ _ _ _ Hc), (level_refs_queue _ _ _ _ Hc'), Hq.
  rewrite <-(refs_filter b q ref a) by (done || (intros c; apply (co_queued _ _ Hc))).
  eapply refs_frame; [done..|]. intros c [Hca Hcin]%list_elem_of_filter.
  destruct (co_queued _ _ Hc _ _ _ Hcin) as [r Hr]. exists r. split; [done|].
  rewrite Hm', lookup_delete_ne; [done|]. intros <-. congruence.
Qed.

Lemma at_level_on_level b sd p i ref a :
  order_map b !! ref = Some a → at_level (heap_of b) sd p i a = on_level b sd p i ref.
Proof.
  intros Hm. unfold at_level, on_level, abs_orders. rewrite lookup_omap, Hm. simpl.
  by destruct (heap_of b !! a).
Qed.

Lemma refs_recentred b b' q' sd p i (l : list (Z * addr)) :
  core b' q' → (∀ r c, (r, c) ∈ l → order_map b !! r = Some c ∧ order_map b' !! r = Some c) →
  ref_at (heap_of b') <$> filter (at_level (heap_of b) sd p i) l.*2 = filter (on_level b sd p i) l.*1.
Proof.
  intros Hc. induction l as [|[r c] l IH]; intros Hl; [done|].
  destruct (Hl r c) as [H1 H2]; [by left|]. rewrite !fmap_cons, !filter_cons. simpl.
  rewrite (at_level_on_level _ _ _ _ _ _ H1). specialize (IH ltac:(intros; apply Hl; by right)).
  case_decide; [|done]. by rewrite fmap_cons, IH, (ref_at_live _ _ _ _ Hc H2).
Qed.

(** ** Theorems *)
Section Fifo.
Context `{BuildMode}.

(** C18. An add inside the window puts the order at the back of the queue of its
    price and changes no other queue. *)
Theorem on_add_fifo it b m sd :
  wf b → is_open b = true → fresh_ref (abs_orders b) (be64 (add_order_ref_num m)) = true →
  add_buy_sell m = side_char sd → price_ok (be32 (add_price m)) = true →
  (size (order_map b) < pool_capacity (pool b))%nat →
  refp sd b = 0 ∨ in_range (price_idx sd (refp sd b) (be32 (add_price m))) = true →
  ∃ b', on_add it b m = Ok b' ∧ ∀ sd' i,
    level_refs b' sd' i =
      if decide (sd' = sd ∧ price_idx sd (refp sd b') (be32 (add_price m)) = i)
      then level_refs b sd' i ++ [be64 (add_order_ref_num m)] else level_refs b sd' i.
Proof.
  intros Hw Ho Hfr Hside Hpr%price_ok_true Hroom Hwin.
  destruct (wf_room_free b Hw Hroom) as (q & a & fs & Hbw). pose proof (wf_core _ _ _ Hbw) as Hc.
  apply bool_decide_eq_true, (abs_orders_None b q) in Hfr; [|done].
  destruct (add_body_window b q a fs it _ (be32 (add_shares m)) _ sd Hbw Hfr (be32_bound _) Hpr Hwin)
    as (b' & E & Hc' & Hm & Hr).
  exists b'. rewrite on_add_unfold, Ho, Hside. split; [done|]. intros sd' i.
  rewrite (level_refs_queue _ _ _ _ Hc'), (level_refs_queue _ _ _ _ Hc), Hr.
  assert (Hfr' : ref_at (heap_of b') <$> q sd' i = ref_at (heap_of b) <$> q sd' i).
  { eapply refs_frame; [done..|]. intros c Hcin. destruct (co_queued _ _ Hc _ _ _ Hcin) as [r Hr'].
    exists r. split; [done|]. rewrite Hm, lookup_insert_ne; [done|]. intros <-. congruence. }
  destruct (decide (sd = sd')) as [<-|Hne].
  - rewrite q_set_eq. case_decide as Hd.
    + destruct Hd as [_ <-]. rewrite fn_lookup_insert, fmap_app, Hfr'. f_equal. simpl. f_equal.
      apply (ref_at_live _ _ _ _ Hc'). rewrite Hm. apply lookup_insert_eq.
    + rewrite fn_lookup_insert_ne; [done|]. intros <-. tauto.
  - rewrite q_set_ne by done. rewrite decide_False; [done|]. intros [? _]. congruence.
Qed.

(** Deleting a live order takes it out of its queue, the order of the others
    unchanged; no other queue changes. *)
Theorem on_delete_fifo b m :
  wf b → attached b → has_order b (be64 (del_order_ref_num m)) = true →
  ∃ b', on_delete b m = Ok b' ∧ ∀ sd i,
    level_refs b' sd i = filter (λ r, r ≠ be64 (del_order_ref_num m)) (level_refs b sd i).
Proof.
  intros (q & fs & Hw) Hatt [a Hm]%bool_decide_eq_true. pose proof (wf_core _ _ _ Hw) as Hc.
  destruct (co_live _ _ Hc _ _ Hm) as (o & _ & Ha & _).
  destruct (drop_body_ok b q fs _ a o Hw Hm Ha (Hatt _ _ _ Hm Ha))
    as (b' & q' & E & Hw' & _ & _ & _ & _ & Hm' & Hq').
  exists b'. rewrite on_delete_unfold, Hm. split; [done|]. intros sd i.
  eapply level_refs_removed; [done|apply Hw'|done..|apply Hq'].
Qed.

(** An execution covered by the order keeps the order's place in the queue when
    it is partial and removes it when it is total; the other orders keep theirs. *)
Theorem on_execute_fifo b m o :
  wf b → attached b → abs_orders b !! be64 (exec_order_ref_num m) = Some o →
  be32 (exec_executed_shares m) ≤ s_shares o →
  ∃ b', on_execute b m = Ok b' ∧ ∀ sd i,
    level_refs b' sd i =
      if s_shares o =? be32 (exec_executed_shares m)
      then filter (λ r, r ≠ be64 (exec_order_ref_num m)) (level_refs b sd i)
      else level_refs b sd i.
Proof.
  intros (q & fs & Hw) Hatt Habs Hn. pose proof (wf_core _ _ _ Hw) as Hc.
  apply abs_orders_lookup in Habs as (a & oc & Hm & Ha & ->). simpl in *.
  pose proof (be32_bound (exec_executed_shares m)) as Hnb.
  destruct (reduce_body_ok b q fs _ a oc _ Hw Hm Ha (Hatt _ _ _ Hm Ha) ltac:(split; [apply Hnb|exact Hn]))
    as (b' & q' & E & Hw' & _ & _ & _ & _ & Hm' & Hq').
  exists b'. rewrite on_execute_unfold. split; [done|]. intros sd i. specialize (Hq' sd i).
  destruct (shares oc =? _).
  - eapply level_refs_removed; [done|apply Hw'|done..].
  - rewrite (level_refs_queue _ _ _ _ (wf_core _ _ _ Hw')), (level_refs_queue _ _ _ _ Hc), Hq'.
    eapply refs_frame; [done|apply Hw'|]. intros c Hcin.
    destruct (co_queued _ _ Hc _ _ _ Hcin) as [r Hr]. exists r. by rewrite Hm'.
Qed.

(** C19. An add outside the window rebuilds the side: the queue of each level becomes
    the live orders at its price in the iteration order of the hash map, whatever
    their order before, with the new order last on level 0. *)
Theorem on_add_recentre it b m sd :
  wf b → is_open b = true → fresh_ref (abs_orders b) (be64 (add_order_ref_num m)) = true →
  add_buy_sell m = side_char sd → price_ok (be32 (add_price m)) = true →
  (size (order_map b) < pool_capacity (pool b))%nat →
  refp sd b ≠ 0 → in_range (price_idx sd (refp sd b) (be32 (add_price m))) = false →
  ∃ b', on_add it b m = Ok b' ∧ ∀ i,
    level_refs b' sd i =
      filter (on_level b sd (be32 (add_price m)) i) (entries it (order_map b)).*1 ++
      (if i =? 0 then [be64 (add_order_ref_num m)] else []).
Proof.
  intros Hw Ho Hfr Hside Hpr%price_ok_true Hroom Hr0 Hir.
  destruct (wf_room_free b Hw Hroom) as (q & a & fs & Hbw). pose proof (wf_core _ _ _ Hbw) as Hc.
  apply bool_decide_eq_true, (abs_orders_None b q) in Hfr; [|done].
  destruct (add_body_recentre b q a fs it _ (be32 (add_shares m)) _ sd Hbw Hfr (be32_bound _) Hpr Hr0 Hir)
    as (b' & E & Hc' & Hm).
  exists b'. rewrite on_add_unfold, Ho, Hside. split; [done|]. intros i.
  rewrite (level_refs_queue _ _ _ _ Hc'), q_set_eq.
  rewrite <-(refs_recentred b b' _ sd _ i (entries it (order_map b)) Hc').
  2:{ intros r c Hin%entries_elem. split; [done|]. rewrite Hm, lookup_insert_ne; [done|].
      intros <-. congruence. }
  destruct (Z.eqb_spec i 0) as [->|Hi].
  - rewrite fn_lookup_insert, q_recentred_eq, fmap_app. f_equal. simpl. f_equal.
    apply (ref_at_live _ _ _ _ Hc'). rewrite Hm. apply lookup_insert_eq.
  - rewrite fn_lookup_insert_ne, q_recentred_eq, app_nil_r by done. done.
Qed.

End Fifo.

(** Two iteration orders of the hash map give two queues for the same messages. *)
Theorem recentre_priority_unspecified (mode : BuildMode) :
  let refs it := (λ b, level_refs b Bid 1) <$>
    (OrderBook_new 8 ≫= λ b, @run_book mode b ((λ m, (it, m)) <$> recentre_session)) in
  refs iter_forward ≠ refs iter_backward.
Proof. destruct mode; by_vm. Qed.

(** ** Instances on the sample session *)
Lemma on_add_fifo_witness :
  ∃ b', @on_add debug_build iter_forward sample_book (sample_add_msg 7 ch_B 10 1500000) = Ok b' ∧
    level_refs b' Bid 100 = [1; 3; 7].
Proof.
  destruct (@on_add_fifo debug_build iter_forward sample_book (sample_add_msg 7 ch_B 10 1500000) Bid)
    as (b' & E & Hl); [exact (si_wf _ _ _ sample_simulates)|by_vm..|right; by_vm|].
  exists b'. split; [exact E|]. rewrite Hl.
  assert (Hr : refp Bid b' = 1500100).
  { vm_compute in E. injection E as <-. reflexivity. }
  rewrite Hr. vm_compute. reflexivity.
Defined.

Lemma on_delete_fifo_witness :
  ∃ b', @on_delete debug_build sample_book (sample_delete_msg 1) = Ok b' ∧ level_refs b' Bid 100 = [3].
Proof.
  destruct (@on_delete_fifo debug_build sample_book (sample_delete_msg 1)) as (b' & E & Hl);
    [exact (si_wf _ _ _ sample_simulates)|exact (si_attached _ _ _ sample_simulates)|by_vm|].
  exists b'. split; [exact E|]. rewrite Hl. vm_compute. reflexivity.
Defined.

Lemma on_execute_fifo_witness :
  ∃ b', @on_execute debug_build sample_book (sample_execute_msg 1 5) = Ok b' ∧
    level_refs b' Bid 100 = [1; 3].
Proof.
  destruct (@on_execute_fifo debug_build sample_book (sample_execute_msg 1 5) (mkSOrder ch_B 1500000 60))
    as (b' & E & Hl); [exact (si_wf _ _ _ sample_simulates)|exact (si_attached _ _ _ sample_simulates)
    |by_vm..|].
  exists b'. split; [exact E|]. rewrite Hl. vm_compute. reflexivity.
Defined.

Lemma on_add_recentre_witness :
  ∃ b', @on_add debug_build iter_forward sample_book (sample_add_msg 7 ch_B 10 1500101) = Ok b' ∧
    level_refs b' Bid 0 = [7].
Proof.
  destruct (@on_add_recentre debug_build iter_forward sample_book (sample_add_msg 7 ch_B 10 1500101) Bid)
    as (b' & E & Hl); [exact (si_wf _ _ _ sample_simulates)|by_vm..|].
  exists b'. split; [exact E|]. rewrite Hl. vm_compute. reflexivity.
Defined.
