(* ===== verification/Pipeline.v ===== *)
(** * The two threads of the program (src/main.cpp, src/itch/parser.cpp)

    The parser thread reads the file, parses each message and spins until the ring
    buffer takes it ([parse_and_push]); then it raises [parse_done].  The book thread
    pops and dispatches; when the queue looks empty it leaves only if [parse_done] is
    raised and the queue is still empty.  [pstep] interleaves the two threads at the
    granularity of [SpscConc]; a load of [parse_done] may return a stale [false], and
    a [true] makes every earlier store of the parser thread visible.

    Thread creation and affinity are not modelled; the rest of main.cpp is in [Main]. *)

From S2P Require Import Prelude Bytes Messages Parser Order PriceLevel OrderBook BookInv BookWf.
From S2P Require Import BookHandlers Dispatch Samples BookSpec Depth BookTheorems Reader Spsc SpscConc.

Definition kQueueCapacity : Z := 65536.

(** ** State *)
Inductive parser_phase :=
| PNext                        (* about to call next_message *)
| PPush (m : ParsedMessage)    (* inside parse_and_push *)
| PDone.                       (* loop left, parse_done stored *)

Inductive book_phase :=
| BPop                         (* inside try_pop *)
| BDispatch (m : ParsedMessage)
| BCheckDone                   (* try_pop returned false *)
| BCheckEmpty                  (* parse_done was true *)
| BExit
| BCrash (e : fault).          (* the process died in dispatch *)

Record pipe := mkPipe {
  queue : shared (T := ParsedMessage);
  reader : ITCHFileReader;
  parser : parser_phase;
  parse_done : bool;
  p_count : Z;
  book : OrderBook;
  bphase : book_phase;
  b_count : Z;
  booked : list (IterOrder * ParsedMessage);   (* every message dispatched, with the
                                                  iteration order it met *)
}.

Definition pipe_new (init : list ParsedMessage) (bytes : list Z) (b0 : OrderBook) : pipe :=
  mkPipe (shared_new init) (open_reader bytes) PNext false 0 b0 BPop 0 [].

Definition with_queue (q : shared) (s : pipe) : pipe :=
  mkPipe q (reader s) (parser s) (parse_done s) (p_count s) (book s) (bphase s) (b_count s) (booked s).
Definition with_bphase (p : book_phase) (s : pipe) : pipe :=
  mkPipe (queue s) (reader s) (parser s) (parse_done s) (p_count s) (book s) p (b_count s) (booked s).

Section Pipeline.
Context `{BuildMode}.
Variable capacity : Z.

(** ** Steps *)
Inductive pstep (s : pipe) : pipe → Prop :=
(* parser thread *)
| ps_next data len r m :
    parser s = PNext → next_message (reader s) = Ok (Some (data, len), r) →
    parse_message (Some data) len = Ok m →
    pstep s (mkPipe (queue s) r (PPush m) (parse_done s) (p_count s) (book s) (bphase s)
               (b_count s) (booked s))
| ps_eof r :
    parser s = PNext → next_message (reader s) = Ok (None, r) →
    pstep s (mkPipe (queue s) r PDone true (p_count s) (book s) (bphase s) (b_count s) (booked s))
| ps_push m a q :
    parser s = PPush m → cstep capacity (queue s) a q →
    a = APushStart m ∨ a = APushFull ∨ a = APushWrite →
    pstep s (with_queue q s)
| ps_pushed m x q :
    parser s = PPush m → cstep capacity (queue s) (APushDone x) q →
    pstep s (mkPipe q (reader s) PNext (parse_done s) (u64 (p_count s + 1)) (book s) (bphase s)
               (b_count s) (booked s))
(* book thread *)
| bs_pop a q :
    bphase s = BPop → cstep capacity (queue s) a q → a = APopStart ∨ a = APopRead →
    pstep s (with_queue q s)
| bs_popped m q :
    bphase s = BPop → cstep capacity (queue s) (APopDone m) q →
    pstep s (with_bphase (BDispatch m) (with_queue q s))
| bs_empty q :
    bphase s = BPop → cstep capacity (queue s) APopEmpty q →
    pstep s (with_bphase BCheckDone (with_queue q s))
| bs_dispatch it m b :
    bphase s = BDispatch m → dispatch it (book s) m = Ok b →
    pstep s (mkPipe (queue s) (reader s) (parser s) (parse_done s) (p_count s) b BPop
               (u64 (b_count s + 1)) (booked s ++ [(it, m)]))
| bs_crash it m e :
    bphase s = BDispatch m → dispatch it (book s) m = Fault e →
    pstep s (with_bphase (BCrash e) s)
| bs_not_done :
    bphase s = BCheckDone → pstep s (with_bphase BPop s)
| bs_done :
    bphase s = BCheckDone → parse_done s = true →
    pstep s (with_bphase BCheckEmpty (with_queue (see_pushes (n_pushed (queue s)) (queue s)) s))
| bs_check n :
    bphase s = BCheckEmpty → c_seen (queue s) ≤ n ≤ n_pushed (queue s) →
    pstep s (with_bphase (if sh_head (queue s) =? n mod capacity then BExit else BPop)
               (with_queue (see_pushes n (queue s)) s)).

Definition psteps : pipe → pipe → Prop := rtc pstep.

(** ** Invariant *)

(** The messages a reader has yet to deliver. *)
Definition unread (r : ITCHFileReader) : list ParsedMessage :=
  let rest := drop (Z.to_nat (pos r)) (buf r) in parse_body <$> split_frames (S (length rest)) rest.

Definition file_messages (bytes : list Z) : list ParsedMessage := unread (open_reader bytes).

Definition parser_todo (s : pipe) : list ParsedMessage :=
  match parser s with
  | PNext => unread (reader s)
  | PPush m => m :: unread (reader s)
  | PDone => []
  end.

Definition push_pc_ok (s : pipe) : Prop :=
  match parser s with
  | PPush m =>
      match sh_prod (queue s) with
      | PIdle => True
      | PLoaded x _ _ _ | PWritten x _ => x = m
      end
  | _ => sh_prod (queue s) = PIdle
  end.

Definition in_dispatch (s : pipe) : list ParsedMessage :=
  match bphase s with BDispatch m => [m] | _ => [] end.

Definition book_pc_ok (s : pipe) : Prop :=
  match bphase s with
  | BPop => True
  | BCheckEmpty => sh_cons (queue s) = CIdle ∧ parse_done s = true ∧ c_seen (queue s) = n_pushed (queue s)
  | BExit => sh_cons (queue s) = CIdle ∧ parser s = PDone ∧ popped (queue s) = pushed (queue s)
  | BCrash e => ∃ it m, dispatch it (book s) m = Fault e ∧ popped (queue s) = (booked s).*2 ++ [m]
  | BDispatch _ | BCheckDone => sh_cons (queue s) = CIdle
  end.

Record pinv (bytes : list Z) (b0 : OrderBook) (s : pipe) : Prop := {
  pi_queue : cinv capacity (queue s);
  pi_buf : buf (reader s) = bytes;
  pi_pos : parser s ≠ PDone → ∃ p, pos (reader s) = Z.of_nat p ∧ (p ≤ length bytes)%nat;
  pi_todo : pushed (queue s) ++ parser_todo s = file_messages bytes;
  pi_push : push_pc_ok s;
  pi_done : parse_done s = true → parser s = PDone;
  pi_done' : parser s = PDone → parse_done s = true;
  pi_booked : (∀ e, bphase s ≠ BCrash e) → popped (queue s) = (booked s).*2 ++ in_dispatch s;
  pi_book : run_book b0 (booked s) = Ok (book s);
  pi_pc : book_pc_ok s;
  pi_pcount : p_count s = n_pushed (queue s);
  pi_bcount : b_count s = Z.of_nat (length (booked s));
}.

(** ** Lemmas: the queue under the threads *)
Context (Hpow : static_assert_pow2 capacity = true) (Hcap : 0 < capacity ≤ 2 ^ 63).

Lemma see_pushes_inv (q : shared (T := ParsedMessage)) n :
  cinv capacity q → sh_cons q = CIdle → c_seen q ≤ n ≤ n_pushed q → cinv capacity (see_pushes n q).
Proof.
  intros [Hl Hh Ht Hps Hcs Hroom Hpre Hitems Hp Hc] E Hn. split; try done; simpl.
  - change (n_popped q ≤ n ≤ n_pushed q). lia.
  - unfold cons_ok. simpl. by rewrite E.
Qed.

(** An idle consumer that sees every push and finds the indices equal has popped all. *)
Lemma all_popped (q : shared (T := ParsedMessage)) n :
  cinv capacity q → c_seen q = n_pushed q → c_seen q ≤ n ≤ n_pushed q →
  sh_head q = n mod capacity → popped q = pushed q.
Proof.
  intros [Hl Hh Ht Hps Hcs Hroom Hpre Hitems Hp Hc] Hsee Hn E. rewrite Hh in E.
  assert (n_popped q = n_pushed q).
  { replace n with (n_pushed q) in E by lia. apply (mod_inj_window capacity Hcap) in E; lia. }
  rewrite Hpre. apply take_ge. unfold n_popped, n_pushed in *. lia.
Qed.

(** ** Lemmas: the reader under the parser thread *)
Lemma unread_at bytes p :
  unread (mkReader bytes (Z.of_nat p)) =
    parse_body <$> split_frames (S (length (drop p bytes))) (drop p bytes).
Proof. unfold unread. cbn [pos buf]. by rewrite Nat2Z.id. Qed.

Lemma unread_step bytes p :
  size_ok bytes → Forall is_byte bytes → (p ≤ length bytes)%nat →
  let r := mkReader bytes (Z.of_nat p) in
  (∃ r', next_message r = Ok (None, r') ∧ unread r = [] ∧ buf r' = bytes) ∨
  (∃ data len m p', next_message r = Ok (Some (data, len), mkReader bytes (Z.of_nat p')) ∧
     parse_message (Some data) len = Ok m ∧ (p' ≤ length bytes)%nat ∧
     unread r = m :: unread (mkReader bytes (Z.of_nat p'))).
Proof.
  intros Hs Hb Hp r. unfold r. rewrite next_message_step, unread_at by done.
  pose proof (length_drop bytes p) as Hd.
  destruct (drop p bytes) as [|hi [|lo rest]] eqn:E; [left; by eexists..|]. simpl length in Hd.
  cbn [split_frames]. cbn zeta. set (len := Z.to_nat (256 * hi + lo)).
  destruct ((len =? 0)%nat || (length rest <? len)%nat) eqn:Hc; [left; by eexists|right].
  apply orb_false_iff in Hc as [Hz%Nat.eqb_neq Hl%Nat.ltb_ge].
  exists rest, (Z.of_nat len), (parse_body (take len rest)), (p + 2 + len)%nat.
  split_and!; [done| |lia|].
  - rewrite parse_message_take, Nat2Z.id by lia.
    replace (Z.of_nat len) with (Z.of_nat (length (take len rest))) by (rewrite length_take; lia).
    apply parse_body_ok.
  - rewrite fmap_cons, unread_at. do 2 f_equal.
    replace (drop (p + 2 + len) bytes) with (drop len rest) by (by rewrite <-!drop_drop, E).
    apply split_frames_fuel; rewrite length_drop; simpl; lia.
Qed.

(** ** Lemmas: the invariant *)
Context (bytes : list Z) (b0 : OrderBook).
Context (Hsize : size_ok bytes) (Hbytes : Forall is_byte bytes).

Lemma split_frames_short fuel (bs : list Z) : (length (split_frames fuel bs) ≤ length bs)%nat.
Proof.
  revert bs. induction fuel as [|fuel IH]; intros bs; [simpl; lia|].
  destruct bs as [|hi [|lo rest]]; [simpl; lia..|]. cbn [split_frames]. cbn zeta.
  case_match; simpl; [lia|]. pose proof (IH (drop (Z.to_nat (256 * hi + lo)) rest)) as Hl.
  rewrite length_drop in Hl. lia.
Qed.

Lemma file_messages_bound : Z.of_nat (length (file_messages bytes)) < 2 ^ 63.
Proof.
  pose proof (split_frames_short (S (length bytes)) bytes) as Hl. unfold size_ok in Hsize.
  change (file_messages bytes) with (unread (mkReader bytes (Z.of_nat 0))).
  rewrite unread_at, length_fmap. rewrite drop_0. lia.
Qed.

Lemma pipe_new_inv init : Z.of_nat (length init) = capacity → pinv bytes b0 (pipe_new init bytes b0).
Proof.
  intros Hinit. split; try done.
  - by apply shared_new_inv.
  - intros _. exists 0%nat. split; [done|lia].
Qed.

Lemma pushed_bound s : pinv bytes b0 s → n_pushed (queue s) < 2 ^ 63.
Proof.
  intros Hi. pose proof file_messages_bound as Hb. rewrite <-(pi_todo _ _ _ Hi), length_app in Hb.
  unfold n_pushed. lia.
Qed.

Lemma next_inv s data len r m :
  pinv bytes b0 s → parser s = PNext → next_message (reader s) = Ok (Some (data, len), r) →
  parse_message (Some data) len = Ok m →
  pinv bytes b0 (mkPipe (queue s) r (PPush m) (parse_done s) (p_count s) (book s) (bphase s)
                   (b_count s) (booked s)).
Proof.
  intros [Hq Hbuf Hpos Htodo Hpush Hd Hd' Hbk Hbook Hpc Hpn Hbn] E En Em.
  destruct Hpos as (p & Hp & Hle); [by rewrite E|].
  assert (Er : reader s = mkReader bytes (Z.of_nat p)) by (destruct (reader s); simpl in *; congruence).
  rewrite Er in En. destruct (unread_step bytes p Hsize Hbytes Hle)
    as [(r' & E' & _)|(data' & len' & m' & p' & E' & Em' & Hle' & Hun)]; rewrite E' in En; [done|].
  injection En as <- <- <-. assert (m' = m) as -> by congruence.
  unfold parser_todo in Htodo. rewrite E, Er, Hun in Htodo.
  unfold push_pc_ok in Hpush. rewrite E in Hpush.
  split; try done; simpl.
  - intros _. by exists p'.
  - unfold push_pc_ok. simpl. by rewrite Hpush.
  - intros Hpd. rewrite Hd in E; [done|]. done.
  - unfold book_pc_ok in *. simpl. destruct (bphase s); try done. destruct Hpc as (_ & Hx & _). congruence.
Qed.

Lemma eof_inv s r :
  pinv bytes b0 s → parser s = PNext → next_message (reader s) = Ok (None, r) →
  pinv bytes b0 (mkPipe (queue s) r PDone true (p_count s) (book s) (bphase s) (b_count s) (booked s)).
Proof.
  intros [Hq Hbuf Hpos Htodo Hpush Hd Hd' Hbk Hbook Hpc Hpn Hbn] E En.
  destruct Hpos as (p & Hp & Hle); [by rewrite E|].
  assert (Er : reader s = mkReader bytes (Z.of_nat p)) by (destruct (reader s); simpl in *; congruence).
  rewrite Er in En. destruct (unread_step bytes p Hsize Hbytes Hle)
    as [(r' & E' & Hun & Hb')|(data' & len' & m' & p' & E' & _)]; rewrite E' in En; [|done].
  injection En as <-. unfold parser_todo in Htodo. rewrite E, Er, Hun in Htodo.
  unfold push_pc_ok in Hpush. rewrite E in Hpush.
  split; try done; simpl.
  unfold book_pc_ok in *. simpl. destruct (bphase s); try done; by destruct Hpc as (? & ? & ?).
Qed.

Lemma push_inv s m a q :
  pinv bytes b0 s → parser s = PPush m → cstep capacity (queue s) a q →
  a = APushStart m ∨ a = APushFull ∨ a = APushWrite → pinv bytes b0 (with_queue q s).
Proof.
  intros [Hq Hbuf Hpos Htodo Hpush Hd Hd' Hbk Hbook Hpc Hpn Hbn] E Hst Ha.
  pose proof (cstep_effect _ _ _ _ Hst) as (Epu & Epo & Ec).
  assert (Hnil : pushed q = pushed (queue s) ∧ popped q = popped (queue s) ∧
                 sh_cons q = sh_cons (queue s) ∧ c_seen q = c_seen (queue s))
    by (destruct Ha as [->|[->| ->]]; rewrite !app_nil_r in *; destruct Ec; done).
  destruct Hnil as (Epu' & Epo' & Ec' & Ecs).
  assert (Hpc' : push_pc_ok (with_queue q s)).
  { unfold push_pc_ok in *. simpl. rewrite E in *.
    destruct Hst; simpl in *; try (by destruct Ha as [?|[?|?]]).
    - by destruct Ha as [[= ->]|[?|?]].
    - match goal with Hx : sh_prod _ = _ |- _ => by rewrite Hx in Hpush end. }
  split; try done; simpl; rewrite ?Epu', ?Epo'; try done.
  - by eapply cstep_inv.
  - unfold book_pc_ok in *. simpl. rewrite Ec', Ecs, Epo', Epu'. unfold n_pushed in *. by rewrite Epu'.
  - unfold n_pushed. by rewrite Epu'.
Qed.

Lemma pushed_inv s m x q :
  pinv bytes b0 s → parser s = PPush m → cstep capacity (queue s) (APushDone x) q →
  pinv bytes b0 (mkPipe q (reader s) PNext (parse_done s) (u64 (p_count s + 1)) (book s) (bphase s)
                   (b_count s) (booked s)).
Proof.
  intros Hi E Hst. pose proof (pushed_bound s Hi) as Hbound. pose proof file_messages_bound as Hfb.
  destruct Hi as [Hq Hbuf Hpos Htodo Hpush Hd Hd' Hbk Hbook Hpc Hpn Hbn].
  pose proof (cstep_effect _ _ _ _ Hst) as (Epu & Epo & Ec & Ecs). rewrite app_nil_r in Epo.
  assert (Hq' : cinv capacity q) by (by eapply cstep_inv).
  assert (Hx : x = m ∧ sh_prod q = PIdle).
  { unfold push_pc_ok in Hpush. rewrite E in Hpush. inversion Hst as [| | |? ? Hw| | | |]; subst.
    rewrite Hw in Hpush. done. }
  destruct Hx as [-> Hidle]. unfold parser_todo in Htodo. rewrite E in Htodo.
  assert (Hn : n_pushed q = n_pushed (queue s) + 1)
    by (unfold n_pushed; rewrite Epu, length_app; simpl; lia).
  assert (Hnd : parse_done s = true → False) by (intros Hx; rewrite Hd in E; done).
  split; try done; simpl.
  - intros _. apply Hpos. by rewrite E.
  - unfold parser_todo. simpl. by rewrite Epu, <-app_assoc.
  - intros Hx. rewrite Epo. by apply Hbk.
  - unfold book_pc_ok in *. simpl. rewrite Ec, Epo.
    destruct (bphase s); try done; [by destruct Hnd as []; apply Hpc|].
    destruct Hpc as (_ & Hx & _). by rewrite E in Hx.
  - rewrite Hpn, Hn. apply u64_small. unfold n_pushed in *. lia.
Qed.

Lemma pop_inv s a q :
  pinv bytes b0 s → bphase s = BPop → cstep capacity (queue s) a q →
  a = APopStart ∨ a = APopRead → pinv bytes b0 (with_queue q s).
Proof.
  intros [Hq Hbuf Hpos Htodo Hpush Hd Hd' Hbk Hbook Hpc Hpn Hbn] E Hst Ha.
  pose proof (cstep_effect _ _ _ _ Hst) as (Epu & Epo & Ec).
  assert (Hnil : pushed q = pushed (queue s) ∧ popped q = popped (queue s) ∧
                 sh_prod q = sh_prod (queue s))
    by (destruct Ha as [->| ->]; rewrite !app_nil_r in *; done).
  destruct Hnil as (Epu' & Epo' & Ec').
  split; try done; simpl; rewrite ?Epu', ?Epo'; try done.
  - by eapply cstep_inv.
  - unfold push_pc_ok in *. simpl. by rewrite Ec'.
  - unfold book_pc_ok. simpl. by rewrite E.
  - unfold n_pushed. by rewrite Epu'.
Qed.

Lemma popped_inv s m q :
  pinv bytes b0 s → bphase s = BPop → cstep capacity (queue s) (APopDone m) q →
  pinv bytes b0 (with_bphase (BDispatch m) (with_queue q s)).
Proof.
  intros [Hq Hbuf Hpos Htodo Hpush Hd Hd' Hbk Hbook Hpc Hpn Hbn] E Hst.
  pose proof (cstep_effect _ _ _ _ Hst) as (Epu & Epo & Ec). rewrite app_nil_r in Epu.
  unfold in_dispatch in Hbk. rewrite E, app_nil_r in Hbk.
  split; try done; simpl; rewrite ?Epu, ?Epo; try done.
  - by eapply cstep_inv.
  - unfold push_pc_ok in *. simpl. by rewrite Ec.
  - intros _. unfold in_dispatch. simpl. by rewrite Hbk.
  - unfold book_pc_ok. simpl. by inversion Hst.
  - unfold n_pushed. by rewrite Epu.
Qed.

Lemma empty_inv s q :
  pinv bytes b0 s → bphase s = BPop → cstep capacity (queue s) APopEmpty q →
  pinv bytes b0 (with_bphase BCheckDone (with_queue q s)).
Proof.
  intros [Hq Hbuf Hpos Htodo Hpush Hd Hd' Hbk Hbook Hpc Hpn Hbn] E Hst.
  pose proof (cstep_effect _ _ _ _ Hst) as (Epu & Epo & Ec). rewrite app_nil_r in Epu, Epo.
  unfold in_dispatch in Hbk. rewrite E in Hbk.
  split; try done; simpl; rewrite ?Epu, ?Epo; try done.
  - by eapply cstep_inv.
  - unfold push_pc_ok in *. simpl. by rewrite Ec.
  - intros _. by apply Hbk.
  - unfold book_pc_ok. simpl. by inversion Hst.
  - unfold n_pushed. by rewrite Epu.
Qed.

Lemma dispatch_inv s it m b :
  pinv bytes b0 s → bphase s = BDispatch m → dispatch it (book s) m = Ok b →
  pinv bytes b0 (mkPipe (queue s) (reader s) (parser s) (parse_done s) (p_count s) b BPop
                   (u64 (b_count s + 1)) (booked s ++ [(it, m)])).
Proof.
  intros Hi E Hst. pose proof (pushed_bound s Hi) as Hbound.
  destruct Hi as [Hq Hbuf Hpos Htodo Hpush Hd Hd' Hbk Hbook Hpc Hpn Hbn].
  assert (Hpop : popped (queue s) = (booked s).*2 ++ [m]).
  { rewrite Hbk by (by rewrite E). unfold in_dispatch. by rewrite E. }
  split; try done; simpl.
  - intros _. by rewrite fmap_app, app_nil_r.
  - unfold run_book in *. rewrite foldM_app, Hbook. simpl. by rewrite Hst.
  - rewrite Hbn, length_app. simpl. rewrite u64_small; [lia|].
    pose proof (f_equal length Hpop) as Hl. rewrite length_app, length_fmap in Hl. simpl in Hl.
    pose proof (ci_cseen _ _ Hq). unfold n_popped in *. lia.
Qed.

Lemma pstep_inv s s' : pinv bytes b0 s → pstep s s' → pinv bytes b0 s'.
Proof.
  intros Hi Hs. destruct Hs as [data len r m E En Em|r E En|m a q E Hst Ha|m x q E Hst|a q E Hst Ha
    |m q E Hst|q E Hst|it m b E Hst|it m e E Hst|E|E Hpd|n E Hn].
  - by eapply next_inv.
  - by eapply eof_inv.
  - by eapply push_inv.
  - by eapply pushed_inv.
  - by eapply pop_inv.
  - by eapply popped_inv.
  - by eapply empty_inv.
  - by eapply dispatch_inv.
  - destruct Hi as [Hq Hbuf Hpos Htodo Hpush Hd Hd' Hbk Hbook Hpc Hpn Hbn]. split; try done.
    + intros Hne. by destruct (Hne e).
    + exists it, m. split; [done|]. simpl. rewrite Hbk by (by rewrite E). unfold in_dispatch. by rewrite E.
  - destruct Hi as [Hq Hbuf Hpos Htodo Hpush Hd Hd' Hbk Hbook Hpc Hpn Hbn]. split; try done.
    intros _. unfold in_dispatch in *. simpl. rewrite E in Hbk. by apply Hbk.
  - destruct Hi as [Hq Hbuf Hpos Htodo Hpush Hd Hd' Hbk Hbook Hpc Hpn Hbn].
    unfold book_pc_ok in Hpc. rewrite E in Hpc. pose proof (ci_cseen _ _ Hq). split; try done.
    + apply see_pushes_inv; [done|done|lia].
    + intros _. unfold in_dispatch in *. simpl. rewrite E in Hbk. by apply Hbk.
  - destruct Hi as [Hq Hbuf Hpos Htodo Hpush Hd Hd' Hbk Hbook Hpc Hpn Hbn].
    unfold book_pc_ok in Hpc. rewrite E in Hpc. destruct Hpc as (Hidle & Hpd & Hsee).
    assert (Hin : popped (queue s) = (booked s).*2 ++ []).
    { rewrite Hbk by (by rewrite E). unfold in_dispatch. by rewrite E. }
    split; try done.
    + by apply see_pushes_inv.
    + intros _. unfold in_dispatch. simpl. destruct (sh_head _ =? _); exact Hin.
    + unfold book_pc_ok. simpl. destruct (Z.eqb_spec (sh_head (queue s)) (n mod capacity)) as [Heq|]; [|done].
      simpl. split_and!; [done|by apply Hd|]. by eapply all_popped.
Qed.

Lemma psteps_inv s s' : pinv bytes b0 s → psteps s s' → pinv bytes b0 s'.
Proof. intros Hi Hs. induction Hs as [|s s1 s2 Hst _ IH]; [done|]. by eapply IH, pstep_inv. Qed.

End Pipeline.
