(* ===== verification/PipelineTheorems.v ===== *)
(** * Theorems about the two threads

    When the program leaves its loops, the book is the result of dispatching every
    message of the file once, in order, whatever the interleaving; a feed in the
    contract of [BookSpec] never crashes it; and on any file, from every state the threads
    can reach, an end can still be reached: no deadlock. *)

From S2P Require Import Prelude Bytes Messages Parser Order PriceLevel OrderBook BookInv BookWf.
From S2P Require Import BookHandlers Dispatch Samples BookSpec Depth BookTheorems Reader Spsc SpscConc Pipeline.

(** The book thread is between two calls of [try_pop]. *)
Definition at_home (s : pipe) : Prop := bphase s = BPop ∧ sh_cons (queue s) = CIdle.

(** The process is over. *)
Definition crashed (s : pipe) : Prop := ∃ e, bphase s = BCrash e.
Definition ended (s : pipe) : Prop := bphase s = BExit ∨ crashed s.

(** One more message than in [s] is dispatched, or dispatching it killed the process. *)
Definition delivered (s s' : pipe) : Prop :=
  (at_home s' ∧ length (booked s') = S (length (booked s))) ∨ crashed s'.

Definition queue_empty_now (s : pipe) : Prop := n_popped (queue s) = n_pushed (queue s).

(** The sample session as a file, a ring of four slots and a pool of eight orders. *)
Definition sample_file : list Z := concat ((λ m, frame (encode m)) <$> sample_session).
Definition sample_ring : list ParsedMessage := replicate 4 Monostate.
Definition fresh_book : OrderBook :=
  ok_or (mkBook ∅ ∅ ∅ (mkPool [] None) 0 0 (-1) (-1) false) (OrderBook_new 8).
Definition sample_start : pipe := pipe_new sample_ring sample_file fresh_book.

(** The parser thread moved from [s] to [s'], leaving the book thread as it is. *)
Definition parser_moved `{BuildMode} (capacity : Z) (s s' : pipe) : Prop :=
  psteps capacity s s' ∧ (at_home s → at_home s') ∧ booked s' = booked s.

(** ** Lemmas: feeds *)
Lemma good_feed_prefix cap lo_bid lo_ask s ms1 ms2 :
  good_feed cap lo_bid lo_ask s (ms1 ++ ms2) = true → good_feed cap lo_bid lo_ask s ms1 = true.
Proof.
  revert s. induction ms1 as [|m ms1 IH]; intros s; [done|]. simpl.
  rewrite !andb_true_iff. intros [? ?]. eauto.
Qed.

Lemma prefix_file capacity `{BuildMode} bytes b0 s :
  pinv capacity bytes b0 s → popped (queue s) `prefix_of` file_messages bytes.
Proof.
  intros Hi. rewrite <-(pi_todo _ _ _ _ Hi). apply prefix_app_r.
  rewrite (ci_prefix _ _ (pi_queue _ _ _ _ Hi)). apply prefix_take.
Qed.

Section Live.
Context `{BuildMode}.
Variable capacity : Z.
Context (Hpow : static_assert_pow2 capacity = true) (Hcap : 1 < capacity ≤ 2 ^ 63).
Context (bytes : list Z) (Hsize : size_ok bytes) (Hbytes : Forall is_byte bytes) (b0 : OrderBook).

Local Abbreviation parser_moved := (parser_moved capacity).

Lemma Hcap' : 0 < capacity ≤ 2 ^ 63.
Proof. lia. Qed.

Local Abbreviation inv := (pinv capacity bytes b0).

Lemma steps_inv s s' : inv s → psteps capacity s s' → inv s'.
Proof. apply psteps_inv; auto using Hcap'. Qed.

(** ** Lemmas: the book thread *)
Lemma dispatch_home s m :
  inv s → bphase s = BDispatch m → ∃ s', psteps capacity s s' ∧ delivered s s'.
Proof.
  intros Hi E. pose proof (pi_pc _ _ _ _ Hi) as Hpc. unfold book_pc_ok in Hpc. rewrite E in Hpc.
  destruct (dispatch iter_forward (book s) m) as [b|e] eqn:Ed.
  - eexists. split; [apply rtc_once; by eapply bs_dispatch|]. left. split; [done|].
    simpl. rewrite length_app. simpl. lia.
  - eexists. split; [apply rtc_once; by eapply bs_crash|]. right. by exists e.
Qed.

(** A step of the book thread towards a delivery. *)
Lemma step_delivered s s1 :
  pstep capacity s s1 → booked s1 = booked s → (∃ s', psteps capacity s1 s' ∧ delivered s1 s') →
  ∃ s', psteps capacity s s' ∧ delivered s s'.
Proof.
  intros Hst Hb (s' & Hs' & Hd). exists s'. split; [by eapply rtc_l|]. unfold delivered in *. by rewrite <-Hb.
Qed.

Lemma deliver s h x :
  inv s → bphase s = BPop → sh_cons (queue s) = CRead h x →
  ∃ s', psteps capacity s s' ∧ delivered s s'.
Proof.
  intros Hi E Ec.
  pose proof (bs_popped capacity s x _ E (step_pop_done capacity _ h x Ec)) as Hst.
  pose proof (steps_inv _ _ Hi (rtc_once _ _ Hst)) as Hi'.
  eapply step_delivered; [exact Hst|done|]. by apply (dispatch_home _ x).
Qed.

Lemma read_deliver s h t :
  inv s → bphase s = BPop → sh_cons (queue s) = CLoaded h t → h ≠ t →
  ∃ s', psteps capacity s s' ∧ delivered s s'.
Proof.
  intros Hi E Ec Hne. destruct (pop_read_ok capacity Hcap' _ _ _ (pi_queue _ _ _ _ Hi) Ec Hne) as [x Hx].
  assert (Hst : pstep capacity s (with_queue (set_cons (CRead h x) (queue s)) s)).
  { apply (bs_pop capacity s APopRead); [done|by eapply step_pop_read|by right]. }
  pose proof (steps_inv _ _ Hi (rtc_once _ _ Hst)) as Hi'.
  eapply step_delivered; [exact Hst|done|]. by apply (deliver _ h x).
Qed.

Lemma delivered_home s :
  (∃ s', psteps capacity s s' ∧ delivered s s') →
  ∃ s', psteps capacity s s' ∧ (ended s' ∨ at_home s' ∧ (length (booked s) ≤ length (booked s'))%nat).
Proof.
  intros (s' & Hs' & [[Hh Hl]|Hc]); exists s'; (split; [done|]); [right; split; [done|lia]|by left; right].
Qed.

(** The book thread can always come back to the top of its loop, or end. *)
Lemma consumer_home s :
  inv s → ∃ s', psteps capacity s s' ∧ (ended s' ∨ at_home s' ∧ (length (booked s) ≤ length (booked s'))%nat).
Proof.
  intros Hi. pose proof (pi_pc _ _ _ _ Hi) as Hpc. unfold book_pc_ok in Hpc.
  destruct (bphase s) as [|m| | | |e] eqn:E.
  - destruct (sh_cons (queue s)) as [|h t|h x] eqn:Ec.
    + exists s. split; [apply rtc_refl|]. by right.
    + destruct (Z.eq_dec h t) as [He|Hne]; [|by apply delivered_home, (read_deliver s h t)].
      exists (with_bphase BPop (with_bphase BCheckDone (with_queue (set_cons CIdle (queue s)) s))).
      split; [|by right].
      eapply rtc_l; [apply (bs_empty capacity s); [done|by eapply step_pop_empty]|].
      apply rtc_once. by apply bs_not_done.
    + by apply delivered_home, (deliver s h x).
  - by apply delivered_home, (dispatch_home s m).
  - eexists. split; [apply rtc_once; by apply bs_not_done|]. by right.
  - destruct Hpc as (Hc & _ & Hsee).
    eexists. split; [apply rtc_once; apply (bs_check capacity s (c_seen (queue s)) E)|].
    { pose proof (ci_cseen _ _ (pi_queue _ _ _ _ Hi)). lia. }
    simpl. destruct (sh_head (queue s) =? _); [by left; left|by right].
  - exists s. split; [apply rtc_refl|]. by left; left.
  - exists s. split; [apply rtc_refl|]. left; right. by exists e.
Qed.

(** ** Lemmas: the parser thread *)

Lemma parser_moved_step s s1 s' :
  pstep capacity s s1 → (at_home s → at_home s1) → booked s1 = booked s →
  parser_moved s1 s' → parser_moved s s'.
Proof.
  intros Hst Hh Hb (H1 & H2 & H3). split; [by eapply rtc_l|]. split; [auto|congruence].
Qed.

Lemma finish_push s m x nt :
  inv s → parser s = PPush m → sh_prod (queue s) = PWritten x nt →
  ∃ s', parser_moved s s' ∧ n_popped (queue s') < n_pushed (queue s').
Proof.
  intros Hi E Ep. pose proof (ps_pushed capacity s m x _ E (step_push_done capacity _ x nt Ep)) as Hst.
  eexists. split; [split; [by apply rtc_once|done]|].
  pose proof (ci_cseen _ _ (pi_queue _ _ _ _ Hi)). unfold n_popped, n_pushed in *. simpl.
  rewrite length_app. simpl. lia.
Qed.

Lemma write_push s m x t nt h :
  inv s → parser s = PPush m → sh_prod (queue s) = PLoaded x t nt h → nt ≠ h →
  ∃ s', parser_moved s s' ∧ n_popped (queue s') < n_pushed (queue s').
Proof.
  intros Hi E Ep Hne.
  destruct (push_write_ok capacity Hcap' _ _ _ _ _ (pi_queue _ _ _ _ Hi) Ep) as [slots Hset].
  assert (Hst : pstep capacity s (with_queue (set_prod (PWritten x nt) (set_slots slots (queue s))) s)).
  { apply (ps_push capacity s m APushWrite); [done|by eapply step_push_write|by right; right]. }
  pose proof (steps_inv _ _ Hi (rtc_once _ _ Hst)) as Hi'.
  destruct (finish_push _ m x nt Hi') as (s' & Hm & Hlt); [done|done|].
  exists s'. split; [|done]. by eapply parser_moved_step.
Qed.

(** With the queue empty, a push can start and succeed. *)
Lemma start_push s m :
  inv s → parser s = PPush m → sh_prod (queue s) = PIdle → queue_empty_now s →
  ∃ s', parser_moved s s' ∧ n_popped (queue s') < n_pushed (queue s').
Proof.
  intros Hi E Ep Hemp. pose proof (pi_queue _ _ _ _ Hi) as Hq.
  set (n := n_popped (queue s)).
  assert (Hst : pstep capacity s (with_queue
    (set_prod (PLoaded m (sh_tail (queue s)) (advance capacity (sh_tail (queue s))) (n mod capacity))
       (see_pops n (queue s))) s)).
  { apply (ps_push capacity s m (APushStart m)); [done| |by left].
    apply step_push_start; [done|]. pose proof (ci_pseen _ _ Hq). unfold n. lia. }
  pose proof (steps_inv _ _ Hi (rtc_once _ _ Hst)) as Hi'.
  assert (Hne : advance capacity (sh_tail (queue s)) ≠ n mod capacity).
  { rewrite (ci_tail _ _ Hq), (advance_mod capacity Hpow Hcap'). unfold queue_empty_now in Hemp.
    unfold n. rewrite Hemp. intros Heq. symmetry in Heq.
    apply (mod_inj_window capacity Hcap') in Heq; lia. }
  destruct (write_push _ m m _ _ _ Hi' E eq_refl Hne) as (s' & Hm & Hlt).
  exists s'. split; [|done]. by eapply parser_moved_step.
Qed.

Lemma push_home s m :
  inv s → parser s = PPush m → queue_empty_now s →
  ∃ s', parser_moved s s' ∧ n_popped (queue s') < n_pushed (queue s').
Proof.
  intros Hi E Hemp. destruct (sh_prod (queue s)) as [|x t nt h|x nt] eqn:Ep.
  - by apply (start_push s m).
  - destruct (Z.eq_dec nt h) as [He|Hne]; [|by eapply write_push].
    assert (Hst : pstep capacity s (with_queue (set_prod PIdle (queue s)) s)).
    { apply (ps_push capacity s m APushFull); [done|by eapply step_push_full|by right; left]. }
    pose proof (steps_inv _ _ Hi (rtc_once _ _ Hst)) as Hi'.
    destruct (start_push _ m Hi') as (s' & Hm & Hlt); [done..|].
    exists s'. split; [|done]. by eapply parser_moved_step.
  - by eapply finish_push.
Qed.

(** With the queue empty, the parser thread can put a message in it or finish. *)
Lemma producer_home s :
  inv s → queue_empty_now s →
  ∃ s', parser_moved s s' ∧
    (n_popped (queue s') < n_pushed (queue s') ∨ (parser s' = PDone ∧ queue_empty_now s')).
Proof.
  intros Hi Hemp. destruct (parser s) as [|m|] eqn:E.
  - destruct (pi_pos _ _ _ _ Hi) as (p & Hp & Hle); [by rewrite E|].
    assert (Er : reader s = mkReader bytes (Z.of_nat p)).
    { pose proof (pi_buf _ _ _ _ Hi). destruct (reader s); simpl in *; congruence. }
    destruct (unread_step bytes p Hsize Hbytes Hle)
      as [(r' & E' & _)|(data & len & m & p' & E' & Em & _)]; rewrite <-Er in E'.
    + eexists. split; [split; [apply rtc_once; by apply ps_eof|done]|]. by right.
    + pose proof (ps_next capacity s _ _ _ m E E' Em) as Hst.
      pose proof (steps_inv _ _ Hi (rtc_once _ _ Hst)) as Hi'.
      destruct (push_home _ m Hi') as (s' & Hm & Hlt); [done..|].
      exists s'. split; [|by left]. by eapply parser_moved_step.
  - destruct (push_home s m Hi E Hemp) as (s' & Hm & Hlt). exists s'. auto.
  - exists s. split; [split; [apply rtc_refl|done]|by right].
Qed.

(** ** Lemmas: progress *)

(** The consumer loads the current index. *)
Lemma load_tail s :
  inv s → at_home s →
  pstep capacity s (with_queue
    (set_cons (CLoaded (sh_head (queue s)) (n_pushed (queue s) mod capacity))
       (see_pushes (n_pushed (queue s)) (queue s))) s).
Proof.
  intros Hi [Eb Ec]. apply (bs_pop capacity s APopStart); [done| |by left].
  apply step_pop_start; [done|]. pose proof (ci_cseen _ _ (pi_queue _ _ _ _ Hi)). lia.
Qed.

(** An item in the queue can be dispatched. *)
Lemma drain_one s :
  inv s → at_home s → n_popped (queue s) < n_pushed (queue s) →
  ∃ s', psteps capacity s s' ∧ delivered s s'.
Proof.
  intros Hi Hh Hlt. pose proof (load_tail s Hi Hh) as Hst.
  pose proof (steps_inv _ _ Hi (rtc_once _ _ Hst)) as Hi'. pose proof (pi_queue _ _ _ _ Hi) as Hq.
  eapply step_delivered; [exact Hst|done|].
  apply (read_deliver _ (sh_head (queue s)) (n_pushed (queue s) mod capacity) Hi'); [apply Hh|done|].
  rewrite (ci_head _ _ Hq). intros Heq.
  apply (mod_inj_window capacity Hcap') in Heq; [lia|].
  pose proof (ci_room _ _ Hq). pose proof (ci_pseen _ _ Hq). lia.
Qed.

(** With the parser done and the queue empty, the book thread can leave. *)
Lemma leave s :
  inv s → at_home s → queue_empty_now s → parser s = PDone →
  ∃ s', psteps capacity s s' ∧ bphase s' = BExit.
Proof.
  intros Hi Hh Hemp Hd. pose proof (load_tail s Hi Hh) as Hst.
  pose proof (pi_queue _ _ _ _ Hi) as Hq. unfold queue_empty_now in Hemp.
  assert (Heq : sh_head (queue s) = n_pushed (queue s) mod capacity)
    by (by rewrite (ci_head _ _ Hq), Hemp).
  destruct Hh as [Eb Ec].
  eexists. split.
  - eapply rtc_l; [exact Hst|].
    eapply rtc_l; [apply bs_empty; [done|by eapply step_pop_empty]|].
    eapply rtc_l; [apply bs_done; [done|]; by apply (pi_done' _ _ _ _ Hi)|].
    apply rtc_once. apply (bs_check _ _ (n_pushed (queue s))); [done|]. simpl. unfold n_pushed. simpl. lia.
  - simpl. by rewrite Heq, Z.eqb_refl.
Qed.

Lemma booked_bound s : inv s → at_home s → (length (booked s) ≤ length (file_messages bytes))%nat.
Proof.
  intros Hi [Eb _]. pose proof (prefix_length _ _ (prefix_file _ _ _ _ Hi)) as Hl.
  rewrite (pi_booked _ _ _ _ Hi), length_app, length_fmap in Hl by (intros e; by rewrite Eb). lia.
Qed.

(** From anywhere, some continuation ends: the number of messages left decreases. *)
Lemma reach_end s : inv s → ∃ s', psteps capacity s s' ∧ ended s'.
Proof.
  remember (length (file_messages bytes) - length (booked s))%nat as k eqn:Ek.
  revert s Ek. induction k as [k IH] using lt_wf_ind. intros s Ek Hi.
  destruct (consumer_home s Hi) as (s1 & Hs1 & [Hx|[Hh1 Hl1]]); [by exists s1|].
  pose proof (steps_inv _ _ Hi Hs1) as Hi1.
  assert (Hmore : ∀ s2, psteps capacity s1 s2 → at_home s2 → booked s2 = booked s1 →
            n_popped (queue s2) < n_pushed (queue s2) → ∃ s', psteps capacity s s' ∧ ended s').
  { intros s2 Hs2 Hh2 Hb2 Hlt. pose proof (steps_inv _ _ Hi1 Hs2) as Hi2.
    destruct (drain_one s2 Hi2 Hh2 Hlt) as (s3 & Hs3 & [[Hh3 Hl3]|Hc]).
    2:{ exists s3. split; [|by right]. etrans; [exact Hs1|]. by etrans. }
    pose proof (steps_inv _ _ Hi2 Hs3) as Hi3. pose proof (booked_bound _ Hi3 Hh3) as Hbd.
    destruct (IH (length (file_messages bytes) - length (booked s3))%nat) with (s := s3)
      as (s' & Hs' & Hx); [rewrite Hb2 in Hl3; lia|done|done|].
    exists s'. split; [|done]. etrans; [exact Hs1|]. etrans; [exact Hs2|]. by etrans. }
  pose proof (ci_cseen _ _ (pi_queue _ _ _ _ Hi1)) as Hc1.
  destruct (Z.eq_dec (n_popped (queue s1)) (n_pushed (queue s1))) as [Hemp|Hne].
  - destruct (producer_home s1 Hi1 Hemp) as (s2 & (Hs2 & Hh2 & Hb2) & [Hlt|[Hd Hemp2]]).
    + by apply (Hmore s2); auto.
    + destruct (leave s2) as (s' & Hs' & Hx); [by eapply steps_inv|by auto|done|done|].
      exists s'. split; [|by left]. etrans; [exact Hs1|]. by etrans.
  - apply (Hmore s1); [apply rtc_refl|done|done|lia].
Qed.

(** ** Lemmas: files in the contract *)
Context (cap : nat) (lo_bid lo_ask : Z).
Context (Hb0 : OrderBook_new cap = Ok b0) (Hcapn : Z.of_nat cap < 2 ^ 32).
Context (Hfeed : good_feed cap lo_bid lo_ask empty_sbook (file_messages bytes) = true).

(** The messages dispatched so far and the next one are a good feed. *)
Lemma dispatch_ready s it m :
  inv s → popped (queue s) = (booked s).*2 ++ [m] → ∃ b, dispatch it (book s) m = Ok b.
Proof.
  intros Hi Hpop. destruct (prefix_file _ _ _ _ Hi) as [rest Hrest]. rewrite Hpop in Hrest.
  pose proof Hfeed as Hf. rewrite Hrest in Hf. apply good_feed_prefix in Hf.
  replace ((booked s).*2 ++ [m]) with ((booked s ++ [(it, m)]).*2) in Hf by by rewrite fmap_app.
  destruct (new_book_simulates cap b0 Hb0 Hcapn) as [Hs0 Hr0].
  destruct (feed_simulates cap lo_bid lo_ask (booked s ++ [(it, m)]) b0 empty_sbook Hs0)
    as (b & E & _); [|done|].
  { intros sd. split; [by left|]. intros ref o Hl. simpl in Hl. by rewrite lookup_empty in Hl. }
  unfold run_book in E. rewrite foldM_app in E. change (foldM _ (booked s) b0) with (run_book b0 (booked s)) in E.
  rewrite (pi_book _ _ _ _ Hi) in E. simpl in E.
  destruct (dispatch it (book s) m) as [b'|e]; [by exists b'|done].
Qed.

Lemma no_crash s e : inv s → bphase s ≠ BCrash e.
Proof.
  intros Hi E. pose proof (pi_pc _ _ _ _ Hi) as Hpc. unfold book_pc_ok in Hpc. rewrite E in Hpc.
  destruct Hpc as (it & m & Hd & Hpop). destruct (dispatch_ready s it m Hi Hpop) as [b Hb]. congruence.
Qed.

Lemma ended_exit s : inv s → ended s → bphase s = BExit.
Proof. intros Hi [Hx|[e He]]; [done|]. by destruct (no_crash s e Hi). Qed.

End Live.

(** A larger pool accepts the same feeds. *)
Lemma admissible_mono cap cap' s c :
  (cap ≤ cap')%nat → admissible cap s c = true → admissible cap' s c = true.
Proof.
  intros Hcap. destruct c; simpl; try done. rewrite !orb_true_iff, !andb_true_iff, !Nat.ltb_lt.
  intros [?|[? ?]]; [by left|right]. split; [done|lia].
Qed.

Lemma good_feed_mono cap cap' lo_bid lo_ask s ms :
  (cap ≤ cap')%nat → good_feed cap lo_bid lo_ask s ms = true → good_feed cap' lo_bid lo_ask s ms = true.
Proof.
  intros Hcap. revert s. induction ms as [|m ms IH]; intros s; [done|]. simpl.
  rewrite !andb_true_iff. intros [[Ha ?] ?]. eauto using admissible_mono.
Qed.

(** ** Lemmas: the end *)
Lemma exit_booked capacity `{BuildMode} bytes b0 s :
  pinv capacity bytes b0 s → bphase s = BExit →
  (booked s).*2 = file_messages bytes ∧
  p_count s = Z.of_nat (length (file_messages bytes)) ∧
  b_count s = Z.of_nat (length (file_messages bytes)).
Proof.
  intros Hi Hx. pose proof (pi_pc _ _ _ _ Hi) as Hpc. unfold book_pc_ok in Hpc. rewrite Hx in Hpc.
  destruct Hpc as (_ & Hd & Hpop).
  assert (Hpu : pushed (queue s) = file_messages bytes).
  { rewrite <-(pi_todo _ _ _ _ Hi). unfold parser_todo. by rewrite Hd, app_nil_r. }
  assert (Hbk : (booked s).*2 = file_messages bytes).
  { rewrite <-Hpu, <-Hpop, (pi_booked _ _ _ _ Hi) by (by rewrite Hx). unfold in_dispatch.
    by rewrite Hx, app_nil_r. }
  split_and!; [done| |].
  - rewrite (pi_pcount _ _ _ _ Hi). unfold n_pushed. by rewrite Hpu.
  - rewrite (pi_bcount _ _ _ _ Hi), <-Hbk. by rewrite length_fmap.
Qed.

Lemma exit_simulates capacity `{BuildMode} bytes b0 s cap lo_bid lo_ask :
  pinv capacity bytes b0 s → bphase s = BExit →
  OrderBook_new cap = Ok b0 → Z.of_nat cap < 2 ^ 32 →
  good_feed cap lo_bid lo_ask empty_sbook (file_messages bytes) = true →
  simulates cap (book s) (spec_run empty_sbook (file_messages bytes)).
Proof.
  intros Hi Hx Hb0 Hcapn Hfeed. destruct (exit_booked _ _ _ _ Hi Hx) as (Hbk & _).
  destruct (new_book_simulates cap b0 Hb0 Hcapn) as [Hs0 Hr0].
  destruct (feed_simulates cap lo_bid lo_ask (booked s) b0 empty_sbook Hs0) as (b & E & Hsim).
  { intros sd. split; [by left|]. intros ref o Hl. simpl in Hl. by rewrite lookup_empty in Hl. }
  { by rewrite Hbk. }
  rewrite (pi_book _ _ _ _ Hi) in E. injection E as <-. by rewrite Hbk in Hsim.
Qed.

Section Theorems.
Context `{BuildMode}.
Variable capacity : Z.
Context (Hpow : static_assert_pow2 capacity = true) (Hcap : 1 < capacity ≤ 2 ^ 63).

(** C6. Whatever the interleaving of the two threads, and whatever the file: when the
    program leaves its loops, the book is the result of dispatching every message of
    the file exactly once and in file order, and both counters are their number. *)
Theorem pipeline_exit init bytes b0 s :
  Z.of_nat (length init) = capacity → size_ok bytes → Forall is_byte bytes →
  psteps capacity (pipe_new init bytes b0) s → bphase s = BExit →
  ∃ ms, read_file bytes = Ok ms ∧ (booked s).*2 = ms ∧ run_book b0 (booked s) = Ok (book s) ∧
    p_count s = Z.of_nat (length ms) ∧ b_count s = Z.of_nat (length ms).
Proof.
  intros Hinit Hs Hb Hst Hx. assert (Hc : 0 < capacity ≤ 2 ^ 63) by lia.
  pose proof (psteps_inv capacity Hpow Hc bytes b0 Hs Hb _ _
    (pipe_new_inv capacity ltac:(lia) bytes b0 init Hinit) Hst) as Hi.
  destruct (exit_booked _ _ _ _ Hi Hx) as (Hbk & Hp & Hbc). exists (file_messages bytes).
  split_and!; [|done|apply Hi|done|done].
  unfold read_file. rewrite read_open by done.
  change (file_messages bytes) with (unread (mkReader bytes (Z.of_nat 0))).
  by rewrite unread_at, drop_0.
Qed.

(** End to end: on a file whose messages are a good feed, no interleaving crashes,
    and at the end the best bid and offer is the one of the file's messages. *)
Theorem pipeline_bbo init bytes b0 cap lo_bid lo_ask s :
  Z.of_nat (length init) = capacity → size_ok bytes → Forall is_byte bytes →
  OrderBook_new cap = Ok b0 → Z.of_nat cap < 2 ^ 32 →
  good_feed cap lo_bid lo_ask empty_sbook (file_messages bytes) = true →
  psteps capacity (pipe_new init bytes b0) s →
  (∀ e, bphase s ≠ BCrash e) ∧
  (bphase s = BExit →
   best_bid_offer (book s) = Ok (spec_bbo (s_orders (spec_run empty_sbook (file_messages bytes))))).
Proof.
  intros Hinit Hs Hb Hb0 Hcapn Hfeed Hst. assert (Hc : 0 < capacity ≤ 2 ^ 63) by lia.
  pose proof (psteps_inv capacity Hpow Hc bytes b0 Hs Hb _ _
    (pipe_new_inv capacity ltac:(lia) bytes b0 init Hinit) Hst) as Hi.
  split; [intros e; by eapply no_crash|]. intros Hx.
  pose proof (exit_simulates _ _ _ _ _ _ _ Hi Hx Hb0 Hcapn Hfeed) as Hsim.
  destruct (si_wf _ _ _ Hsim) as (q & fs & Hw). rewrite <-(si_orders _ _ _ Hsim).
  eapply best_bid_offer_abs; [apply Hw|apply Hsim].
Qed.

(** C38. The program can always finish.  On any file, from every state the threads can
    reach (queue full or empty, stale indices, any point of a call), some continuation
    ends: both loops are left, or the book thread has died; and on a file whose messages
    are a good feed both loops are left. *)
Theorem pipeline_can_finish init bytes b0 s :
  Z.of_nat (length init) = capacity → size_ok bytes → Forall is_byte bytes →
  psteps capacity (pipe_new init bytes b0) s →
  ∃ s', psteps capacity s s' ∧ ended s' ∧
    ∀ cap lo_bid lo_ask, OrderBook_new cap = Ok b0 → Z.of_nat cap < 2 ^ 32 →
      good_feed cap lo_bid lo_ask empty_sbook (file_messages bytes) = true → bphase s' = BExit.
Proof.
  intros Hinit Hs Hb Hst. assert (Hc : 0 < capacity ≤ 2 ^ 63) by lia.
  pose proof (psteps_inv capacity Hpow Hc bytes b0 Hs Hb _ _ (pipe_new_inv capacity Hc bytes b0 init Hinit) Hst) as Hi.
  destruct (reach_end capacity Hpow Hcap bytes Hs Hb b0 s Hi) as (s' & Hst' & Hend). exists s'.
  split_and!; [done..|]. intros cap lo_bid lo_ask Hb0 Hcapn Hfeed.
  apply (ended_exit capacity bytes b0 cap lo_bid lo_ask Hb0 Hcapn Hfeed); [|done].
  exact (psteps_inv capacity Hpow Hc bytes b0 Hs Hb _ _ Hi Hst').
Qed.

End Theorems.

(** ** Instances on the sample session *)
Lemma sample_file_bytes : Forall is_byte sample_file.
Proof.
  apply Forall_concat, Forall_fmap, Forall_forall. intros m Hm.
  apply frame_bytes; [apply encode_length_bound|apply encode_bytes];
    (unfold sample_session in Hm; repeat (apply elem_of_cons in Hm as [->|Hm]);
     [..|by apply not_elem_of_nil in Hm]); simpl; unfold valid_struct; simpl; unfold is_byte;
    repeat (split || constructor); try reflexivity; vm_compute; done.
Qed.

Lemma sample_file_messages : file_messages sample_file = sample_session.
Proof. vm_compute. reflexivity. Qed.

Lemma sample_file_size : size_ok sample_file.
Proof. vm_compute. reflexivity. Qed.

Lemma fresh_book_new : OrderBook_new 8 = Ok fresh_book.
Proof. reflexivity. Qed.

Lemma sample_file_feed :
  good_feed 8 1500000 1500000 empty_sbook (file_messages sample_file) = true.
Proof. rewrite sample_file_messages. vm_compute. reflexivity. Qed.

Lemma sample_exit `{BuildMode} : ∃ s, psteps 4 sample_start s ∧ bphase s = BExit.
Proof.
  assert (Hi : pinv 4 sample_file fresh_book sample_start) by (by apply pipe_new_inv).
  destruct (reach_end 4 eq_refl ltac:(lia) sample_file sample_file_size sample_file_bytes fresh_book _ Hi)
    as (s & Hs & Hend).
  exists s. split; [exact Hs|]. eapply (ended_exit 4 sample_file fresh_book 8 1500000 1500000
    fresh_book_new ltac:(lia) sample_file_feed); [|exact Hend].
  exact (psteps_inv 4 eq_refl ltac:(lia) sample_file fresh_book sample_file_size sample_file_bytes _ _ Hi Hs).
Qed.

Lemma pipeline_exit_witness :
  ∃ s, @psteps debug_build 4 sample_start s ∧ (booked s).*2 = sample_session ∧ b_count s = 10.
Proof.
  destruct (@sample_exit debug_build) as (s & Hs & Hx). exists s. split; [exact Hs|].
  destruct (@pipeline_exit debug_build 4 eq_refl ltac:(lia) sample_ring sample_file fresh_book s
    eq_refl sample_file_size sample_file_bytes Hs Hx) as (ms & Hms & Hb & _ & _ & Hc).
  assert (E : read_file sample_file = Ok sample_session) by (vm_compute; reflexivity).
  rewrite E in Hms. injection Hms as <-. rewrite Hc. exact (conj Hb eq_refl).
Defined.

Lemma pipeline_bbo_witness :
  ∃ s, @psteps release_build 4 sample_start s ∧
    best_bid_offer (book s) = Ok (mkBBO 1500050 20 1500300 40).
Proof.
  destruct (@sample_exit release_build) as (s & Hs & Hx). exists s. split; [exact Hs|].
  destruct (@pipeline_bbo release_build 4 eq_refl ltac:(lia) sample_ring sample_file fresh_book 8
    1500000 1500000 s eq_refl sample_file_size sample_file_bytes fresh_book_new ltac:(lia)
    sample_file_feed Hs) as [_ Hbbo].
  rewrite (Hbbo Hx), sample_file_messages. vm_compute. reflexivity.
Defined.

Lemma pipeline_can_finish_witness :
  ∃ s, @psteps debug_build 4 sample_start s ∧ bphase s = BExit.
Proof.
  destruct (@pipeline_can_finish debug_build 4 eq_refl ltac:(lia) sample_ring sample_file fresh_book sample_start
    eq_refl sample_file_size sample_file_bytes (rtc_refl _ _)) as (s & Hs & _ & Hx).
  exists s. split; [exact Hs|]. exact (Hx 8%nat 1500000 1500000 fresh_book_new ltac:(lia) sample_file_feed).
Defined.
