(* ===== verification/Components.v ===== *)
(** * The pool and the price level as abstract data types

    Any sequence of [alloc]/[free] calls on a fresh [OrderPool] behaves as a stack of
    slot numbers, and any sequence of [add_order]/[remove_order]/[reduce_shares] calls
    on a fresh [PriceLevel] as a FIFO list of orders with their shares. *)

From S2P Require Import Prelude Order PriceLevel.

(** ** OrderPool: a stack of free slots *)
Inductive pool_op := PAlloc | PFree (a : addr).

Section PoolRun.
Context `{BuildMode}.

(** The addresses handed out, and the pool reached. *)
Fixpoint pool_run (p : OrderPool) (ops : list pool_op) : outcome (list addr * OrderPool) :=
  match ops with
  | [] => Ok ([], p)
  | PAlloc :: ops => '(a, p) ← alloc p; '(l, p) ← pool_run p ops; Ok (a :: l, p)
  | PFree a :: ops => p ← free p (Some a); pool_run p ops
  end.

End PoolRun.

Fixpoint stack_run (fs : list addr) (ops : list pool_op) : list addr * list addr :=
  match ops, fs with
  | [], _ => ([], fs)
  | PAlloc :: ops, a :: fs => let '(l, fs) := stack_run fs ops in (a :: l, fs)
  | PAlloc :: _, [] => ([], [])
  | PFree a :: ops, _ => stack_run (a :: fs) ops
  end.

(** No allocation from an empty pool, no slot freed twice or from elsewhere. *)
Fixpoint pool_ops_ok (n : nat) (fs : list addr) (ops : list pool_op) : bool :=
  match ops, fs with
  | [], _ => true
  | PAlloc :: ops, a :: fs => pool_ops_ok n fs ops
  | PAlloc :: _, [] => false
  | PFree a :: ops, _ => (a <? n)%nat && bool_decide (a ∉ fs) && pool_ops_ok n (a :: fs) ops
  end.

(** ** PriceLevel: a FIFO list *)
Inductive level_op := LAdd (a : addr) | LRemove (a : addr) | LReduce (a : addr) (n : Z).

Section LevelRun.
Context `{BuildMode}.

Definition level_step (s : heap * PriceLevel) (op : level_op) : outcome (heap * PriceLevel) :=
  match op with
  | LAdd a => add_order s.1 s.2 (Some a)
  | LRemove a => remove_order s.1 s.2 (Some a)
  | LReduce a n => reduce_shares s.1 s.2 (Some a) n
  end.

End LevelRun.

(** The queue, oldest first, and the shares of every order. *)
Definition fifo_level : Type := list addr * (addr → Z).

Definition fifo_level_step (s : fifo_level) (op : level_op) : fifo_level :=
  match op with
  | LAdd a => (s.1 ++ [a], s.2)
  | LRemove a => (filter (λ x, x ≠ a) s.1, s.2)
  | LReduce a n => (s.1, <[a := s.2 a - n]> s.2)
  end.

Definition level_op_ok (cap : nat) (s : fifo_level) (op : level_op) : bool :=
  match op with
  | LAdd a => (a <? cap)%nat && bool_decide (a ∉ s.1)
  | LRemove a => bool_decide (a ∈ s.1)
  | LReduce a n => bool_decide (a ∈ s.1) && (0 <=? n) && (n <=? s.2 a)
  end.

Fixpoint level_ops_ok (cap : nat) (s : fifo_level) (ops : list level_op) : bool :=
  match ops with
  | [] => true
  | op :: ops => level_op_ok cap s op && level_ops_ok cap (fifo_level_step s op) ops
  end.

Definition fifo_total (s : fifo_level) : Z := foldr (λ a t, s.2 a + t) 0 s.1.

(** ** Lemmas *)
Section Lemmas.
Context `{BuildMode}.

Lemma pool_run_ok n ops : ∀ p fs,
  pool_ok p fs → length (slots p) = n → pool_ops_ok n fs ops = true →
  ∃ p', pool_run p ops = Ok ((stack_run fs ops).1, p') ∧ pool_ok p' (stack_run fs ops).2.
Proof.
  induction ops as [|[|a] ops IH]; intros p fs Hp Hlen Hok; [by exists p| |].
  - destruct fs as [|a fs]; [done|]. destruct (alloc_ok p a fs Hp) as (p1 & E & Hp1 & Hs).
    destruct (IH p1 fs Hp1) as (p2 & E2 & Hp2); [by rewrite Hs, length_insert|done|].
    exists p2. cbn [pool_run stack_run]. rewrite E, bind_ok. cbv iota beta. rewrite E2, bind_ok.
    by destruct (stack_run fs ops).
  - cbn [pool_ops_ok] in Hok.
    apply andb_true_iff in Hok as [[Ha%Nat.ltb_lt Hnin%bool_decide_eq_true]%andb_true_iff Hok].
    destruct (lookup_lt_is_Some_2 (slots p) a) as [o Ho]; [lia|].
    destruct (free_ok p a o fs Hp Ho Hnin) as (p1 & E & Hp1 & Hs).
    destruct (IH p1 (a :: fs) Hp1) as (p2 & E2 & Hp2); [by rewrite Hs, length_insert|done|].
    exists p2. cbn [pool_run stack_run]. rewrite E, bind_ok. done.
Qed.

(** The level and the heap represent the abstract level. *)
Record level_sim (cap : nat) (s : heap * PriceLevel) (a : fifo_level) : Prop := {
  ls_heap : heap_ok s.1;
  ls_cap : length s.1 = cap;
  ls_rep : level_rep s.1 s.2 a.1;
  ls_shares : ∀ x, shares_of s.1 x = a.2 x;
}.

Lemma level_step_sim cap s t op :
  level_sim cap s t → level_op_ok cap t op = true →
  ∃ s', level_step s op = Ok s' ∧ level_sim cap s' (fifo_level_step t op).
Proof.
  intros [Hh Hc Hr Hs] Hok. destruct s as [h l], t as [q f]; cbn [fst snd] in *.
  destruct op as [a|a|a n]; cbn [level_op_ok level_step fifo_level_step fst snd] in *.
  - apply andb_true_iff in Hok as [Ha%Nat.ltb_lt Hnin%bool_decide_eq_true].
    destruct (lookup_lt_is_Some_2 h a) as [o Ho]; [lia|].
    destruct (add_order_ok h l q a o Hh Hr Ho Hnin) as (h' & l' & E & Hr' & Hd & _).
    exists (h', l'). split; [done|]. split; cbn [fst snd]; [by apply (heap_ok_proper _ _ Hd)| |done|].
    + by rewrite (same_data_length _ _ Hd).
    + intros x. rewrite <-Hs. symmetry. exact (shares_of_proper _ _ Hd x x eq_refl).
  - apply bool_decide_eq_true in Hok. apply list_elem_of_split in Hok as (l1 & l2 & ->).
    destruct (lr_linked _ _ _ Hr l1 a l2 eq_refl) as (o & Ho & _).
    destruct (remove_order_ok h l l1 a l2 o Hh Hr Ho) as (l' & E & Hr').
    pose proof (unlinked_same_data h l1 a l2) as Hd.
    exists (unlinked h l1 a l2, l'). split; [done|]. split; cbn [fst snd].
    + by apply (heap_ok_proper _ _ Hd).
    + by rewrite (same_data_length _ _ Hd).
    + by rewrite filter_ne_middle by apply (lr_nodup _ _ _ Hr).
    + intros x. rewrite <-Hs. symmetry. exact (shares_of_proper _ _ Hd x x eq_refl).
  - apply andb_true_iff in Hok as [[Hin%bool_decide_eq_true Hn%Z.leb_le]%andb_true_iff Hle%Z.leb_le].
    pose proof Hin as (l1 & l2 & Hq)%list_elem_of_split.
    destruct (lr_linked _ _ _ Hr l1 a l2 Hq) as (o & Ho & _).
    assert (Hfa : f a = shares o) by (by rewrite <-Hs, (shares_of_Some h a o)).
    pose proof (ho_shares _ Hh _ _ Ho).
    destruct (reduce_shares_ok h l q a o n Hh Hr Hin Ho) as (l' & E & Hr'); [lia|].
    eexists. split; [done|]. split; cbn [fst snd]; [|by rewrite length_insert|done|].
    + apply heap_ok_insert; [done|]. simpl. lia.
    + intros x. unfold shares_of. destruct (decide (x = a)) as [->|Hne].
      * rewrite list_lookup_insert_eq, fn_lookup_insert by (by eapply lookup_lt_Some). simpl. lia.
      * rewrite list_lookup_insert_ne, fn_lookup_insert_ne by done. apply Hs.
Qed.

Lemma level_run_sim cap ops : ∀ s t,
  level_sim cap s t → level_ops_ok cap t ops = true →
  ∃ s', foldM level_step ops s = Ok s' ∧ level_sim cap s' (foldl fifo_level_step t ops).
Proof.
  induction ops as [|op ops IH]; intros s t Hs Hok; [by exists s|].
  cbn [level_ops_ok] in Hok. apply andb_true_iff in Hok as [Hop Hok].
  destruct (level_step_sim _ _ _ _ Hs Hop) as (s1 & E & Hs1).
  destruct (IH _ _ Hs1 Hok) as (s2 & E2 & Hs2). exists s2. cbn [foldM]. by rewrite E.
Qed.

Lemma fifo_total_qty cap s t : level_sim cap s t → fifo_total t = qty s.1 t.1.
Proof.
  intros [_ _ _ Hs]. unfold fifo_total, qty. induction t.1 as [|a q IH]; simpl; [done|].
  by rewrite IH, Hs.
Qed.

End Lemmas.

(** ** Theorems *)
Section Theorems.
Context `{BuildMode}.

(** A fresh pool of [n] slots is a stack holding the slots [0] to [n - 1]: for any
    sequence of calls that never frees a slot twice nor allocates from an empty
    pool, the addresses handed out are those of the stack (last freed, first
    reused), so no live slot is ever handed out again. *)
Theorem pool_refines_stack n ops :
  (0 < n)%nat → pool_ops_ok n (seq 0 n) ops = true →
  ∃ p p', OrderPool_new n = Ok p ∧ pool_run p ops = Ok ((stack_run (seq 0 n) ops).1, p') ∧
    pool_ok p' (stack_run (seq 0 n) ops).2.
Proof.
  intros Hn Hok. destruct (OrderPool_new_ok n Hn) as (p & E & Hp & Hlen).
  destruct (pool_run_ok n ops p (seq 0 n) Hp Hlen Hok) as (p' & E' & Hp'). eauto.
Qed.

(** A price level is a FIFO list: after any valid sequence of additions, removals
    and reductions on an empty level, following [next] from [head] gives the list,
    head and tail are its ends, the total is the exact sum of the shares (no
    64-bit wrap-around) and the count its length. *)
Theorem level_refines_fifo h ops :
  heap_ok h → level_ops_ok (length h) ([], shares_of h) ops = true →
  ∃ h' l', foldM level_step ops (h, level_default) = Ok (h', l') ∧
    let t := foldl fifo_level_step ([], shares_of h) ops in
    level_queue h' l' = t.1 ∧ lvl_head l' = head t.1 ∧ lvl_tail l' = last t.1 ∧
    total_qty l' = fifo_total t ∧ 0 ≤ fifo_total t < 2 ^ 64 ∧
    order_count l' = Z.of_nat (length t.1).
Proof.
  intros Hh Hok.
  destruct (level_run_sim (length h) ops (h, level_default) ([], shares_of h)) as ([h' l'] & E & Hs);
    [split; cbn [fst snd]; [done|done|apply level_rep_default|done]|done|].
  exists h', l'. split; [done|]. cbv zeta. rewrite (fifo_total_qty _ _ _ Hs).
  destruct Hs as [Hh' _ Hr _]. cbn [fst snd] in *. split_and!; try apply Hr.
  - by apply level_queue_rep.
  - apply qty_u64; [done|apply Hr|apply Hr].
  - apply qty_u64; [done|apply Hr|apply Hr].
Qed.

End Theorems.

(** ** Instances *)
Lemma pool_refines_stack_witness :
  ∃ p p', OrderPool_new 3 = Ok p ∧
    @pool_run debug_build p [PAlloc; PAlloc; PFree 0; PAlloc; PAlloc] = Ok ([0; 1; 0; 2]%nat, p').
Proof.
  destruct (@pool_refines_stack debug_build 3 [PAlloc; PAlloc; PFree 0; PAlloc; PAlloc])
    as (p & p' & E & E' & _); [lia|by_vm|].
  exists p, p'. exact (conj E E').
Defined.

Definition sample_heap : heap :=
  [mkOrder 1 100 5 ch_B (-1) None None; mkOrder 2 50 5 ch_B (-1) None None;
   mkOrder 3 70 5 ch_B (-1) None None].

Lemma level_refines_fifo_witness :
  ∃ h' l', foldM (@level_step debug_build) [LAdd 0; LAdd 1; LAdd 2; LReduce 0 40; LRemove 1]
    (sample_heap, level_default) = Ok (h', l') ∧ level_queue h' l' = [0; 2]%nat ∧ total_qty l' = 130.
Proof.
  destruct (@level_refines_fifo debug_build sample_heap [LAdd 0; LAdd 1; LAdd 2; LReduce 0 40; LRemove 1])
    as (h' & l' & E & Hq & _ & _ & Ht & _); [|by_vm|].
  - split; [reflexivity|]. intros [|[|[|a]]] o Ho; try (injection Ho as <-; split; by_vm). done.
  - exists h', l'. rewrite Hq, Ht. split; [exact E|]. split; vm_compute; reflexivity.
Defined.
