(* ===== verification/Double.v ===== *)
(** * C++ [double]: IEEE binary64

    The doubles of the program are the Standard Library's specification floats at
    precision 53 and maximal exponent 1024, with rounding to nearest even: the
    arithmetic is executable, zeros, infinities and NaN included.  Every operation of the
    source rounds once (no fusion of a product and a sum).

    Proved: the conversion of an integer below 2^53 is exact, and so are the sum and
    difference of two such integers when the result is below 2^53, halving, and the
    truncation back to an integer. *)

From S2P Require Import Prelude.
From Stdlib Require Import SpecFloat.

(** ** Operations *)
Definition prec : Z := 53.
Definition emax : Z := 1024.

Abbreviation double := spec_float.

(** [static_cast<double>(z)] for an integer. *)
Definition double_of (z : Z) : double := binary_normalize prec emax z 0 false.

Definition dadd : double → double → double := SFadd prec emax.
Definition dsub : double → double → double := SFsub prec emax.
Definition dmul : double → double → double := SFmul prec emax.
Definition ddiv : double → double → double := SFdiv prec emax.
Definition deq : double → double → bool := SFeqb.
Definition dlt : double → double → bool := SFltb.

Definition d_zero : double := S754_zero false.
Definition d_two : double := double_of 2.

Definition d_half : double := ddiv (double_of 1) (double_of 2).

(** [static_cast<uint64_t>(d)]: truncation towards zero, undefined when the result
    does not fit. *)
Definition u64_of_double (d : double) : outcome Z :=
  match d with
  | S754_zero _ => Ok 0
  | S754_finite s m e =>
      let t := if 0 <=? e then Z.pos m * 2 ^ e else Z.pos m / 2 ^ (- e) in
      if (if s then t =? 0 else t <? 2 ^ 64) then Ok t else Fault BadConversion
  | _ => Fault BadConversion
  end.

(** The correctly rounded value of [m * 10^x], [m] a natural number: what a conversion
    from decimal text yields. *)
Definition decimal (m x : Z) : double :=
  if m =? 0 then d_zero
  else if 0 <=? x then double_of (m * 10 ^ x)
  else ddiv (S754_finite false (Z.to_pos m) 0) (S754_finite false (Z.to_pos (10 ^ (- x))) 0).

(** The value of a double times 2^1074, an integer for every finite one. *)
Definition dscaled (d : double) : option Z :=
  match d with
  | S754_zero _ => Some 0
  | S754_finite s m e => Some (cond_Zopp s (Z.pos m) * 2 ^ (e + 1074))
  | _ => None
  end.

(** ** Normal form of an exact value *)

(** Number of binary digits of a positive integer. *)
Definition ndigits (z : Z) : Z := Z.log2 z + 1.

(** The 53-bit mantissa of [z * 2^e], for [0 < z < 2^53]. *)
Definition norm_mant (z : Z) : Z := z * 2 ^ (53 - ndigits z).
Definition norm_float (s : bool) (z e : Z) : double :=
  S754_finite s (Z.to_pos (norm_mant z)) (e + ndigits z - 53).

(** The float of an integer below 2^53 in absolute value. *)
Definition exact_float (z : Z) : double :=
  match z with
  | Z0 => d_zero
  | Zpos _ => norm_float false z 0
  | Zneg _ => norm_float true (- z) 0
  end.

(** ** Lemmas: digits *)
Lemma digits2_log2 p : Z.pos (digits2_pos p) = Z.log2 (Z.pos p) + 1.
Proof.
  assert (Hs : ∀ p, digits2_pos p = Pos.size p) by (intros q; induction q; simpl; congruence).
  rewrite Hs. destruct p; simpl; rewrite ?Pos2Z.inj_succ; lia.
Qed.

Lemma Zdigits2_log2 z : 0 < z → Zdigits2 z = ndigits z.
Proof. destruct z as [|p|p]; try lia. intros _. apply digits2_log2. Qed.

Lemma ndigits_bound z : 0 < z < 2 ^ 53 → 1 ≤ ndigits z ≤ 53.
Proof.
  intros Hz. unfold ndigits. pose proof (Z.log2_nonneg z).
  assert (Z.log2 z < 53) by (apply Z.log2_lt_pow2; lia). lia.
Qed.

Lemma ndigits_shift z k : 0 < z → 0 ≤ k → ndigits (z * 2 ^ k) = ndigits z + k.
Proof. intros Hz Hk. unfold ndigits. rewrite Z.log2_mul_pow2 by lia. lia. Qed.

Lemma norm_mant_digits z : 0 < z < 2 ^ 53 → 0 < norm_mant z ∧ ndigits (norm_mant z) = 53.
Proof.
  intros Hz. pose proof (ndigits_bound z Hz). unfold norm_mant. split.
  - apply Z.mul_pos_pos; [lia|]. apply Z.pow_pos_nonneg; lia.
  - rewrite ndigits_shift by lia. lia.
Qed.

Lemma fexp_max e : fexp prec emax e = Z.max (e - 53) (-1074).
Proof. done. Qed.

(** ** Lemmas: exact shifts *)
Lemma iter_pos_nat {A} (f : A → A) n x : iter_pos f n x = Nat.iter (Pos.to_nat n) f x.
Proof.
  revert x. induction n as [n IH|n IH|]; intros x; [| |done].
  - change (iter_pos f n (iter_pos f n (f x)) = Nat.iter (Pos.to_nat n~1) f x).
    rewrite !IH, Pos2Nat.inj_xI, <-Nat.iter_add, <-Nat.iter_succ_r. f_equal. lia.
  - change (iter_pos f n (iter_pos f n x) = Nat.iter (Pos.to_nat n~0) f x).
    rewrite !IH, Pos2Nat.inj_xO, <-Nat.iter_add. f_equal. lia.
Qed.

Lemma shr_1_even m : 0 < m → shr_1 (Build_shr_record (2 * m) false false) = Build_shr_record m false false.
Proof. by destruct m. Qed.

Lemma shr_exact m k e :
  0 < m → 0 ≤ k → shr (Build_shr_record (m * 2 ^ k) false false) e k = (Build_shr_record m false false, e + k).
Proof.
  intros Hm Hk. destruct k as [|p|p]; [|unfold shr|lia].
  - simpl. do 2 f_equal; lia.
  - rewrite iter_pos_nat. f_equal. rewrite <-(positive_nat_Z p). clear Hk.
    induction (Pos.to_nat p) as [|n IH]; [simpl; f_equal; lia|].
    rewrite Nat2Z.inj_succ, Z.pow_succ_r by lia. rewrite Nat.iter_succ_r.
    replace (m * (2 * 2 ^ Z.of_nat n)) with (2 * (m * 2 ^ Z.of_nat n)) by lia.
    rewrite shr_1_even by (apply Z.mul_pos_pos; [done|]; apply Z.pow_pos_nonneg; lia).
    exact IH.
Qed.

Lemma shr_fexp_exact m k e :
  0 < m → ndigits m = 53 → 0 ≤ k → -1074 ≤ e + k →
  shr_fexp prec emax (m * 2 ^ k) e loc_Exact = (Build_shr_record m false false, e + k).
Proof.
  intros Hm Hd Hk He. unfold shr_fexp. rewrite Zdigits2_log2, ndigits_shift, Hd, fexp_max.
  - replace (Z.max (53 + k + e - 53) (-1074) - e) with k by lia. by apply shr_exact.
  - done.
  - done.
  - apply Z.mul_pos_pos; [done|]. apply Z.pow_pos_nonneg; lia.
Qed.

(** Rounding a value whose digits fit changes nothing. *)
Lemma round_aux_exact s m k e :
  0 < m → ndigits m = 53 → 0 ≤ k → -1074 ≤ e + k ≤ 971 →
  binary_round_aux prec emax s (m * 2 ^ k) e loc_Exact = S754_finite s (Z.to_pos m) (e + k).
Proof.
  intros Hm Hd Hk He. unfold binary_round_aux. rewrite shr_fexp_exact by (done || lia).
  cbn [shr_m loc_of_shr_record round_nearest_even].
  pose proof (shr_fexp_exact m 0 (e + k) Hm Hd ltac:(lia) ltac:(lia)) as E.
  rewrite Z.mul_1_r, Z.add_0_r in E. rewrite E. cbn [shr_m].
  destruct m as [|p|p]; [lia| |lia]. unfold emax, prec. by rewrite (proj2 (Z.leb_le _ _)) by lia.
Qed.

Lemma shl_align_pos p e e' :
  e' ≤ e → let '(m, ee) := shl_align p e e' in Z.pos m = Z.pos p * 2 ^ (e - e') ∧ ee = e'.
Proof.
  intros He. unfold shl_align. destruct (e' - e) as [|d|d] eqn:E; [|lia|].
  - replace (e - e') with 0 by lia. lia.
  - replace (e - e') with (Z.pos d) by lia. split; [|done].
    rewrite <-(positive_nat_Z d), Pos2Nat.inj_iter. clear E.
    induction (Pos.to_nat d) as [|n IH]; [simpl; lia|].
    rewrite Nat2Z.inj_succ, Z.pow_succ_r by lia.
    transitivity (2 * (Z.pos p * 2 ^ Z.of_nat n)); [rewrite <-IH; reflexivity|lia].
Qed.

(** ** Lemmas: exact results *)

(** [z * 2^k] with exponent [-k + e]: the normal form of [z * 2^e]. *)
Lemma binary_round_exact s p z k e :
  0 < z < 2 ^ 53 → 0 ≤ k → Z.pos p = z * 2 ^ k → -1000 ≤ e ≤ 900 →
  binary_round prec emax s p (e - k) = norm_float s z e.
Proof.
  intros Hz Hk Hp He. destruct (norm_mant_digits z Hz) as [Hm Hd]. pose proof (ndigits_bound z Hz) as Hn.
  unfold binary_round, norm_float. rewrite digits2_log2. change (Z.log2 (Z.pos p) + 1) with (ndigits (Z.pos p)).
  rewrite Hp, ndigits_shift, fexp_max by lia. replace (ndigits z + k + (e - k)) with (ndigits z + e) by lia.
  rewrite Z.max_l by lia. destruct (Z.le_ge_cases (ndigits z + e - 53) (e - k)) as [Hle|Hge].
  - pose proof (shl_align_pos p (e - k) _ Hle) as Ha. destruct (shl_align p _ _) as [q ee].
    destruct Ha as [Hq ->]. rewrite Hq, Hp, <-Z.mul_assoc, <-Z.pow_add_r by lia.
    replace (k + (e - k - (ndigits z + e - 53))) with (53 - ndigits z) by lia.
    fold (norm_mant z). rewrite <-(Z.mul_1_r (norm_mant z)) at 1. change 1 with (2 ^ 0) at 1.
    rewrite round_aux_exact by (done || lia). f_equal. lia.
  - unfold shl_align. destruct (ndigits z + e - 53 - (e - k)) as [|d|d] eqn:E; [| |lia].
    + assert (k = 53 - ndigits z) by lia. rewrite Hp. subst k. fold (norm_mant z).
      rewrite <-(Z.mul_1_r (norm_mant z)) at 1. change 1 with (2 ^ 0) at 1.
      rewrite round_aux_exact by (done || lia). f_equal. lia.
    + replace (Z.pos p) with (norm_mant z * 2 ^ (Z.pos d)).
      * rewrite round_aux_exact by (done || lia). f_equal. lia.
      * rewrite Hp. unfold norm_mant. rewrite <-Z.mul_assoc, <-Z.pow_add_r by lia. do 2 f_equal. lia.
Qed.

Lemma normalize_exact z k :
  - 2 ^ 53 < z < 2 ^ 53 → 0 ≤ k → binary_normalize prec emax (z * 2 ^ k) (- k) false = exact_float z.
Proof.
  intros Hz Hk. assert (0 < 2 ^ k) by (apply Z.pow_pos_nonneg; lia).
  destruct z as [|z|z]; [done|..]; unfold binary_normalize, exact_float.
  - destruct (Z.pos z * 2 ^ k) as [|p|p] eqn:E; [lia| |lia].
    replace (- k) with (0 - k) by lia. by apply binary_round_exact.
  - destruct (Z.neg z * 2 ^ k) as [|p|p] eqn:E; [lia|lia|].
    replace (- k) with (0 - k) by lia. apply binary_round_exact; lia.
Qed.

Lemma double_of_exact z : - 2 ^ 53 < z < 2 ^ 53 → double_of z = exact_float z.
Proof.
  intros Hz. rewrite <-(normalize_exact z 0) by (done || lia). unfold double_of. by rewrite Z.mul_1_r.
Qed.

Lemma norm_float_scaled s z e :
  0 < z < 2 ^ 53 → -1000 ≤ e → dscaled (norm_float s z e) = Some (cond_Zopp s z * 2 ^ (e + 1074)).
Proof.
  intros Hz He. destruct (norm_mant_digits z Hz) as [Hm _]. pose proof (ndigits_bound z Hz).
  unfold norm_float, dscaled. rewrite Z2Pos.id by done. f_equal.
  assert (E : norm_mant z * 2 ^ (e + ndigits z - 53 + 1074) = z * 2 ^ (e + 1074)).
  { unfold norm_mant. rewrite <-Z.mul_assoc, <-Z.pow_add_r by lia. do 2 f_equal. lia. }
  destruct s; unfold cond_Zopp; [rewrite !Z.mul_opp_l|]; by rewrite E.
Qed.

Lemma exact_float_scaled z : - 2 ^ 53 < z < 2 ^ 53 → dscaled (exact_float z) = Some (z * 2 ^ 1074).
Proof.
  intros Hz. destruct z as [|z|z]; [done|..]; unfold exact_float; rewrite norm_float_scaled by lia;
    unfold cond_Zopp; rewrite Z.add_0_l; f_equal; lia.
Qed.

Lemma exact_float_finite z :
  - 2 ^ 53 < z < 2 ^ 53 → z ≠ 0 →
  ∃ m e, exact_float z = S754_finite (z <? 0) m e ∧ e ≤ 0 ∧ cond_Zopp (z <? 0) (Z.pos m) = z * 2 ^ (- e).
Proof.
  intros Hz Hne. assert (Hn : ∀ s x, 0 < x < 2 ^ 53 → ∃ m e, norm_float s x 0 = S754_finite s m e ∧
    e ≤ 0 ∧ Z.pos m = x * 2 ^ (- e)).
  { intros s x Hx. destruct (norm_mant_digits x Hx) as [Hm _]. pose proof (ndigits_bound x Hx).
    do 2 eexists. split_and!; [done|lia|]. rewrite Z2Pos.id by done. unfold norm_mant. do 2 f_equal. lia. }
  destruct z as [|z|z]; [done|..]; unfold exact_float.
  - destruct (Hn false (Z.pos z)) as (m & e & -> & He & E); [lia|]. by exists m, e.
  - destruct (Hn true (- Z.neg z)) as (m & e & -> & He & E); [lia|]. exists m, e. split_and!; [done|done|].
    change (- Z.pos m = Z.neg z * 2 ^ (- e)). lia.
Qed.

(** A finite operand brought to a smaller exponent. *)
Lemma aligned s m e ez z :
  ez ≤ e → e ≤ 0 → cond_Zopp s (Z.pos m) = z * 2 ^ (- e) →
  cond_Zopp s (Z.pos (shl_align m e ez).1) = z * 2 ^ (- ez).
Proof.
  intros Hez He E. pose proof (shl_align_pos m e ez Hez) as Ha. destruct (shl_align m e ez) as [q ee].
  destruct Ha as [Hq _]. cbn [fst]. replace (- ez) with (- e + (e - ez)) by lia.
  rewrite Z.pow_add_r, Z.mul_assoc, <-E, Hq by lia. destruct s; unfold cond_Zopp; lia.
Qed.

Lemma dadd_exact x y :
  - 2 ^ 53 < x < 2 ^ 53 → - 2 ^ 53 < y < 2 ^ 53 → - 2 ^ 53 < x + y < 2 ^ 53 →
  dadd (exact_float x) (exact_float y) = exact_float (x + y).
Proof.
  intros Hx Hy Hxy. destruct (decide (x = 0)) as [->|Hx0].
  - destruct (decide (y = 0)) as [->|Hy0]; [done|].
    destruct (exact_float_finite y Hy Hy0) as (m & e & E & _). rewrite Z.add_0_l, E. done.
  - destruct (exact_float_finite x Hx Hx0) as (m1 & e1 & E1 & He1 & H1).
    destruct (decide (y = 0)) as [->|Hy0]; [by rewrite Z.add_0_r, E1|].
    destruct (exact_float_finite y Hy Hy0) as (m2 & e2 & E2 & He2 & H2). rewrite E1, E2.
    unfold dadd, SFadd. cbv zeta.
    rewrite (aligned _ m1 e1 _ x), (aligned _ m2 e2 _ y) by (done || lia).
    rewrite <-Z.mul_add_distr_r, <-(normalize_exact (x + y) (- Z.min e1 e2)) by lia.
    by rewrite Z.opp_involutive.
Qed.

Lemma exact_float_opp y : - 2 ^ 53 < y < 2 ^ 53 → y ≠ 0 → exact_float (- y) = SFopp (exact_float y).
Proof. by destruct y. Qed.

Lemma dsub_exact x y :
  - 2 ^ 53 < x < 2 ^ 53 → - 2 ^ 53 < y < 2 ^ 53 → - 2 ^ 53 < x - y < 2 ^ 53 →
  dsub (exact_float x) (exact_float y) = exact_float (x - y).
Proof.
  intros Hx Hy Hxy. destruct (decide (x = 0)) as [->|Hx0].
  - destruct (decide (y = 0)) as [->|Hy0]; [done|].
    rewrite Z.sub_0_l, exact_float_opp by done.
    destruct (exact_float_finite y Hy Hy0) as (m & e & -> & _). done.
  - destruct (exact_float_finite x Hx Hx0) as (m1 & e1 & E1 & He1 & H1).
    destruct (decide (y = 0)) as [->|Hy0]; [by rewrite Z.sub_0_r, E1|].
    destruct (exact_float_finite y Hy Hy0) as (m2 & e2 & E2 & He2 & H2). rewrite E1, E2.
    unfold dsub, SFsub. cbv zeta.
    rewrite (aligned _ m1 e1 _ x), (aligned _ m2 e2 _ y) by (done || lia).
    rewrite <-Z.mul_sub_distr_r, <-(normalize_exact (x - y) (- Z.min e1 e2)) by lia.
    by rewrite Z.opp_involutive.
Qed.

Lemma norm_float_pos_mant s z e :
  0 < z < 2 ^ 53 → ∃ m, norm_float s z e = S754_finite s m (e + ndigits z - 53) ∧
    Z.pos m = norm_mant z ∧ ndigits (Z.pos m) = 53.
Proof.
  intros Hz. destruct (norm_mant_digits z Hz) as [Hm Hd]. eexists. split_and!; [done|..];
    rewrite Z2Pos.id by done; done.
Qed.

(** Digits of a product. *)
Lemma ndigits_mul x y :
  0 < x → 0 < y → ndigits x + ndigits y - 1 ≤ ndigits (x * y) ≤ ndigits x + ndigits y.
Proof.
  intros Hx Hy. unfold ndigits. pose proof (Z.log2_mul_below x y Hx Hy).
  pose proof (Z.log2_mul_above x y ltac:(lia) ltac:(lia)). lia.
Qed.

Lemma norm_mant_mul x y :
  0 < x → 0 < y → x * y < 2 ^ 53 →
  norm_mant x * norm_mant y = norm_mant (x * y) * 2 ^ (53 + ndigits (x * y) - ndigits x - ndigits y).
Proof.
  intros Hx Hy Hxy. pose proof (ndigits_mul x y Hx Hy). pose proof (ndigits_bound (x * y) ltac:(nia)).
  pose proof (ndigits_bound x ltac:(nia)). pose proof (ndigits_bound y ltac:(nia)). unfold norm_mant.
  replace (x * 2 ^ (53 - ndigits x) * (y * 2 ^ (53 - ndigits y)))
    with (x * y * (2 ^ (53 - ndigits x) * 2 ^ (53 - ndigits y))) by lia.
  rewrite <-(Z.mul_assoc (x * y) (2 ^ (53 - ndigits (x * y)))), <-!Z.pow_add_r by lia.
  do 2 f_equal. lia.
Qed.

(** Products and quotients whose value is a small scaled integer are exact. *)
Lemma dmul_norm x y e1 e2 :
  0 < x → 0 < y → x * y < 2 ^ 53 → -900 ≤ e1 + e2 ≤ 900 →
  dmul (norm_float false x e1) (norm_float false y e2) = norm_float false (x * y) (e1 + e2).
Proof.
  intros Hx Hy Hxy He. pose proof (ndigits_mul x y Hx Hy). pose proof (ndigits_bound (x * y) ltac:(nia)).
  pose proof (ndigits_bound x ltac:(nia)). pose proof (ndigits_bound y ltac:(nia)).
  destruct (norm_mant_digits (x * y) ltac:(nia)) as [Hm Hd].
  destruct (norm_float_pos_mant false x e1 ltac:(nia)) as (m1 & -> & Hm1 & _).
  destruct (norm_float_pos_mant false y e2 ltac:(nia)) as (m2 & -> & Hm2 & _).
  unfold dmul, SFmul. cbn [xorb]. rewrite Pos2Z.inj_mul, Hm1, Hm2, norm_mant_mul by done.
  rewrite round_aux_exact by (done || lia). unfold norm_float. f_equal. lia.
Qed.

Lemma quotient_core x y m1 m2 e1 e2 :
  0 < x → 0 < y → x * y < 2 ^ 53 → Z.pos m1 = norm_mant (x * y) → Z.pos m2 = norm_mant y →
  let k := ndigits x + ndigits y - ndigits (x * y) in
  let e := ndigits (x * y) - ndigits y + (e1 - e2) in
  -900 ≤ e1 - e2 ≤ 900 →
  SFdiv_core_binary prec emax (Z.pos m1) (e1 + ndigits (x * y) - 53) (Z.pos m2) (e2 + ndigits y - 53) =
    (norm_mant x * 2 ^ k, e - 53, loc_Exact).
Proof.
  intros Hx Hy Hxy Hm1 Hm2 k e He. pose proof (ndigits_mul x y Hx Hy) as Hd.
  pose proof (ndigits_bound (x * y) ltac:(nia)). pose proof (ndigits_bound x ltac:(nia)).
  pose proof (ndigits_bound y ltac:(nia)).
  destruct (norm_mant_digits (x * y) ltac:(nia)) as [Hp1 Hd1].
  destruct (norm_mant_digits y ltac:(nia)) as [Hp2 Hd2].
  unfold SFdiv_core_binary. rewrite !Zdigits2_log2, Hm1, Hm2, Hd1, Hd2, fexp_max by lia.
  replace (Z.min _ _) with (e - 53) by lia.
  replace (_ - _ - (e - 53)) with 53 by lia. rewrite Z.shiftl_mul_pow2 by lia.
  pose proof (Z_div_mod (norm_mant (x * y) * 2 ^ 53) (norm_mant y) ltac:(lia)) as Hdm.
  destruct (Z.div_eucl _ _) as [q r]. destruct Hdm as [Hq Hr].
  assert (E : norm_mant (x * y) * 2 ^ 53 = norm_mant y * (norm_mant x * 2 ^ k)).
  { rewrite Z.mul_assoc, (Z.mul_comm (norm_mant y)), norm_mant_mul, <-Z.mul_assoc, <-Z.pow_add_r by lia.
    do 2 f_equal. lia. }
  rewrite E in Hq. assert (q = norm_mant x * 2 ^ k) by nia. assert (r = 0) as -> by nia. subst q.
  unfold new_location. by destruct (Z.even _).
Qed.

Lemma ddiv_norm x y e1 e2 :
  0 < x → 0 < y → x * y < 2 ^ 53 → -900 ≤ e1 - e2 ≤ 900 →
  ddiv (norm_float false (x * y) e1) (norm_float false y e2) = norm_float false x (e1 - e2).
Proof.
  intros Hx Hy Hxy He. pose proof (ndigits_mul x y Hx Hy). pose proof (ndigits_bound (x * y) ltac:(nia)).
  pose proof (ndigits_bound x ltac:(nia)). pose proof (ndigits_bound y ltac:(nia)).
  destruct (norm_mant_digits x ltac:(nia)) as [Hm Hd].
  destruct (norm_float_pos_mant false (x * y) e1 ltac:(nia)) as (m1 & -> & Hm1 & _).
  destruct (norm_float_pos_mant false y e2 ltac:(nia)) as (m2 & -> & Hm2 & _).
  unfold ddiv, SFdiv. cbn [xorb]. rewrite (quotient_core x y) by done.
  rewrite round_aux_exact by (done || lia). unfold norm_float. f_equal. lia.
Qed.

(** ** Lemmas: the constants of the program *)
Lemma exact_float_pos z : 0 < z → exact_float z = norm_float false z 0.
Proof. by destruct z. Qed.

Lemma dmul_exact x y :
  0 ≤ x → 0 ≤ y → x * y < 2 ^ 53 → dmul (exact_float x) (exact_float y) = exact_float (x * y).
Proof.
  intros Hx Hy Hxy. destruct (decide (x = 0)) as [->|]; [|destruct (decide (y = 0)) as [->|]].
  - by destruct y.
  - rewrite Z.mul_0_r. by destruct x.
  - rewrite !exact_float_pos by nia. by apply dmul_norm; [lia..|].
Qed.

Lemma ddiv_exact x y :
  0 < x → 0 < y → x * y < 2 ^ 53 → ddiv (exact_float (x * y)) (exact_float y) = exact_float x.
Proof. intros Hx Hy Hxy. rewrite !exact_float_pos by nia. by apply ddiv_norm. Qed.

(** Division by 2.0 and multiplication by 0.5. *)
Lemma ddiv_two z : 0 < z < 2 ^ 53 → ddiv (exact_float z) d_two = norm_float false z (-1).
Proof.
  intros Hz. rewrite exact_float_pos by lia. rewrite <-(Z.mul_1_r z) at 1.
  change d_two with (norm_float false 1 1). by rewrite ddiv_norm by lia.
Qed.

Lemma dmul_half z : 0 < z < 2 ^ 53 → dmul d_half (exact_float z) = norm_float false z (-1).
Proof.
  intros Hz. rewrite exact_float_pos by lia. change d_half with (norm_float false 1 (-1)).
  rewrite dmul_norm by lia. by rewrite Z.mul_1_l.
Qed.

(** Truncation of a scaled integer. *)
Lemma u64_of_norm z e : 0 < z < 2 ^ 53 → -1000 ≤ e ≤ 0 → u64_of_double (norm_float false z e) = Ok (z / 2 ^ (- e)).
Proof.
  intros Hz He. destruct (norm_mant_digits z Hz) as [Hm _]. pose proof (ndigits_bound z Hz) as Hn.
  assert (Hp : 0 < 2 ^ (53 - ndigits z)) by (apply Z.pow_pos_nonneg; lia).
  assert (Hpe : 0 < 2 ^ (- e)) by (apply Z.pow_pos_nonneg; lia).
  assert (Hdiv : 0 ≤ z / 2 ^ (- e) ≤ z).
  { split; [apply Z.div_pos; lia|]. apply Z.div_le_upper_bound; [done|]. nia. }
  unfold norm_float, u64_of_double. rewrite Z2Pos.id by done.
  assert (E : (if 0 <=? e + ndigits z - 53 then norm_mant z * 2 ^ (e + ndigits z - 53)
               else norm_mant z / 2 ^ (- (e + ndigits z - 53))) = z / 2 ^ (- e)).
  { unfold norm_mant. destruct (Z.leb_spec 0 (e + ndigits z - 53)).
    - assert (e = 0 ∧ ndigits z = 53) as [-> ->] by lia. by rewrite Z.div_1_r, Z.mul_1_r, Z.mul_1_r.
    - replace (- (e + ndigits z - 53)) with (- e + (53 - ndigits z)) by lia.
      rewrite Z.pow_add_r by lia. apply Z.div_mul_cancel_r; lia. }
  cbv zeta. rewrite E. rewrite (proj2 (Z.ltb_lt _ _)) by lia. done.
Qed.
