(* ===== verification/Rounding.v ===== *)
(** * Rounding errors of [double] operations

    Each positive result in the normal range is one of the two doubles around the exact
    value, so it is within a relative 2^-52 of it.  Values are compared as integers,
    scaled by [scale] = 2^1074.  Two consequences used by the program: an integer
    written in decimal with a few decimals is recovered by multiplying, adding 0.5 and
    truncating; and truncation is the floor of the value. *)

From S2P Require Import Prelude Double.
From Stdlib Require Import SpecFloat.

(** ** Values *)
Definition scale : Z := 2 ^ 1074.

(** The scaled value of the positive double [m * 2^e]. *)
Definition sval (m : positive) (e : Z) : Z := Z.pos m * 2 ^ (e + 1074).

(** [v] is within a relative 2^-52 of [x]. *)
Definition close (v x : Z) : Prop := Z.abs (v - x) * 2 ^ 52 ≤ x.

(** ** Lemmas: shifts *)
Lemma shr_1_half mrs : 0 ≤ shr_m mrs → shr_m (shr_1 mrs) = shr_m mrs / 2.
Proof.
  rewrite <-Z.div2_div. destruct mrs as [[|[p|p|]|p] r s]; cbn; intros Hm; done.
Qed.

Lemma shr_floor mrs k e :
  0 ≤ shr_m mrs → 0 ≤ k → shr_m (shr mrs e k).1 = shr_m mrs / 2 ^ k ∧ (shr mrs e k).2 = e + k.
Proof.
  intros Hm Hk. destruct k as [|p|p]; [|unfold shr|lia].
  - simpl. rewrite Z.div_1_r. split; [done|lia].
  - split; [|done]. cbn [fst]. rewrite iter_pos_nat, <-(positive_nat_Z p). clear Hk.
    induction (Pos.to_nat p) as [|n IH]; [by rewrite Z.div_1_r|].
    rewrite Nat2Z.inj_succ, Z.pow_succ_r by lia. simpl Nat.iter.
    assert (0 ≤ shr_m mrs / 2 ^ Z.of_nat n) by (apply Z.div_pos; [done|]; apply Z.pow_pos_nonneg; lia).
    rewrite shr_1_half by (by rewrite IH). rewrite IH, Z.div_div, (Z.mul_comm 2); [done|..];
      [|lia]. pose proof (Z.pow_pos_nonneg 2 (Z.of_nat n)). lia.
Qed.

Lemma nearest_even_choice m l : round_nearest_even m l = m ∨ round_nearest_even m l = m + 1.
Proof. destruct l as [|[]]; simpl; auto. destruct (Z.even m); auto. Qed.

Lemma ndigits_spec z : 0 < z → 2 ^ (ndigits z - 1) ≤ z < 2 ^ ndigits z.
Proof.
  intros Hz. unfold ndigits. pose proof (Z.log2_spec z Hz) as H.
  replace (Z.log2 z + 1 - 1) with (Z.log2 z) by lia. by rewrite <-Z.add_1_r in H.
Qed.

Lemma ndigits_unique z n : 0 < n → 2 ^ (n - 1) ≤ z < 2 ^ n → ndigits z = n.
Proof.
  intros Hn Hz. unfold ndigits. rewrite (Z.log2_unique z (n - 1)); [lia|lia|].
  by replace (Z.succ (n - 1)) with n by lia.
Qed.

(** ** Lemmas: one rounding *)

(** The second normalisation: only a carry into the 54th digit shifts. *)
Lemma renormalise M e :
  2 ^ 52 ≤ M ≤ 2 ^ 53 → -1074 ≤ e →
  ∃ m e', shr_fexp prec emax M e loc_Exact = (Build_shr_record (Z.pos m) false false, e') ∧
    e ≤ e' ≤ e + 1 ∧ Z.pos m * 2 ^ (e' - e) = M ∧ ndigits (Z.pos m) = 53.
Proof.
  intros HM He. destruct (decide (M = 2 ^ 53)) as [->|Hne].
  - exists (2 ^ 52)%positive, (e + 1). change (2 ^ 53) with (2 ^ 52 * 2 ^ 1).
    rewrite shr_fexp_exact; [|lia|reflexivity|lia|lia]. split; [done|]. split; [lia|].
    by replace (e + 1 - e) with 1 by lia.
  - exists (Z.to_pos M), e. rewrite <-(Z.mul_1_r M) at 1. change 1 with (2 ^ 0) at 1.
    rewrite shr_fexp_exact; [|lia|apply ndigits_unique; lia|lia|lia].
    rewrite Z2Pos.id, Z.add_0_r, Z.sub_diag, Z.mul_1_r by lia.
    split; [done|]. split; [lia|]. split; [done|]. apply ndigits_unique; lia.
Qed.

Lemma round_aux_faithful mx ex lx :
  0 < mx → 53 ≤ ndigits mx → -1074 ≤ ex + (ndigits mx - 53) ≤ 970 →
  let k := ndigits mx - 53 in
  ∃ m e M, binary_round_aux prec emax false mx ex lx = S754_finite false m e ∧
    ndigits (Z.pos m) = 53 ∧ ex + k ≤ e ≤ ex + k + 1 ∧
    sval m e = M * 2 ^ (ex + k + 1074) ∧ mx + 1 - 2 ^ k ≤ M * 2 ^ k ≤ mx + 2 ^ k ∧ 2 ^ 52 * 2 ^ k ≤ mx.
Proof.
  intros Hmx Hd Hr k. pose proof (ndigits_spec mx Hmx) as Hs.
  assert (Hk : 0 < 2 ^ k) by (apply Z.pow_pos_nonneg; lia).
  assert (H52 : 2 ^ 52 * 2 ^ k ≤ mx).
  { rewrite <-Z.pow_add_r by lia. replace (52 + k) with (ndigits mx - 1) by lia. lia. }
  assert (H53 : mx < 2 ^ 53 * 2 ^ k).
  { rewrite <-Z.pow_add_r by lia. replace (53 + k) with (ndigits mx) by lia. lia. }
  pose proof (Z_div_mod_eq_full mx (2 ^ k)) as Hdm. pose proof (Z.mod_pos_bound mx (2 ^ k) Hk) as Hmod.
  unfold binary_round_aux. unfold shr_fexp at 1. rewrite Zdigits2_log2, fexp_max by done.
  replace (Z.max (ndigits mx + ex - 53) (-1074) - ex) with k by lia.
  assert (Hrec : shr_m (shr_record_of_loc mx lx) = mx) by (by destruct lx as [|[]]).
  pose proof (shr_floor (shr_record_of_loc mx lx) k ex ltac:(lia) ltac:(lia)) as [Hf He].
  destruct (shr (shr_record_of_loc mx lx) ex k) as [mrs' e1]. cbn [fst snd] in Hf, He. subst e1.
  rewrite Hrec in Hf. set (M := round_nearest_even (shr_m mrs') (loc_of_shr_record mrs')).
  assert (HM : M = mx / 2 ^ k ∨ M = mx / 2 ^ k + 1).
  { unfold M. rewrite Hf. apply nearest_even_choice. }
  assert (2 ^ 52 ≤ mx / 2 ^ k < 2 ^ 53).
  { split; [apply Z.div_le_lower_bound; lia|apply Z.div_lt_upper_bound; lia]. }
  destruct (renormalise M (ex + k)) as (m & e & E & He & Hv & Hdm'); [lia|lia|].
  rewrite E. cbn [shr_m]. unfold emax, prec. rewrite (proj2 (Z.leb_le _ _)) by lia.
  exists m, e, M. split; [done|]. split; [done|]. split; [lia|]. split; [|split; [nia|done]].
  unfold sval. rewrite <-Hv, <-Z.mul_assoc, <-Z.pow_add_r by lia. do 2 f_equal. lia.
Qed.

Lemma sval_pos m e : -1074 ≤ e → 0 < sval m e.
Proof. intros He. unfold sval. apply Z.mul_pos_pos; [done|]. apply Z.pow_pos_nonneg; lia. Qed.

(** A rounding error multiplied by a positive factor. *)
Lemma close_scaled M K x c : M - K ≤ x ≤ M + K → 2 ^ 52 * K ≤ x → 0 ≤ c → close (M * c) (x * c).
Proof.
  intros HM HK Hc. unfold close. rewrite <-Z.mul_sub_distr_r, Z.abs_mul, (Z.abs_eq c) by done.
  assert (Z.abs (M - x) * 2 ^ 52 ≤ x) by lia.
  replace (Z.abs (M - x) * c * 2 ^ 52) with (Z.abs (M - x) * 2 ^ 52 * c) by lia.
  by apply Z.mul_le_mono_nonneg_r.
Qed.

(** ** Lemmas: operations *)
Lemma dmul_close m1 e1 m2 e2 :
  ndigits (Z.pos m1) = 53 → ndigits (Z.pos m2) = 53 → -1074 ≤ e1 → -1074 ≤ e2 → -1000 ≤ e1 + e2 ≤ 900 →
  ∃ m e, dmul (S754_finite false m1 e1) (S754_finite false m2 e2) = S754_finite false m e ∧
    ndigits (Z.pos m) = 53 ∧ e1 + e2 + 52 ≤ e ≤ e1 + e2 + 54 ∧
    close (sval m e * scale) (sval m1 e1 * sval m2 e2).
Proof.
  intros H1 H2 He1 He2 He. pose proof (ndigits_mul (Z.pos m1) (Z.pos m2) ltac:(done) ltac:(done)) as Hd.
  unfold dmul, SFmul. cbn [xorb]. rewrite Pos2Z.inj_mul.
  destruct (round_aux_faithful (Z.pos m1 * Z.pos m2) (e1 + e2) loc_Exact) as (m & e & M & -> & Hn & Hb & Hv & HM & HK);
    [done|lia|lia|].
  exists m, e. split; [done|]. split; [done|]. split; [lia|]. rewrite Hv. unfold sval, scale.
  set (k := ndigits _ - 53) in *.
  replace (M * 2 ^ (e1 + e2 + k + 1074) * 2 ^ 1074) with (M * 2 ^ k * 2 ^ (e1 + e2 + 2148)).
  - replace (Z.pos m1 * 2 ^ (e1 + 1074) * (Z.pos m2 * 2 ^ (e2 + 1074)))
      with (Z.pos m1 * Z.pos m2 * 2 ^ (e1 + e2 + 2148)).
    + eapply close_scaled; [|done|apply Z.pow_nonneg; lia]. lia.
    + replace (e1 + e2 + 2148) with ((e1 + 1074) + (e2 + 1074)) by lia. rewrite Z.pow_add_r by lia. lia.
  - rewrite <-!Z.mul_assoc, <-!Z.pow_add_r by lia. do 2 f_equal. lia.
Qed.

Lemma quotient_digits m1 m2 s :
  0 < m1 → 0 < m2 → 0 ≤ s → 53 - ndigits m1 + ndigits m2 ≤ s →
  let q := m1 * 2 ^ s / m2 in
  0 < q ∧ 53 ≤ ndigits q ∧ ndigits m1 + s - ndigits m2 ≤ ndigits q ≤ ndigits m1 + s - ndigits m2 + 1.
Proof.
  intros H1 H2 Hs Hle q. pose proof (ndigits_spec m1 H1) as D1. pose proof (ndigits_spec m2 H2) as D2.
  assert (Hn : 1 ≤ ndigits m1 ∧ 1 ≤ ndigits m2)
    by (unfold ndigits; pose proof (Z.log2_nonneg m1); pose proof (Z.log2_nonneg m2); lia).
  set (d := ndigits m1 + s - ndigits m2). assert (Hd : 53 ≤ d) by lia.
  assert (Hlo : 2 ^ (d - 1) ≤ q).
  { apply Z.div_le_lower_bound; [done|]. apply Z.le_trans with (2 ^ ndigits m2 * 2 ^ (d - 1)).
    - apply Z.mul_le_mono_nonneg_r; [apply Z.pow_nonneg; lia|lia].
    - rewrite <-Z.pow_add_r by lia. replace (ndigits m2 + (d - 1)) with (ndigits m1 - 1 + s) by lia.
      rewrite Z.pow_add_r by lia. apply Z.mul_le_mono_nonneg_r; [apply Z.pow_nonneg; lia|lia]. }
  assert (Hhi : q < 2 ^ (d + 1)).
  { apply Z.div_lt_upper_bound; [done|]. apply Z.lt_le_trans with (2 ^ (ndigits m2 - 1) * 2 ^ (d + 1)).
    - rewrite <-Z.pow_add_r by lia. replace (ndigits m2 - 1 + (d + 1)) with (ndigits m1 + s) by lia.
      rewrite Z.pow_add_r by lia. apply Z.mul_lt_mono_pos_r; [apply Z.pow_pos_nonneg; lia|lia].
    - apply Z.mul_le_mono_nonneg_r; [apply Z.pow_nonneg; lia|lia]. }
  assert (Hq : 0 < q) by (pose proof (Z.pow_pos_nonneg 2 (d - 1)); lia).
  pose proof (Z.log2_le_pow2 q (d - 1) Hq) as L1. pose proof (Z.log2_lt_pow2 q (d + 1) Hq) as L2.
  split; [done|]. change (ndigits q) with (Z.log2 q + 1). fold d. lia.
Qed.

Lemma ddiv_close m1 e1 m2 e2 :
  let a := ndigits (Z.pos m1) + e1 - ndigits (Z.pos m2) - e2 - 53 in
  -1074 ≤ e1 → -1074 ≤ e2 → -1074 ≤ e1 - e2 → -1000 ≤ a ≤ 900 →
  ∃ m e, ddiv (S754_finite false m1 e1) (S754_finite false m2 e2) = S754_finite false m e ∧
    ndigits (Z.pos m) = 53 ∧ a - 1 ≤ e ≤ a + 2 ∧
    close (sval m e * sval m2 e2) (sval m1 e1 * scale).
Proof.
  intros a He1 He2 He12 Ha. unfold ddiv, SFdiv. cbn [xorb]. unfold SFdiv_core_binary.
  rewrite !Zdigits2_log2, fexp_max by done.
  set (e' := Z.min _ _). set (s := e1 - e2 - e'). assert (He' : e' = Z.min a (e1 - e2)) by lia.
  assert (Hs : 0 ≤ s) by lia.
  replace (match s with 0 => Z.pos m1 | Z.pos _ => Z.shiftl (Z.pos m1) s | Z.neg _ => 0 end)
    with (Z.pos m1 * 2 ^ s).
  2:{ destruct s as [|p|p] eqn:Es; [lia| |lia]. by rewrite Z.shiftl_mul_pow2. }
  destruct (quotient_digits (Z.pos m1) (Z.pos m2) s ltac:(done) ltac:(done) Hs ltac:(lia)) as (Hq & Hq53 & Hqd).
  pose proof (Z.div_mod (Z.pos m1 * 2 ^ s) (Z.pos m2) ltac:(done)) as Hdm.
  pose proof (Z.mod_pos_bound (Z.pos m1 * 2 ^ s) (Z.pos m2) ltac:(done)) as Hr.
  unfold Z.div, Z.modulo in *. destruct (Z.div_eucl (Z.pos m1 * 2 ^ s) (Z.pos m2)) as [q r].
  destruct (round_aux_faithful q e' (new_location (Z.pos m2) r)) as (m & e & M & -> & Hn & Hb & Hv & HM & HK);
    [done|done|lia|].
  exists m, e. split; [done|]. split; [done|]. split; [lia|]. rewrite Hv. unfold sval, scale.
  set (k := ndigits q - 53) in *.
  assert (Hk : 0 < 2 ^ k) by (apply Z.pow_pos_nonneg; lia).
  replace (M * 2 ^ (e' + k + 1074) * (Z.pos m2 * 2 ^ (e2 + 1074)))
    with (M * 2 ^ k * Z.pos m2 * 2 ^ (e' + e2 + 2148)).
  - replace (Z.pos m1 * 2 ^ (e1 + 1074) * 2 ^ 1074) with (Z.pos m1 * 2 ^ s * 2 ^ (e' + e2 + 2148)).
    + rewrite Hdm. apply (close_scaled _ (2 ^ k * Z.pos m2)); [nia|nia|apply Z.pow_nonneg; lia].
    + rewrite <-!Z.mul_assoc, <-!Z.pow_add_r by lia. do 2 f_equal. lia.
  - replace (e' + k + 1074) with (k + (e' + 1074)) by lia.
    replace (e' + e2 + 2148) with ((e' + 1074) + (e2 + 1074)) by lia. rewrite (Z.pow_add_r 2 k), (Z.pow_add_r 2 (e' + 1074)) by lia. ring.
Qed.

(** A positive integer at a given exponent, rounded. *)
Lemma binary_round_close p ex :
  -1074 ≤ ex → -1000 ≤ ndigits (Z.pos p) + ex - 53 ≤ 900 →
  ∃ m e, binary_round prec emax false p ex = S754_finite false m e ∧ ndigits (Z.pos m) = 53 ∧
    ndigits (Z.pos p) + ex - 54 ≤ e ≤ ndigits (Z.pos p) + ex - 52 ∧
    close (sval m e) (sval p ex).
Proof.
  intros He Ha. unfold binary_round. rewrite digits2_log2.
  change (Z.log2 (Z.pos p) + 1) with (ndigits (Z.pos p)). rewrite fexp_max.
  assert (Hal : ∃ q ee, shl_align p ex (Z.max (ndigits (Z.pos p) + ex - 53) (-1074)) = (q, ee) ∧
    ee ≤ ex ∧ -1074 ≤ ee ∧ Z.pos q = Z.pos p * 2 ^ (ex - ee) ∧ 53 ≤ ndigits (Z.pos q) ∧
    ndigits (Z.pos q) + ee = ndigits (Z.pos p) + ex).
  { destruct (Z.le_ge_cases (ndigits (Z.pos p) + ex - 53) ex) as [Hle|Hge].
    - rewrite Z.max_l by lia. pose proof (shl_align_pos p ex _ Hle) as Hp.
      destruct (shl_align p ex _) as [q ee]. destruct Hp as [Hp ->].
      exists q, (ndigits (Z.pos p) + ex - 53). split; [done|]. split; [lia|]. split; [lia|]. split; [done|].
      rewrite Hp, ndigits_shift by lia. lia.
    - exists p, ex. split; [|split; [lia|split; [lia|]]].
      + unfold shl_align. destruct (Z.max _ _ - ex) eqn:E; [done|done|lia].
      + rewrite Z.sub_diag, Z.mul_1_r. split; [done|]. lia. }
  destruct Hal as (q & ee & -> & Hle & Hlo & Hq & Hq53 & Hqe).
  destruct (round_aux_faithful (Z.pos q) ee loc_Exact) as (m & e & M & -> & Hn & Hb & Hv & HM & HK);
    [done|done|lia|].
  exists m, e. split; [done|]. split; [done|]. split; [lia|]. rewrite Hv. unfold sval.
  set (k := ndigits (Z.pos q) - 53) in *.
  replace (M * 2 ^ (ee + k + 1074)) with (M * 2 ^ k * 2 ^ (ee + 1074)).
  - replace (Z.pos p * 2 ^ (ex + 1074)) with (Z.pos q * 2 ^ (ee + 1074)).
    + eapply close_scaled; [|done|apply Z.pow_nonneg; lia]. lia.
    + rewrite Hq, <-Z.mul_assoc, <-Z.pow_add_r by lia. do 2 f_equal. lia.
  - rewrite <-!Z.mul_assoc, <-!Z.pow_add_r by lia. do 2 f_equal. lia.
Qed.

Lemma dadd_close m1 e1 m2 e2 :
  ndigits (Z.pos m1) = 53 → ndigits (Z.pos m2) = 53 → -900 ≤ e1 ≤ 800 → -900 ≤ e2 ≤ 800 →
  ∃ m e, dadd (S754_finite false m1 e1) (S754_finite false m2 e2) = S754_finite false m e ∧
    -1074 ≤ e ∧ close (sval m e) (sval m1 e1 + sval m2 e2).
Proof.
  intros H1 H2 He1 He2. unfold dadd, SFadd. cbv zeta. cbn [cond_Zopp]. set (ez := Z.min e1 e2).
  pose proof (shl_align_pos m1 e1 ez ltac:(lia)) as A1. pose proof (shl_align_pos m2 e2 ez ltac:(lia)) as A2.
  destruct (shl_align m1 e1 ez) as [q1 f1], (shl_align m2 e2 ez) as [q2 f2].
  destruct A1 as [A1 _], A2 as [A2 _]. cbn [fst]. rewrite <-Pos2Z.inj_add. cbn [binary_normalize].
  pose proof (ndigits_shift (Z.pos m1) (e1 - ez) ltac:(done) ltac:(lia)) as D1.
  pose proof (ndigits_shift (Z.pos m2) (e2 - ez) ltac:(done) ltac:(lia)) as D2.
  assert (Hd : 53 ≤ ndigits (Z.pos (q1 + q2)) ≤ 54 + Z.abs (e1 - e2)).
  { rewrite Pos2Z.inj_add, A1, A2. pose proof (ndigits_spec (Z.pos m1) ltac:(done)) as S1.
    pose proof (ndigits_spec (Z.pos m2) ltac:(done)) as S2. rewrite H1 in S1. rewrite H2 in S2.
    set (d := Z.abs (e1 - e2)).
    assert (Hm : ∀ x f, 0 ≤ x → 0 ≤ f ≤ d → x ≤ x * 2 ^ f ≤ x * 2 ^ d).
    { intros x f Hx Hf. pose proof (Z.pow_le_mono_r 2 f d ltac:(lia) ltac:(lia)).
      pose proof (Z.pow_pos_nonneg 2 f ltac:(lia) ltac:(lia)). nia. }
    pose proof (Hm (Z.pos m1) (e1 - ez) ltac:(lia) ltac:(lia)) as B1.
    pose proof (Hm (Z.pos m2) (e2 - ez) ltac:(lia) ltac:(lia)) as B2.
    set (p := Z.pos m1 * 2 ^ (e1 - ez) + Z.pos m2 * 2 ^ (e2 - ez)) in *.
    assert (Hp : 2 ^ 52 ≤ p < 2 ^ (54 + d)).
    { rewrite Z.pow_add_r by lia. pose proof (Z.pow_pos_nonneg 2 d ltac:(lia) ltac:(lia)).
      change (53 - 1) with 52 in *. nia. }
    unfold ndigits. split.
    - pose proof (Z.log2_le_mono (2 ^ 52) p ltac:(lia)) as L. rewrite Z.log2_pow2 in L; lia.
    - pose proof (proj1 (Z.log2_lt_pow2 p (54 + d) ltac:(lia)) ltac:(lia)). lia. }
  destruct (binary_round_close (q1 + q2) ez ltac:(lia) ltac:(lia)) as (m & e & -> & _ & Hb & Hc).
  exists m, e. split; [done|]. split; [lia|].
  replace (sval m1 e1 + sval m2 e2) with (sval (q1 + q2) ez); [done|].
  unfold sval. rewrite Pos2Z.inj_add, A1, A2, Z.mul_add_distr_r, <-!Z.mul_assoc, <-!Z.pow_add_r by lia.
  f_equal; do 2 f_equal; lia.
Qed.

(** ** Truncation *)
Lemma u64_of_finite m e :
  -1074 ≤ e → sval m e / scale < 2 ^ 64 → u64_of_double (S754_finite false m e) = Ok (sval m e / scale).
Proof.
  intros He. unfold u64_of_double, sval, scale.
  assert (E : (if 0 <=? e then Z.pos m * 2 ^ e else Z.pos m / 2 ^ (- e)) = Z.pos m * 2 ^ (e + 1074) / 2 ^ 1074).
  { destruct (Z.leb_spec 0 e).
    - rewrite Z.pow_add_r, Z.mul_assoc by lia. symmetry. apply Z.div_mul. lia.
    - replace (2 ^ 1074) with (2 ^ (- e) * 2 ^ (e + 1074)) by (rewrite <-Z.pow_add_r by lia; f_equal; lia).
      symmetry. apply Z.div_mul_cancel_r; apply Z.pow_nonzero; lia. }
  cbv zeta. rewrite E. intros Hlt. by rewrite (proj2 (Z.ltb_lt _ _) Hlt).
Qed.

(** ** Decimals *)

Lemma scale_double : scale = 2 * 2 ^ 1073.
Proof. unfold scale. rewrite <-Z.pow_succ_r by lia. done. Qed.

(** The accumulated error of a division, a product and a sum is below half a unit. *)
Lemma three_roundings n s h a y z :
  0 < n < 2 ^ 49 → 0 < s → s = 2 * h →
  close a (n * s) → close y a → close z (y + h) → n * s ≤ z < n * s + s.
Proof.
  intros Hn Hs Hh Ha Hy Hz. unfold close in *. assert (0 < n * s ≤ 2 ^ 49 * s) by nia.
  generalize dependent (n * s). intros N Ha HN. lia.
Qed.

Lemma close_cancel v x c : 0 < c → close (v * c) (x * c) → close v x.
Proof.
  unfold close. intros Hc H. rewrite <-Z.mul_sub_distr_r, Z.abs_mul, (Z.abs_eq c) in H by lia. nia.
Qed.

(** A small positive integer as a double with a 53-bit mantissa. *)
Lemma exact_float_normal c :
  0 < c < 2 ^ 53 → ∃ m e, exact_float c = S754_finite false m e ∧ ndigits (Z.pos m) = 53 ∧
    e = ndigits c - 53 ∧ sval m e = c * scale.
Proof.
  intros Hc. rewrite exact_float_pos by lia. pose proof (ndigits_bound c Hc) as Hn.
  pose proof (norm_float_scaled false c 0 Hc ltac:(lia)) as Hs.
  destruct (norm_float_pos_mant false c 0 Hc) as (m & E & Hm & Hd). rewrite Z.add_0_l in E.
  rewrite E in Hs |- *. exists m, (ndigits c - 53). split_and!; [done|done|done|].
  cbn [dscaled cond_Zopp] in Hs. injection Hs as Hs. exact Hs.
Qed.

Lemma d_half_value : d_half = S754_finite false (2 ^ 52)%positive (-53) ∧ sval (2 ^ 52)%positive (-53) = 2 ^ 1073.
Proof. split; vm_compute; reflexivity. Qed.

(** Multiplying a decimal back by its power of ten, adding 0.5 and truncating recovers
    the integer written. *)
Lemma recover_decimal n k :
  0 ≤ n < 2 ^ 49 → 0 < k ≤ 9 →
  u64_of_double (dadd (dmul (decimal n (- k)) (double_of (10 ^ k))) d_half) = Ok n.
Proof.
  intros Hn Hk. assert (Hc : 1 ≤ 10 ^ k < 2 ^ 30).
  { split; [pose proof (Z.pow_pos_nonneg 10 k); lia|].
    apply Z.le_lt_trans with (10 ^ 9); [apply Z.pow_le_mono_r; lia|done]. }
  rewrite double_of_exact by lia. set (c := 10 ^ k) in *.
  destruct (exact_float_normal c ltac:(lia)) as (mc & ec & Ec & Hmc & -> & Hvc). rewrite Ec.
  destruct (decide (n = 0)) as [->|Hne]; [reflexivity|].
  assert (Hdn : 1 ≤ ndigits n ≤ 49).
  { unfold ndigits. pose proof (Z.log2_nonneg n). pose proof (proj1 (Z.log2_lt_pow2 n 49 ltac:(lia)) ltac:(lia)). lia. }
  assert (Hdc : 1 ≤ ndigits c ≤ 30).
  { unfold ndigits. pose proof (Z.log2_nonneg c). pose proof (proj1 (Z.log2_lt_pow2 c 30 ltac:(lia)) ltac:(lia)). lia. }
  unfold decimal. rewrite (proj2 (Z.eqb_neq n 0)), (proj2 (Z.leb_gt 0 (- k))), Z.opp_involutive by lia. fold c.
  assert (Hpn : Z.pos (Z.to_pos n) = n) by (apply Z2Pos.id; lia).
  assert (Hpc : Z.pos (Z.to_pos c) = c) by (apply Z2Pos.id; lia).
  destruct (ddiv_close (Z.to_pos n) 0 (Z.to_pos c) 0) as (mx & ex & -> & Hmx & Hbx & Hx);
    rewrite ?Hpn, ?Hpc in *; [lia..|].
  destruct (dmul_close mx ex mc (ndigits c - 53)) as (my & ey & -> & Hmy & Hby & Hy); [done|done|lia..|].
  destruct d_half_value as [-> Hh].
  destruct (dadd_close my ey (2 ^ 52)%positive (-53)) as (mz & ez & -> & Hez & Hz); [done|done|lia..|].
  rewrite Hh in Hz. rewrite Hvc in Hy. unfold sval at 2 3 in Hx. rewrite Hpn, Hpc in Hx.
  change (2 ^ (0 + 1074)) with scale in Hx.
  assert (Hsc : 0 < scale) by (unfold scale; apply Z.pow_pos_nonneg; lia).
  rewrite Z.mul_assoc in Hx, Hy. apply close_cancel in Hx, Hy; [|done..].
  destruct (three_roundings n scale (2 ^ 1073) _ _ _ ltac:(lia) Hsc scale_double Hx Hy Hz) as [Hlo Hhi].
  assert (E : sval mz ez / scale = n) by (symmetry; apply (Z.div_unique _ _ _ (sval mz ez - scale * n)); lia).
  rewrite u64_of_finite; rewrite ?E; [done|done|lia].
Qed.

(** The same without decimals. *)
Lemma recover_integer n :
  0 ≤ n < 2 ^ 49 → u64_of_double (dadd (decimal n 0) d_half) = Ok n.
Proof.
  intros Hn. destruct (decide (n = 0)) as [->|Hne]; [reflexivity|]. unfold decimal.
  rewrite (proj2 (Z.eqb_neq n 0)) by lia. cbn [Z.leb Z.compare]. rewrite Z.pow_0_r, Z.mul_1_r.
  rewrite double_of_exact by lia.
  destruct (exact_float_normal n ltac:(lia)) as (m & e & -> & Hm & -> & Hv).
  assert (Hdn : 1 ≤ ndigits n ≤ 49).
  { unfold ndigits. pose proof (Z.log2_nonneg n). pose proof (proj1 (Z.log2_lt_pow2 n 49 ltac:(lia)) ltac:(lia)). lia. }
  destruct d_half_value as [-> Hh].
  destruct (dadd_close m (ndigits n - 53) (2 ^ 52)%positive (-53)) as (mz & ez & -> & Hez & Hz); [done|done|lia..|].
  rewrite Hh, Hv in Hz. assert (Hsc : 0 < scale) by (unfold scale; apply Z.pow_pos_nonneg; lia).
  assert (Hcl : close (n * scale) (n * scale)).
  { unfold close. rewrite Z.sub_diag. apply Z.mul_nonneg_nonneg; lia. }
  destruct (three_roundings n scale (2 ^ 1073) (n * scale) (n * scale) _ ltac:(lia) Hsc scale_double
    Hcl Hcl Hz) as [Hlo Hhi].
  assert (E : sval mz ez / scale = n) by (symmetry; apply (Z.div_unique _ _ _ (sval mz ez - scale * n)); lia).
  rewrite u64_of_finite; rewrite ?E; [done|done|lia].
Qed.

(** ** Ratios of small integers *)
Lemma round_aux_opp m e l : binary_round_aux prec emax true m e l = SFopp (binary_round_aux prec emax false m e l).
Proof.
  unfold binary_round_aux. destruct (shr_fexp prec emax m e l) as [mrs e1].
  destruct (shr_fexp prec emax _ e1 loc_Exact) as [mrs' e2]. destruct (shr_m mrs'); [done| |done].
  by destruct (e2 <=? emax - prec).
Qed.

Lemma ddiv_opp x y : 0 < x < 2 ^ 53 → 0 < y < 2 ^ 53 →
  ddiv (exact_float (- x)) (exact_float y) = SFopp (ddiv (exact_float x) (exact_float y)).
Proof.
  intros Hx Hy. rewrite exact_float_opp by lia.
  destruct (exact_float_normal x Hx) as (m1 & e1 & -> & _). destruct (exact_float_normal y Hy) as (m2 & e2 & -> & _).
  unfold ddiv. cbn [SFopp SFdiv negb xorb]. destruct (SFdiv_core_binary _ _ _ _ _ _) as [[mz ez] lz].
  apply round_aux_opp.
Qed.

Lemma ratio_pos x y :
  0 < x ≤ y → y < 2 ^ 50 → ∃ v, dscaled (ddiv (exact_float x) (exact_float y)) = Some v ∧ 0 < v ≤ scale.
Proof.
  intros Hx Hy. destruct (decide (x = y)) as [->|Hne].
  - exists scale. rewrite <-(Z.mul_1_l y) at 1. rewrite ddiv_exact, exact_float_scaled by lia.
    split; [done|]. unfold scale. pose proof (Z.pow_pos_nonneg 2 1074). lia.
  - destruct (exact_float_normal x ltac:(lia)) as (m1 & e1 & -> & H1 & -> & V1).
    destruct (exact_float_normal y ltac:(lia)) as (m2 & e2 & -> & H2 & -> & V2).
    pose proof (ndigits_bound x ltac:(lia)). pose proof (ndigits_bound y ltac:(lia)).
    destruct (ddiv_close m1 (ndigits x - 53) m2 (ndigits y - 53)) as (m & e & -> & _ & Hb & Hc); [lia..|].
    exists (sval m e). cbn [dscaled cond_Zopp]. split; [done|].
    pose proof (sval_pos m e ltac:(lia)) as Hpos. split; [done|]. rewrite V1, V2, Z.mul_assoc in Hc.
    assert (Hs : 0 < scale) by (unfold scale; apply Z.pow_pos_nonneg; lia).
    apply close_cancel in Hc; [|done]. unfold close in Hc.
    assert (x * scale ≤ (y - 1) * scale) by (apply Z.mul_le_mono_nonneg_r; lia).
    assert (x * scale ≤ 2 ^ 50 * scale) by (apply Z.mul_le_mono_nonneg_r; lia).
    apply (Z.mul_le_mono_pos_r _ _ y); lia.
Qed.

(** The double of a ratio at most 1 in absolute value is too, and has its sign. *)
Lemma ratio_bound x y :
  x ≠ 0 → Z.abs x ≤ y < 2 ^ 50 →
  ∃ v, dscaled (ddiv (exact_float x) (exact_float y)) = Some v ∧ Z.abs v ≤ scale ∧ Z.sgn v = Z.sgn x.
Proof.
  intros Hne Hxy. destruct (Z.lt_total x 0) as [Hx|[->|Hx]]; [|done|].
  - destruct (ratio_pos (- x) y ltac:(lia) ltac:(lia)) as (v & Hv & Hb). exists (- v).
    rewrite <-(Z.opp_involutive x), ddiv_opp by lia. split; [|split; [lia|]].
    + destruct (ddiv _ _) as [| | |s m e]; try done; simpl in Hv |- *; injection Hv as Hv; f_equal; subst v; [done|].
      destruct s; unfold cond_Zopp; cbn [negb]; lia.
    + lia.
  - destruct (ratio_pos x y ltac:(lia) ltac:(lia)) as (v & Hv & Hb). exists v. split; [done|]. split; [lia|].
    lia.
Qed.
