(* ===== verification/Analytics.v ===== *)
(** * Market statistics (include/book/analytics.hpp, the doubles of include/book/bbo.hpp
      and include/itch/messages.hpp)

    [Analytics] reads the book and computes in [double].  Each method is one definition
    over the book's state; a loop over levels is a fold over the indices.

    Proved, on a well-formed book, of the live orders that are in a level: the depth
    snapshot is their total within reach of the reference price; mid price, spread and order-flow
    imbalance are the exact values (the imbalance up to its one division); and the
    volume-weighted price is one rounded division of the exact sums over these
    orders while they stay below 2^53. *)

From S2P Require Import Prelude Bytes Messages Parser Order PriceLevel OrderBook BookInv BookWf.
From S2P Require Import BookHandlers Dispatch Samples BookSpec Depth BookTheorems Double Rounding.

(** ** BBO::mid_price, BBO::spread_ticks *)
Definition bbo_spread_ticks (b : BBO) : double :=
  if bbo_valid b then double_of (u32 (ask_price b - bid_price b)) else d_zero.

Definition bbo_mid_price (b : BBO) : double :=
  if bbo_valid b then ddiv (double_of (u32 (bid_price b + ask_price b))) d_two else d_zero.

(** ** itch::to_dollars *)
Definition to_dollars (price : Z) : double := ddiv (double_of price) (double_of 10000).

(** ** Analytics *)
Definition mid_price (b : OrderBook) : outcome double :=
  bbo ← best_bid_offer b;
  Ok (if negb (bbo_valid bbo) then d_zero
      else ddiv (double_of (u32 (bid_price bbo + ask_price bbo))) d_two).

Definition spread (b : OrderBook) : outcome double :=
  bbo ← best_bid_offer b;
  Ok (if negb (bbo_valid bbo) then d_zero else double_of (u32 (ask_price bbo - bid_price bbo))).

Definition order_flow_imbalance (b : OrderBook) : outcome double :=
  bbo ← best_bid_offer b;
  let bid := double_of (bid_qty bbo) in
  let ask := double_of (ask_qty bbo) in
  let total := dadd bid ask in
  Ok (if deq total d_zero then d_zero else ddiv (dsub bid ask) total).

(** One iteration of the loops of [vwap]. *)
Definition vwap_level (lvl : option PriceLevel) (price : Z) (acc : double * double) : double * double :=
  match lvl with
  | None => acc
  | Some l =>
      if level_empty l then acc else
      let qty := double_of (total_qty l) in
      (dadd acc.1 (dmul (double_of price) qty), dadd acc.2 qty)
  end.

Definition clamp_levels (levels : Z) : Z := if kLevels <? levels then kLevels else levels.

Definition vwap (b : OrderBook) (side levels : Z) : double :=
  let n := clamp_levels levels in
  let '(price_qty_sum, qty_sum) :=
    if side =? ch_B then
      foldl (λ acc i, vwap_level (bid_level b i) (u32 (bid_ref b - u32 i)) acc) (d_zero, d_zero) (seqZ 0 n)
    else
      foldl (λ acc i, vwap_level (ask_level b i) (u32 (ask_ref b + u32 i)) acc) (d_zero, d_zero) (seqZ 0 n) in
  if dlt d_zero qty_sum then ddiv price_qty_sum qty_sum else d_zero.

Definition visible_qty (b : OrderBook) (side levels : Z) : Z :=
  let n := clamp_levels levels in
  foldl (λ total i,
    match (if side =? ch_B then bid_level b i else ask_level b i) with
    | Some lvl => u64 (total + total_qty lvl)
    | None => total
    end) 0 (seqZ 0 n).

(** ** Specification *)
Definition sum_by (f : SOrder → Z) (l : list SOrder) : Z := foldr (λ o t, f o + t) 0 l.

Definition notional (o : SOrder) : Z := s_price o * s_shares o.

(** The live orders of a side less than [n] ticks from its reference price, away from
    the other side. *)
Definition window_orders (m : gmap Z SOrder) (sd : bside) (r n : Z) : list SOrder :=
  filter (λ o, s_side o = side_char sd ∧ 0 ≤ price_idx sd r (s_price o) < n) (map_to_list m).*2.

(** The level at index [i] of a side, and its price as the loops compute it. *)
Definition level_ptr (sd : bside) (b : OrderBook) (i : Z) : option PriceLevel :=
  match sd with Bid => bid_level b i | Ask => ask_level b i end.

Definition level_price (sd : bside) (b : OrderBook) (i : Z) : Z :=
  match sd with Bid => u32 (bid_ref b - u32 i) | Ask => u32 (ask_ref b + u32 i) end.

(** An ask that sets the reference price and goes, then an ask ten ticks above it. *)
Definition moved_session : list ParsedMessage :=
  [msg_system ch_O; msg_add 1 ch_S 100 1500000; msg_delete 1; msg_add 2 ch_S 70 1500010].
Definition moved_book : OrderBook := session_book 8 moved_session.

(** ** Lemmas: sums *)
Lemma sum_by_perm f l1 l2 : l1 ≡ₚ l2 → sum_by f l1 = sum_by f l2.
Proof. induction 1; simpl; lia. Qed.

Lemma sum_by_filter_le f (P : SOrder → Prop) `{∀ o, Decision (P o)} l :
  (∀ o, o ∈ l → 0 ≤ f o) → 0 ≤ sum_by f (filter P l) ≤ sum_by f l.
Proof.
  intros Hf. induction l as [|o l IH]; [done|].
  specialize (IH ltac:(intros; apply Hf; by right)). pose proof (Hf o ltac:(by left)).
  rewrite !filter_cons. case_decide; simpl; lia.
Qed.

Lemma window_step f m sd r n :
  0 ≤ n →
  sum_by f (window_orders m sd r (n + 1)) =
    sum_by f (window_orders m sd r n) + sum_by f (side_orders m (side_char sd) (idx_price sd r n)).
Proof.
  intros Hn. unfold window_orders, side_orders. induction (map_to_list m).*2 as [|o l IH]; [done|].
  assert (price_idx sd r (s_price o) = n ↔ s_price o = idx_price sd r n) by (destruct sd; simpl; lia).
  rewrite !filter_cons. repeat case_decide; simpl; lia.
Qed.

Lemma window_zero m sd r n : n ≤ 0 → window_orders m sd r n = [].
Proof.
  intros Hn. unfold window_orders. induction (map_to_list m).*2 as [|o l IH]; [done|].
  rewrite filter_cons, IH. case_decide; [lia|done].
Qed.

Lemma side_orders_notional m sd p : sum_by notional (side_orders m sd p) = p * depth m sd p.
Proof.
  unfold depth. assert (Hp : Forall (λ o, s_price o = p) (side_orders m sd p)).
  { apply Forall_forall. intros o [[_ Ho] _]%list_elem_of_filter. done. }
  induction Hp as [|o l Ho _ IH]; simpl; [lia|]. rewrite IH. unfold notional. rewrite Ho. lia.
Qed.

(** ** Lemmas: the live orders *)
Lemma live_bounds b q o :
  core b q → o ∈ (map_to_list (abs_orders b)).*2 → 0 < s_price o < 2 ^ 31 ∧ 0 ≤ s_shares o < 2 ^ 32.
Proof.
  intros Hc ([ref so] & -> & Hl%elem_of_map_to_list)%list_elem_of_fmap. simpl.
  apply abs_orders_lookup in Hl as (a & o & Hm & Ha & ->). simpl.
  destruct (co_live _ _ Hc _ _ Hm) as (o' & sd & Ho' & _ & _ & Hp & _).
  assert (o' = o) as -> by congruence. split; [done|].
  by apply (ho_shares _ (ss_heap _ _ (co_sides _ _ Hc)) a).
Qed.

(** All the shares of the book fit in 64 bits. *)
Lemma total_shares_bound b q :
  core b q → 0 ≤ sum_by s_shares (map_to_list (abs_orders b)).*2 < 2 ^ 64.
Proof.
  intros Hc. rewrite (sum_by_perm _ _ _ (abs_orders_list _ _ Hc)).
  pose proof (core_map_nodup b q Hc) as Hnd.
  assert (Hl : ∀ l, sum_by s_shares (sorder_at (heap_of b) <$> l) = qty (heap_of b) l).
  { intros l. induction l as [|a l IH]; [done|]. rewrite fmap_cons. cbn [sum_by foldr qty]. 
    unfold sum_by in IH. rewrite IH. f_equal. unfold sorder_at, shares_of. by destruct (heap_of b !! a). }
  rewrite Hl. pose proof (ss_heap _ _ (co_sides _ _ Hc)) as Hh.
  pose proof (qty_bound _ (map_to_list (order_map b)).*2 Hh). pose proof (ho_size _ Hh).
  assert ((length (map_to_list (order_map b)).*2 ≤ length (heap_of b))%nat).
  { apply NoDup_length_le_bound; [done|]. intros a (ref & Hm)%(entries_snd iter_forward).
    destruct (co_live _ _ Hc _ _ Hm) as (o & _ & Ho & _). by eapply lookup_lt_Some. }
  nia.
Qed.

Lemma window_shares_bound b q sd n :
  core b q → 0 ≤ sum_by s_shares (window_orders (abs_orders b) sd (refp sd b) n) < 2 ^ 64.
Proof.
  intros Hc. pose proof (total_shares_bound b q Hc) as Ht.
  pose proof (sum_by_filter_le s_shares
    (λ o, s_side o = side_char sd ∧ 0 ≤ price_idx sd (refp sd b) (s_price o) < n)
    (map_to_list (abs_orders b)).*2 ltac:(intros o Ho; apply (live_bounds b q o Hc Ho))) as Hs.
  unfold window_orders. lia.
Qed.

(** ** Lemmas: the loops over levels *)
Lemma level_ptr_ok sd b i : 0 ≤ i < kLevels → level_ptr sd b i = Some (levels sd b !!! i).
Proof.
  intros Hi. unfold level_ptr, bid_level, ask_level. rewrite out_of_range_test, (proj2 (in_range_true i) Hi).
  by destruct sd.
Qed.

Lemma clamp_levels_le n : clamp_levels n = Z.min n kLevels.
Proof. unfold clamp_levels. destruct (Z.ltb_spec kLevels n); lia. Qed.

(** A loop whose body turns the statistics of the first [i] levels into those of the
    first [i + 1]. *)
Lemma foldl_levels {A} (f : A → Z → A) (P : Z → A) n :
  (∀ i, 0 ≤ i < n → f (P i) i = P (i + 1)) → foldl f (P 0) (seqZ 0 n) = P (Z.max 0 n).
Proof.
  intros Hf. destruct (Z.le_ge_cases n 0) as [Hn|Hn].
  - rewrite seqZ_nil, Z.max_l by lia. done.
  - rewrite Z.max_r by lia. revert Hf. pattern n. apply natlike_ind; [done| |lia].
    intros k Hk IH Hf. unfold Z.succ. rewrite seqZ_app, foldl_app, IH by (done || (intros; apply Hf; lia)).
    simpl. apply Hf. lia.
Qed.

Lemma vwap_sides sd b n :
  vwap b (side_char sd) n =
    let '(pq, q) := foldl (λ acc i, vwap_level (level_ptr sd b i) (level_price sd b i) acc)
                      (d_zero, d_zero) (seqZ 0 (clamp_levels n)) in
    if dlt d_zero q then ddiv pq q else d_zero.
Proof. by destruct sd. Qed.

Lemma visible_sides sd b n :
  visible_qty b (side_char sd) n =
    foldl (λ total i, match level_ptr sd b i with
                      | Some lvl => u64 (total + total_qty lvl) | None => total end)
      0 (seqZ 0 (clamp_levels n)).
Proof. by destruct sd. Qed.

(** A non-empty level's price, as the source computes it. *)
Lemma level_price_ok b q sd i :
  core b q → attached b → level_empty (levels sd b !!! i) = false →
  level_price sd b i = idx_price sd (refp sd b) i ∧ 0 < idx_price sd (refp sd b) i < 2 ^ 31.
Proof.
  intros Hc Hatt He. pose proof (ss_side _ _ (co_sides _ _ Hc) sd) as Hs.
  rewrite (level_empty_rep _ _ _ (sk_rep _ _ _ _ _ _ Hs i)) in He. apply bool_decide_eq_false in He.
  destruct (q sd i) as [|a l] eqn:Hq; [done|]. assert (Ha : a ∈ q sd i) by (rewrite Hq; by left).
  pose proof (sk_range _ _ _ _ _ _ Hs i a Ha) as Hi. pose proof (co_refs _ _ Hc sd) as Hr.
  destruct (proj1 (level_members b q sd _ a Hc Hatt) Ha) as (ref & o & Hm & Ho & _ & Hp).
  destruct (co_live _ _ Hc _ _ Hm) as (o' & _ & Ho' & _ & _ & Hpr & _).
  assert (o' = o) as -> by congruence. unfold kLevels in Hi.
  destruct sd; simpl in *; rewrite (u32_small i), u32_small by lia; lia.
Qed.

(** ** Lemmas: exact accumulators *)
Lemma vwap_level_exact b q sd i x y :
  core b q → attached b → 0 ≤ i < kLevels → 0 ≤ x → 0 ≤ y →
  let p := idx_price sd (refp sd b) i in
  let d := depth (abs_orders b) (side_char sd) p in
  x + p * d < 2 ^ 53 → y + d < 2 ^ 53 →
  vwap_level (level_ptr sd b i) (level_price sd b i) (exact_float x, exact_float y) =
    (exact_float (x + p * d), exact_float (y + d)).
Proof.
  intros Hc Hatt Hi Hx Hy p d Hpx Hdy. rewrite level_ptr_ok by done. unfold vwap_level.
  destruct (level_depth b q sd i Hc Hatt Hi) as [Hq Hcnt]. fold p in Hq, Hcnt. fold d in Hq.
  destruct (level_empty _) eqn:He.
  - unfold level_empty in He. apply Z.eqb_eq in He. rewrite He in Hcnt.
    assert (Hd : d = 0).
    { unfold d, depth. destruct (side_orders _ _ _); [done|]. simpl in Hcnt. lia. }
    rewrite Hd, Z.mul_0_r, !Z.add_0_r. done.
  - destruct (level_price_ok b q sd i Hc Hatt He) as [-> Hp]. fold p in Hp |- *. rewrite Hq. cbn [fst snd].
    assert (0 ≤ d) by (unfold d; rewrite (depth_queue b q) by done;
      apply qty_bound, (ss_heap _ _ (co_sides _ _ Hc))).
    rewrite !double_of_exact, dmul_exact, !dadd_exact by nia. done.
Qed.

(** The window's sums grow with the window. *)
Lemma window_sums_mono b q sd r i n f :
  core b q → (∀ o, o ∈ (map_to_list (abs_orders b)).*2 → 0 ≤ f o) → 0 ≤ i ≤ n →
  0 ≤ sum_by f (window_orders (abs_orders b) sd r i) ≤ sum_by f (window_orders (abs_orders b) sd r n).
Proof.
  intros Hc Hf Hi.
  replace (window_orders (abs_orders b) sd r i)
    with (filter (λ o, s_side o = side_char sd ∧ 0 ≤ price_idx sd r (s_price o) < i)
            (window_orders (abs_orders b) sd r n)).
  - apply sum_by_filter_le. intros o [_ Ho]%list_elem_of_filter. by apply Hf.
  - unfold window_orders. clear Hf. induction (map_to_list (abs_orders b)).*2 as [|o l IH]; [done|].
    destruct (decide (s_side o = side_char sd ∧ 0 ≤ price_idx sd r (s_price o) < n)).
    + rewrite (filter_cons_True _ o) by done. rewrite !filter_cons, IH. done.
    + rewrite (filter_cons_False _ o), IH by done. rewrite filter_cons_False; [done|]. intros [? ?]. tauto || lia.
Qed.

Lemma vwap_sums b q sd n :
  core b q → attached b →
  let w := window_orders (abs_orders b) sd (refp sd b) (clamp_levels n) in
  sum_by notional w < 2 ^ 53 → sum_by s_shares w < 2 ^ 53 →
  foldl (λ acc i, vwap_level (level_ptr sd b i) (level_price sd b i) acc) (d_zero, d_zero)
    (seqZ 0 (clamp_levels n)) =
  (exact_float (sum_by notional w), exact_float (sum_by s_shares w)).
Proof.
  intros Hc Hatt w Hn Hs. set (m := abs_orders b) in *. set (r := refp sd b) in *. set (k := clamp_levels n) in *.
  assert (Hk : k ≤ kLevels) by (unfold k; rewrite clamp_levels_le; lia).
  set (P := λ i, (exact_float (sum_by notional (window_orders m sd r i)),
                  exact_float (sum_by s_shares (window_orders m sd r i)))).
  change (sum_by notional (window_orders m sd r k) < 2 ^ 53) in Hn.
  change (sum_by s_shares (window_orders m sd r k) < 2 ^ 53) in Hs.
  assert (Hf1 : ∀ o, o ∈ (map_to_list m).*2 → 0 ≤ notional o).
  { intros o Ho. pose proof (live_bounds b q o Hc Ho). unfold notional. nia. }
  assert (Hf2 : ∀ o, o ∈ (map_to_list m).*2 → 0 ≤ s_shares o) by (intros o Ho; apply (live_bounds b q o Hc Ho)).
  assert (HP : foldl (λ acc i, vwap_level (level_ptr sd b i) (level_price sd b i) acc) (P 0) (seqZ 0 k) =
    P (Z.max 0 k)).
  { apply foldl_levels. intros i Hi. unfold P. rewrite !window_step, side_orders_notional by lia.
    change (sum_by s_shares (side_orders m ?s ?p)) with (depth m s p).
    pose proof (window_sums_mono b q sd r (i + 1) k notional Hc Hf1 ltac:(lia)) as H1.
    pose proof (window_sums_mono b q sd r (i + 1) k s_shares Hc Hf2 ltac:(lia)) as H2.
    pose proof (window_sums_mono b q sd r i i notional Hc Hf1 ltac:(lia)) as H3.
    pose proof (window_sums_mono b q sd r i i s_shares Hc Hf2 ltac:(lia)) as H4.
    fold m in H1, H2, H3, H4. rewrite window_step, side_orders_notional in H1 by lia. rewrite window_step in H2 by lia.
    change (sum_by s_shares (side_orders m ?s ?p)) with (depth m s p) in H2.
    apply (vwap_level_exact b q); [done|done|lia|lia|lia|fold m r; lia..]. }
  destruct (Z.le_ge_cases k 0) as [Hk0|Hk0].
  - rewrite Z.max_l in HP by done. unfold w. rewrite window_zero by done. 
    unfold P in HP. rewrite window_zero in HP by lia. exact HP.
  - rewrite Z.max_r in HP by done. unfold P at 1 in HP. rewrite window_zero in HP by lia. exact HP.
Qed.

Lemma dlt_zero z : 0 ≤ z < 2 ^ 53 → dlt d_zero (exact_float z) = (0 <? z).
Proof.
  intros Hz. destruct (decide (z = 0)) as [->|Hne]; [done|]. rewrite exact_float_pos by lia.
  symmetry. apply Z.ltb_lt. lia.
Qed.

Lemma deq_zero z : - 2 ^ 53 < z < 2 ^ 53 → deq (exact_float z) d_zero = (z =? 0).
Proof.
  intros Hz. destruct (decide (z = 0)) as [->|Hne]; [done|]. rewrite (proj2 (Z.eqb_neq _ _) Hne).
  destruct (exact_float_finite z Hz Hne) as (m & e & -> & _). by destruct (z <? 0).
Qed.

Lemma shares_le_notional l :
  Forall (λ o, 0 < s_price o ∧ 0 ≤ s_shares o) l → 0 ≤ sum_by s_shares l ≤ sum_by notional l.
Proof. induction 1 as [|o l [Hp Hs] _ IH]; simpl; [lia|]. unfold notional at 1. nia. Qed.

Lemma window_live b q sd r n :
  core b q → Forall (λ o, 0 < s_price o ∧ 0 ≤ s_shares o) (window_orders (abs_orders b) sd r n).
Proof.
  intros Hc. apply Forall_forall. intros o [_ Ho]%list_elem_of_filter.
  pose proof (live_bounds b q o Hc Ho). lia.
Qed.

(** Prices and quantities of the best bid and offer. *)
Lemma spec_bbo_bounds b q :
  core b q → attached b →
  let s := spec_bbo (abs_orders b) in
  0 ≤ bid_price s < 2 ^ 31 ∧ 0 ≤ ask_price s < 2 ^ 31 ∧ 0 ≤ bid_qty s < 2 ^ 32 ∧ 0 ≤ ask_qty s < 2 ^ 32.
Proof.
  intros Hc Hatt. unfold spec_bbo. cbn [bid_price ask_price bid_qty ask_qty].
  pose proof (best_price_ok b q Bid Hc Hatt) as Hb. pose proof (best_price_ok b q Ask Hc Hatt) as Ha.
  cbn [side_pick side_char] in Hb, Ha. rewrite Hb, Ha.
  pose proof (best_idx_range b q Bid Hc Hatt). pose proof (best_idx_range b q Ask Hc Hatt).
  clear Hb Ha. simpl in *. destruct (Z.leb_spec 0 (best_bid_idx b)), (Z.leb_spec 0 (best_ask_idx b));
    (split; [|split; [|split]]); simpl; try apply u32_range; lia.
Qed.

(** A whole number of dollars is converted exactly. *)
Lemma to_dollars_whole n : 0 < n < 400000 → to_dollars (n * 10000) = double_of n.
Proof. intros Hn. unfold to_dollars. rewrite !double_of_exact by lia. apply ddiv_exact; lia. Qed.

(** ** Lemmas: books whose live orders are all in levels *)

Lemma visible_qty_attached b q sd n :
  core b q → attached b →
  visible_qty b (side_char sd) n =
    sum_by s_shares (window_orders (abs_orders b) sd (refp sd b) (Z.min n kLevels)) ∧
  (kLevels ≤ n →
   visible_qty b (side_char sd) n =
     sum_by s_shares (filter (λ o, s_side o = side_char sd) (map_to_list (abs_orders b)).*2)).
Proof.
  intros Hc Hatt.
  assert (E : visible_qty b (side_char sd) n =
    sum_by s_shares (window_orders (abs_orders b) sd (refp sd b) (Z.min n kLevels))).
  { rewrite visible_sides, clamp_levels_le. set (k := Z.min n kLevels).
    pose proof (foldl_levels (λ total i, match level_ptr sd b i with
      | Some lvl => u64 (total + total_qty lvl) | None => total end)
      (λ i, sum_by s_shares (window_orders (abs_orders b) sd (refp sd b) i)) k) as Hl.
    cbv beta in Hl. rewrite window_zero in Hl by done. simpl in Hl. rewrite Hl.
    - destruct (Z.le_ge_cases k 0); [rewrite Z.max_l, !window_zero by lia|rewrite Z.max_r by lia]; done.
    - intros i Hi. rewrite level_ptr_ok by lia.
      rewrite (proj1 (level_depth b q sd i Hc Hatt ltac:(lia))).
      pose proof (window_shares_bound b q sd (i + 1) Hc) as Hb. rewrite window_step in Hb |- * by lia.
      by rewrite u64_small. }
  split; [done|]. intros Hn. rewrite E, Z.min_r by done. f_equal. unfold window_orders.
  apply filter_ext_in. intros o Ho. split; [by intros [? _]|]. intros Hs. split; [done|].
  apply list_elem_of_fmap in Ho as ([ref so] & -> & Hl%elem_of_map_to_list). simpl in *.
  apply abs_orders_lookup in Hl as (a & oc & Hm & Ha & ->). simpl in *.
  eapply sk_range; [apply (ss_side _ _ (co_sides _ _ Hc) sd)|].
  apply (level_members b q sd _ a Hc Hatt). eauto 10.
Qed.

Lemma vwap_attached b q sd n :
  core b q → attached b →
  let w := window_orders (abs_orders b) sd (refp sd b) (Z.min n kLevels) in
  sum_by notional w < 2 ^ 53 →
  vwap b (side_char sd) n =
    (if 0 <? sum_by s_shares w
     then ddiv (double_of (sum_by notional w)) (double_of (sum_by s_shares w)) else d_zero) ∧
  (∀ p, 0 < sum_by s_shares w → Forall (λ o, s_price o = p) w → vwap b (side_char sd) n = double_of p).
Proof.
  intros Hc Hatt w Hn.
  pose proof (window_live b q sd (refp sd b) (Z.min n kLevels) Hc) as Hlive. fold w in Hlive.
  pose proof (shares_le_notional w Hlive) as Hs.
  assert (E : vwap b (side_char sd) n =
    (if 0 <? sum_by s_shares w
     then ddiv (double_of (sum_by notional w)) (double_of (sum_by s_shares w)) else d_zero)).
  { rewrite vwap_sides. pose proof (vwap_sums b q sd n Hc Hatt) as Hv. cbv zeta in Hv.
    rewrite clamp_levels_le in Hv |- *. fold w in Hv. rewrite Hv by lia.
    rewrite dlt_zero by lia. by rewrite !double_of_exact by lia. }
  split; [done|]. intros p Hpos Hp. rewrite E, (proj2 (Z.ltb_lt _ _) Hpos).
  assert (En : sum_by notional w = p * sum_by s_shares w).
  { clear -Hp. induction Hp as [|o l Ho _ IH]; simpl; [lia|]. unfold notional at 1. rewrite IH, Ho. lia. }
  assert (0 < p).
  { destruct Hp as [|o l Ho _]; [simpl in Hpos; lia|]. apply Forall_cons in Hlive as [[? _] _]. lia. }
  rewrite En in *. rewrite !double_of_exact by nia. apply ddiv_exact; lia.
Qed.

Lemma mid_spread_attached b q :
  core b q → attached b →
  let s := spec_bbo (abs_orders b) in
  mid_price b = Ok (bbo_mid_price s) ∧ spread b = Ok (bbo_spread_ticks s) ∧
  dscaled (bbo_mid_price s) =
    Some (if bbo_valid s then (bid_price s + ask_price s) * 2 ^ 1073 else 0) ∧
  dscaled (bbo_spread_ticks s) =
    Some (if bbo_valid s then (ask_price s - bid_price s) * 2 ^ 1074 else 0).
Proof.
  intros Hc Hatt s.
  destruct (spec_bbo_bounds b q Hc Hatt) as (Hb & Ha & _). fold s in Hb, Ha.
  unfold mid_price, spread. rewrite (best_bid_offer_abs b q) by done. fold s. rewrite !bind_ok.
  unfold bbo_mid_price, bbo_spread_ticks. destruct (bbo_valid s) eqn:Hv; [|done]. simpl negb.
  split_and!; [done|done|..].
  all: unfold bbo_valid in Hv; apply andb_true_iff in Hv as [[H1 H2]%andb_true_iff H3];
    apply Z.ltb_lt in H1, H2, H3; rewrite u32_small, double_of_exact by lia.
  - rewrite ddiv_two, norm_float_scaled by lia. done.
  - by rewrite exact_float_scaled by lia.
Qed.

(** ** Theorems *)

(** C26. Depth snapshot.  On any well-formed book [visible_qty] of the first [n] levels of a
    side is the total of the live orders that are in a level less than [n] ticks (at most
    [kLevels]) from the side's reference price, without wrapping; with [n >= kLevels] it is
    every order of the side that is in a level. *)
Theorem visible_qty_correct b sd n :
  wf b →
  visible_qty b (side_char sd) n =
    sum_by s_shares (window_orders (in_levels b) sd (refp sd b) (Z.min n kLevels)) ∧
  (kLevels ≤ n →
   visible_qty b (side_char sd) n =
     sum_by s_shares (filter (λ o, s_side o = side_char sd) (map_to_list (in_levels b)).*2)).
Proof.
  intros (q & fs & Hw). destruct (core_seen b q (wf_core _ _ _ Hw)) as (m & Hc & Hatt & <-).
  pose proof (visible_qty_attached (set_order_map m b) q sd n Hc Hatt) as Hv. by destruct sd.
Qed.

(** C25. Volume-weighted price.  On any well-formed book, while the notional of the live orders
    that are in a level less than [n] ticks (at most [kLevels]) from the reference price is
    below 2^53, [vwap] is their total notional divided by their total shares with a single
    rounding, zero when they have no shares, and exactly the price when they all have the
    same and some shares. *)
Theorem vwap_correct b sd n :
  wf b →
  let w := window_orders (in_levels b) sd (refp sd b) (Z.min n kLevels) in
  sum_by notional w < 2 ^ 53 →
  vwap b (side_char sd) n =
    (if 0 <? sum_by s_shares w
     then ddiv (double_of (sum_by notional w)) (double_of (sum_by s_shares w)) else d_zero) ∧
  (∀ p, 0 < sum_by s_shares w → Forall (λ o, s_price o = p) w → vwap b (side_char sd) n = double_of p).
Proof.
  intros (q & fs & Hw). destruct (core_seen b q (wf_core _ _ _ Hw)) as (m & Hc & Hatt & <-).
  pose proof (vwap_attached (set_order_map m b) q sd n Hc Hatt) as Hv. by destruct sd.
Qed.

(** C27. Mid price and spread.  On any well-formed book both are exact: half the sum, and the
    difference, of the best bid and ask among the live orders that are in a level when both
    exist and do not cross, zero otherwise; the methods of [BBO] agree. *)
Theorem mid_spread_exact b :
  wf b →
  let s := spec_bbo (in_levels b) in
  mid_price b = Ok (bbo_mid_price s) ∧ spread b = Ok (bbo_spread_ticks s) ∧
  dscaled (bbo_mid_price s) =
    Some (if bbo_valid s then (bid_price s + ask_price s) * 2 ^ 1073 else 0) ∧
  dscaled (bbo_spread_ticks s) =
    Some (if bbo_valid s then (ask_price s - bid_price s) * 2 ^ 1074 else 0).
Proof.
  intros (q & fs & Hw). destruct (core_seen b q (wf_core _ _ _ Hw)) as (m & Hc & Hatt & <-).
  exact (mid_spread_attached (set_order_map m b) q Hc Hatt).
Qed.

(** Order-flow imbalance.  It is the difference of the best quantities over their sum, both
    exact integers, with the single rounding of the division; zero when both are.  It
    is finite, in [-1, 1], and has the sign of the difference. *)
Theorem order_flow_imbalance_correct b :
  wf b → attached b →
  let s := spec_bbo (abs_orders b) in
  ∃ d v, order_flow_imbalance b = Ok d ∧
    d = (if bid_qty s + ask_qty s =? 0 then d_zero
         else ddiv (double_of (bid_qty s - ask_qty s)) (double_of (bid_qty s + ask_qty s))) ∧
    dscaled d = Some v ∧ - scale ≤ v ≤ scale ∧ Z.sgn v = Z.sgn (bid_qty s - ask_qty s).
Proof.
  intros (q & fs & Hw) Hatt s. pose proof (wf_core _ _ _ Hw) as Hc.
  destruct (spec_bbo_bounds b q Hc Hatt) as (_ & _ & Hb & Ha). fold s in Hb, Ha.
  unfold order_flow_imbalance. rewrite (best_bid_offer_abs b q) by done. fold s. rewrite bind_ok. cbv zeta.
  rewrite !double_of_exact, dadd_exact, dsub_exact, deq_zero by lia.
  assert (0 ≤ scale) by (unfold scale; apply Z.pow_nonneg; lia).
  destruct (Z.eqb_spec (bid_qty s + ask_qty s) 0) as [Hz|Hz].
  - exists d_zero, 0. split; [done|]. split; [done|]. split; [done|]. split; [lia|].
    by replace (bid_qty s - ask_qty s) with 0 by lia.
  - destruct (decide (bid_qty s - ask_qty s = 0)) as [->|Hne].
    + destruct (exact_float_normal (bid_qty s + ask_qty s) ltac:(lia)) as (m & e & -> & _).
      exists d_zero, 0. split; [done|]. split; [done|]. split; [done|]. split; [lia|done].
    + destruct (ratio_bound (bid_qty s - ask_qty s) (bid_qty s + ask_qty s) Hne ltac:(lia)) as (v & Hv & Hab & Hsg).
      eexists _, v. split; [done|]. split; [done|]. split; [done|]. split; [lia|done].
Qed.

(** The levels counted are ticks from the reference price, not levels of the book: once the
    ask that set the reference is gone, an ask ten ticks above it is the whole side and
    the best offer, but the volume-weighted price of the first ten levels is 0, and
    so is the visible quantity. *)
Theorem vwap_counts_ticks :
  best_bid_offer moved_book = Ok (mkBBO 0 0 1500010 70) ∧
  vwap moved_book ch_S 10 = d_zero ∧ visible_qty moved_book ch_S 10 = 0 ∧
  vwap moved_book ch_S 11 = double_of 1500010 ∧ visible_qty moved_book ch_S 11 = 70.
Proof. split_and!; by_vm. Qed.

(** ** Instances on the sample session *)
Lemma visible_qty_correct_witness :
  visible_qty sample_book (side_char Bid) 200 = 150 ∧ visible_qty sample_book (side_char Bid) 9000 = 150.
Proof.
  pose proof (visible_qty_correct sample_book Bid 200 (si_wf _ _ _ sample_simulates)) as [H200 _].
  pose proof (proj2 (visible_qty_correct sample_book Bid 9000 (si_wf _ _ _ sample_simulates)) ltac:(by_vm)) as H9000.
  rewrite H200, H9000. split; vm_compute; reflexivity.
Defined.

Lemma vwap_correct_witness : vwap sample_book (side_char Ask) 200 = double_of 1500300.
Proof.
  refine (proj2 (vwap_correct sample_book Ask 200 (si_wf _ _ _ sample_simulates) _) 1500300 _ _).
  - vm_compute. reflexivity.
  - vm_compute. reflexivity.
  - apply (bool_decide_unpack _). vm_compute. exact I.
Defined.

Lemma mid_spread_exact_witness :
  ∃ m, mid_price sample_book = Ok m ∧ dscaled m = Some (3000350 * 2 ^ 1073).
Proof.
  destruct (mid_spread_exact sample_book (si_wf _ _ _ sample_simulates)) as (-> & _ & Hd & _).
  eexists. split; [reflexivity|]. rewrite Hd. vm_compute. reflexivity.
Defined.

Lemma order_flow_imbalance_correct_witness :
  ∃ v, order_flow_imbalance sample_book = Ok (ddiv (double_of (-20)) (double_of 60)) ∧
    dscaled (ddiv (double_of (-20)) (double_of 60)) = Some v ∧ - scale ≤ v < 0.
Proof.
  destruct (order_flow_imbalance_correct sample_book (si_wf _ _ _ sample_simulates)
              (si_attached _ _ _ sample_simulates)) as (d & v & E & Ed & Hv & Hb & Hs).
  assert (Hd : d = ddiv (double_of (-20)) (double_of 60)) by (rewrite Ed; vm_compute; reflexivity).
  exists v. rewrite E, <-Hd. split; [done|]. split; [exact Hv|].
  split; [apply Hb|]. apply Z.sgn_neg_iff. rewrite Hs. vm_compute. reflexivity.
Defined.
