(* ===== verification/Histogram.v ===== *)
(** * The latency histogram (include/bench/rdtsc.hpp)

    [Histogram<kBuckets>] counts samples per nanosecond, the last bucket taking
    everything from [kBuckets - 1] up.  The samples are given; the clocks of the header
    are in [Clock].

    Proved: after any samples the buckets are their exact counts, a percentile is an
    order statistic of the clamped samples, [p50] is their upper median, and the
    percentile 1.0 is the last bucket whatever the samples. *)

From S2P Require Import Prelude Double.
From stdpp Require Import sorting.

#[local] Open Scope Z_scope.

(** ** State and operations *)
Record Histogram := mkHistogram {
  buckets_ : list Z;
  total_ : Z;
}.

(** The default template argument. *)
Definition default_buckets : nat := Z.to_nat 10001.

Definition sample_latencies : list Z := [7; 3; 20; 3; 5].

Section Histogram.
(** The template parameter. *)
Variable kBuckets : nat.

Definition last_bucket : Z := Z.of_nat kBuckets - 1.

Definition histogram_new : Histogram := mkHistogram (replicate kBuckets 0) 0.

Definition record (h : Histogram) (ns : Z) : outcome Histogram :=
  let idx := if ns <? last_bucket then ns else last_bucket in
  match buckets_ h !! Z.to_nat idx with
  | None => Fault OutOfRange
  | Some n => Ok (mkHistogram (<[Z.to_nat idx := u64 (n + 1)]> (buckets_ h)) (u64 (total_ h + 1)))
  end.

(** The loop of [percentile] from bucket [i] on. *)
Fixpoint percentile_scan (bs : list Z) (i cum target : Z) : Z :=
  match bs with
  | [] => last_bucket
  | n :: bs =>
      let cum := u64 (cum + n) in
      if target <? cum then i else percentile_scan bs (i + 1) cum target
  end.

Definition percentile (h : Histogram) (p : double) : outcome Z :=
  if total_ h =? 0 then Ok 0 else
  target ← u64_of_double (dmul p (double_of (total_ h)));
  Ok (percentile_scan (buckets_ h) 0 0 target).

(** The decimal constants, correctly rounded. *)
Definition d_99 : double := ddiv (double_of 99) (double_of 100).
Definition d_999 : double := ddiv (double_of 999) (double_of 1000).

Definition p50 (h : Histogram) : outcome Z := percentile h d_half.
Definition p99 (h : Histogram) : outcome Z := percentile h d_99.
Definition p999 (h : Histogram) : outcome Z := percentile h d_999.
Definition count (h : Histogram) : Z := total_ h.

Definition histogram_reset (h : Histogram) : Histogram :=
  mkHistogram ((λ _, 0) <$> buckets_ h) 0.

(** ** Specification *)
Definition clamp (ns : Z) : Z := Z.min ns last_bucket.

Definition samples (l : list Z) : list Z := clamp <$> l.

(** The samples in increasing order. *)
Definition ordered (l : list Z) : list Z := merge_sort Z.le (samples l).

Definition count_eq (s : list Z) (v : Z) : Z := Z.of_nat (length (filter (λ x, x = v) s)).
Definition count_le (s : list Z) (v : Z) : Z := Z.of_nat (length (filter (λ x, x ≤ v) s)).

(** The histogram of the samples [l]. *)
Record hist_rep (h : Histogram) (l : list Z) : Prop := {
  hr_length : length (buckets_ h) = kBuckets;
  hr_bucket : ∀ i n, buckets_ h !! i = Some n → n = count_eq (samples l) (Z.of_nat i);
  hr_total : total_ h = Z.of_nat (length l);
}.

Context (Hk : (0 < kBuckets)%nat).

(** ** Lemmas: counts *)
Lemma count_le_step s v : count_le s v = count_le s (v - 1) + count_eq s v.
Proof.
  unfold count_le, count_eq. induction s as [|x s IH]; [done|].
  rewrite !filter_cons. repeat case_decide; simpl; lia.
Qed.

Lemma count_eq_cons x s v : count_eq (x :: s) v = (if decide (x = v) then 1 else 0) + count_eq s v.
Proof. unfold count_eq. rewrite filter_cons. case_decide; simpl; lia. Qed.

Lemma count_eq_perm s1 s2 v : s1 ≡ₚ s2 → count_eq s1 v = count_eq s2 v.
Proof. intros Hp. unfold count_eq. by rewrite Hp. Qed.

Lemma count_le_bound s v : 0 ≤ count_le s v ≤ Z.of_nat (length s).
Proof. unfold count_le. pose proof (length_filter (λ x, x ≤ v) s). lia. Qed.

Lemma count_le_mono s v w : v ≤ w → count_le s v ≤ count_le s w.
Proof.
  intros Hvw. unfold count_le. induction s as [|x s IH]; [done|].
  rewrite !filter_cons. repeat case_decide; simpl; lia.
Qed.

Lemma count_le_none s v : Forall (λ x, v < x) s → count_le s v = 0.
Proof.
  intros Hs. unfold count_le. induction Hs as [|x s Hx _ IH]; [done|].
  rewrite filter_cons. case_decide; [lia|done].
Qed.

Lemma count_le_all s v : Forall (λ x, x ≤ v) s → count_le s v = Z.of_nat (length s).
Proof.
  intros Hs. unfold count_le. induction Hs as [|x s Hx _ IH]; [done|].
  rewrite filter_cons. case_decide; [simpl; lia|done].
Qed.

Lemma count_le_app s1 s2 v : count_le (s1 ++ s2) v = count_le s1 v + count_le s2 v.
Proof. unfold count_le. rewrite filter_app, length_app. lia. Qed.

Lemma count_le_perm s1 s2 v : s1 ≡ₚ s2 → count_le s1 v = count_le s2 v.
Proof. intros Hp. unfold count_le. by rewrite Hp. Qed.

(** The element of rank [t] of a sorted list, by counts. *)
Lemma sorted_rank s (t : nat) v :
  StronglySorted Z.le s → s !! t = Some v →
  count_le s (v - 1) ≤ Z.of_nat t < count_le s v.
Proof.
  intros Hs Ht. pose proof (lookup_lt_Some _ _ _ Ht) as Hlt.
  rewrite <-(take_drop_middle s t v Ht) in Hs |- *. rewrite !count_le_app.
  apply StronglySorted_app in Hs as (Hle & _ & Hs). apply StronglySorted_inv in Hs as [_ Hge].
  assert (Hlow : count_le (v :: drop (S t) s) (v - 1) = 0).
  { apply count_le_none. constructor; [lia|]. eapply Forall_impl; [done|]. simpl. intros. lia. }
  assert (Hall : count_le (take t s) v = Z.of_nat t).
  { rewrite count_le_all, length_take; [lia|]. apply Forall_forall. intros x Hx. apply Hle; [done|by left]. }
  assert (1 ≤ count_le (v :: drop (S t) s) v).
  { unfold count_le. rewrite filter_cons. case_decide; [simpl; lia|lia]. }
  pose proof (count_le_bound (take t s) (v - 1)) as Hb. rewrite length_take in Hb. lia.
Qed.

(** ** Lemmas: recording *)
Lemma clamp_index ns : 0 ≤ ns → (if ns <? last_bucket then ns else last_bucket) = clamp ns.
Proof. intros Hns. unfold clamp. destruct (Z.ltb_spec ns last_bucket); lia. Qed.

Lemma histogram_new_rep : hist_rep histogram_new [].
Proof.
  split; [apply length_replicate| |done].
  intros i n Hi. cbn [buckets_ histogram_new] in Hi. by apply lookup_replicate in Hi as [-> _].
Qed.

Lemma record_ok h l ns :
  hist_rep h l → 0 ≤ ns → Z.of_nat (length l) + 1 < 2 ^ 64 →
  ∃ h', record h ns = Ok h' ∧ hist_rep h' (ns :: l).
Proof.
  intros [Hlen Hb Ht] Hns Hl. unfold record. rewrite clamp_index by done.
  assert (Hc : 0 ≤ clamp ns < Z.of_nat kBuckets) by (unfold clamp, last_bucket; lia).
  destruct (buckets_ h !! Z.to_nat (clamp ns)) as [n|] eqn:E.
  2:{ apply lookup_ge_None in E. lia. }
  eexists. split; [done|]. pose proof (Hb _ _ E) as Hn. rewrite Z2Nat.id in Hn by lia.
  assert (Hle : count_eq (samples l) (clamp ns) ≤ Z.of_nat (length l)).
  { unfold count_eq. pose proof (length_filter (λ x, x = clamp ns) (samples l)) as Hf.
    unfold samples in *. rewrite length_fmap in Hf. lia. }
  assert (0 ≤ count_eq (samples l) (clamp ns)) by (unfold count_eq; lia).
  split; simpl.
  - by rewrite length_insert.
  - intros i n' Hi. change (samples (ns :: l)) with (clamp ns :: samples l). rewrite count_eq_cons.
    apply list_lookup_insert_Some in Hi as [(<- & <- & _)|[Hne Hi]].
    + rewrite Z2Nat.id, decide_True, Hn, u64_small by lia. lia.
    + rewrite decide_False by lia. by apply Hb.
  - rewrite Ht, u64_small by lia. lia.
Qed.

Lemma record_all_ok l2 h l1 :
  hist_rep h l1 → Forall (λ ns, 0 ≤ ns) l2 → Z.of_nat (length l1 + length l2) < 2 ^ 64 →
  ∃ h', foldM record l2 h = Ok h' ∧ hist_rep h' (reverse l2 ++ l1).
Proof.
  revert h l1. induction l2 as [|ns l2 IH]; intros h l1 Hr Hns Hl; [by exists h|].
  apply Forall_cons in Hns as [Hns Hns']. simpl in Hl.
  destruct (record_ok h l1 ns Hr Hns) as (h1 & E1 & Hr1); [lia|].
  destruct (IH h1 (ns :: l1) Hr1 Hns') as (h' & E & Hr'); [simpl; lia|].
  exists h'. cbn [foldM]. rewrite E1, bind_ok, E. split; [done|].
  by rewrite reverse_cons, <-app_assoc.
Qed.

Lemma samples_perm l1 l2 : l1 ≡ₚ l2 → samples l1 ≡ₚ samples l2.
Proof. apply fmap_Permutation. Qed.

Lemma hist_rep_perm h l1 l2 : l1 ≡ₚ l2 → hist_rep h l1 → hist_rep h l2.
Proof.
  intros Hp [Hlen Hb Ht]. split; [done| |by rewrite <-Hp].
  intros i n Hi. rewrite (Hb i n Hi). by apply count_eq_perm, samples_perm.
Qed.

(** ** Lemmas: the percentile loop *)
Lemma percentile_scan_ok h l t v :
  hist_rep h l → Z.of_nat (length l) < 2 ^ 64 → 0 ≤ v ≤ last_bucket →
  count_le (samples l) (v - 1) ≤ t < count_le (samples l) v → Forall (λ x, 0 ≤ x) (samples l) →
  percentile_scan (buckets_ h) 0 0 t = v.
Proof.
  intros [Hlen Hb _] Hl Hv Ht Hpos.
  cut (∀ i, Z.of_nat i ≤ v → percentile_scan (drop i (buckets_ h)) (Z.of_nat i)
         (count_le (samples l) (Z.of_nat i - 1)) t = v).
  { intros Hc. specialize (Hc 0%nat ltac:(lia)). rewrite drop_0, (count_le_none _ (Z.of_nat 0 - 1)) in Hc; [done|].
    eapply Forall_impl; [done|]. simpl. intros. lia. }
  intros i Hi. unfold last_bucket in Hv. remember (Z.to_nat v - i)%nat as d eqn:Ed. revert i Hi Ed.
  induction d as [|d IH]; intros i Hi Ed;
    (destruct (lookup_lt_is_Some_2 (buckets_ h) i) as [n Hn]; [lia|]);
    rewrite (drop_S _ n i Hn); cbn [percentile_scan]; cbv zeta; rewrite (Hb i n Hn), <-count_le_step;
    pose proof (count_le_bound (samples l) (Z.of_nat i)) as Hcb;
    rewrite (length_fmap clamp l : length (samples l) = length l) in Hcb; rewrite u64_small by lia.
  - assert (Z.of_nat i = v) as -> by lia. by rewrite (proj2 (Z.ltb_lt _ _)) by lia.
  - pose proof (count_le_mono (samples l) (Z.of_nat i) (v - 1) ltac:(lia)).
    rewrite (proj2 (Z.ltb_ge _ _)) by lia.
    replace (Z.of_nat i + 1) with (Z.of_nat (S i)) by lia.
    rewrite <-(IH (S i)) by lia. do 2 f_equal. lia.
Qed.

Lemma percentile_scan_end bs i cum t :
  0 ≤ cum → Forall (λ n, 0 ≤ n) bs → foldr Z.add cum bs ≤ t → t < 2 ^ 64 →
  percentile_scan bs i cum t = last_bucket.
Proof.
  intros Hc Hbs. revert i cum Hc. induction Hbs as [|n bs Hn Hbs IH]; intros i cum Hc Ht Ht64; [done|].
  assert (Hmono : ∀ c l, Forall (λ n, 0 ≤ n) l → c ≤ foldr Z.add c l) by (induction 1; simpl; lia).
  assert (Hsum : ∀ c d l, foldr Z.add (c + d) l = d + foldr Z.add c l) by (intros c d l; induction l; simpl; lia).
  simpl in Ht |- *. rewrite <-(Hsum cum n) in Ht. pose proof (Hmono (cum + n) bs Hbs).
  rewrite u64_small by lia. rewrite (proj2 (Z.ltb_ge _ _)) by lia. apply IH; lia.
Qed.

(** ** Lemmas: order statistics *)
Lemma samples_range l : Forall (λ ns, 0 ≤ ns) l → Forall (λ x, 0 ≤ x ≤ last_bucket) (samples l).
Proof.
  intros Hl. unfold samples. rewrite Forall_fmap. eapply Forall_impl; [done|]. intros x Hx.
  simpl in *. unfold clamp, last_bucket. lia.
Qed.

Lemma ordered_sorted l : StronglySorted Z.le (ordered l).
Proof. apply Sorted_StronglySorted; [intros ???; lia|]. apply Sorted_merge_sort. intros ??. lia. Qed.

Lemma ordered_perm l : ordered l ≡ₚ samples l.
Proof. apply merge_sort_Permutation. Qed.

Lemma ordered_length l : length (ordered l) = length l.
Proof. rewrite ordered_perm. apply length_fmap. Qed.

Lemma scan_total h l :
  hist_rep h l → Forall (λ ns, 0 ≤ ns) l →
  Forall (λ n, 0 ≤ n) (buckets_ h) ∧ foldr Z.add 0 (buckets_ h) = Z.of_nat (length l).
Proof.
  intros [Hlen Hb _] Hl. split.
  { apply Forall_lookup. intros i n Hi. rewrite (Hb i n Hi). unfold count_eq. lia. }
  assert (Hcut : ∀ j, (j ≤ kBuckets)%nat →
    foldr Z.add 0 (take j (buckets_ h)) = count_le (samples l) (Z.of_nat j - 1)).
  { intros j. induction j as [|j IH]; intros Hj.
    - rewrite take_0, count_le_none; [done|]. eapply Forall_impl; [by apply samples_range|]. simpl. lia.
    - destruct (lookup_lt_is_Some_2 (buckets_ h) j) as [n Hn]; [lia|].
      rewrite (take_S_r _ _ n Hn), foldr_app, (Hb j n Hn). cbn [foldr].
      replace (Z.of_nat (S j) - 1) with (Z.of_nat j) by lia. rewrite count_le_step, <-IH by lia.
      generalize (take j (buckets_ h)). intros bs. induction bs as [|x bs IHb]; simpl; lia. }
  specialize (Hcut kBuckets ltac:(lia)). rewrite take_ge in Hcut by lia. rewrite Hcut.
  rewrite count_le_all; [by rewrite (length_fmap clamp l : length (samples l) = length l)|].
  eapply Forall_impl; [by apply samples_range|]. unfold last_bucket. simpl. lia.
Qed.

(** The loop for a target: the sample of that rank, or the last bucket past the end. *)
Lemma percentile_rank h l t :
  hist_rep h l → Forall (λ ns, 0 ≤ ns) l → Z.of_nat (length l) < 2 ^ 64 → 0 ≤ t < 2 ^ 64 →
  percentile_scan (buckets_ h) 0 0 t = default last_bucket (ordered l !! Z.to_nat t).
Proof.
  intros Hr Hl Hlen Ht. pose proof (samples_range l Hl) as Hs.
  destruct (ordered l !! Z.to_nat t) as [v|] eqn:E; simpl.
  - pose proof (sorted_rank _ _ _ (ordered_sorted l) E) as Hrank.
    rewrite !(count_le_perm _ _ _ (ordered_perm l)), Z2Nat.id in Hrank by lia.
    assert (Hv : v ∈ samples l) by (rewrite <-ordered_perm; by eapply list_elem_of_lookup_2).
    rewrite Forall_forall in Hs. eapply percentile_scan_ok; [done|done|by apply Hs|done|].
    apply Forall_forall. intros x Hx. by apply Hs.
  - apply lookup_ge_None in E. rewrite ordered_length in E.
    destruct (scan_total h l Hr Hl) as [Hn Hsum].
    apply percentile_scan_end; [done|done|rewrite Hsum; lia|lia].
Qed.

Lemma u64_of_double_range d t : u64_of_double d = Ok t → 0 ≤ t < 2 ^ 64.
Proof.
  unfold u64_of_double. destruct d as [s|s| |s m e]; try done; [by intros [= <-]|].
  set (v := if 0 <=? e then _ else _). assert (0 ≤ v).
  { unfold v. destruct (Z.leb_spec 0 e); [nia|]. apply Z.div_pos; [lia|]. apply Z.pow_pos_nonneg; lia. }
  destruct s; case_match eqn:E; try done; intros [= <-].
  - apply Z.eqb_eq in E. lia.
  - apply Z.ltb_lt in E. lia.
Qed.

Lemma record_from_new l :
  Forall (λ ns, 0 ≤ ns) l → Z.of_nat (length l) < 2 ^ 64 →
  ∃ h, foldM record l histogram_new = Ok h ∧ hist_rep h l.
Proof.
  intros Hl Hlen. destruct (record_all_ok l histogram_new [] histogram_new_rep Hl) as (h & E & Hr); [done|].
  exists h. split; [done|]. eapply hist_rep_perm; [|done]. by rewrite app_nil_r, reverse_Permutation.
Qed.

Lemma percentile_target h l p t :
  hist_rep h l → Forall (λ ns, 0 ≤ ns) l → Z.of_nat (length l) < 2 ^ 64 → l ≠ [] →
  u64_of_double (dmul p (double_of (Z.of_nat (length l)))) = Ok t →
  percentile h p = Ok (default last_bucket (ordered l !! Z.to_nat t)).
Proof.
  intros Hr Hl Hlen Hne Et. unfold percentile. rewrite (hr_total _ _ Hr).
  rewrite (proj2 (Z.eqb_neq _ _)) by (destruct l; [done|simpl; lia]). rewrite Et, bind_ok.
  f_equal. eapply percentile_rank; [done..|]. by eapply u64_of_double_range.
Qed.

(** ** Theorems *)

(** C28. Percentiles.  Samples are recorded without fault and counted exactly, and the
    percentile [p] is the clamped sample whose rank, from 0, is the truncation of [p]
    times the number of samples; the last bucket when that is past the last sample. *)
Theorem percentile_order_statistic l :
  Forall (λ ns, 0 ≤ ns) l → Z.of_nat (length l) < 2 ^ 64 →
  ∃ h, foldM record l histogram_new = Ok h ∧ count h = Z.of_nat (length l) ∧
    (∀ v, 0 ≤ v ≤ last_bucket → buckets_ h !! Z.to_nat v = Some (count_eq (samples l) v)) ∧
    (l = [] → ∀ p, percentile h p = Ok 0) ∧
    (∀ p t, l ≠ [] → u64_of_double (dmul p (double_of (Z.of_nat (length l)))) = Ok t →
      percentile h p = Ok (default last_bucket (ordered l !! Z.to_nat t))).
Proof.
  intros Hl Hlen. destruct (record_from_new l Hl Hlen) as (h & E & Hr). exists h. split_and!.
  - done.
  - apply Hr.
  - intros v Hv. unfold last_bucket in Hv. destruct (lookup_lt_is_Some_2 (buckets_ h) (Z.to_nat v)) as [n Hn].
    { rewrite (hr_length _ _ Hr). lia. }
    rewrite Hn, (hr_bucket _ _ Hr _ _ Hn). by rewrite Z2Nat.id by lia.
  - intros -> p. unfold percentile. by rewrite (hr_total _ _ Hr).
  - intros p t Hne Et. by eapply percentile_target.
Qed.

(** Median and maximum.  With at least one and fewer than 2^53 samples, [p50] is the upper
    median of the clamped samples, and the percentile 1.0 is the last bucket, whatever
    the largest sample. *)
Theorem percentile_half_and_one l :
  Forall (λ ns, 0 ≤ ns) l → 0 < Z.of_nat (length l) < 2 ^ 53 →
  ∃ h v, foldM record l histogram_new = Ok h ∧
    ordered l !! (length l / 2)%nat = Some v ∧ p50 h = Ok v ∧
    percentile h (double_of 1) = Ok last_bucket.
Proof.
  intros Hl Hlen. destruct (record_from_new l Hl) as (h & E & Hr); [lia|].
  assert (Hne : l ≠ []) by (intros ->; simpl in Hlen; lia).
  destruct (lookup_lt_is_Some_2 (ordered l) (length l / 2)) as [v Hv].
  { rewrite ordered_length. apply Nat.div_lt; lia. }
  exists h, v. split_and!; [done|done|..].
  - unfold p50. rewrite (percentile_target h l _ (Z.of_nat (length l) / 2)); [|done|done|lia|done|].
    + replace (Z.to_nat (Z.of_nat (length l) / 2)) with (length l / 2)%nat; [by rewrite Hv|].
      change 2 with (Z.of_nat 2). by rewrite <-Nat2Z.inj_div, Nat2Z.id.
    + rewrite double_of_exact, dmul_half, u64_of_norm by lia. done.
  - rewrite (percentile_target h l _ (Z.of_nat (length l))); [|done|done|lia|done|].
    + by rewrite lookup_ge_None_2 by (rewrite ordered_length; lia).
    + rewrite !double_of_exact, dmul_exact, Z.mul_1_l by lia. rewrite exact_float_pos, u64_of_norm by lia.
      by rewrite Z.div_1_r.
Qed.

End Histogram.

(** ** Instances *)
Lemma percentile_order_statistic_witness :
  ∃ h, foldM (record 16) sample_latencies (histogram_new 16) = Ok h ∧ p99 16 h = Ok 15.
Proof.
  destruct (percentile_order_statistic 16 ltac:(lia) sample_latencies ltac:(repeat constructor; lia) eq_refl)
    as (h & E & _ & _ & _ & Hp).
  exists h. split; [exact E|]. unfold p99. rewrite (Hp d_99 4); [|discriminate|vm_compute; reflexivity].
  vm_compute. reflexivity.
Defined.

Lemma percentile_half_and_one_witness :
  ∃ h, foldM (record 16) sample_latencies (histogram_new 16) = Ok h ∧ p50 16 h = Ok 5 ∧
    percentile 16 h (double_of 1) = Ok 15.
Proof.
  destruct (percentile_half_and_one 16 ltac:(lia) sample_latencies ltac:(repeat constructor; lia)
    (conj eq_refl eq_refl)) as (h & v & E & Hv & Hp & H1).
  exists h. split; [exact E|]. split; [|exact H1]. rewrite Hp. vm_compute in Hv. by injection Hv as <-.
Defined.
