(* ===== verification/Lobster.v ===== *)
(** * The LOBSTER validator (include/book/lobster_validator.hpp,
      src/book/lobster_validator.cpp)

    [compare_snapshot] checks the book against one reference snapshot, ten levels a
    side; [replay] is [validate] once the file is loaded ([Validate]): it replays the
    messages and compares every snapshot at its checkpoint.  The
    loop index [snap_idx] is the list of snapshots still to compare.  Here the
    snapshots are given; their loading from CSV files is [LobsterCsv].

    Proved: on a book in its contract a snapshot is compared with the depth of the live
    orders, and the replay reports the mismatches computed on the abstract book. *)

From S2P Require Import Prelude Bytes Messages Parser Reader Order PriceLevel OrderBook BookInv BookWf.
From S2P Require Import BookHandlers Dispatch Samples BookSpec Depth BookTheorems Spsc SpscConc.
From S2P Require Import Pipeline PipelineTheorems.

(** ** Data *)
Definition kDepth : nat := 10.

Record LobsterSnapshot := mkSnapshot {
  timestamp_ns : Z;
  snap_ask_price : list Z;
  snap_ask_qty : list Z;
  snap_bid_price : list Z;
  snap_bid_qty : list Z;
}.

Record Mismatch := mkMismatch {
  mm_timestamp_ns : Z;
  mm_side : Z;
  mm_level : nat;
  mm_our_price : Z;
  mm_our_qty : Z;
  mm_ref_price : Z;
  mm_ref_qty : Z;
}.

(** ** compare_snapshot *)

(** A fixed array, indexed. *)
Definition array_at (l : list Z) (i : nat) : outcome Z :=
  match l !! i with Some x => Ok x | None => Fault OutOfRange end.

Definition our_bid_qty (b : OrderBook) (ref_bid_price : Z) : Z :=
  if (0 <? ref_bid_price) && (ref_bid_price <=? bid_ref b) then
    match bid_level b (i32 (u32 (bid_ref b - ref_bid_price))) with
    | Some pl => u32 (total_qty pl)
    | None => 0
    end
  else 0.

Definition our_ask_qty (b : OrderBook) (ref_ask_price : Z) : Z :=
  if (0 <? ref_ask_price) && (ask_ref b <=? ref_ask_price) then
    match ask_level b (i32 (u32 (ref_ask_price - ask_ref b))) with
    | Some pl => u32 (total_qty pl)
    | None => 0
    end
  else 0.

(** [if (out) out->push_back(m);] *)
Definition push_out (out : option (list Mismatch)) (m : Mismatch) : option (list Mismatch) :=
  match out with Some l => Some (l ++ [m]) | None => None end.

Definition compare_level (b : OrderBook) (snap : LobsterSnapshot) (acc : Z * option (list Mismatch))
    (lvl : nat) : outcome (Z * option (list Mismatch)) :=
  let '(mismatches, out) := acc in
  ref_bid_price ← array_at (snap_bid_price snap) lvl;
  ref_bid_qty ← array_at (snap_bid_qty snap) lvl;
  let our := our_bid_qty b ref_bid_price in
  let '(mismatches, out) :=
    if negb (our =? ref_bid_qty)
    then (u64 (mismatches + 1),
          push_out out (mkMismatch (timestamp_ns snap) ch_B lvl ref_bid_price our ref_bid_price ref_bid_qty))
    else (mismatches, out) in
  ref_ask_price ← array_at (snap_ask_price snap) lvl;
  ref_ask_qty ← array_at (snap_ask_qty snap) lvl;
  let our := our_ask_qty b ref_ask_price in
  Ok (if negb (our =? ref_ask_qty)
      then (u64 (mismatches + 1),
            push_out out (mkMismatch (timestamp_ns snap) ch_S lvl ref_ask_price our ref_ask_price ref_ask_qty))
      else (mismatches, out)).

Definition compare_snapshot (b : OrderBook) (snap : LobsterSnapshot) (out : option (list Mismatch))
  : outcome (Z * option (list Mismatch)) :=
  foldM (compare_level b snap) (seq 0 kDepth) (0, out).

(** ** validate *)
Definition message_header (m : ParsedMessage) : option Header :=
  match m with
  | Monostate => None
  | MSystemEvent m => Some (sys_hdr m)
  | MAddOrder m => Some (add_hdr m)
  | MAddOrderMPID m => Some (mpid_hdr m)
  | MExecuteOrder m => Some (exec_hdr m)
  | MExecuteOrderWithPrice m => Some (execp_hdr m)
  | MCancelOrder m => Some (cancel_hdr m)
  | MDeleteOrder m => Some (del_hdr m)
  | MReplaceOrder m => Some (repl_hdr m)
  | MTrade m => Some (trade_hdr m)
  end.

Definition msg_ts (m : ParsedMessage) : Z :=
  match message_header m with Some h => read_ts (timestamp h) | None => 0 end.

(** [while (snap_idx < size && <due>) { total += compare_snapshot(...); ++snap_idx; }] *)
Fixpoint compare_while (due : LobsterSnapshot → bool) (b : OrderBook) (snaps : list LobsterSnapshot)
    (total : Z) (out : option (list Mismatch))
  : outcome (list LobsterSnapshot * Z * option (list Mismatch)) :=
  match snaps with
  | [] => Ok ([], total, out)
  | s :: rest =>
      if due s then
        '(n, out) ← compare_snapshot b s out;
        compare_while due b rest (u64 (total + n)) out
      else Ok (snaps, total, out)
  end.

Section Validate.
Context `{BuildMode}.

(** The replay loop; [it n] is the hash map's iteration order met with [n] units of fuel
    left. *)
Fixpoint validate_loop (fuel : nat) (it : nat → IterOrder) (r : ITCHFileReader) (b : OrderBook)
    (snaps : list LobsterSnapshot) (total : Z) (out : option (list Mismatch))
  : outcome (OrderBook * list LobsterSnapshot * Z * option (list Mismatch)) :=
  match fuel with
  | O => Ok (b, snaps, total, out)
  | S fuel' =>
      '(raw, r) ← next_message r;
      match raw, snaps with
      | None, _ | _, [] => Ok (b, snaps, total, out)
      | Some (data, len), _ =>
          m ← parse_message (Some data) len;
          b ← dispatch (it fuel') b m;
          '(snaps, total, out) ← compare_while (λ s, timestamp_ns s <=? msg_ts m) b snaps total out;
          validate_loop fuel' it r b snaps total out
      end
  end.

(** The loop, then the comparison of the snapshots that remain after it. *)
Definition replay (fuel : nat) (it : nat → IterOrder) (r : ITCHFileReader) (b : OrderBook)
    (snapshots : list LobsterSnapshot) (out : option (list Mismatch))
  : outcome (OrderBook * Z * option (list Mismatch)) :=
  '(b, snaps, total, out) ← validate_loop fuel it r b snapshots 0 out;
  '(_, total, out) ← compare_while (λ _, true) b snaps total out;
  Ok (b, total, out).

End Validate.

(** ** Specification *)
Definition snapshot_ok (s : LobsterSnapshot) : Prop :=
  (length (snap_bid_price s) = kDepth ∧ length (snap_bid_qty s) = kDepth ∧
   length (snap_ask_price s) = kDepth ∧ length (snap_ask_qty s) = kDepth) ∧
  Forall (λ p, 0 ≤ p < 2 ^ 32) (snap_bid_price s) ∧ Forall (λ p, 0 ≤ p < 2 ^ 32) (snap_ask_price s).

(** What is reported for one side of one level. *)
Definition level_mismatch (m : gmap Z SOrder) (s : LobsterSnapshot) (sd : Z) (i : nat) (p q : Z)
    : list Mismatch :=
  let our := u32 (depth m sd p) in
  if our =? q then [] else [mkMismatch (timestamp_ns s) sd i p our p q].

Definition spec_level (m : gmap Z SOrder) (s : LobsterSnapshot) (i : nat) : list Mismatch :=
  level_mismatch m s ch_B i (snap_bid_price s !!! i) (snap_bid_qty s !!! i) ++
  level_mismatch m s ch_S i (snap_ask_price s !!! i) (snap_ask_qty s !!! i).

Definition spec_compare (m : gmap Z SOrder) (s : LobsterSnapshot) : list Mismatch :=
  concat (spec_level m s <$> seq 0 kDepth).

Definition spec_compare_all (m : gmap Z SOrder) (snaps : list LobsterSnapshot) : list Mismatch :=
  concat (spec_compare m <$> snaps).

(** Snapshots due at time [ts]: the leading ones that are not later. *)
Fixpoint split_due (due : LobsterSnapshot → bool) (snaps : list LobsterSnapshot)
    : list LobsterSnapshot * list LobsterSnapshot :=
  match snaps with
  | [] => ([], [])
  | s :: rest =>
      if due s then let '(d, r) := split_due due rest in (s :: d, r) else ([], snaps)
  end.

(** Compare each snapshot with the abstract book after the first message that is not
    earlier, the remaining ones with the final book; messages after the last snapshot
    are not applied. *)
Fixpoint spec_validate (s : SBook) (ms : list ParsedMessage) (snaps : list LobsterSnapshot)
    : SBook * list Mismatch :=
  match ms, snaps with
  | _, [] => (s, [])
  | [], _ => (s, spec_compare_all (s_orders s) snaps)
  | m :: ms, _ =>
      let s := spec_step s m in
      let '(d, r) := split_due (λ sn, timestamp_ns sn <=? msg_ts m) snaps in
      let '(s', l) := spec_validate s ms r in
      (s', spec_compare_all (s_orders s) d ++ l)
  end.

(** The report vector after pushing [l]. *)
Definition push_all (out : option (list Mismatch)) (l : list Mismatch) : option (list Mismatch) :=
  (λ o, o ++ l) <$> out.

(** ** Samples *)
Definition pad10 (l : list Z) : list Z := take kDepth (l ++ replicate kDepth 0).

(** The empty book at the open, and the final book with a wrong ask quantity. *)
Definition sample_snapshots : list LobsterSnapshot :=
  [mkSnapshot 7 (pad10 []) (pad10 []) (pad10 []) (pad10 []);
   mkSnapshot 8 (pad10 [1500300]) (pad10 [41]) (pad10 [1500050; 1500000]) (pad10 [20; 130])].

Definition sample_mismatch : Mismatch := mkMismatch 8 ch_S 0 1500300 40 1500300 41.

(** ** Lemmas: one level *)
Lemma depth_out b q sd p :
  core b q → attached b → p ≤ 0 ∨ ¬ (0 ≤ price_idx sd (refp sd b) p < kLevels) →
  depth (abs_orders b) (side_char sd) p = 0.
Proof.
  intros Hc Hatt Hp. rewrite (depth_queue _ q) by done.
  destruct (q sd _) as [|a l] eqn:Hq; [done|].
  assert (Ha : a ∈ q sd (price_idx sd (refp sd b) p)) by (rewrite Hq; by left).
  destruct Hp as [Hp|[]]; [|eapply sk_range, Ha; apply (ss_side _ _ (co_sides _ _ Hc))].
  destruct (proj1 (level_members b q sd _ a Hc Hatt) Ha) as (ref & o & Hm & Ho & _ & Hi).
  destruct (co_live _ _ Hc _ _ Hm) as (o' & _ & Ho' & _ & _ & Hpr & _).
  assert (o' = o) as -> by congruence. destruct sd; simpl in *; lia.
Qed.

Lemma i32_u32 z : i32 (u32 z) = i32 z.
Proof. unfold i32, u32. by rewrite Zplus_mod_idemp_l. Qed.

(** A wrapped distance is either the distance or not an index. *)
Lemma i32_distance z :
  0 ≤ z < 2 ^ 32 → (z < 2 ^ 31 ∧ i32 (u32 z) = z) ∨ (2 ^ 31 ≤ z ∧ i32 (u32 z) < 0).
Proof.
  intros Hz. rewrite i32_u32. destruct (decide (z < 2 ^ 31)); [left|right]; (split; [lia|]).
  - apply i32_small. lia.
  - unfold i32. rewrite <-(Z.mod_add _ (-1)) by lia. rewrite Z.mod_small; lia.
Qed.

Lemma our_qty_depth b q :
  core b q → attached b →
  (∀ p, 0 ≤ p < 2 ^ 32 → our_bid_qty b p = u32 (depth (abs_orders b) ch_B p)) ∧
  (∀ p, 0 ≤ p < 2 ^ 32 → our_ask_qty b p = u32 (depth (abs_orders b) ch_S p)).
Proof.
  intros Hc Hatt. pose proof (co_refs _ _ Hc) as Hr.
  split; intros p Hp; unfold our_bid_qty, our_ask_qty, bid_level, ask_level.
  - specialize (Hr Bid). pose proof (depth_out b q Bid p Hc Hatt) as Ho. simpl in *.
    destruct (Z.ltb_spec 0 p); simpl; [|rewrite Ho; [done|lia]].
    destruct (Z.leb_spec p (bid_ref b)); [|rewrite Ho; [done|lia]].
    rewrite out_of_range_test. destruct (i32_distance (bid_ref b - p)) as [[? ->]|[? ?]]; [lia| |lia].
    destruct (in_range _) eqn:Hi; simpl.
    + apply in_range_true in Hi. destruct (level_depth b q Bid _ Hc Hatt Hi) as [Hd _]. simpl in Hd. rewrite Hd.
      do 2 f_equal. lia.
    + rewrite Ho; [done|]. rewrite <-in_range_true, Hi. by right.
  - specialize (Hr Ask). pose proof (depth_out b q Ask p Hc Hatt) as Ho. simpl in *.
    destruct (Z.ltb_spec 0 p); simpl; [|rewrite Ho; [done|lia]].
    destruct (Z.leb_spec (ask_ref b) p); [|rewrite Ho; [done|lia]].
    rewrite out_of_range_test. destruct (i32_distance (p - ask_ref b)) as [[? ->]|[? Hneg]]; [lia| |].
    + destruct (in_range _) eqn:Hi; simpl.
      * apply in_range_true in Hi. destruct (level_depth b q Ask _ Hc Hatt Hi) as [Hd _]. simpl in Hd. rewrite Hd.
        do 2 f_equal. lia.
      * rewrite Ho; [done|]. rewrite <-in_range_true, Hi. by right.
    + destruct (in_range _) eqn:Hi; [apply in_range_true in Hi; lia|]. simpl.
      rewrite Ho; [done|]. unfold kLevels. lia.
Qed.

(** ** Lemmas: one snapshot *)
Lemma push_all_nil out : push_all out [] = out.
Proof. destruct out; simpl; [by rewrite app_nil_r|done]. Qed.

Lemma push_all_app out l1 l2 : push_all (push_all out l1) l2 = push_all out (l1 ++ l2).
Proof. destruct out; simpl; [by rewrite app_assoc|done]. Qed.

Lemma u64_add a b : u64 (u64 a + b) = u64 (a + b).
Proof. unfold u64. by rewrite Zplus_mod_idemp_l. Qed.

Lemma u64_add_u64 a b : u64 (a + u64 b) = u64 (a + b).
Proof. unfold u64. by rewrite Zplus_mod_idemp_r. Qed.

Lemma array_at_ok l i : length l = kDepth → (i < kDepth)%nat → array_at l i = Ok (l !!! i).
Proof.
  intros Hl Hi. unfold array_at. rewrite (list_lookup_lookup_total_lt l i) by lia. done.
Qed.

Lemma price_at_bound l i :
  length l = kDepth → (i < kDepth)%nat → Forall (λ p, 0 ≤ p < 2 ^ 32) l → 0 ≤ l !!! i < 2 ^ 32.
Proof.
  intros Hl Hi Hall. rewrite Forall_lookup in Hall. apply (Hall i), list_lookup_lookup_total_lt. lia.
Qed.

Lemma compare_level_ok b q s n out i :
  core b q → attached b → snapshot_ok s → (i < kDepth)%nat →
  let l := spec_level (abs_orders b) s i in
  compare_level b s (u64 n, out) i = Ok (u64 (n + Z.of_nat (length l)), push_all out l).
Proof.
  intros Hc Hatt ((Hbp & Hbq & Hap & Haq) & Hb & Ha) Hi. destruct (our_qty_depth b q Hc Hatt) as [Hbid Hask].
  unfold compare_level, spec_level, level_mismatch. cbv zeta.
  rewrite !array_at_ok, !bind_ok, Hbid by (done || by apply price_at_bound).
  destruct (u32 (depth _ ch_B _) =? _); cbn [negb]; cbv iota beta;
    rewrite ?bind_ok, !Hask by (by apply price_at_bound);
    (destruct (u32 (depth _ ch_S _) =? _); cbn [negb app length]; f_equal; f_equal);
    rewrite ?u64_add, <-?Z.add_assoc, ?u64_add, ?Z.add_0_r, ?push_all_nil; try done;
    destruct out; simpl; by rewrite <-?app_assoc.
Qed.

Lemma compare_levels_ok b q s l n out :
  core b q → attached b → snapshot_ok s → Forall (λ i, (i < kDepth)%nat) l →
  let r := concat (spec_level (abs_orders b) s <$> l) in
  foldM (compare_level b s) l (u64 n, out) = Ok (u64 (n + Z.of_nat (length r)), push_all out r).
Proof.
  intros Hc Hatt Hs Hl. revert n out. induction Hl as [|i l Hi _ IH]; intros n out.
  - simpl. by rewrite Z.add_0_r, push_all_nil.
  - cbn [foldM fmap list_fmap concat]. rewrite (compare_level_ok b q), bind_ok by done. rewrite IH.
    rewrite push_all_app, length_app, Nat2Z.inj_add, Z.add_assoc. done.
Qed.

Lemma spec_snapshot_levels : Forall (λ i, (i < kDepth)%nat) (seq 0 kDepth).
Proof. apply Forall_forall. intros i Hi%elem_of_seq. lia. Qed.

Lemma compare_ok b q s out :
  core b q → attached b → snapshot_ok s →
  let l := spec_compare (abs_orders b) s in
  compare_snapshot b s out = Ok (u64 (Z.of_nat (length l)), push_all out l).
Proof.
  intros Hc Hatt Hs. apply (compare_levels_ok b q s (seq 0 kDepth) 0 out); [done..|].
  apply spec_snapshot_levels.
Qed.

(** ** Lemmas: the replay *)
Lemma compare_while_ok due b q snaps n out :
  core b q → attached b → Forall snapshot_ok snaps →
  let '(d, r) := split_due due snaps in
  let l := spec_compare_all (abs_orders b) d in
  compare_while due b snaps (u64 n) out = Ok (r, u64 (n + Z.of_nat (length l)), push_all out l).
Proof.
  intros Hc Hatt Hs. revert n out. induction Hs as [|s snaps Hs _ IH]; intros n out.
  - simpl. by rewrite Z.add_0_r, push_all_nil.
  - simpl. destruct (due s); [|by rewrite Z.add_0_r, push_all_nil].
    rewrite (compare_ok b q), bind_ok by done. cbv iota beta zeta.
    rewrite u64_add_u64, u64_add. specialize (IH (n + Z.of_nat (length (spec_compare (abs_orders b) s)))
      (push_all out (spec_compare (abs_orders b) s))).
    destruct (split_due due snaps) as [d r]. rewrite IH. unfold spec_compare_all. cbn [fmap list_fmap concat].
    by rewrite push_all_app, length_app, Nat2Z.inj_add, Z.add_assoc.
Qed.

Lemma split_due_all snaps : split_due (λ _, true) snaps = (snaps, []).
Proof. induction snaps as [|s snaps IH]; simpl; [done|]. by rewrite IH. Qed.

Lemma split_due_rest due snaps d r :
  split_due due snaps = (d, r) → Forall snapshot_ok snaps → Forall snapshot_ok r.
Proof.
  revert d. induction snaps as [|s snaps IH]; intros d E Hs; simpl in E; [by injection E as <- <-|].
  destruct (due s); [|by injection E as <- <-]. apply Forall_cons in Hs as [_ Hs].
  destruct (split_due due snaps) as [d' r']. injection E as <- <-. by eapply IH.
Qed.

Section Replay.
Context `{BuildMode}.

Lemma file_messages_short bytes : (length (file_messages bytes) ≤ length bytes)%nat.
Proof.
  unfold file_messages, unread. rewrite length_fmap. cbn [pos buf open_reader]. apply split_frames_short.
Qed.

Lemma spec_compare_length m s : Z.of_nat (length (spec_compare m s)) ≤ 2 * Z.of_nat kDepth.
Proof.
  unfold spec_compare. assert (Hl : ∀ i, (length (spec_level m s i) ≤ 2)%nat).
  { intros i. unfold spec_level, level_mismatch. rewrite length_app. repeat case_match; simpl; lia. }
  cut (∀ l, (length (concat (spec_level m s <$> l)) ≤ 2 * length l)%nat).
  { intros Hc. specialize (Hc (seq 0 kDepth)). rewrite length_seq in Hc. lia. }
  induction l as [|i l IH]; [done|].
  change (length (spec_level m s i ++ concat (spec_level m s <$> l)) ≤ 2 * S (length l))%nat.
  rewrite length_app. specialize (Hl i). lia.
Qed.

(** The loop and the comparison of the remaining snapshots, from any point of the file. *)
Lemma validate_loop_ok cap lo_bid lo_ask it bytes fuel p b s snaps n out :
  size_ok bytes → Forall is_byte bytes → (p ≤ length bytes)%nat →
  let ms := unread (mkReader bytes (Z.of_nat p)) in
  (length ms < fuel)%nat →
  simulates cap b s → in_bands lo_bid lo_ask b s → good_feed cap lo_bid lo_ask s ms = true →
  Forall snapshot_ok snaps →
  let '(s', l) := spec_validate s ms snaps in
  ∃ b' rest n' out',
    validate_loop fuel it (mkReader bytes (Z.of_nat p)) b snaps (u64 n) out = Ok (b', rest, n', out') ∧
    simulates cap b' s' ∧
    compare_while (λ _, true) b' rest n' out' = Ok ([], u64 (n + Z.of_nat (length l)), push_all out l).
Proof.
  intros Hsz Hby. revert p b s snaps n out.
  induction fuel as [|fuel IH]; intros p b s snaps n out Hp ms Hf Hsim Hband Hg Hsn; [lia|].
  assert (Hstop : ∃ b' rest n' out', Ok (b, snaps, u64 n, out) = Ok (b', rest, n', out') ∧
    simulates cap b' s ∧ compare_while (λ _, true) b' rest n' out' =
      Ok ([], u64 (n + Z.of_nat (length (spec_compare_all (s_orders s) snaps))),
          push_all out (spec_compare_all (s_orders s) snaps))).
  { exists b, snaps, (u64 n), out. split_and!; [done|done|].
    destruct (si_wf _ _ _ Hsim) as (q & fs & Hw).
    pose proof (compare_while_ok (λ _, true) b q snaps n out (wf_core _ _ _ Hw) (si_attached _ _ _ Hsim) Hsn) as E.
    by rewrite split_due_all, (si_orders _ _ _ Hsim) in E. }
  destruct (unread_step bytes p Hsz Hby Hp)
    as [(r' & E & Hun & _)|(data & len & m & p' & E & Em & Hp' & Hun)];
    fold ms in Hun; cbn [validate_loop]; rewrite E, bind_ok; cbv iota beta.
  - rewrite Hun. destruct snaps; exact Hstop.
  - rewrite Hun in Hf, Hg |- *. destruct snaps as [|sn snaps]; [exact Hstop|].
    rewrite Em, bind_ok. cbn [good_feed] in Hg.
    apply andb_true_iff in Hg as [[Hadm Hban]%andb_true_iff Hg].
    destruct (refines_dispatch cap b s (it fuel) m Hsim Hadm) as (b1 & Ed & Hs1 & Hr1);
      [by eapply banded_lossless|].
    rewrite Ed, bind_ok. cbn [spec_validate]. destruct (si_wf _ _ _ Hs1) as (q & fs & Hw).
    pose proof (compare_while_ok (λ x, timestamp_ns x <=? msg_ts m) b1 q (sn :: snaps) n out
      (wf_core _ _ _ Hw) (si_attached _ _ _ Hs1) Hsn) as Ec.
    destruct (split_due _ (sn :: snaps)) as [d r] eqn:Esp. rewrite Ec, bind_ok. cbv iota beta zeta.
    rewrite (si_orders _ _ _ Hs1). change (spec_command s (command_of m)) with (spec_step s m).
    set (l1 := spec_compare_all _ d).
    specialize (IH p' b1 (spec_step s m) r (n + Z.of_nat (length l1)) (push_all out l1)). cbv zeta in IH.
    destruct (spec_validate (spec_step s m) _ r) as [s' l].
    destruct IH as (b' & rest & n' & out' & El & Hs' & Ew); [done|simpl in Hf; lia|done
      |by eapply in_bands_step|done|by eapply split_due_rest|].
    exists b', rest, n', out'. split_and!; [done|done|].
    by rewrite Ew, push_all_app, length_app, Nat2Z.inj_add, Z.add_assoc.
Qed.

(** ** Theorems *)

(** One snapshot.  On a well-formed book whose live orders are all in levels,
    [compare_snapshot] reports, level by level and the bid side first, exactly the
    levels whose quantity is not the total of the live orders at the snapshot's price
    (as a 32-bit value), and returns their number; no access leaves an array. *)
Theorem compare_snapshot_correct b s out :
  wf b → attached b → snapshot_ok s →
  let l := spec_compare (abs_orders b) s in
  compare_snapshot b s out = Ok (Z.of_nat (length l), push_all out l).
Proof.
  intros (q & fs & Hw) Hatt Hs l. rewrite (compare_ok b q) by (done || apply Hw). fold l.
  rewrite u64_small; [done|]. unfold l. pose proof (spec_compare_length (abs_orders b) s). unfold kDepth in *. lia.
Qed.

(** The replay, from a fresh book. *)
Lemma replay_ok cap lo_bid lo_ask it bytes snaps b0 out :
  size_ok bytes → Forall is_byte bytes → OrderBook_new cap = Ok b0 → Z.of_nat cap < 2 ^ 32 →
  good_feed cap lo_bid lo_ask empty_sbook (file_messages bytes) = true →
  Forall snapshot_ok snaps →
  let '(s, l) := spec_validate empty_sbook (file_messages bytes) snaps in
  ∃ b, replay (S (length bytes)) it (open_reader bytes) b0 snaps out =
      Ok (b, u64 (Z.of_nat (length l)), push_all out l) ∧
    simulates cap b s.
Proof.
  intros Hsz Hby E0 Hcap Hg Hsn. destruct (new_book_simulates cap b0 E0 Hcap) as [Hs0 Hr0].
  pose proof (validate_loop_ok cap lo_bid lo_ask it bytes (S (length bytes)) 0 b0 empty_sbook snaps 0 out
    Hsz Hby ltac:(lia)) as Hl. cbv zeta in Hl.
  change (mkReader bytes (Z.of_nat 0)) with (open_reader bytes) in Hl. fold (file_messages bytes) in Hl.
  destruct (spec_validate empty_sbook (file_messages bytes) snaps) as [s l] eqn:Es.
  destruct Hl as (b & rest & n' & out' & El & Hs & Ew); [|done| |done|done|].
  { pose proof (file_messages_short bytes). lia. }
  { intros sd. split; [by left|]. intros ref o Hlk. simpl in Hlk. by rewrite lookup_empty in Hlk. }
  unfold replay. exists b. rewrite (u64_small 0) in El by lia. rewrite El, bind_ok. cbv iota beta.
  rewrite Ew, bind_ok. done.
Qed.

End Replay.

(** ** Instances on the sample session *)
Lemma sample_snapshots_ok : Forall snapshot_ok sample_snapshots.
Proof.
  repeat constructor; vm_compute; try lia; try discriminate.
Qed.

Lemma compare_snapshot_correct_witness :
  ∃ s, compare_snapshot sample_book s (Some []) = Ok (1, Some [sample_mismatch]).
Proof.
  pose proof (proj1 (Forall_lookup _ _) sample_snapshots_ok 1%nat _ eq_refl) as Hok.
  eexists.
  rewrite (compare_snapshot_correct sample_book _ (Some []) (si_wf _ _ _ sample_simulates)
             (si_attached _ _ _ sample_simulates) Hok).
  vm_compute. reflexivity.
Defined.
