(* ===== verification/LobsterCsv.v ===== *)
(** * Loading the LOBSTER files (src/book/lobster_validator.cpp, [load_messages],
      [load_orderbook], [load])

    A file is its bytes, or [None] when it cannot be opened.  [fgets] and the conversions
    of [sscanf] are modelled as the C library defines them on decimal text: optional
    blanks, sign, digits with an optional point, optional exponent, the value correctly
    rounded.  Hexadecimal, infinite and NaN spellings are outside the model.

    Proved: loading the two files written from a list of snapshots, prices in dollars with
    four decimals and times in seconds with nine, gives back exactly these snapshots:
    the conversions to and from [double] lose nothing. *)

From S2P Require Import Prelude Bytes Messages Parser Reader Order PriceLevel OrderBook BookInv BookWf.
From S2P Require Import BookHandlers Dispatch Samples BookSpec Depth BookTheorems Spsc SpscConc.
From S2P Require Import Pipeline PipelineTheorems Lobster Double Rounding.
From Stdlib Require Import SpecFloat.

(** ** The C library *)

(** At most [n] bytes, up to and including the first newline. *)
Fixpoint take_line (n : nat) (f : list Z) : list Z * list Z :=
  match n, f with
  | O, _ => ([], f)
  | _, [] => ([], [])
  | S n, c :: f => if c =? 10 then ([c], f) else let '(l, r) := take_line n f in (c :: l, r)
  end.

Definition fgets (size : nat) (f : list Z) : option (list Z * list Z) :=
  match f with [] => None | _ => Some (take_line (size - 1) f) end.

Definition is_space (c : Z) : bool := (c =? 32) || ((9 <=? c) && (c <=? 13)).
Definition is_digit (c : Z) : bool := (48 <=? c) && (c <=? 57).

Fixpoint skip_spaces (bs : list Z) : list Z :=
  match bs with c :: r => if is_space c then skip_spaces r else bs | [] => [] end.

Definition scan_sign (bs : list Z) : bool * list Z :=
  match bs with
  | c :: r => if c =? 45 then (true, r) else if c =? 43 then (false, r) else (false, bs)
  | [] => (false, bs)
  end.

(** The value of a run of digits after [acc], the number of digits after [cnt]. *)
Fixpoint scan_digits (acc cnt : Z) (bs : list Z) : Z * Z * list Z :=
  match bs with
  | c :: r => if is_digit c then scan_digits (10 * acc + (c - 48)) (cnt + 1) r else (acc, cnt, bs)
  | [] => (acc, cnt, bs)
  end.

Definition signed (neg : bool) (d : double) : double := if neg then SFopp d else d.

(** [%lf] *)
Definition scan_double (bs : list Z) : option (double * list Z) :=
  let '(neg, bs) := scan_sign (skip_spaces bs) in
  let '(m, n1, bs) := scan_digits 0 0 bs in
  let '(m, n2, bs) := match bs with
                      | c :: r => if c =? 46 then scan_digits m 0 r else (m, 0, bs)
                      | [] => (m, 0, bs)
                      end in
  if n1 + n2 =? 0 then None else
  match bs with
  | c :: r =>
      if (c =? 101) || (c =? 69) then
        let '(eneg, r) := scan_sign r in
        let '(x, n3, r) := scan_digits 0 0 r in
        if n3 =? 0 then None else Some (signed neg (decimal m ((if eneg then - x else x) - n2)), r)
      else Some (signed neg (decimal m (- n2)), bs)
  | [] => Some (signed neg (decimal m (- n2)), bs)
  end.

Definition scan_comma (bs : list Z) : option (list Z) :=
  match bs with c :: r => if c =? 44 then Some r else None | [] => None end.

(** [sscanf(p, "%lf,%lf,%lf,%lf%n", ...) == 4], with the rest of the text. *)
Definition scan_four (p : list Z) : option (double * double * double * double * list Z) :=
  '(a, p) ← scan_double p; p ← scan_comma p;
  '(b, p) ← scan_double p; p ← scan_comma p;
  '(c, p) ← scan_double p; p ← scan_comma p;
  '(d, p) ← scan_double p;
  Some (a, b, c, d, p).

(** ** The validator *)
Record LobsterValidator := mkValidator {
  snapshots_ : list LobsterSnapshot;
  snap_ts_ : list Z;
}.

Definition validator_new : LobsterValidator := mkValidator [] [].

Definition u32_of_double (d : double) : outcome Z :=
  x ← u64_of_double d;
  if x <? 2 ^ 32 then Ok x else Fault BadConversion.

(** [static_cast<uint64_t>(time_s * 1e9 + 0.5)] *)
Definition to_ns (time_s : double) : outcome Z :=
  u64_of_double (dadd (dmul time_s (double_of (10 ^ 9))) d_half).

(** [static_cast<uint32_t>(px * 10000.0 + 0.5)], [static_cast<uint32_t>(sz + 0.5)] *)
Definition to_price (px : double) : outcome Z :=
  u32_of_double (dadd (dmul px (double_of (10 ^ 4))) d_half).
Definition to_qty (sz : double) : outcome Z := u32_of_double (dadd sz d_half).

(** The loop of [load_messages]. *)
Fixpoint read_times (fuel : nat) (f : list Z) (snap_ts : list Z) : outcome (list Z) :=
  match fuel with
  | O => Ok snap_ts
  | S fuel =>
      match fgets 512 f with
      | None => Ok snap_ts
      | Some (line, f) =>
          match scan_double line with
          | Some (time_s, _) => t ← to_ns time_s; read_times fuel f (snap_ts ++ [t])
          | None => read_times fuel f snap_ts
          end
      end
  end.

Definition load_messages (v : LobsterValidator) (file : option (list Z)) : outcome (bool * LobsterValidator) :=
  match file with
  | None => Ok (false, v)
  | Some f =>
      ts ← read_times (S (length f)) f (snap_ts_ v);
      Ok (negb (bool_decide (ts = [])), mkValidator (snapshots_ v) ts)
  end.

Definition empty_snapshot (ts : Z) : LobsterSnapshot :=
  mkSnapshot ts (replicate kDepth 0) (replicate kDepth 0) (replicate kDepth 0) (replicate kDepth 0).

Definition set_level (lvl : nat) (ask_px ask_sz bid_px bid_sz : Z) (s : LobsterSnapshot) : LobsterSnapshot :=
  mkSnapshot (timestamp_ns s) (<[lvl := ask_px]> (snap_ask_price s)) (<[lvl := ask_sz]> (snap_ask_qty s))
    (<[lvl := bid_px]> (snap_bid_price s)) (<[lvl := bid_sz]> (snap_bid_qty s)).

Definition skip_comma (p : list Z) : list Z :=
  match p with c :: r => if c =? 44 then r else p | [] => p end.

(** The inner loop of [load_orderbook]: the [n] levels from [lvl] on; [None]: not ok. *)
Fixpoint read_levels (n lvl : nat) (p : list Z) (s : LobsterSnapshot) : outcome (option LobsterSnapshot) :=
  match n with
  | O => Ok (Some s)
  | S n =>
      match scan_four p with
      | None => Ok None
      | Some (ask_px, ask_sz, bid_px, bid_sz, p) =>
          ap ← to_price ask_px;
          aq ← to_qty ask_sz;
          bp ← to_price bid_px;
          bq ← to_qty bid_sz;
          read_levels n (S lvl) (skip_comma p) (set_level lvl ap aq bp bq s)
      end
  end.

(** The loop of [load_orderbook]. *)
Fixpoint read_rows (fuel : nat) (f : list Z) (row : nat) (snap_ts : list Z) (snapshots : list LobsterSnapshot)
  : outcome (list LobsterSnapshot) :=
  match fuel with
  | O => Ok snapshots
  | S fuel =>
      match fgets 4096 f with
      | None => Ok snapshots
      | Some (line, f) =>
          match snap_ts !! row with
          | None => Ok snapshots
          | Some ts =>
              r ← read_levels kDepth 0 line (empty_snapshot ts);
              read_rows fuel f (S row) snap_ts
                (match r with Some s => snapshots ++ [s] | None => snapshots end)
          end
      end
  end.

Definition load_orderbook (v : LobsterValidator) (file : option (list Z)) : outcome (bool * LobsterValidator) :=
  match file with
  | None => Ok (false, v)
  | Some f =>
      ss ← read_rows (S (length f)) f 0 (snap_ts_ v) (snapshots_ v);
      Ok (negb (match ss with [] => true | _ => false end), mkValidator ss (snap_ts_ v))
  end.

Definition load (v : LobsterValidator) (orderbook_csv message_csv : option (list Z))
  : outcome (bool * LobsterValidator) :=
  '(ok, v) ← load_messages v message_csv;
  if (ok : bool) then load_orderbook v orderbook_csv else Ok (false, v).

(** ** The files of a list of snapshots *)

(** The last [w] decimal digits of [n]. *)
Fixpoint fixed_digits (w : nat) (n : Z) : list Z :=
  match w with O => [] | S w => fixed_digits w (n / 10) ++ [48 + n mod 10] end.

Fixpoint num_width (fuel : nat) (n : Z) : nat :=
  match fuel with O => 1 | S fuel => if n <? 10 then 1 else S (num_width fuel (n / 10)) end.

(** ["%.0f"] of [n], and ["%.<d>f"] of [n / 10^d]. *)
Definition int_text (n : Z) : list Z := fixed_digits (num_width 20 n) n.
Definition fixed_text (d : nat) (n : Z) : list Z :=
  int_text (n / 10 ^ Z.of_nat d) ++ 46 :: fixed_digits d (n mod 10 ^ Z.of_nat d).

Definition level_text (s : LobsterSnapshot) (i : nat) : list Z :=
  fixed_text 4 (snap_ask_price s !!! i) ++ 44 :: int_text (snap_ask_qty s !!! i) ++ 44 ::
  fixed_text 4 (snap_bid_price s !!! i) ++ 44 :: int_text (snap_bid_qty s !!! i).

Fixpoint levels_text (s : LobsterSnapshot) (n lvl : nat) : list Z :=
  match n with
  | O => []
  | S O => level_text s lvl
  | S n => level_text s lvl ++ 44 :: levels_text s n (S lvl)
  end.

Definition book_csv (ss : list LobsterSnapshot) : list Z :=
  concat ((λ s, levels_text s kDepth 0 ++ [10]) <$> ss).

(** [tail]: the columns after the time. *)
Definition messages_csv (tail : list Z) (ss : list LobsterSnapshot) : list Z :=
  concat ((λ s, fixed_text 9 (timestamp_ns s) ++ 44 :: tail ++ [10]) <$> ss).

Definition csv_ok (s : LobsterSnapshot) : Prop :=
  snapshot_ok s ∧ 0 ≤ timestamp_ns s < 2 ^ 49 ∧
  Forall (λ q, 0 ≤ q < 2 ^ 32) (snap_bid_qty s) ∧ Forall (λ q, 0 ≤ q < 2 ^ 32) (snap_ask_qty s).

Definition sample_tail : list Z := [49; 44; 49; 44; 49; 48; 48].

(** What may follow a number in the files: a comma, a newline or nothing. *)
Definition ends_number (rest : list Z) : Prop :=
  match rest with c :: _ => c = 44 ∨ c = 10 | [] => True end.

(** The values of level [i] fit 32 bits. *)
Definition in_arrays (s : LobsterSnapshot) (i : nat) : Prop :=
  0 ≤ snap_ask_price s !!! i < 2 ^ 32 ∧ 0 ≤ snap_ask_qty s !!! i < 2 ^ 32 ∧
  0 ≤ snap_bid_price s !!! i < 2 ^ 32 ∧ 0 ≤ snap_bid_qty s !!! i < 2 ^ 32.

(** The values of level [i] have at most twenty digits, so they are read as numbers. *)
Definition in_text (s : LobsterSnapshot) (i : nat) : Prop :=
  0 ≤ snap_ask_price s !!! i < 10 ^ 20 ∧ 0 ≤ snap_ask_qty s !!! i < 10 ^ 20 ∧
  0 ≤ snap_bid_price s !!! i < 10 ^ 20 ∧ 0 ≤ snap_bid_qty s !!! i < 10 ^ 20.

(** The arrays have the length of the type. *)
Definition row_shape (s : LobsterSnapshot) : Prop :=
  length (snap_bid_price s) = kDepth ∧ length (snap_bid_qty s) = kDepth ∧
  length (snap_ask_price s) = kDepth ∧ length (snap_ask_qty s) = kDepth.

(** The arrays after the first [i] levels. *)
Definition filled (i : nat) (l : list Z) : list Z := take i l ++ replicate (kDepth - i) 0.

Definition partial (s : LobsterSnapshot) (i : nat) : LobsterSnapshot :=
  mkSnapshot (timestamp_ns s) (filled i (snap_ask_price s)) (filled i (snap_ask_qty s))
    (filled i (snap_bid_price s)) (filled i (snap_bid_qty s)).

(** Run the scan past a conversion and its comma. *)
Ltac run_scan := cbn [mbind option_bind scan_comma]; change (44 =? 44) with true; cbv iota; cbn [mbind option_bind].

(** ** Lemmas: digits *)
Lemma fixed_digits_scan w n acc cnt rest :
  0 ≤ n < 10 ^ Z.of_nat w →
  scan_digits acc cnt (fixed_digits w n ++ rest) =
    scan_digits (acc * 10 ^ Z.of_nat w + n) (cnt + Z.of_nat w) rest.
Proof.
  revert n rest. induction w as [|w IH]; intros n rest Hn.
  - change (10 ^ Z.of_nat 0) with 1 in *. simpl. f_equal; lia.
  - rewrite Nat2Z.inj_succ, Z.pow_succ_r in Hn |- * by lia. cbn [fixed_digits].
    rewrite <-app_assoc, IH by (split; [apply Z.div_pos; lia|apply Z.div_lt_upper_bound; lia]).
    cbn [app scan_digits]. unfold is_digit.
    pose proof (Z.mod_pos_bound n 10 ltac:(lia)) as Hm.
    rewrite (proj2 (Z.leb_le _ _)), (proj2 (Z.leb_le _ _)) by lia. cbn [andb].
    pose proof (Z_div_mod_eq_full n 10). f_equal; lia.
Qed.

Lemma num_width_bound fuel n :
  0 ≤ n < 10 ^ Z.of_nat fuel → n < 10 ^ Z.of_nat (num_width fuel n) ∧ (1 ≤ num_width fuel n ≤ S fuel)%nat.
Proof.
  revert n. induction fuel as [|fuel IH]; intros n Hn.
  - simpl in *. lia.
  - rewrite Nat2Z.inj_succ, Z.pow_succ_r in Hn by lia. cbn [num_width]. destruct (Z.ltb_spec n 10); [change (10 ^ Z.of_nat 1) with 10; lia|].
    destruct (IH (n / 10)) as [H1 H2]; [split; [apply Z.div_pos; lia|apply Z.div_lt_upper_bound; lia]|].
    rewrite Nat2Z.inj_succ, Z.pow_succ_r by lia. pose proof (Z_div_mod_eq_full n 10).
    pose proof (Z.mod_pos_bound n 10 ltac:(lia)). lia.
Qed.

Lemma fixed_digits_length w n : length (fixed_digits w n) = w.
Proof. revert n. induction w as [|w IH]; intros n; [done|]. simpl. rewrite length_app, IH. simpl. lia. Qed.

Lemma fixed_digits_chars w n : Forall (λ c, is_digit c = true) (fixed_digits w n).
Proof.
  revert n. induction w as [|w IH]; intros n; [done|]. simpl. apply Forall_app. split; [done|].
  repeat constructor. unfold is_digit. pose proof (Z.mod_pos_bound n 10 ltac:(lia)).
  apply andb_true_iff. rewrite !Z.leb_le. lia.
Qed.

(** ** Lemmas: numbers *)

Lemma scan_digits_stop acc cnt rest : ends_number rest → scan_digits acc cnt rest = (acc, cnt, rest).
Proof. destruct rest as [|c r]; [done|]. by intros [-> | ->]. Qed.

Lemma scan_digits_point acc cnt rest : scan_digits acc cnt (46 :: rest) = (acc, cnt, 46 :: rest).
Proof. done. Qed.

Lemma int_text_head n rest :
  0 ≤ n < 10 ^ 20 → ∃ c r, int_text n ++ rest = c :: r ∧ is_digit c = true.
Proof.
  intros Hn. destruct (num_width_bound 20 n Hn) as [_ Hw]. unfold int_text.
  pose proof (fixed_digits_length (num_width 20 n) n) as Hl.
  pose proof (fixed_digits_chars (num_width 20 n) n) as Hc.
  destruct (fixed_digits _ _) as [|c r]; [cbn [length] in Hl; lia|]. apply Forall_cons in Hc as [Hc _].
  by exists c, (r ++ rest).
Qed.

Lemma no_sign bs c r : bs = c :: r → is_digit c = true → scan_sign (skip_spaces bs) = (false, bs).
Proof.
  intros -> [H1 H2]%andb_true_iff. apply Z.leb_le in H1, H2. simpl. unfold is_space.
  rewrite (proj2 (Z.eqb_neq c 32)), (proj2 (Z.leb_gt c 13)), andb_false_r by lia. simpl.
  by rewrite (proj2 (Z.eqb_neq c 45)), (proj2 (Z.eqb_neq c 43)) by lia.
Qed.

Lemma int_text_scan n acc cnt rest :
  0 ≤ n < 10 ^ 20 →
  scan_digits acc cnt (int_text n ++ rest) =
    scan_digits (acc * 10 ^ Z.of_nat (num_width 20 n) + n) (cnt + Z.of_nat (num_width 20 n)) rest ∧
  0 < Z.of_nat (num_width 20 n).
Proof.
  intros Hn. destruct (num_width_bound 20 n Hn) as [H1 H2]. split; [|lia].
  apply fixed_digits_scan. lia.
Qed.

(** No exponent and no point at the end of a number. *)
Lemma scan_end (m : double) rest :
  ends_number rest →
  (match rest with
   | c :: r => if (c =? 101) || (c =? 69) then
                 let '(eneg, r) := scan_sign r in
                 let '(x, n3, r) := scan_digits 0 0 r in
                 if n3 =? 0 then None else Some (m, r)
               else Some (m, rest)
   | [] => Some (m, rest) end) = Some (m, rest).
Proof. destruct rest as [|c r]; [done|]. by intros [-> | ->]. Qed.

Lemma scan_int n rest :
  0 ≤ n < 10 ^ 20 → ends_number rest → scan_double (int_text n ++ rest) = Some (decimal n 0, rest).
Proof.
  intros Hn Hr. destruct (int_text_head n rest Hn) as (c & r & E & Hc). unfold scan_double.
  rewrite (no_sign _ c r) by done. destruct (int_text_scan n 0 0 rest Hn) as [-> Hw].
  rewrite scan_digits_stop by done.
  assert (E2 : match rest with
    | c :: r => if c =? 46 then scan_digits (0 * 10 ^ Z.of_nat (num_width 20 n) + n) 0 r
                else (0 * 10 ^ Z.of_nat (num_width 20 n) + n, 0, rest)
    | [] => (0 * 10 ^ Z.of_nat (num_width 20 n) + n, 0, rest) end = (n, 0, rest))
    by (destruct rest as [|c' r']; [done|]; by destruct Hr as [-> | ->]).
  rewrite E2. rewrite (proj2 (Z.eqb_neq _ _)) by lia.
  destruct rest as [|c' r']; [done|]. by destruct Hr as [-> | ->].
Qed.

Lemma scan_fixed d n rest :
  (0 < d)%nat → 0 ≤ n < 10 ^ 20 → ends_number rest →
  scan_double (fixed_text d n ++ rest) = Some (decimal n (- Z.of_nat d), rest).
Proof.
  intros Hd Hn Hr. unfold fixed_text. rewrite <-app_assoc. cbn [app].
  set (p := 10 ^ Z.of_nat d). assert (Hp : 1 < p) by (apply Z.pow_gt_1; lia).
  pose proof (Z_div_mod_eq_full n p) as Hdm. pose proof (Z.mod_pos_bound n p ltac:(lia)) as Hmod.
  assert (Hi : 0 ≤ n / p < 10 ^ 20).
  { split; [apply Z.div_pos; lia|]. apply Z.le_lt_trans with n; [|lia]. apply Z.div_le_upper_bound; nia. }
  destruct (int_text_head (n / p) (46 :: fixed_digits d (n mod p) ++ rest) Hi) as (c & r & E & Hc).
  unfold scan_double. rewrite (no_sign _ c r) by done.
  destruct (int_text_scan (n / p) 0 0 (46 :: fixed_digits d (n mod p) ++ rest) Hi) as [-> Hw].
  rewrite scan_digits_point. change (46 =? 46) with true. cbv iota.
  rewrite fixed_digits_scan, scan_digits_stop by done. fold p.
  rewrite (proj2 (Z.eqb_neq _ _)) by lia.
  replace ((0 * 10 ^ Z.of_nat (num_width 20 (n / p)) + n / p) * p + n mod p) with n by lia.
  rewrite Z.add_0_l. destruct rest as [|c' r']; [done|]. by destruct Hr as [-> | ->].
Qed.

(** ** Lemmas: conversions *)
Lemma to_ns_ok t : 0 ≤ t < 2 ^ 49 → to_ns (decimal t (- Z.of_nat 9)) = Ok t.
Proof. intros Ht. by apply (recover_decimal t 9). Qed.

Lemma to_price_ok p : 0 ≤ p < 2 ^ 32 → to_price (decimal p (- Z.of_nat 4)) = Ok p.
Proof.
  intros Hp. unfold to_price, u32_of_double.
  change (- Z.of_nat 4) with (- (4)). rewrite recover_decimal, bind_ok by lia. by rewrite (proj2 (Z.ltb_lt _ _)) by lia.
Qed.

Lemma to_qty_ok q : 0 ≤ q < 2 ^ 32 → to_qty (decimal q 0) = Ok q.
Proof.
  intros Hq. unfold to_qty, u32_of_double. rewrite recover_integer, bind_ok by lia.
  by rewrite (proj2 (Z.ltb_lt _ _)) by lia.
Qed.

(** ** Lemmas: one row *)
Lemma csv_ok_arrays s i : csv_ok s → (i < kDepth)%nat → in_arrays s i.
Proof.
  intros (((Hbp & Hbq & Hap & Haq) & Fbp & Fap) & _ & Fbq & Faq) Hi.
  split; [|split; [|split]]; by apply price_at_bound.
Qed.

Lemma in_arrays_text s i : in_arrays s i → in_text s i.
Proof. unfold in_arrays, in_text. lia. Qed.

Lemma level_scan s i rest :
  in_text s i → ends_number rest →
  scan_four (level_text s i ++ rest) =
    Some (decimal (snap_ask_price s !!! i) (- Z.of_nat 4), decimal (snap_ask_qty s !!! i) 0,
          decimal (snap_bid_price s !!! i) (- Z.of_nat 4), decimal (snap_bid_qty s !!! i) 0, rest).
Proof.
  intros (Hap & Haq & Hbp & Hbq) Hr. unfold level_text, scan_four.
  repeat (rewrite <-app_assoc; cbn [app]).
  rewrite scan_fixed by (lia || by left). run_scan. rewrite scan_int by (lia || by left). run_scan.
  rewrite scan_fixed by (lia || by left). run_scan. by rewrite scan_int by (lia || done).
Qed.

Lemma filled_step l i :
  length l = kDepth → (i < kDepth)%nat → <[i := l !!! i]> (filled i l) = filled (S i) l.
Proof.
  intros Hl Hi. unfold filled. replace (kDepth - i)%nat with (S (kDepth - S i)) by lia.
  rewrite (take_S_r l i (l !!! i)) by (apply list_lookup_lookup_total_lt; lia).
  rewrite <-app_assoc. rewrite insert_app_r_alt by (rewrite length_take; lia).
  rewrite length_take. by replace (i - i `min` length l)%nat with 0%nat by lia.
Qed.

Lemma filled_all l : length l = kDepth → filled kDepth l = l.
Proof. intros Hl. unfold filled. by rewrite take_ge, Nat.sub_diag, app_nil_r by lia. Qed.

Lemma set_level_partial s i :
  row_shape s → (i < kDepth)%nat →
  set_level i (snap_ask_price s !!! i) (snap_ask_qty s !!! i) (snap_bid_price s !!! i)
    (snap_bid_qty s !!! i) (partial s i) = partial s (S i).
Proof.
  intros (Hbp & Hbq & Hap & Haq) Hi. unfold set_level, partial. simpl. by rewrite !filled_step.
Qed.

(** After a level comes another, or the end of the line. *)
Lemma levels_text_step s n lvl :
  ∃ rest, levels_text s (S n) lvl ++ [10] = level_text s lvl ++ rest ∧ ends_number rest ∧
    skip_comma rest = levels_text s n (S lvl) ++ [10].
Proof.
  destruct n as [|n].
  - exists [10]. split; [done|]. split; [by right|done].
  - exists (44 :: levels_text s (S n) (S lvl) ++ [10]). split; [|split; [by left|done]].
    change (levels_text s (S (S n)) lvl) with (level_text s lvl ++ 44 :: levels_text s (S n) (S lvl)).
    by rewrite <-app_assoc.
Qed.

(** One level of a line of [S n] levels, when [S m] are wanted. *)
Lemma read_level_step s m n lvl :
  row_shape s → in_arrays s lvl → (lvl < kDepth)%nat →
  read_levels (S m) lvl (levels_text s (S n) lvl ++ [10]) (partial s lvl) =
    read_levels m (S lvl) (levels_text s n (S lvl) ++ [10]) (partial s (S lvl)).
Proof.
  intros Hs Hin Hl. pose proof Hin as (Hap & Haq & Hbp & Hbq).
  destruct (levels_text_step s n lvl) as (rest & -> & Hends & Hskip). cbn [read_levels].
  rewrite level_scan by (by apply in_arrays_text || done). cbv iota beta.
  rewrite !to_price_ok, !to_qty_ok by done. cbn [mbind outcome_bind].
  by rewrite set_level_partial, Hskip by done.
Qed.

Lemma read_levels_ok s n m lvl :
  row_shape s → (∀ i, (lvl ≤ i < lvl + n)%nat → in_arrays s i) → (lvl + n ≤ kDepth)%nat →
  ∀ k, read_levels (n + m) lvl (levels_text s (n + k) lvl ++ [10]) (partial s lvl) =
    read_levels m (lvl + n) (levels_text s k (lvl + n) ++ [10]) (partial s (lvl + n)).
Proof.
  intros Hs. revert lvl. induction n as [|n IH]; intros lvl Hin Hl k; [by rewrite Nat.add_0_r|].
  cbn [Nat.add]. rewrite read_level_step by (done || lia || (apply Hin; lia)).
  rewrite IH by (lia || (intros i Hi; apply Hin; lia)). by replace (S lvl + n)%nat with (lvl + S n)%nat by lia.
Qed.

Lemma row_ok s :
  csv_ok s →
  read_levels kDepth 0 (levels_text s kDepth 0 ++ [10]) (empty_snapshot (timestamp_ns s)) = Ok (Some s).
Proof.
  intros Hs. change (empty_snapshot (timestamp_ns s)) with (partial s 0).
  pose proof (read_levels_ok s kDepth 0 0 (proj1 (proj1 Hs)) (λ i Hi, csv_ok_arrays s i Hs (proj2 Hi)) (le_n _) 0) as E.
  rewrite !Nat.add_0_r in E. rewrite E. simpl. do 2 f_equal. destruct Hs as (((Hbp & Hbq & Hap & Haq) & _) & _).
  unfold partial. rewrite !filled_all by done. by destruct s.
Qed.

(** ** Lemmas: lines *)
Lemma take_line_ok n l rest :
  Forall (λ c, c ≠ 10) l → (length l < n)%nat → take_line n (l ++ 10 :: rest) = (l ++ [10], rest).
Proof.
  intros Hl. revert n. induction Hl as [|c l Hc _ IH]; intros [|n] Hn; simpl in *; try lia; [done|].
  rewrite (proj2 (Z.eqb_neq c 10)), IH by (done || lia). done.
Qed.

Lemma fgets_line size l rest :
  Forall (λ c, c ≠ 10) l → (length l < size - 1)%nat →
  fgets size (l ++ 10 :: rest) = Some (l ++ [10], rest).
Proof. intros Hl Hn. unfold fgets. rewrite take_line_ok by done. by destruct l. Qed.

Lemma num_width_le fuel n : (num_width fuel n ≤ S fuel)%nat.
Proof.
  revert n. induction fuel as [|fuel IH]; intros n; cbn [num_width]; [lia|].
  destruct (n <? 10); [lia|]. specialize (IH (n / 10)). lia.
Qed.

Lemma digits_no_newline w n : Forall (λ c, c ≠ 10) (fixed_digits w n).
Proof.
  eapply Forall_impl; [apply fixed_digits_chars|]. intros c Hc%andb_true_iff. rewrite !Z.leb_le in Hc.
  simpl. lia.
Qed.

Lemma int_text_line n : Forall (λ c, c ≠ 10) (int_text n) ∧ (length (int_text n) ≤ 21)%nat.
Proof.
  split; [apply digits_no_newline|]. unfold int_text. rewrite fixed_digits_length. apply num_width_le.
Qed.

Lemma fixed_text_line d n : Forall (λ c, c ≠ 10) (fixed_text d n) ∧ (length (fixed_text d n) ≤ 22 + d)%nat.
Proof.
  unfold fixed_text. destruct (int_text_line (n / 10 ^ Z.of_nat d)) as [Hf Hl]. split.
  - apply Forall_app. split; [done|]. constructor; [done|]. apply digits_no_newline.
  - rewrite length_app. cbn [length]. rewrite fixed_digits_length. lia.
Qed.

Lemma level_text_line s i : Forall (λ c, c ≠ 10) (level_text s i) ∧ (length (level_text s i) ≤ 97)%nat.
Proof.
  unfold level_text. destruct (fixed_text_line 4 (snap_ask_price s !!! i)) as [F1 L1].
  destruct (int_text_line (snap_ask_qty s !!! i)) as [F2 L2].
  destruct (fixed_text_line 4 (snap_bid_price s !!! i)) as [F3 L3].
  destruct (int_text_line (snap_bid_qty s !!! i)) as [F4 L4]. split.
  - repeat first [done | apply Forall_app; split | constructor].
  - repeat (rewrite length_app; cbn [length]). lia.
Qed.

Lemma levels_text_line s n lvl :
  Forall (λ c, c ≠ 10) (levels_text s n lvl) ∧ (length (levels_text s n lvl) ≤ 98 * n)%nat.
Proof.
  revert lvl. induction n as [|n IH]; intros lvl; [split; [done|simpl; lia]|].
  destruct (level_text_line s lvl) as [F L]. destruct (IH (S lvl)) as [F' L'].
  destruct n as [|n]; [split; [exact F|]; cbn [levels_text]; lia|].
  change (levels_text s (S (S n)) lvl) with (level_text s lvl ++ 44 :: levels_text s (S n) (S lvl)). split.
  - apply Forall_app. split; [done|]. by constructor.
  - rewrite length_app. cbn [length]. lia.
Qed.

(** ** Lemmas: files *)
Section Files.
Variable tail : list Z.
Context (Htail : Forall (λ c, c ≠ 10) tail) (Hlen : (length tail < 400)%nat).

Lemma read_times_ok ss fuel ts :
  Forall (λ s, 0 ≤ timestamp_ns s < 2 ^ 49) ss → (length (messages_csv tail ss) < fuel)%nat →
  read_times fuel (messages_csv tail ss) ts = Ok (ts ++ (timestamp_ns <$> ss)).
Proof.
  intros Hss. revert fuel ts. induction Hss as [|s ss Hs _ IH]; intros [|fuel] ts Hf; try lia.
  - simpl. by rewrite app_nil_r.
  - set (l := fixed_text 9 (timestamp_ns s) ++ 44 :: tail).
    assert (E : messages_csv tail (s :: ss) = l ++ 10 :: messages_csv tail ss).
    { unfold l, messages_csv. rewrite fmap_cons. cbn [concat]. by rewrite <-!app_assoc; cbn [app]; rewrite <-app_assoc. }
    destruct (fixed_text_line 9 (timestamp_ns s)) as [Fx Lx]. rewrite E in Hf |- *.
    rewrite length_app in Hf. cbn [length] in Hf. cbn [read_times].
    rewrite fgets_line; [|apply Forall_app; split; [done|by constructor]
      |unfold l; rewrite length_app; cbn [length]; lia].
    unfold l at 1. rewrite <-app_assoc.
    rewrite scan_fixed by (lia || by left). rewrite to_ns_ok, bind_ok, IH by (done || lia).
    by rewrite fmap_cons, <-app_assoc.
Qed.

End Files.

(** One line of the order book file. *)
Lemma read_rows_line fuel s n pre t ts acc rest :
  (n ≤ kDepth)%nat →
  read_rows (S fuel) (levels_text s n 0 ++ 10 :: rest) (length pre) (pre ++ t :: ts) acc =
    (r ← read_levels kDepth 0 (levels_text s n 0 ++ [10]) (empty_snapshot t);
     read_rows fuel rest (length (pre ++ [t])) ((pre ++ [t]) ++ ts)
       (match r with Some s => acc ++ [s] | None => acc end)).
Proof.
  intros Hn. destruct (levels_text_line s n 0) as [Fx Lx]. cbn [read_rows].
  rewrite fgets_line by (done || (unfold kDepth in *; lia)). rewrite list_lookup_middle by done.
  by rewrite length_app, Nat.add_1_r, <-app_assoc.
Qed.

(** The file with the first [k] levels of each snapshot. *)
Definition depth_csv (k : nat) (ss : list LobsterSnapshot) : list Z :=
  concat ((λ s, levels_text s k 0 ++ [10]) <$> ss).

Lemma depth_csv_cons k s ss : depth_csv k (s :: ss) = levels_text s k 0 ++ 10 :: depth_csv k ss.
Proof. unfold depth_csv. rewrite fmap_cons. cbn [concat]. by rewrite <-app_assoc. Qed.

(** Good rows first, then anything. *)
Lemma read_rows_ok ss fuel pre ts acc rest :
  Forall csv_ok ss → (length (book_csv ss ++ rest) < fuel)%nat →
  ∃ fuel', (length rest < fuel')%nat ∧
    read_rows fuel (book_csv ss ++ rest) (length pre) (pre ++ (timestamp_ns <$> ss) ++ ts) acc =
    read_rows fuel' rest (length (pre ++ (timestamp_ns <$> ss))) ((pre ++ (timestamp_ns <$> ss)) ++ ts) (acc ++ ss).
Proof.
  intros Hss. revert fuel pre acc. induction Hss as [|s ss Hs _ IH]; intros [|fuel] pre acc Hf; try lia.
  - exists (S fuel). simpl. by rewrite !app_nil_r.
  - change (book_csv (s :: ss)) with (depth_csv kDepth (s :: ss)) in Hf |- *.
    rewrite depth_csv_cons, <-app_assoc in Hf |- *. cbn [app] in Hf |- *. rewrite length_app in Hf. cbn [length] in Hf.
    rewrite fmap_cons. cbn [app]. rewrite read_rows_line by done. rewrite row_ok, bind_ok by done.
    destruct (IH fuel (pre ++ [timestamp_ns s]) (acc ++ [s])) as (fuel' & Hf' & E);
      [change (book_csv ss) with (depth_csv kDepth ss); lia|].
    exists fuel'. split; [done|]. change (book_csv ss) with (depth_csv kDepth ss) in E. rewrite E.
    by rewrite <-!app_assoc.
Qed.

(** ** Lemmas: fuel *)
Lemma take_line_shorter n f : f ≠ [] → (0 < n)%nat → (length (take_line n f).2 < length f)%nat.
Proof.
  revert f. induction n as [|n IH]; intros [|c f] Hf Hn; try done; [lia|]. cbn [take_line].
  destruct (c =? 10); [simpl; lia|]. destruct f as [|c' f]; [by destruct n; simpl; lia|].
  destruct (decide (n = 0%nat)) as [->|]; [simpl; lia|]. specialize (IH (c' :: f) ltac:(done) ltac:(lia)).
  destruct (take_line n (c' :: f)) as [l r]. simpl in *. lia.
Qed.

Lemma fgets_shorter size f line f' :
  (1 < size)%nat → fgets size f = Some (line, f') → (length f' < length f)%nat.
Proof.
  intros Hs. unfold fgets. destruct f as [|c f]; [done|]. intros [= E].
  pose proof (take_line_shorter (size - 1) (c :: f) ltac:(done) ltac:(lia)) as Hl. by rewrite E in Hl.
Qed.

(** More fuel than bytes changes nothing: the loops stop at the end of the file. *)
Lemma read_times_fuel fuel1 fuel2 f ts :
  (length f < fuel1)%nat → (length f < fuel2)%nat → read_times fuel1 f ts = read_times fuel2 f ts.
Proof.
  revert fuel2 f ts. induction fuel1 as [|fuel1 IH]; intros [|fuel2] f ts H1 H2; try lia. cbn [read_times].
  destruct (fgets 512 f) as [[line f']|] eqn:E; [|done]. apply fgets_shorter in E; [|lia].
  destruct (scan_double line) as [[t r]|]; [|apply IH; lia].
  destruct (to_ns t) as [x|]; [|done]. simpl. apply IH; lia.
Qed.

Lemma read_rows_fuel fuel1 fuel2 f row ts ss :
  (length f < fuel1)%nat → (length f < fuel2)%nat → read_rows fuel1 f row ts ss = read_rows fuel2 f row ts ss.
Proof.
  revert fuel2 f row ss. induction fuel1 as [|fuel1 IH]; intros [|fuel2] f row ss H1 H2; try lia. cbn [read_rows].
  destruct (fgets 4096 f) as [[line f']|] eqn:E; [|done]. apply fgets_shorter in E; [|lia].
  destruct (ts !! row) as [t|]; [|done]. destruct (read_levels kDepth 0 line (empty_snapshot t)) as [r|]; [|done].
  simpl. apply IH; lia.
Qed.

(** Both files of a list of snapshots. *)
Lemma load_files_ok tail ss :
  Forall (λ c, c ≠ 10) tail → (length tail < 400)%nat → Forall csv_ok ss → ss ≠ [] →
  load validator_new (Some (book_csv ss)) (Some (messages_csv tail ss)) =
    Ok (true, mkValidator ss (timestamp_ns <$> ss)).
Proof.
  intros Ht Hlen Hss Hne. unfold load, load_messages. cbn [snap_ts_ snapshots_ validator_new].
  assert (Hts : Forall (λ s, 0 ≤ timestamp_ns s < 2 ^ 49) ss) by (eapply Forall_impl; [exact Hss|]; intros s Hs; apply Hs).
  rewrite (read_times_ok tail Ht Hlen) by (done || lia). rewrite bind_ok. cbn [app].
  rewrite bool_decide_eq_false_2 by (by destruct ss). rewrite bind_ok. cbn [negb]. cbv iota.
  unfold load_orderbook. cbn [snap_ts_ snapshots_].
  destruct (read_rows_ok ss (S (length (book_csv ss))) [] [] [] [] Hss) as ([|fuel] & Hf & E);
    [rewrite app_nil_r; lia|simpl in Hf; lia|].
  rewrite !app_nil_r in E. cbn [app length] in E. rewrite E. cbn [read_rows fgets]. rewrite bind_ok. by destruct ss.
Qed.

(** ** Theorems *)

(** C22. Loading.  The two files written from any list of snapshots (prices and quantities
    below 2^32, times below 2^49 nanoseconds, prices in dollars with four decimals, times
    in seconds with nine, any other message columns) load back to exactly these
    snapshots, on top of a fresh validator. *)
Theorem load_roundtrip tail ss :
  Forall (λ c, c ≠ 10) tail → (length tail < 400)%nat → Forall csv_ok ss → ss ≠ [] →
  load validator_new (Some (book_csv ss)) (Some (messages_csv tail ss)) =
    Ok (true, mkValidator ss (timestamp_ns <$> ss)).
Proof. apply load_files_ok. Qed.

(** ** Instances *)
Lemma sample_snapshots_csv : Forall csv_ok sample_snapshots.
Proof.
  pose proof sample_snapshots_ok as Hok. unfold sample_snapshots in *.
  apply Forall_cons in Hok as [H1 [H2 _]%Forall_cons]. repeat constructor; try apply H1; try apply H2; by_vm.
Qed.

Lemma load_roundtrip_witness :
  load validator_new (Some (book_csv sample_snapshots)) (Some (messages_csv sample_tail sample_snapshots)) =
    Ok (true, mkValidator sample_snapshots [7; 8]).
Proof.
  apply (load_roundtrip sample_tail sample_snapshots).
  - repeat constructor; discriminate.
  - vm_compute. lia.
  - exact sample_snapshots_csv.
  - discriminate.
Defined.
