(* ===== verification/LobsterLimits.v ===== *)
(** * Loading files outside the expected form (src/book/lobster_validator.cpp)

    [LobsterCsv] shows that a well-formed pair of files loads back.  Here: what [load]
    does with files that cannot be opened, with rows of fewer than ten levels, and with a
    price too large for the 32 bits it is converted to. *)

From S2P Require Import Prelude Bytes Messages Parser Reader Order PriceLevel OrderBook BookInv BookWf.
From S2P Require Import BookHandlers Dispatch Samples BookSpec Depth BookTheorems Spsc SpscConc.
From S2P Require Import Pipeline PipelineTheorems Lobster Double Rounding LobsterCsv.

(** ** Specification *)

(** A row: how many of the snapshot's levels are written. *)
Abbreviation row := (nat * LobsterSnapshot)%type.

Definition rows_csv (rows : list row) : list Z :=
  concat ((λ r, levels_text r.2 r.1 0 ++ [10]) <$> rows).

(** The rows of at least ten levels. *)
Definition full_rows (rows : list row) : list LobsterSnapshot := (filter (λ r, r.1 = kDepth) rows).*2.

Definition row_ok_upto (r : row) : Prop := csv_ok r.2 ∧ (r.1 ≤ kDepth)%nat.

(** Level [i] is the first with a price that does not fit: of the ask, or of the bid. *)
Record overflows (s : LobsterSnapshot) (i : nat) : Prop := {
  ov_shape : row_shape s;
  ov_level : (i < kDepth)%nat;
  ov_before : ∀ j, (j < i)%nat → in_arrays s j;
  ov_text : in_text s i;
  ov_price : 2 ^ 32 ≤ snap_ask_price s !!! i < 2 ^ 49 ∨
    snap_ask_price s !!! i < 2 ^ 32 ∧ snap_ask_qty s !!! i < 2 ^ 32 ∧ 2 ^ 32 ≤ snap_bid_price s !!! i < 2 ^ 49;
}.

Abbreviation time_ok := (λ s, 0 ≤ timestamp_ns s < 2 ^ 49).

(** ** Lemmas *)
Lemma rows_csv_cons r rows : rows_csv (r :: rows) = levels_text r.2 r.1 0 ++ 10 :: rows_csv rows.
Proof. unfold rows_csv. rewrite fmap_cons. cbn [concat]. by rewrite <-app_assoc. Qed.

(** A row that ends too soon. *)
Lemma read_shallow s k t :
  csv_ok s → (k < kDepth)%nat → t = timestamp_ns s →
  read_levels kDepth 0 (levels_text s k 0 ++ [10]) (empty_snapshot t) = Ok None.
Proof.
  intros Hs Hk ->. change (empty_snapshot (timestamp_ns s)) with (partial s 0).
  pose proof (read_levels_ok s k (S (kDepth - S k)) 0 (proj1 (proj1 Hs))
    (λ i Hi, csv_ok_arrays s i Hs ltac:(lia)) ltac:(lia) 0) as E.
  rewrite Nat.add_0_r in E. replace (k + S (kDepth - S k))%nat with kDepth in E by lia. by rewrite E.
Qed.

Lemma read_row r :
  row_ok_upto r →
  read_levels kDepth 0 (levels_text r.2 r.1 0 ++ [10]) (empty_snapshot (timestamp_ns r.2)) =
    Ok (if decide (r.1 = kDepth) then Some r.2 else None).
Proof.
  intros [Hs Hk]. destruct (decide (r.1 = kDepth)) as [->|Hne]; [by apply row_ok|].
  apply read_shallow; [done|lia|done].
Qed.

Lemma read_rows_depths rows fuel pre acc :
  Forall row_ok_upto rows → (length (rows_csv rows) < fuel)%nat →
  read_rows fuel (rows_csv rows) (length pre) (pre ++ (timestamp_ns <$> rows.*2)) acc = Ok (acc ++ full_rows rows).
Proof.
  intros Hr. revert fuel pre acc. induction Hr as [|r rows Hr _ IH]; intros [|fuel] pre acc Hf; try lia.
  - cbn. by rewrite app_nil_r.
  - rewrite rows_csv_cons in Hf |- *. rewrite length_app in Hf. cbn [length] in Hf. rewrite !fmap_cons.
    rewrite read_rows_line, read_row, bind_ok by (done || apply Hr). rewrite IH by lia.
    unfold full_rows. rewrite filter_cons. case_decide; [|done]. by rewrite fmap_cons, <-app_assoc.
Qed.

Lemma to_price_overflow p : 2 ^ 32 ≤ p < 2 ^ 49 → to_price (decimal p (- Z.of_nat 4)) = Fault BadConversion.
Proof.
  intros Hp. unfold to_price, u32_of_double.
  change (- Z.of_nat 4) with (- (4)). rewrite recover_decimal, bind_ok by lia.
  by rewrite (proj2 (Z.ltb_ge _ _)) by lia.
Qed.

(** The conversion of the price at the first level that does not fit. *)
Lemma read_overflow s i t :
  overflows s i → t = timestamp_ns s →
  read_levels kDepth 0 (levels_text s kDepth 0 ++ [10]) (empty_snapshot t) = Fault BadConversion.
Proof.
  intros [Hs Hi Hbefore Htext Hprice] ->. change (empty_snapshot (timestamp_ns s)) with (partial s 0).
  set (m := (kDepth - S i)%nat).
  pose proof (read_levels_ok s i (S m) 0 Hs (λ j Hj, Hbefore j (proj2 Hj)) ltac:(lia) (S m)) as E.
  replace (i + S m)%nat with kDepth in E by lia. rewrite E. cbn [Nat.add].
  destruct (levels_text_step s m i) as (rest & -> & Hends & _). cbn [read_levels].
  rewrite level_scan by done. cbv iota beta. destruct Htext as (Hap & Haq & Hbp & Hbq).
  destruct Hprice as [Hp|(Hap' & Haq' & Hp)]; [by rewrite (to_price_overflow _ Hp)|].
  rewrite (to_price_ok _ (conj (proj1 Hap) Hap')), (to_qty_ok _ (conj (proj1 Haq) Haq')). cbn [mbind outcome_bind]. by rewrite (to_price_overflow _ Hp).
Qed.

Lemma load_times tail ss f :
  Forall (λ c, c ≠ 10) tail → (length tail < 400)%nat → Forall time_ok ss → ss ≠ [] →
  load validator_new (Some f) (Some (messages_csv tail ss)) =
    load_orderbook (mkValidator [] (timestamp_ns <$> ss)) (Some f).
Proof.
  intros Ht Hlen Hss Hne. unfold load, load_messages. cbn [snap_ts_ snapshots_ validator_new].
  rewrite (read_times_ok tail Ht Hlen), bind_ok by (done || lia). cbn [app].
  by rewrite bool_decide_eq_false_2 by (by destruct ss).
Qed.

(** ** Theorems *)

(** C23. What [load] does outside the expected form.  A file that cannot be opened: the answer
    is false (without a message file nothing is read).  Rows of ten levels or fewer, each
    with its line of the message file: exactly the rows of ten are loaded, with their own
    times, and the answer is whether there is one; so files of a shallower book load
    nothing.  A first row with a price of 2^32 ten-thousandths of a dollar or more, after
    any good rows: the conversion to 32 bits is undefined behaviour. *)
Theorem load_limits tail :
  Forall (λ c, c ≠ 10) tail → (length tail < 400)%nat →
  (∀ v book_file, load v book_file None = Ok (false, v)) ∧
  (∀ ss, Forall time_ok ss → ss ≠ [] →
     load validator_new None (Some (messages_csv tail ss)) = Ok (false, mkValidator [] (timestamp_ns <$> ss))) ∧
  (∀ rows, Forall row_ok_upto rows → rows ≠ [] →
     load validator_new (Some (rows_csv rows)) (Some (messages_csv tail rows.*2)) =
       Ok (bool_decide (full_rows rows ≠ []), mkValidator (full_rows rows) (timestamp_ns <$> rows.*2))) ∧
  (∀ ss s i post, Forall csv_ok ss → overflows s i → Forall time_ok (s :: post) →
     load validator_new (Some (book_csv (ss ++ s :: post))) (Some (messages_csv tail (ss ++ s :: post))) =
       Fault BadConversion).
Proof.
  intros Ht Hlen. split; [done|]. split; [|split].
  - intros ss Hss Hne. unfold load, load_messages. cbn [snap_ts_ snapshots_ validator_new].
    rewrite (read_times_ok tail Ht Hlen), bind_ok by (done || lia). cbn [app].
    by rewrite bool_decide_eq_false_2 by (by destruct ss).
  - intros rows Hr Hne.
    assert (Hts : Forall time_ok rows.*2) by (apply Forall_fmap; eapply Forall_impl; [exact Hr|]; intros r Hr'; apply Hr').
    assert (Hne' : rows.*2 ≠ []) by (by destruct rows).
    rewrite (load_times tail _ _ Ht Hlen Hts Hne').
    unfold load_orderbook. cbn [snap_ts_ snapshots_].
    pose proof (read_rows_depths rows (S (length (rows_csv rows))) [] [] Hr ltac:(lia)) as E.
    cbn [app length] in E. rewrite E, bind_ok. by destruct (full_rows rows).
  - intros ss s i post Hss Hov Hts. rewrite load_times; [|done|done| |by destruct ss].
    2:{ apply Forall_app. split; [|done]. eapply Forall_impl; [exact Hss|]. intros s' Hs'. apply Hs'. }
    unfold load_orderbook. cbn [snap_ts_ snapshots_].
    assert (Esplit : book_csv (ss ++ s :: post) = book_csv ss ++ book_csv (s :: post)).
    { unfold book_csv. by rewrite fmap_app, concat_app. }
    rewrite Esplit, fmap_app.
    destruct (read_rows_ok ss (S (length (book_csv ss ++ book_csv (s :: post)))) []
      (timestamp_ns <$> s :: post) [] (book_csv (s :: post)) Hss ltac:(lia)) as ([|fuel] & Hf & E); [lia|].
    cbn [app length] in E. rewrite E. rewrite fmap_cons.
    change (book_csv (s :: post)) with (depth_csv kDepth (s :: post)). rewrite depth_csv_cons, read_rows_line by done.
    by rewrite (read_overflow s i) by done.
Qed.

(** ** Witness: a five-level file, and a stub quote of a million dollars *)
Definition stub_snapshot : LobsterSnapshot :=
  mkSnapshot 9 (10000000000 :: replicate 9 0) (replicate 10 1) (replicate 10 0) (replicate 10 0).

Lemma load_limits_witness :
  load validator_new (Some (rows_csv ((λ s, (5%nat, s)) <$> sample_snapshots)))
    (Some (messages_csv sample_tail sample_snapshots)) = Ok (false, mkValidator [] [7; 8]) ∧
  load validator_new (Some (book_csv (sample_snapshots ++ [stub_snapshot])))
    (Some (messages_csv sample_tail (sample_snapshots ++ [stub_snapshot]))) = Fault BadConversion.
Proof.
  destruct (load_limits sample_tail) as (_ & _ & Hrows & Hover);
    [repeat constructor; discriminate|vm_compute; lia|].
  pose proof sample_snapshots_csv as Hcsv. split.
  - refine (Hrows ((λ s, (5%nat, s)) <$> sample_snapshots) _ _); [|discriminate].
    apply Forall_fmap. eapply Forall_impl; [exact Hcsv|]. intros s Hs. split; [exact Hs|]. unfold kDepth. simpl. lia.
  - apply (Hover sample_snapshots stub_snapshot 0%nat []); [exact Hcsv| |].
    + split; [by split_and!|unfold kDepth; lia|intros j Hj; lia|..].
      * split_and!; by_vm || (vm_compute; split; [discriminate|reflexivity]).
      * left. vm_compute. split; [discriminate|reflexivity].
    + repeat constructor; vm_compute; congruence.
Defined.
