(* ===== verification/Printf.v ===== *)
(** * Printing

    The conversions of [printf] that the programs use, on texts as lists of character
    codes: literals, [%llu] / [%u] / [%zu] with an optional width, [%s] with a width, and
    [%.<d>f] as the C library defines it for a binary64 value: the exact value rounded to
    [d] decimals, ties to even.

    Proved: a price in ten-thousandths of a dollar, divided by 10000.0 and printed with
    [%.4f], comes out with exactly its four decimals. *)

From S2P Require Import Prelude Bytes Messages Parser Reader Order PriceLevel OrderBook BookInv BookWf.
From S2P Require Import BookHandlers Dispatch Samples BookSpec Depth BookTheorems Spsc SpscConc.
From S2P Require Import Pipeline PipelineTheorems Lobster Double Rounding LobsterCsv.
From Stdlib Require Import Ascii String SpecFloat.

Abbreviation text := (list Z).

(** ** Conversions *)

(** A literal of the format. *)
Fixpoint str (s : string) : text :=
  match s with EmptyString => [] | String c s => chr c :: str s end.
Arguments str _%_string.

Definition newline : text := [10].

(** [%llu], [%u], [%zu]: as many digits as needed. *)
Definition dec_text (n : Z) : text := fixed_digits (num_width (S (Z.to_nat (Z.log2 n))) n) n.

(** [%<w>llu] and [%-<w>s]. *)
Definition pad_left (w : nat) (t : text) : text := replicate (w - List.length t) 32 ++ t.
Definition pad_right (w : nat) (t : text) : text := t ++ replicate (w - List.length t) 32.

(** [num / den] to the nearest integer, ties to even. *)
Definition round_even (num den : Z) : Z :=
  let q := num / den in
  let r := num mod den in
  if (2 * r <? den) || ((2 * r =? den) && Z.even q) then q else q + 1.

(** A decimal text of [n / 10^d]. *)
Definition dec_fixed (d : nat) (n : Z) : text :=
  dec_text (n / 10 ^ Z.of_nat d) ++ 46 :: fixed_digits d (n mod 10 ^ Z.of_nat d).

Definition sign_text (s : bool) : text := if s then [45] else [].

(** [%.<d>f], [d > 0].  [nan] is what the library prints for a NaN (nan or -nan). *)
Definition printf_f (nan : text) (d : nat) (x : double) : text :=
  match x with
  | S754_zero s => sign_text s ++ dec_fixed d 0
  | S754_infinity s => sign_text s ++ str "inf"
  | S754_nan => nan
  | S754_finite s m e =>
      let num := Z.pos m * 10 ^ Z.of_nat d in
      sign_text s ++
      dec_fixed d (if 0 <=? e then num * 2 ^ e else round_even num (2 ^ (- e)))
  end.

(** ** Lemmas: integers *)
Lemma num_width_enough k1 k2 n :
  0 ≤ n → n < 10 ^ Z.of_nat k1 → n < 10 ^ Z.of_nat k2 → (0 < k1)%nat → (0 < k2)%nat →
  num_width k1 n = num_width k2 n.
Proof.
  revert k2 n. induction k1 as [|k1 IH]; intros k2 n Hn H1 H2 P1 P2; [lia|].
  destruct k2 as [|k2]; [lia|]. cbn [num_width]. destruct (Z.ltb_spec n 10); [done|]. f_equal.
  assert (Hb : ∀ k, n < 10 ^ Z.of_nat (S k) → n / 10 < 10 ^ Z.of_nat k ∧ (0 < k)%nat).
  { intros k Hk. rewrite Nat2Z.inj_succ, Z.pow_succ_r in Hk by lia.
    split; [apply Z.div_lt_upper_bound; lia|]. destruct k; [simpl in Hk; lia|lia]. }
  apply Hb in H1 as [H1 P1']. apply Hb in H2 as [H2 P2']. apply IH; try done. apply Z.div_pos; lia.
Qed.

Lemma dec_text_int n : 0 ≤ n < 10 ^ 20 → dec_text n = int_text n.
Proof.
  intros Hn. unfold dec_text, int_text. f_equal. apply num_width_enough; [lia| |lia|lia|lia].
  rewrite Nat2Z.inj_succ, Z2Nat.id by apply Z.log2_nonneg.
  destruct (decide (n = 0)) as [->|]; [done|]. pose proof (Z.log2_spec n ltac:(lia)) as [_ Hl].
  eapply Z.lt_le_trans; [exact Hl|]. apply Z.pow_le_mono_l. lia.
Qed.

Lemma dec_fixed_text d n : 0 ≤ n < 10 ^ 20 → dec_fixed d n = fixed_text d n.
Proof.
  intros Hn. unfold dec_fixed, fixed_text. f_equal. apply dec_text_int.
  pose proof (Z.pow_pos_nonneg 10 (Z.of_nat d)). split; [apply Z.div_pos; lia|].
  apply Z.div_lt_upper_bound; nia.
Qed.

(** ** Lemmas: rounding to decimals *)
Lemma round_even_near num den n :
  0 < den → 2 * Z.abs (num - n * den) < den → round_even num den = n.
Proof.
  intros Hd Hn. unfold round_even.
  pose proof (Z.div_mod num den ltac:(lia)) as Hdm. pose proof (Z.mod_pos_bound num den Hd) as Hm.
  assert (Hq : num / den = n ∨ num / den = n - 1) by nia.
  destruct Hq as [Hq|Hq]; rewrite Hq in *.
  - rewrite (proj2 (Z.ltb_lt _ _)) by lia. done.
  - rewrite (proj2 (Z.ltb_ge _ _)), (proj2 (Z.eqb_neq _ _)) by lia. simpl. lia.
Qed.

(** A double nearer to [n / 10^d] than half a unit of the last decimal. *)
Lemma printf_f_near nan d m e n :
  -1074 ≤ e → 0 ≤ n → 2 * Z.abs (sval m e * 10 ^ Z.of_nat d - n * scale) < scale →
  printf_f nan d (S754_finite false m e) = dec_fixed d n.
Proof.
  intros He Hn Hc. unfold printf_f. cbv zeta. cbn [sign_text app]. f_equal.
  unfold sval, scale in Hc. set (num := Z.pos m * 10 ^ Z.of_nat d).
  replace (Z.pos m * 2 ^ (e + 1074) * 10 ^ Z.of_nat d) with (num * 2 ^ (e + 1074)) in Hc by (unfold num; lia).
  destruct (Z.leb_spec 0 e).
  - rewrite Z.pow_add_r, Z.mul_assoc, <-Z.mul_sub_distr_r, Z.abs_mul in Hc by lia.
    pose proof (Z.pow_pos_nonneg 2 1074 ltac:(lia) ltac:(lia)) as Hp.
    rewrite (Z.abs_eq (2 ^ 1074)) in Hc by lia.
    assert (Z.abs (num * 2 ^ e - n) = 0); [|lia].
    generalize dependent (2 ^ 1074). intros p Hc Hp. nia.
  - apply round_even_near; [apply Z.pow_pos_nonneg; lia|].
    replace 1074 with (e + 1074 + - e) in Hc at 2 3 by lia.
    rewrite (Z.pow_add_r 2 (e + 1074)) in Hc by lia.
    pose proof (Z.pow_pos_nonneg 2 (e + 1074) ltac:(lia) ltac:(lia)) as Hp.
    generalize dependent (2 ^ (e + 1074)). intros p Hc Hp. generalize dependent (2 ^ (- e)). intros q Hc.
    replace (num * p - n * (p * q)) with ((num - n * q) * p) in Hc by lia.
    rewrite Z.abs_mul, (Z.abs_eq p) in Hc by lia. nia.
Qed.

(** [%.4f] of [p / 10000.0]. *)
Definition price_text (nan : text) (p : Z) : text := printf_f nan 4 (ddiv (double_of p) (double_of 10000)).

Lemma price_text_exact nan p : 0 ≤ p < 2 ^ 32 → price_text nan p = fixed_text 4 p.
Proof.
  intros Hp. rewrite <-dec_fixed_text by lia. unfold price_text. rewrite !double_of_exact by lia.
  destruct (decide (p = 0)) as [->|Hne]; [done|].
  destruct (exact_float_normal p ltac:(lia)) as (m1 & e1 & -> & H1 & -> & V1).
  destruct (exact_float_normal 10000 ltac:(lia)) as (m2 & e2 & -> & H2 & -> & V2).
  pose proof (ndigits_bound p ltac:(lia)). pose proof (ndigits_bound 10000 ltac:(lia)).
  destruct (ddiv_close m1 (ndigits p - 53) m2 (ndigits 10000 - 53)) as (m & e & -> & _ & Hb & Hc); [lia..|].
  apply printf_f_near; [lia|lia|]. rewrite V1, V2, Z.mul_assoc in Hc.
  assert (Hs : 0 < scale) by (unfold scale; apply Z.pow_pos_nonneg; lia).
  apply close_cancel in Hc; [|done]. unfold close in Hc. change (10 ^ Z.of_nat 4) with 10000.
  assert (p * scale ≤ 2 ^ 32 * scale) by (apply Z.mul_le_mono_nonneg_r; lia).
  generalize dependent (p * scale). intros v Hc Hv. lia.
Qed.
