(* ===== verification/FileOpen.v ===== *)
(** * Opening the file (the constructor of src/transport/pcap_replay.cpp)

    What [fopen], [ftell] and [fread] yield for a path is a parameter ([option File]).
    [unreadable] is the specification of the three failures and their messages.

    Proved: a file whose announced length is the number of its bytes is loaded whole; any
    other failure aborts with its message. *)

From S2P Require Import Prelude Bytes Messages Parser Reader Double Rounding Lobster LobsterCsv Printf.
From Stdlib Require Import String.
From stdpp Require Import strings.

#[local] Open Scope string_scope.
#[local] Open Scope list_scope.
#[local] Open Scope Z_scope.

(** ** The reader's constructor *)

(** An open file: what [ftell] says after seeking to its end, and the bytes [fread] can
    get from its start. *)
Record File := mkFile {
  end_pos : Z;
  contents : list Z;
}.

(** A call that may end the process: its result, or what it prints on [stderr] before
    [std::abort()]. *)
Inductive io (A : Type) :=
| Returned (a : A)
| AbortedWith (err : text).
Arguments Returned {A} a.
Arguments AbortedWith {A} err.

Definition ITCHFileReader_new (path : string) (f : option File) : io ITCHFileReader :=
  match f with
  | None => AbortedWith (str "ITCHFileReader: cannot open '" ++ str path ++ str "'" ++ newline)
  | Some f =>
      let size := end_pos f in
      if size <=? 0 then
        AbortedWith (str "ITCHFileReader: empty or unreadable file '" ++ str path ++ str "'" ++ newline)
      else
        let buf := take (Z.to_nat size) (contents f) in
        let nread := Z.of_nat (List.length buf) in
        if negb (nread =? size) then
          AbortedWith (str "ITCHFileReader: short read on '" ++ str path ++ str "' (got " ++
                       dec_text nread ++ str " of " ++ dec_text size ++ str " bytes)" ++ newline)
        else Returned (open_reader buf)
  end.

(** ** Specification *)

(** A file that can be read: the system's idea of its length is the number of its bytes. *)
Record readable (f : File) : Prop := {
  re_end : end_pos f = Z.of_nat (List.length (contents f));
  re_some : contents f ≠ [];
  re_bytes : Forall is_byte (contents f);
  re_size : size_ok (contents f);
}.

(** The three ways a path yields no messages, and what is printed: the file cannot be
    opened, its length is zero or unknown, or it has fewer bytes than its length. *)
Inductive unreadable (path : string) : option File → text → Prop :=
| unreadable_missing :
    unreadable path None (str "ITCHFileReader: cannot open '" ++ str path ++ str "'" ++ newline)
| unreadable_empty f :
    end_pos f ≤ 0 →
    unreadable path (Some f) (str "ITCHFileReader: empty or unreadable file '" ++ str path ++ str "'" ++ newline)
| unreadable_short f :
    let got := Z.of_nat (List.length (contents f)) in
    got < end_pos f < 2 ^ 63 →
    unreadable path (Some f)
      (str "ITCHFileReader: short read on '" ++ str path ++ str "' (got " ++ int_text got ++ str " of " ++
       int_text (end_pos f) ++ str " bytes)" ++ newline).

(** ** Lemmas *)
Lemma readable_opened path f :
  readable f → ITCHFileReader_new path (Some f) = Returned (open_reader (contents f)).
Proof.
  intros [He Hs _ _]. unfold ITCHFileReader_new. cbv zeta. rewrite He, Nat2Z.id, take_ge by lia.
  destruct (contents f) as [|c bs]; [done|].
  rewrite (proj2 (Z.leb_gt _ _)) by (simpl; lia). by rewrite Z.eqb_refl.
Qed.

Lemma unreadable_aborts path f err : unreadable path f err → ITCHFileReader_new path f = AbortedWith err.
Proof.
  intros Hu. unfold ITCHFileReader_new. destruct Hu as [|f Hpos|f got Hlt]; [done|..]; cbv zeta.
  - by rewrite (proj2 (Z.leb_le _ _)).
  - rewrite (proj2 (Z.leb_gt _ _)), take_ge by lia. fold got. rewrite (proj2 (Z.eqb_neq _ _)) by lia.
    simpl negb. cbv iota. by rewrite !dec_text_int by lia.
Qed.
