(* ===== verification/Validate.v ===== *)
(** * The validator on a file (LobsterValidator::validate, src/book/lobster_validator.cpp)

    [validate] constructs the reader, which aborts on a file it cannot load ([FileOpen]),
    and replays the messages ([replay] of [Lobster]); without snapshots it does neither.

    Proved: on a file whose messages are a good feed it reports exactly the mismatches with
    the abstract book; on a file that cannot be loaded it aborts with the reader's message. *)

From S2P Require Import Prelude Bytes Messages Parser Reader Order PriceLevel OrderBook BookInv BookWf.
From S2P Require Import BookHandlers Dispatch Samples BookSpec Depth BookTheorems Spsc SpscConc.
From S2P Require Import Pipeline PipelineTheorems Lobster LobsterCsv Printf FileOpen.
From Stdlib Require Import String.
From stdpp Require Import strings.

#[local] Open Scope string_scope.
#[local] Open Scope list_scope.
#[local] Open Scope Z_scope.

Section Validate.
Context `{BuildMode}.

Definition validate (it : nat → IterOrder) (snapshots : list LobsterSnapshot) (b : OrderBook)
    (path : string) (f : option File) (out : option (list Mismatch))
  : outcome (io (OrderBook * Z * option (list Mismatch))) :=
  match snapshots with
  | [] => Ok (Returned (b, 0, out))
  | _ =>
      match ITCHFileReader_new path f with
      | AbortedWith err => Ok (AbortedWith err)
      | Returned r =>
          res ← replay (S (List.length (buf r))) it r b snapshots out;
          Ok (Returned res)
      end
  end.

(** ** Lemmas *)
Lemma validate_none it b path f out : validate it [] b path f out = Ok (Returned (b, 0, out)).
Proof. done. Qed.

Lemma validate_readable it snaps b path f out :
  readable f → snaps ≠ [] →
  validate it snaps b path (Some f) out =
    (res ← replay (S (List.length (contents f))) it (open_reader (contents f)) b snaps out; Ok (Returned res)).
Proof. intros Hr Hs. unfold validate. destruct snaps; [done|]. by rewrite (readable_opened path f Hr). Qed.

Lemma validate_unreadable it snaps b path f err out :
  unreadable path f err → snaps ≠ [] → validate it snaps b path f out = Ok (AbortedWith err).
Proof. intros Hu%unreadable_aborts Hs. unfold validate. destruct snaps; [done|]. by rewrite Hu. Qed.

Lemma validate_ok cap lo_bid lo_ask it path f snaps b0 out :
  readable f → OrderBook_new cap = Ok b0 → Z.of_nat cap < 2 ^ 32 →
  good_feed cap lo_bid lo_ask empty_sbook (file_messages (contents f)) = true → Forall snapshot_ok snaps →
  let '(s, l) := spec_validate empty_sbook (file_messages (contents f)) snaps in
  ∃ b, validate it snaps b0 path (Some f) out = Ok (Returned (b, u64 (Z.of_nat (List.length l)), push_all out l)) ∧
    simulates cap b s.
Proof.
  intros Hr E0 Hcap Hg Hsn. destruct snaps as [|sn snaps].
  - destruct (new_book_simulates cap b0 E0 Hcap) as [Hs0 _].
    destruct (file_messages (contents f)); exists b0; by rewrite push_all_nil.
  - rewrite (validate_readable _ _ _ _ _ _ Hr) by done.
    pose proof (replay_ok cap lo_bid lo_ask it (contents f) (sn :: snaps) b0 out (re_size _ Hr) (re_bytes _ Hr)
      E0 Hcap Hg Hsn) as Hv.
    destruct (spec_validate _ _ _) as [s l]. destruct Hv as (b & -> & Hs). by exists b.
Qed.

(** ** Theorem *)

(** C20. The replay.  Take a fresh book of 1 to 2^32 - 1 slots.  A readable file (not empty, shorter
    than 2^63 bytes, its announced length the number of its bytes) whose messages form a good feed is replayed without fault and each
    snapshot is compared with the abstract book after the first message that is not earlier
    than it, or with the final book: the mismatches are reported in that order and their
    number is returned (modulo 2^64).  With snapshots to compare, a file that cannot be
    opened, is empty or is short aborts the process with its message ([unreadable]); without
    snapshots the answer is 0 whatever the file. *)
Theorem validate_correct cap lo_bid lo_ask it path snaps b0 out :
  OrderBook_new cap = Ok b0 → Z.of_nat cap < 2 ^ 32 → Forall snapshot_ok snaps →
  (∀ f, readable f → good_feed cap lo_bid lo_ask empty_sbook (file_messages (contents f)) = true →
   let '(s, l) := spec_validate empty_sbook (file_messages (contents f)) snaps in
   ∃ b, validate it snaps b0 path (Some f) out = Ok (Returned (b, u64 (Z.of_nat (List.length l)), push_all out l)) ∧
     simulates cap b s) ∧
  (∀ f err, snaps ≠ [] → unreadable path f err → validate it snaps b0 path f out = Ok (AbortedWith err)) ∧
  (∀ f, snaps = [] → validate it snaps b0 path f out = Ok (Returned (b0, 0, out))).
Proof.
  intros E0 Hcap Hsn. split; [|split].
  - intros f Hr Hg. by apply (validate_ok cap lo_bid lo_ask).
  - intros f err Hs Hu. by apply validate_unreadable.
  - intros f ->. apply validate_none.
Qed.

End Validate.

(** ** Instance on the sample session *)
Definition whole_file (bytes : list Z) : File := mkFile (Z.of_nat (List.length bytes)) bytes.

Lemma sample_file_readable : readable (whole_file sample_file).
Proof. split; [done|done|exact sample_file_bytes|exact sample_file_size]. Qed.

Lemma validate_correct_witness :
  (∃ b, @validate debug_build (λ _, iter_forward) sample_snapshots fresh_book "itch.bin" (Some (whole_file sample_file))
      (Some []) = Ok (Returned (b, 1, Some [sample_mismatch]))) ∧
  @validate debug_build (λ _, iter_forward) sample_snapshots fresh_book "itch.bin" (Some (whole_file [])) (Some []) =
    Ok (AbortedWith (str "ITCHFileReader: empty or unreadable file 'itch.bin'" ++ newline)).
Proof.
  destruct (@validate_correct debug_build 8 1500000 1500000 (λ _, iter_forward) "itch.bin"
    sample_snapshots fresh_book (Some []) fresh_book_new ltac:(lia) sample_snapshots_ok) as (Hv & Ha & _). split.
  - specialize (Hv (whole_file sample_file) sample_file_readable sample_file_feed).
    destruct (spec_validate _ _ _) as [s l] eqn:E. destruct Hv as (b & Hv & _). exists b. rewrite Hv.
    cbn [contents whole_file] in E. rewrite sample_file_messages in E. vm_compute in E. injection E as <- <-. reflexivity.
  - apply Ha; [discriminate|]. exact (unreadable_empty "itch.bin" (whole_file []) ltac:(discriminate)).
Defined.
