(* ===== verification/LobsterWide.v ===== *)
(** * The validator without the price band (src/book/lobster_validator.cpp)

    [Lobster] says what [validate] reports when the file's prices keep to a band.  Here is
    what it does on every file whose messages fit the states they meet ([wide_feed]): the
    comparison sees the orders that are in a level, so the quantities of orders lost by a
    recentring are reported as mismatches, and the replay stops at the fault the abstract
    book runs into, if any. *)

From S2P Require Import Prelude Bytes Messages Parser Reader Order PriceLevel OrderBook BookInv BookWf.
From S2P Require Import BookHandlers Dispatch Samples BookSpec Depth BookTheorems BookLimits BookWide.
From S2P Require Import Spsc SpscConc Pipeline PipelineTheorems Lobster LobsterCsv Printf FileOpen Validate.
From Stdlib Require Import String.
From stdpp Require Import strings.

#[local] Open Scope string_scope.
#[local] Open Scope list_scope.
#[local] Open Scope Z_scope.

(** [spec_validate] with the wide book: the messages left when the snapshots run out are
    not applied. *)
Fixpoint wide_validate `{BuildMode} (cap : nat) (w : WBook) (ms : list ParsedMessage) (snaps : list LobsterSnapshot)
    : outcome (WBook * list Mismatch) :=
  match ms, snaps with
  | _, [] => Ok (w, [])
  | [], _ => Ok (w, spec_compare_all (visible w) snaps)
  | m :: ms, _ =>
      w ← wide_step cap w (command_of m);
      let '(d, r) := split_due (λ sn, timestamp_ns sn <=? msg_ts m) snaps in
      '(w', l) ← wide_validate cap w ms r;
      Ok (w', spec_compare_all (visible w) d ++ l)
  end.

(** ** Lemmas *)

(** The comparison does not read the map. *)
Lemma compare_while_map due m b snaps total out :
  compare_while due (set_order_map m b) snaps total out = compare_while due b snaps total out.
Proof.
  revert total out. induction snaps as [|s snaps IH]; intros total out; [done|]. simpl. destruct (due s); [|done].
  change (compare_snapshot (set_order_map m b) s out) with (compare_snapshot b s out).
  destruct (compare_snapshot b s out) as [[n out']|]; [|done]. apply IH.
Qed.

Section Replay.
Context `{BuildMode} {cap : nat}.

Lemma compare_while_wide due b w snaps n out :
  tracks_wide cap b w → Forall snapshot_ok snaps →
  let '(d, r) := split_due due snaps in
  let l := spec_compare_all (visible w) d in
  compare_while due b snaps (u64 n) out = Ok (r, u64 (n + Z.of_nat (List.length l)), push_all out l).
Proof.
  intros Hw Hs. destruct (wide_seen b w Hw) as (m & q & Hc & Hatt & Habs).
  pose proof (compare_while_ok due (set_order_map m b) q snaps n out Hc Hatt Hs) as Ec.
  rewrite compare_while_map in Ec. by rewrite Habs in Ec.
Qed.

(** The rest of a replay whose result is [r], from [n] mismatches: the final book, what is
    reported and the total, or the fault. *)
Definition replays (n : Z) (out : option (list Mismatch)) (r : outcome (WBook * list Mismatch))
    (res : outcome (OrderBook * Z * option (list Mismatch))) : Prop :=
  match r with
  | Ok (w', l) => ∃ b', res = Ok (b', u64 (n + Z.of_nat (List.length l)), push_all out l) ∧ tracks_wide cap b' w'
  | Fault e => res = Fault e
  end.

(** The loop and the comparison of the remaining snapshots. *)
Definition replay_rest (fuel : nat) (it : nat → IterOrder) (r : ITCHFileReader) (b : OrderBook)
    (snaps : list LobsterSnapshot) (total : Z) (out : option (list Mismatch)) :=
  '(b, snaps, total, out) ← validate_loop fuel it r b snaps total out;
  '(_, total, out) ← compare_while (λ _, true) b snaps total out;
  Ok (b, total, out).

Lemma replay_stops b w snaps n out :
  tracks_wide cap b w → Forall snapshot_ok snaps →
  replays n out (Ok (w, spec_compare_all (visible w) snaps))
    ('(_, total, out) ← compare_while (λ _, true) b snaps (u64 n) out; Ok (b, total, out)).
Proof.
  intros Hw Hs. pose proof (compare_while_wide (λ _, true) b w snaps n out Hw Hs) as Ec.
  rewrite split_due_all in Ec. rewrite Ec. by exists b.
Qed.

Lemma replay_wide it bytes fuel p b w snaps n out :
  size_ok bytes → Forall is_byte bytes → (p ≤ List.length bytes)%nat →
  let ms := unread (mkReader bytes (Z.of_nat p)) in
  (List.length ms < fuel)%nat → tracks_wide cap b w → wide_feed cap w ms = true → Forall snapshot_ok snaps →
  replays n out (wide_validate cap w ms snaps)
    (replay_rest fuel it (mkReader bytes (Z.of_nat p)) b snaps (u64 n) out).
Proof.
  intros Hsz Hby. revert p b w snaps n out.
  induction fuel as [|fuel IH]; intros p b w snaps n out Hp ms Hf Hw Hg Hsn; [lia|].
  pose proof (replay_stops b w snaps n out Hw Hsn) as Hstop. unfold replay_rest.
  destruct (unread_step bytes p Hsz Hby Hp)
    as [(r' & E & Hun & _)|(data & len & m & p' & E & Em & Hp' & Hun)];
    fold ms in Hun; cbn [validate_loop]; rewrite E, bind_ok; cbv iota beta.
  - rewrite Hun. destruct snaps; exact Hstop.
  - rewrite Hun in Hf, Hg |- *. destruct snaps as [|sn snaps]; [exact Hstop|].
    rewrite Em, bind_ok. cbn [wide_feed] in Hg. apply andb_true_iff in Hg as [Hok Hg].
    pose proof (wide_refines_dispatch b w (it fuel) m Hw Hok) as Hstep. cbn [wide_validate].
    destruct (wide_step cap w (command_of m)) as [w1|e]; [|simpl in Hstep |- *; by rewrite Hstep].
    destruct Hstep as (b1 & -> & Hw1). rewrite !bind_ok.
    pose proof (compare_while_wide (λ x, timestamp_ns x <=? msg_ts m) b1 w1 (sn :: snaps) n out Hw1 Hsn) as Ec.
    destruct (split_due _ (sn :: snaps)) as [d r] eqn:Esp. rewrite Ec, bind_ok. cbv iota beta zeta.
    set (l1 := spec_compare_all _ d).
    specialize (IH p' b1 w1 r (n + Z.of_nat (List.length l1)) (push_all out l1) Hp'). cbv zeta in IH.
    unfold replay_rest in IH. specialize (IH ltac:(simpl in Hf; lia) Hw1 Hg ltac:(by eapply split_due_rest)).
    destruct (wide_validate cap w1 _ r) as [[w' l]|e]; cbn in IH |- *; [|exact IH].
    destruct IH as (b' & Er & Hw'). exists b'. rewrite Er.
    by rewrite push_all_app, length_app, Nat2Z.inj_add, Z.add_assoc.
Qed.

End Replay.

(** The whole replay on a fresh book. *)
Lemma replay_fresh_wide `{BuildMode} cap it bytes snaps b0 out :
  size_ok bytes → Forall is_byte bytes → OrderBook_new cap = Ok b0 → Z.of_nat cap < 2 ^ 32 →
  wide_feed cap empty_wbook (file_messages bytes) = true → Forall snapshot_ok snaps →
  replays (cap := cap) 0 out (wide_validate cap empty_wbook (file_messages bytes) snaps)
    (replay (S (List.length bytes)) it (open_reader bytes) b0 snaps out).
Proof.
  intros Hsz Hby E0 Hcap Hf Hsn. pose proof (wide_new b0 E0 Hcap) as Hw0.
  pose proof (replay_wide (cap := cap) it bytes (S (List.length bytes)) 0 b0 empty_wbook snaps 0 out Hsz Hby ltac:(lia)) as Hr.
  cbv zeta in Hr. change (mkReader bytes (Z.of_nat 0)) with (open_reader bytes) in Hr. fold (file_messages bytes) in Hr.
  pose proof (file_messages_short bytes). rewrite (u64_small 0) in Hr by lia.
  exact (Hr ltac:(lia) Hw0 Hf Hsn).
Qed.

(** ** Theorem *)
(** C21. The validator without the price band.  Take a fresh book of 1 to 2^32 - 1
    slots and a readable file whose
    messages, each in the state it meets and up to the first fault, satisfy [wide_feed]: the
    references of new orders are not those of live ones, their sides are B or S, their
    prices are in (0, 2^31), and in a release build no reduction exceeds its order's shares.
    Then [validate] reports for each snapshot exactly the mismatches with the orders that
    are in a level after the first message not earlier than it, counts them (modulo 2^64),
    and applies no message past the one that settles the last snapshot; or it stops at
    exactly the fault the abstract book runs into while snapshots are left.  With snapshots
    to compare, a file that cannot be opened, is empty or is short aborts the process with
    its message. *)
Theorem validate_unbanded `{BuildMode} cap it path snaps b0 out :
  OrderBook_new cap = Ok b0 → Z.of_nat cap < 2 ^ 32 → Forall snapshot_ok snaps →
  (∀ f, readable f → wide_feed cap empty_wbook (file_messages (contents f)) = true →
   match wide_validate cap empty_wbook (file_messages (contents f)) snaps with
   | Ok (w, l) =>
       ∃ b, validate it snaps b0 path (Some f) out = Ok (Returned (b, u64 (Z.of_nat (List.length l)), push_all out l)) ∧
         tracks_wide cap b w
   | Fault e => validate it snaps b0 path (Some f) out = Fault e
   end) ∧
  (∀ f err, snaps ≠ [] → unreadable path f err → validate it snaps b0 path f out = Ok (AbortedWith err)).
Proof.
  intros E0 Hcap Hsn. split; [|by intros f err Hs Hu; apply validate_unreadable].
  intros f Hr Hf. destruct snaps as [|sn snaps].
  - assert (wide_validate cap empty_wbook (file_messages (contents f)) [] = Ok (empty_wbook, [])) as ->
      by (by destruct (file_messages (contents f))).
    exists b0. split; [by rewrite push_all_nil|by apply wide_new].
  - rewrite (validate_readable _ _ _ _ _ _ Hr) by done.
    pose proof (replay_fresh_wide cap it (contents f) (sn :: snaps) b0 out (re_size _ Hr) (re_bytes _ Hr) E0 Hcap Hf Hsn) as Hv.
    destruct (wide_validate cap empty_wbook _ _) as [[w l]|e]; unfold replays in Hv; [|by rewrite Hv].
    destruct Hv as (b & -> & Hw). exists b. split; [done|exact Hw].
Qed.

(** ** Witness: order 1 is lost when the second snapshot expects it *)
Definition wide_file : File := whole_file (List.concat ((λ m, frame (encode m)) <$> wide_session)).
Definition wide_snapshots : list LobsterSnapshot :=
  [mkSnapshot 7 (pad10 []) (pad10 []) (pad10 [1500000]) (pad10 [100])].

Lemma wide_file_readable : readable wide_file.
Proof. split; [done|done|apply (bool_decide_unpack _); vm_compute; exact I|vm_compute; reflexivity]. Qed.

Lemma validate_unbanded_witness :
  ∃ b0 b, OrderBook_new 8 = Ok b0 ∧
    @validate debug_build (λ _, iter_forward) wide_snapshots b0 "wide.bin" (Some wide_file) (Some []) =
      Ok (Returned (b, 1, Some [mkMismatch 7 ch_B 0 1500000 0 1500000 100])).
Proof.
  destruct (new_book_ok 8 ltac:(lia)) as [b0 E0].
  destruct (@validate_unbanded debug_build 8 (λ _, iter_forward) "wide.bin" wide_snapshots b0 (Some []) E0 ltac:(lia)
    ltac:(repeat constructor; vm_compute; try lia; try discriminate)) as [Hv _].
  specialize (Hv wide_file wide_file_readable ltac:(vm_compute; reflexivity)).
  remember (wide_validate 8 empty_wbook (file_messages (contents wide_file)) wide_snapshots) as r eqn:Er in Hv.
  vm_compute in Er. subst r. destruct Hv as (b & E & _). exists b0, b. exact (conj E0 E).
Defined.
