(* ===== verification/Modes.v ===== *)
(** * Debug and release builds

    Every definition that reaches an [assert] takes the build mode.  [guarded d r]
    relates what a debug build does ([d]) to what a release build does ([r]): either
    the debug build stops at an assertion, or both do the same, faults included.  The
    relation is preserved by sequencing and by loops, so it lifts from [assert] to
    whole sessions.

    [first_violation] says on the abstract book of [BookWide] which message of a session,
    if any, is the first to break an assertion, and how.

    Proved: without a violation both builds end with the very same book; with one the debug
    build stops at an assertion, and what the release build does depends on its kind. *)

From S2P Require Import Prelude Bytes Messages Parser Reader Order PriceLevel OrderBook BookInv BookWf.
From S2P Require Import BookHandlers Dispatch Samples BookSpec Depth BookTheorems BookLimits BookWide Spsc SpscConc.
From S2P Require Import Pipeline PipelineTheorems Lobster LobsterCsv Printf FileOpen Validate.

(** ** The relation *)
Definition guarded {A} (d r : outcome A) : Prop := d = Fault AssertFailed ∨ d = r.

Create HintDb modes.

Lemma guarded_refl {A} (m : outcome A) : guarded m m.
Proof. by right. Qed.

Lemma guarded_bind {A B} (d r : outcome A) (f g : A → outcome B) :
  guarded d r → (∀ a, guarded (f a) (g a)) → guarded (d ≫= f) (r ≫= g).
Proof. intros [->| ->] Hf; [by left|]. destruct r as [a|e]; [apply Hf|by right]. Qed.

Lemma guarded_cassert c : guarded (@cassert debug_build c) (@cassert release_build c).
Proof. destruct c; [by right|by left]. Qed.

Lemma guarded_foldM {A B} (f g : A → B → outcome A) l a :
  (∀ a b, guarded (f a b) (g a b)) → guarded (foldM f l a) (foldM g l a).
Proof.
  intros Hf. revert a. induction l as [|b l IH]; intros a; [apply guarded_refl|].
  apply guarded_bind; [apply Hf|apply IH].
Qed.

Lemma guarded_ok {A} (d r : outcome A) a : guarded d r → d = Ok a → r = Ok a.
Proof. by intros [->| ->]. Qed.

#[export] Hint Resolve guarded_refl guarded_cassert : modes.

(** Walk through two copies of one program. *)
Ltac guarded_step :=
  match goal with
  | |- guarded ?x ?x => apply guarded_refl
  | |- guarded (_ ≫= _) (_ ≫= _) => apply guarded_bind; [|intros ?]
  | |- guarded (foldM _ _ _) (foldM _ _ _) => apply guarded_foldM; intros ? ?
  | |- guarded (if ?c then _ else _) _ => destruct c
  | |- guarded (match ?p with _ => _ end) _ => destruct p
  | |- guarded _ _ => solve [eauto with modes]
  end.
Ltac guarded_auto := repeat (cbv zeta beta; guarded_step).

(** ** Pool, levels, book *)
Lemma alloc_modes p : guarded (@alloc debug_build p) (@alloc release_build p).
Proof. unfold alloc. guarded_auto. Qed.

Lemma free_modes p o : guarded (@free debug_build p o) (@free release_build p o).
Proof. unfold free. guarded_auto. Qed.

Lemma add_order_modes h l o : guarded (@add_order debug_build h l o) (@add_order release_build h l o).
Proof. unfold add_order. guarded_auto. Qed.

Lemma remove_order_modes h l o :
  guarded (@remove_order debug_build h l o) (@remove_order release_build h l o).
Proof. unfold remove_order. guarded_auto. Qed.

Lemma reduce_shares_modes h l o n :
  guarded (@reduce_shares debug_build h l o n) (@reduce_shares release_build h l o n).
Proof. unfold reduce_shares. guarded_auto. Qed.

#[export] Hint Resolve alloc_modes free_modes add_order_modes remove_order_modes reduce_shares_modes : modes.

Lemma insert_at_modes b o i : guarded (@insert_at debug_build b o i) (@insert_at release_build b o i).
Proof. unfold insert_at. guarded_auto. Qed.

#[export] Hint Resolve insert_at_modes : modes.

Lemma recentre_bids_modes it b r :
  guarded (@recentre_bids debug_build it b r) (@recentre_bids release_build it b r).
Proof. unfold recentre_bids. guarded_auto. Qed.

Lemma recentre_asks_modes it b r :
  guarded (@recentre_asks debug_build it b r) (@recentre_asks release_build it b r).
Proof. unfold recentre_asks. guarded_auto. Qed.

#[export] Hint Resolve recentre_bids_modes recentre_asks_modes : modes.

Lemma insert_order_modes it b o :
  guarded (@insert_order debug_build it b o) (@insert_order release_build it b o).
Proof. unfold insert_order. guarded_auto. Qed.

Lemma book_remove_order_modes b o :
  guarded (@book_remove_order debug_build b o) (@book_remove_order release_build b o).
Proof. unfold book_remove_order. guarded_auto. Qed.

Lemma book_reduce_shares_modes b o n :
  guarded (@book_reduce_shares debug_build b o n) (@book_reduce_shares release_build b o n).
Proof. unfold book_reduce_shares. guarded_auto. Qed.

Lemma make_order_modes p ref sh pr sd :
  guarded (@make_order debug_build p ref sh pr sd) (@make_order release_build p ref sh pr sd).
Proof. unfold make_order. guarded_auto. Qed.

#[export] Hint Resolve insert_order_modes book_remove_order_modes book_reduce_shares_modes
  make_order_modes : modes.

(** ** Messages *)
Lemma dispatch_modes it b m : guarded (@dispatch debug_build it b m) (@dispatch release_build it b m).
Proof.
  destruct m; unfold dispatch; try apply guarded_refl;
    unfold on_add, on_add_mpid, on_execute, on_execute_with_price, on_cancel, on_delete, on_replace;
    guarded_auto.
Qed.

#[export] Hint Resolve dispatch_modes : modes.

Lemma run_book_modes b ms : guarded (@run_book debug_build b ms) (@run_book release_build b ms).
Proof. unfold run_book. guarded_auto. Qed.

Lemma validate_loop_modes fuel it r b snaps n out :
  guarded (@validate_loop debug_build fuel it r b snaps n out)
    (@validate_loop release_build fuel it r b snaps n out).
Proof.
  revert r b snaps n out. induction fuel as [|fuel IH]; intros r b snaps n out; [apply guarded_refl|].
  cbn [validate_loop]. guarded_auto; try apply IH.
Qed.

#[export] Hint Resolve run_book_modes validate_loop_modes : modes.

Lemma validate_modes it snaps b path f out :
  guarded (@validate debug_build it snaps b path f out) (@validate release_build it snaps b path f out).
Proof. unfold validate, replay. guarded_auto. Qed.

(** ** Which assertion fails first *)

(** The three ways a message can break an assertion: an add with no slot left, a message
    about an order that no level holds, a reduction beyond the order's shares. *)
Inductive violation := Exhausted | Lost | TooMuch.

Definition lost_use (w : WBook) (ref : Z) : option violation :=
  match w_orders w !! ref with
  | Some _ => if decide (ref ∈ w_lost w) then Some Lost else None
  | None => None
  end.

Definition violates (cap : nat) (w : WBook) (c : command) : option violation :=
  match c with
  | CAdd _ _ _ _ => if w_open w && (cap <=? size (w_orders w))%nat then Some Exhausted else None
  | CReduce ref n =>
      match w_orders w !! ref with
      | Some o => if decide (ref ∈ w_lost w) then Some Lost else if s_shares o <? n then Some TooMuch else None
      | None => None
      end
  | CDelete ref | CReplace ref _ _ _ => lost_use w ref
  | CIgnore | COpen _ | CHalt => None
  end.

(** The first violation of a session; up to it the abstract book does not depend on the
    build. *)
Fixpoint first_violation (cap : nat) (w : WBook) (ms : list ParsedMessage) : option violation :=
  match ms with
  | [] => None
  | m :: ms =>
      match violates cap w (command_of m), @wide_step debug_build cap w (command_of m) with
      | Some v, _ => Some v
      | None, Ok w => first_violation cap w ms
      | None, Fault _ => None
      end
  end.

(** What a release build does with a session whose first violation is [v]: too large a
    reduction is carried out. *)
Definition release_end (cap : nat) (w : WBook) (v : violation) (b : OrderBook) (feed : list (IterOrder * ParsedMessage))
    : Prop :=
  match v with
  | Exhausted => @run_book release_build b feed = Fault NullDeref
  | Lost => @run_book release_build b feed = Fault OutOfRange
  | TooMuch => ∃ pre p post b', feed = pre ++ p :: post ∧
      first_violation cap w pre.*2 = None ∧ first_violation cap w (pre ++ [p]).*2 = Some TooMuch ∧
      @run_book release_build b (pre ++ [p]) = Ok b'
  end.

Lemma violates_none cap w c : violates cap w c = None → ∃ w', @wide_step debug_build cap w c = Ok w'.
Proof.
  destruct c; simpl; unfold lost_use; repeat case_match; try discriminate; try (intros; by eexists).
  all: simplify_eq/=; try (by destruct (w_open w)).
Qed.

Lemma violates_debug cap w c v :
  violates cap w c = Some v → @wide_step debug_build cap w c = Fault AssertFailed.
Proof.
  destruct c; simpl; unfold lost_use; repeat case_match; try discriminate; try done.
  all: destruct (w_open w); simplify_eq/=; done.
Qed.

(** A violation in a release build. *)
Lemma violates_release cap b w it m v :
  tracks_wide cap b w → @wide_ok debug_build w (command_of m) = true → violates cap w (command_of m) = Some v →
  match v with
  | Exhausted => @dispatch release_build it b m = Fault NullDeref
  | Lost => @dispatch release_build it b m = Fault OutOfRange
  | TooMuch => ∃ b', @dispatch release_build it b m = Ok b'
  end.
Proof.
  intros Hw Hok Hv. destruct (command_of m) as [|o| |ref sd p sh|ref n|ref|old new p sh] eqn:Ec; try discriminate.
  - simpl in Hv. destruct (w_open w) eqn:Ho, (cap <=? size (w_orders w))%nat eqn:Hfull; try discriminate. injection Hv as <-.
    pose proof (@wide_refines_dispatch release_build cap b w it m Hw) as Hr. rewrite Ec in Hr. specialize (Hr Hok).
    simpl in Hr. by rewrite Ho, Hfull in Hr.
  - destruct (@reduce_command release_build it b m ref n Ec) as [-> Hn]. simpl in Hv.
    destruct (w_orders w !! ref) as [o|] eqn:Hl; [|discriminate].
    destruct (decide (ref ∈ w_lost w)) as [Hlost|Hkept]; [injection Hv as <-; exact (reduce_lost b w ref n Hw Hlost)|].
    destruct (Z.ltb_spec (s_shares o) n) as [Hlt|]; [|discriminate]. injection Hv as <-.
    destruct (tw_wf _ _ _ Hw) as (q & fs & Hbw).
    destruct (wide_kept b w q fs ref o Hw Hbw Hl Hkept) as (a & oc & sd & Hm & Ha & Hidx & _ & ->).
    destruct (@reduce_body_too_much release_build b q ref a oc n (wf_core _ _ _ Hbw) Hm Ha Hidx Hlt (proj2 Hn))
      as (b' & _ & E & _). by exists b'.
  - simpl in Hv. unfold lost_use in Hv. pose proof (@wide_refines_dispatch release_build cap b w it m Hw) as Hr.
    rewrite Ec in Hr. specialize (Hr Hok). simpl in Hr.
    destruct (w_orders w !! ref); [|discriminate]. destruct (decide _); [|discriminate]. by injection Hv as <-.
  - simpl in Hv. unfold lost_use in Hv. pose proof (@wide_refines_dispatch release_build cap b w it m Hw) as Hr.
    rewrite Ec in Hr. specialize (Hr Hok). simpl in Hr.
    destruct (w_orders w !! old); [|discriminate]. destruct (decide _); [|discriminate]. by injection Hv as <-.
Qed.

Lemma builds_step cap b w feed :
  tracks_wide cap b w → @wide_feed debug_build cap w feed.*2 = true →
  match first_violation cap w feed.*2 with
  | None => ∃ b', @run_book debug_build b feed = Ok b' ∧ @run_book release_build b feed = Ok b'
  | Some v => @run_book debug_build b feed = Fault AssertFailed ∧ release_end cap w v b feed
  end.
Proof.
  revert b w. induction feed as [|[it m] feed IH]; intros b w Hw Hf; [by exists b|].
  cbn [fmap list_fmap snd first_violation wide_feed] in *. apply andb_true_iff in Hf as [Hok Hf].
  pose proof (@wide_refines_dispatch debug_build cap b w it m Hw Hok) as Hd.
  destruct (violates cap w (command_of m)) as [v|] eqn:Hv.
  - rewrite (violates_debug _ _ _ _ Hv) in Hd. simpl in Hd. pose proof (violates_release cap b w it m v Hw Hok Hv) as Hr.
    unfold run_book. cbn [foldM fst snd]. rewrite Hd. split; [done|].
    destruct v; unfold release_end, run_book; cbn [foldM fst snd]; [by rewrite Hr..|].
    destruct Hr as [b' Hr]. exists [], (it, m), feed, b'. cbn [app fmap list_fmap foldM fst snd first_violation].
    by rewrite Hr, Hv.
  - destruct (violates_none _ _ _ Hv) as [w' Es]. rewrite Es in Hd, Hf |- *. destruct Hd as (b1 & Hd & Hw1).
    specialize (IH b1 w' Hw1 Hf). pose proof (guarded_ok _ _ _ (dispatch_modes it b m) Hd) as Hr.
    unfold run_book in *. cbn [foldM fst snd]. rewrite Hd, bind_ok.
    destruct (first_violation cap w' feed.*2) as [v|]; [|by rewrite Hr, bind_ok].
    destruct IH as [E He]. split; [exact E|].
    destruct v; unfold release_end, run_book in *; cbn [foldM fst snd]; rewrite ?Hr, ?bind_ok; [exact He..|].
    destruct He as (pre & p & post & b' & -> & F1 & F2 & E'). exists ((it, m) :: pre), p, post, b'.
    cbn [app fmap list_fmap foldM fst snd first_violation]. rewrite Hv, Es, Hr, bind_ok.
    split; [done|]. split; [exact F1|]. split; [exact F2|exact E'].
Qed.

(** ** Theorem *)


