(* ===== verification/Typing.v ===== *)
(** * Types of the book's state

    The C++ types of the book's fields, which the model's [Z] and [nat] leave open:
    integers within their widths, every pointer null or a slot of the slab, every level
    index -1 or inside the array.  [returns P m] is a partial-correctness triple: if the
    call returns, its result satisfies [P], and if it does not, it is not because of a
    pointer outside the slab.

    Proved: every handler keeps a typed book typed, whatever the message (inside the
    feed's contract or not), in debug and in release builds; so no session, from any
    bytes, ever follows a wild pointer. *)

From S2P Require Import Prelude Bytes Messages Parser Order PriceLevel OrderBook BookInv BookWf.
From S2P Require Import BookHandlers Dispatch Samples BookSpec Depth BookTheorems Reader Spsc SpscConc.
From S2P Require Import Pipeline PipelineTheorems.

(** ** Triples *)
Definition returns {A} (P : A → Prop) (m : outcome A) : Prop :=
  match m with Ok a => P a | Fault e => e ≠ BadPointer end.

(** ** Types *)
Definition is_u32 (z : Z) : Prop := 0 ≤ z < 2 ^ 32.
Definition is_u64 (z : Z) : Prop := 0 ≤ z < 2 ^ 64.
Definition is_idx (i : Z) : Prop := -1 ≤ i < kLevels.
Definition is_ptr (n : nat) (p : ptr) : Prop := ∀ a, p = Some a → (a < n)%nat.

Record typed_order (n : nat) (o : Order) : Prop := {
  to_ref : is_u64 (order_ref o);
  to_shares : is_u32 (shares o);
  to_price : is_u32 (price o);
  to_side : is_byte (side o);
  to_idx : is_idx (level_idx o);
  to_next : is_ptr n (next o);
  to_prev : is_ptr n (prev o);
}.

Record typed_heap (n : nat) (h : heap) : Prop := {
  th_length : length h = n;
  th_orders : Forall (typed_order n) h;
}.

Record typed_pool (n : nat) (p : OrderPool) : Prop := {
  tp_slots : typed_heap n (slots p);
  tp_free : is_ptr n (free_head p);
}.

Record typed_level (n : nat) (l : PriceLevel) : Prop := {
  tl_qty : is_u64 (total_qty l);
  tl_count : is_u32 (order_count l);
  tl_head : is_ptr n (lvl_head l);
  tl_tail : is_ptr n (lvl_tail l);
}.

Definition typed_levels (n : nat) (lv : level_array) : Prop :=
  map_Forall (λ i l, 0 ≤ i < kLevels ∧ typed_level n l) lv.

Definition typed_map (n : nat) (m : gmap Z addr) : Prop :=
  map_Forall (λ ref a, is_u64 ref ∧ (a < n)%nat) m.

Record typed_book (n : nat) (b : OrderBook) : Prop := {
  tb_pool : typed_pool n (pool b);
  tb_bids : typed_levels n (bid_levels b);
  tb_asks : typed_levels n (ask_levels b);
  tb_map : typed_map n (order_map b);
  tb_bid_ref : is_u32 (bid_ref b);
  tb_ask_ref : is_u32 (ask_ref b);
  tb_best_bid : is_idx (best_bid_idx b);
  tb_best_ask : is_idx (best_ask_idx b);
}.

Record typed_bbo (q : BBO) : Prop := {
  tq_bid : is_u32 (bid_price q) ∧ is_u32 (bid_qty q);
  tq_ask : is_u32 (ask_price q) ∧ is_u32 (ask_qty q);
}.

(** What the parser hands over: a struct whose fields fit, or nothing. *)
Definition typed_message (m : ParsedMessage) : Prop := m = Monostate ∨ valid_message m.

(** ** Rules *)
Create HintDb typing.

Lemma returns_ok {A} (P : A → Prop) a : P a → returns P (Ok a).
Proof. done. Qed.

Lemma returns_bind {A B} (Q : A → Prop) (P : B → Prop) m (f : A → outcome B) :
  returns Q m → (∀ a, Q a → returns P (f a)) → returns P (m ≫= f).
Proof. destruct m as [a|e]; simpl; [|done]. intros HQ Hf. by apply Hf. Qed.

Lemma returns_weaken {A} (Q P : A → Prop) m : returns Q m → (∀ a, Q a → P a) → returns P m.
Proof. destruct m as [a|e]; simpl; auto. Qed.

Lemma returns_foldM {A B} (P : A → Prop) (f : A → B → outcome A) l a :
  P a → (∀ a b, b ∈ l → P a → returns P (f a b)) → returns P (foldM f l a).
Proof.
  revert a. induction l as [|b l IH]; intros a Ha Hf; [done|].
  eapply returns_bind; [apply Hf; [by left|done]|]. intros a' Ha'. apply IH; [done|].
  intros a2 b2 Hin. apply Hf. by right.
Qed.

Lemma returns_cassert `{BuildMode} c : returns (λ _, True) (cassert c).
Proof. unfold cassert. by destruct (_ || _). Qed.

Lemma returns_int_result z : returns (λ _, True) (int_result z).
Proof. unfold int_result. by case_match. Qed.

Lemma is_ptr_None n : is_ptr n None.
Proof. by intros ?. Qed.

Lemma is_ptr_Some n a : (a < n)%nat → is_ptr n (Some a).
Proof. by intros ? ? [= <-]. Qed.

Lemma is_idx_none : is_idx (-1).
Proof. done. Qed.

Lemma is_idx_in_range i : in_range i = true → is_idx i.
Proof. unfold in_range, is_idx. lia. Qed.

Lemma is_u32_0 : is_u32 0.
Proof. done. Qed.

Lemma is_u64_0 : is_u64 0.
Proof. done. Qed.

Lemma is_byte_0 : is_byte 0.
Proof. done. Qed.

Lemma u32_typed z : is_u32 (u32 z).
Proof. apply u32_range. Qed.

Lemma u64_typed z : is_u64 (u64 z).
Proof. apply u64_range. Qed.

Lemma be32_typed v : is_u32 (be32 v).
Proof. apply be32_bound. Qed.

Lemma be64_typed v : is_u64 (be64 v).
Proof. apply be64_bound. Qed.

#[export] Hint Resolve is_ptr_None is_ptr_Some is_idx_none is_idx_in_range is_u32_0 is_u64_0 is_byte_0 be32_typed be64_typed
  u32_typed u64_typed returns_cassert returns_int_result : typing.
#[export] Hint Resolve to_ref to_shares to_price to_side to_idx to_next to_prev th_length tp_slots
  tp_free tl_head tl_tail tl_qty tl_count : typing.
#[export] Hint Resolve tb_pool tb_bids tb_asks tb_map tb_bid_ref tb_ask_ref tb_best_bid tb_best_ask
  : typing.

(** Setters keep types when the new value has one. *)
Ltac typed_record :=
  repeat match goal with
  | H : typed_order _ _ |- _ => destruct H
  | H : typed_level _ _ |- _ => destruct H
  | H : typed_pool _ _ |- _ => destruct H
  | H : typed_book _ _ |- _ => destruct H
  end; by constructor.

Lemma typed_set_ref n o v : typed_order n o → is_u64 v → typed_order n (set_order_ref v o).
Proof. intros. typed_record. Qed.
Lemma typed_set_shares n o v : typed_order n o → is_u32 v → typed_order n (set_shares v o).
Proof. intros. typed_record. Qed.
Lemma typed_set_price n o v : typed_order n o → is_u32 v → typed_order n (set_price v o).
Proof. intros. typed_record. Qed.
Lemma typed_set_side n o v : typed_order n o → is_byte v → typed_order n (set_side v o).
Proof. intros. typed_record. Qed.
Lemma typed_set_idx n o v : typed_order n o → is_idx v → typed_order n (set_level_idx v o).
Proof. intros. typed_record. Qed.
Lemma typed_set_next n o v : typed_order n o → is_ptr n v → typed_order n (set_next v o).
Proof. intros. typed_record. Qed.
Lemma typed_set_prev n o v : typed_order n o → is_ptr n v → typed_order n (set_prev v o).
Proof. intros. typed_record. Qed.
#[export] Hint Resolve typed_set_ref typed_set_shares typed_set_price typed_set_side typed_set_idx
  typed_set_next typed_set_prev : typing.

Lemma typed_order_default n : typed_order n order_default.
Proof. by constructor; simpl; auto with typing. Qed.

Lemma typed_level_default n : typed_level n level_default.
Proof. by constructor; simpl; auto with typing. Qed.

Lemma typed_levels_empty n : typed_levels n ∅.
Proof. apply map_Forall_empty. Qed.

Lemma typed_map_empty n : typed_map n ∅.
Proof. apply map_Forall_empty. Qed.
#[export] Hint Resolve typed_order_default typed_level_default typed_levels_empty typed_map_empty
  : typing.

(** ** Memory *)
Lemma deref_typed n h p : typed_heap n h → is_ptr n p → returns (typed_order n) (deref h p).
Proof.
  intros [Hn Hh] Hp. destruct p as [a|]; [|done]. unfold deref.
  destruct (h !! a) as [o|] eqn:E; [|by apply lookup_ge_None in E; specialize (Hp a eq_refl); lia].
  by eapply Forall_lookup_1 in E.
Qed.

Lemma modify_typed n h p f :
  typed_heap n h → is_ptr n p → (∀ o, typed_order n o → typed_order n (f o)) →
  returns (typed_heap n) (modify h p f).
Proof.
  intros [Hn Hh] Hp Hf. destruct p as [a|]; [|done]. unfold modify.
  destruct (h !! a) as [o|] eqn:E; [|by apply lookup_ge_None in E; specialize (Hp a eq_refl); lia].
  split; [by rewrite length_insert|]. apply Forall_insert; [done|]. apply Hf.
  by eapply Forall_lookup_1 in E.
Qed.

Lemma object_typed n p : is_ptr n p → returns (λ a, (a < n)%nat) (object p).
Proof. destruct p as [a|]; simpl; [|done]. intros Hp. by apply Hp. Qed.

#[export] Hint Resolve deref_typed modify_typed object_typed : typing.

(** Walk through a program, finding the triple of each call. *)
Ltac ret_step :=
  match goal with
  | |- returns _ (Ok _) => apply returns_ok
  | |- returns _ (Fault _) => discriminate
  | |- returns _ (_ ≫= _) => eapply returns_bind; [solve [eauto 8 with typing]|simpl; intros]
  | |- returns _ (if ?c then _ else _) => destruct c eqn:?
  | H : _ * _ |- _ => destruct H
  | H : _ ∧ _ |- _ => destruct H
  | |- returns _ _ => solve [eauto 12 with typing]
  end.
Ltac ret_auto := cbv zeta; repeat (ret_step; cbv zeta; simpl in * ).

(** ** Pool and levels *)
Lemma mkPool_typed n h p : typed_heap n h → is_ptr n p → typed_pool n (mkPool h p).
Proof. by constructor. Qed.

#[export] Hint Resolve mkPool_typed : typing.

Lemma OrderPool_new_typed n : returns (typed_pool n) (OrderPool_new n).
Proof.
  unfold OrderPool_new. apply (returns_bind (typed_heap n)).
  - apply returns_foldM.
    + split; [apply length_replicate|]. apply Forall_replicate. auto with typing.
    + intros h i Hi Hh. apply elem_of_seq in Hi. apply modify_typed; [done|apply is_ptr_Some; lia|].
      intros o Ho. apply typed_set_next; [done|apply is_ptr_Some; lia].
  - intros h Hh. destruct (Nat.eqb_spec n 0); [done|]. apply mkPool_typed; [done|].
    apply is_ptr_Some. lia.
Qed.

Section Typing.
Context `{BuildMode}.
Variable n : nat.

Lemma alloc_typed p :
  typed_pool n p → returns (λ r, (r.1 < n)%nat ∧ typed_pool n r.2) (alloc p).
Proof. intros Hp. unfold alloc. ret_auto. split; simpl; auto with typing. Qed.

Lemma free_typed p o : typed_pool n p → is_ptr n o → returns (typed_pool n) (free p o).
Proof. intros Hp Ho. unfold free. ret_auto. auto with typing. Qed.

#[local] Abbreviation typed_hl := (λ r : heap * PriceLevel, typed_heap n r.1 ∧ typed_level n r.2).

Lemma set_head_typed l p : typed_level n l → is_ptr n p → typed_level n (set_head p l).
Proof. intros. typed_record. Qed.
Lemma set_tail_typed l p : typed_level n l → is_ptr n p → typed_level n (set_tail p l).
Proof. intros. typed_record. Qed.
Lemma set_total_typed l z : typed_level n l → typed_level n (set_total (u64 z) l).
Proof. intros []. constructor; simpl; auto with typing. Qed.
Lemma set_count_typed l z : typed_level n l → typed_level n (set_count (u32 z) l).
Proof. intros []. constructor; simpl; auto with typing. Qed.
Hint Resolve set_head_typed set_tail_typed set_total_typed set_count_typed : typing.

(** Update a neighbour if there is one, an end of the level otherwise. *)
Lemma neighbour_typed h l p (f : Order → Order) l' :
  typed_heap n h → typed_level n l → typed_level n l' → is_ptr n p →
  (∀ o, typed_order n o → typed_order n (f o)) →
  returns typed_hl
    (match p with
     | Some a => h ← modify h (Some a) f; Ok (h, l)
     | None => Ok (h, l')
     end).
Proof. intros Hh Hl Hl' Hp Hf. destruct p; [|done]. ret_auto. done. Qed.

Lemma add_order_typed h l o :
  typed_heap n h → typed_level n l → is_ptr n o → returns typed_hl (add_order h l o).
Proof.
  intros Hh Hl Ho. unfold add_order. ret_auto.
  eapply returns_bind; [apply neighbour_typed; auto with typing|].
  intros [h' l'] [Hh' Hl']. simpl in *. ret_auto. split; simpl; auto 6 with typing.
Qed.

Lemma remove_order_typed h l o :
  typed_heap n h → typed_level n l → is_ptr n o → returns typed_hl (remove_order h l o).
Proof.
  intros Hh Hl Ho. unfold remove_order. ret_auto.
  eapply returns_bind; [apply neighbour_typed; eauto with typing|].
  intros [h1 l1] [Hh1 Hl1]. simpl in *. ret_auto.
  eapply returns_bind; [apply neighbour_typed; eauto with typing|].
  intros [h2 l2] [Hh2 Hl2]. simpl in *. ret_auto. split; simpl; auto 6 with typing.
Qed.

Lemma reduce_shares_typed h l o k :
  typed_heap n h → typed_level n l → is_ptr n o → returns typed_hl (reduce_shares h l o k).
Proof.
  intros Hh Hl Ho. unfold reduce_shares. ret_auto. split; simpl; auto 6 with typing.
Qed.

#[local] Hint Resolve alloc_typed free_typed add_order_typed remove_order_typed reduce_shares_typed
  : typing.

(** ** The book *)
Lemma typed_heap_of b : typed_book n b → typed_heap n (heap_of b).
Proof. intros [[]]. done. Qed.

Lemma level_at_typed lv i :
  typed_levels n lv → returns (λ l, typed_level n l ∧ 0 ≤ i < kLevels) (level_at lv i).
Proof.
  intros Hlv. unfold level_at, in_range. destruct (Z.leb_spec 0 i), (Z.ltb_spec i kLevels); try done.
  split; [|done]. rewrite lookup_total_alt. destruct (lv !! i) as [l|] eqn:E; simpl.
  - by apply Hlv in E as [_ ?].
  - apply typed_level_default.
Qed.

Lemma typed_levels_insert lv i l :
  typed_levels n lv → typed_level n l → 0 ≤ i < kLevels → typed_levels n (<[i := l]> lv).
Proof. intros. by apply map_Forall_insert_2. Qed.

Lemma typed_map_insert m ref a :
  typed_map n m → is_u64 ref → (a < n)%nat → typed_map n (<[ref := a]> m).
Proof. intros. by apply map_Forall_insert_2. Qed.

Lemma typed_map_delete m ref : typed_map n m → typed_map n (delete ref m).
Proof. apply map_Forall_delete. Qed.

Lemma typed_map_lookup m ref a : typed_map n m → m !! ref = Some a → is_ptr n (Some a).
Proof. intros Hm E. apply is_ptr_Some. by apply Hm in E as [_ ?]. Qed.

Lemma typed_set_heap b h : typed_book n b → typed_heap n h → typed_book n (set_heap h b).
Proof. intros [[] ] ?. constructor; [by constructor|done..]. Qed.
Lemma typed_set_pool b p : typed_book n b → typed_pool n p → typed_book n (set_pool p b).
Proof. intros. typed_record. Qed.
Lemma typed_set_bids b lv : typed_book n b → typed_levels n lv → typed_book n (set_bid_levels lv b).
Proof. intros. typed_record. Qed.
Lemma typed_set_asks b lv : typed_book n b → typed_levels n lv → typed_book n (set_ask_levels lv b).
Proof. intros. typed_record. Qed.
Lemma typed_set_map b m : typed_book n b → typed_map n m → typed_book n (set_order_map m b).
Proof. intros. typed_record. Qed.
Lemma typed_set_bid_ref b z : typed_book n b → is_u32 z → typed_book n (set_bid_ref z b).
Proof. intros. typed_record. Qed.
Lemma typed_set_ask_ref b z : typed_book n b → is_u32 z → typed_book n (set_ask_ref z b).
Proof. intros. typed_record. Qed.
Lemma typed_set_best_bid b i : typed_book n b → is_idx i → typed_book n (set_best_bid i b).
Proof. intros. typed_record. Qed.
Lemma typed_set_best_ask b i : typed_book n b → is_idx i → typed_book n (set_best_ask i b).
Proof. intros. typed_record. Qed.
Lemma typed_set_open b v : typed_book n b → typed_book n (set_open v b).
Proof. intros. typed_record. Qed.
#[local] Hint Resolve typed_heap_of level_at_typed typed_levels_insert typed_map_insert
  typed_map_delete typed_map_lookup typed_set_heap typed_set_pool typed_set_bids typed_set_asks
  typed_set_map typed_set_bid_ref typed_set_ask_ref typed_set_best_bid typed_set_best_ask
  typed_set_open : typing.

Lemma scan_levels_typed lv fuel i : returns is_idx (scan_levels lv fuel i).
Proof.
  revert i. induction fuel as [|fuel IH]; intros i; simpl; [done|].
  unfold level_at. destruct (in_range i) eqn:Hi; simpl; [|done].
  destruct (level_empty _); simpl; [apply IH|by apply is_idx_in_range].
Qed.
#[local] Hint Resolve scan_levels_typed : typing.

Lemma advance_best_bid_typed b : typed_book n b → returns (typed_book n) (advance_best_bid b).
Proof. intros Hb. unfold advance_best_bid. ret_auto. auto with typing. Qed.

Lemma advance_best_ask_typed b : typed_book n b → returns (typed_book n) (advance_best_ask b).
Proof. intros Hb. unfold advance_best_ask. ret_auto. auto with typing. Qed.
#[local] Hint Resolve advance_best_bid_typed advance_best_ask_typed : typing.

(** Out of the array: the access itself is the fault. *)
Lemma insert_at_outside b o i :
  typed_book n b → (o < n)%nat → in_range i = false → insert_at b o i = Fault OutOfRange.
Proof.
  intros Hb Ho Hi. destruct (lookup_lt_is_Some_2 (heap_of b) o) as [c Hc].
  { by rewrite (th_length n) by auto with typing. }
  unfold insert_at, level_at. heap_step. rewrite (deref_ok _ _ (set_level_idx i c)).
  - rewrite Hi. simpl. by destruct (_ =? _).
  - apply list_lookup_insert_eq. by eapply lookup_lt_Some.
Qed.

Lemma insert_at_typed b o i :
  typed_book n b → (o < n)%nat → returns (typed_book n) (insert_at b o i).
Proof.
  intros Hb Ho. destruct (in_range i) eqn:Hi; [|by rewrite insert_at_outside].
  unfold insert_at. ret_auto; case_match; eauto 8 with typing.
Qed.
#[local] Hint Resolve insert_at_typed : typing.

(** Every address a loop over the map visits is in the slab. *)
Lemma entries_typed it b e :
  typed_book n b → e ∈ entries it (order_map b) → (e.2 < n)%nat.
Proof.
  intros Hb He. rewrite (entries_perm it (order_map b)) in He. destruct e as [ref a].
  apply elem_of_map_to_list in He. by apply (tb_map n b Hb) in He as [_ ?].
Qed.

Lemma recentre_bids_typed it b r :
  typed_book n b → is_u32 r → returns (typed_book n) (recentre_bids it b r).
Proof.
  intros Hb Hr. unfold recentre_bids. cbv zeta. apply returns_foldM; [auto 6 with typing|].
  intros b' e He Hb'. assert (e.2 < n)%nat by by apply (entries_typed it b).
  ret_auto; auto with typing.
Qed.

Lemma recentre_asks_typed it b r :
  typed_book n b → is_u32 r → returns (typed_book n) (recentre_asks it b r).
Proof.
  intros Hb Hr. unfold recentre_asks. cbv zeta. apply returns_foldM; [auto 6 with typing|].
  intros b' e He Hb'. assert (e.2 < n)%nat by by apply (entries_typed it b).
  ret_auto; auto with typing.
Qed.

(** The price of a new order becomes the reference of an empty side or of one it is out of. *)
Lemma recentred_typed it b p i k (recentre : IterOrder → OrderBook → Z → outcome OrderBook) idx :
  typed_book n b → is_u32 p →
  (∀ b, typed_book n b → returns (typed_book n) (recentre it b p)) →
  (∀ b, returns (λ _, True) (idx b p)) →
  returns (λ r : OrderBook * Z, typed_book n r.1)
    (if (i <? 0) || (k <=? i) then
       b ← recentre it b p;
       idx ← idx b p;
       Ok (b, idx)
     else Ok (b, i)).
Proof.
  intros Hb Hp Hrec Hidx. destruct (_ || _); [|done].
  eapply returns_bind; [by apply Hrec|]. intros b' Hb'.
  eapply returns_bind; [apply Hidx|]. by intros.
Qed.

Lemma insert_order_typed it b o :
  typed_book n b → (o < n)%nat → returns (typed_book n) (insert_order it b o).
Proof.
  intros Hb Ho. unfold insert_order.
  eapply returns_bind; [by eauto with typing|]. intros c Hc. pose proof (to_price n c Hc).
  destruct (_ =? ch_B); cbv zeta; (eapply returns_bind; [apply returns_int_result|]); intros i _;
    (eapply returns_bind;
      [apply recentred_typed; [case_match; auto with typing|done| |intros; apply returns_int_result];
       intros; by apply recentre_bids_typed || apply recentre_asks_typed|]);
    intros [b' i'] Hb'; simpl in Hb'; ret_auto; auto with typing.
Qed.
#[local] Hint Resolve insert_order_typed : typing.

Lemma book_remove_order_typed b o :
  typed_book n b → (o < n)%nat → returns (typed_book n) (book_remove_order b o).
Proof.
  intros Hb Ho. unfold book_remove_order. ret_auto.
  apply (returns_bind (typed_book n)); [|intros b' Hb']; ret_auto; eauto 12 with typing.
Qed.

Lemma book_reduce_shares_typed b o k :
  typed_book n b → (o < n)%nat → returns (typed_book n) (book_reduce_shares b o k).
Proof. intros Hb Ho. unfold book_reduce_shares. ret_auto; eauto 12 with typing. Qed.

Lemma make_order_typed p ref sh pr sd :
  typed_pool n p → is_u64 ref → is_u32 sh → is_u32 pr → is_byte sd →
  returns (λ r, (r.1 < n)%nat ∧ typed_pool n r.2) (make_order p ref sh pr sd).
Proof.
  intros Hp Hr Hs Hpr Hsd. unfold make_order. ret_auto. split; [done|]. eauto 8 with typing.
Qed.
#[local] Hint Resolve book_remove_order_typed book_reduce_shares_typed make_order_typed : typing.

(** ** Handlers *)
Lemma on_system_event_typed it b m :
  typed_book n b → returns (typed_book n) (on_system_event it b m).
Proof.
  intros Hb. unfold on_system_event. ret_auto; auto with typing.
  apply (returns_bind (typed_heap n)).
  - apply returns_foldM; [by auto with typing|]. intros h e He Hh.
    assert (e.2 < n)%nat by by apply (entries_typed it b). ret_auto.
  - intros h Hh. eapply returns_bind; [apply OrderPool_new_typed|]. intros p Hp.
    simpl. apply typed_set_pool; [eauto 12 with typing|].
    replace n with (pool_capacity (mkPool h (free_head (pool b)))); [done|]. by destruct Hh.
Qed.

Lemma add_typed it b ref sh pr sd :
  typed_book n b → is_u64 ref → is_u32 sh → is_u32 pr → is_byte sd →
  returns (typed_book n)
    ('(o, p) ← make_order (pool b) ref sh pr sd;
     b ← insert_order it (set_pool p b) o;
     Ok (set_order_map (<[ref := o]> (order_map b)) b)).
Proof. intros Hb Hr Hs Hp Hsd. ret_auto. eauto 8 with typing. Qed.

Lemma reduce_typed b ref k :
  typed_book n b →
  returns (typed_book n)
    (match order_map b !! ref with
     | None => Ok b
     | Some o =>
         b ← book_reduce_shares b o k;
         c ← deref (heap_of b) (Some o);
         if shares c =? 0 then
           b ← book_remove_order b o;
           let b := set_order_map (delete ref (order_map b)) b in
           p ← free (pool b) (Some o);
           Ok (set_pool p b)
         else Ok b
     end).
Proof.
  intros Hb. destruct (order_map b !! ref) as [o|] eqn:E; [|done].
  assert (o < n)%nat by by apply (typed_map_lookup _ _ _ (tb_map n b Hb) E). ret_auto; auto with typing.
Qed.

Lemma on_delete_typed b m : typed_book n b → returns (typed_book n) (on_delete b m).
Proof.
  intros Hb. unfold on_delete. destruct (order_map b !! _) as [o|] eqn:E; [|done].
  assert (o < n)%nat by by apply (typed_map_lookup _ _ _ (tb_map n b Hb) E). ret_auto. auto with typing.
Qed.

Lemma on_replace_typed it b m : typed_book n b → returns (typed_book n) (on_replace it b m).
Proof.
  intros Hb. unfold on_replace. destruct (order_map b !! _) as [o|] eqn:E; [|done].
  assert (o < n)%nat by by apply (typed_map_lookup _ _ _ (tb_map n b Hb) E).
  ret_auto. eauto 8 with typing.
Qed.

Lemma dispatch_typed it b m :
  typed_book n b → typed_message m → returns (typed_book n) (dispatch it b m).
Proof.
  intros Hb [->|Hm]; [done|]. destruct m; simpl; try done.
  - by apply on_system_event_typed.
  - unfold on_add. destruct (negb _); [done|]. apply add_typed; auto with typing.
    apply Hm.
  - unfold on_add_mpid. destruct (negb _); [done|]. apply add_typed; auto with typing.
    apply Hm.
  - by apply reduce_typed.
  - by apply reduce_typed.
  - by apply reduce_typed.
  - by apply on_delete_typed.
  - by apply on_replace_typed.
Qed.

Lemma run_book_typed b ms :
  typed_book n b → Forall (λ e, typed_message e.2) ms → returns (typed_book n) (run_book b ms).
Proof.
  intros Hb Hms. apply returns_foldM; [done|]. intros b' e He Hb'. apply dispatch_typed; [done|].
  by eapply Forall_forall in Hms.
Qed.

Lemma best_bid_offer_typed b : typed_book n b → returns typed_bbo (best_bid_offer b).
Proof.
  intros Hb. unfold best_bid_offer, price_from_bid_idx, price_from_ask_idx.
  apply (returns_bind typed_bbo); [|intros q Hq].
  - ret_auto; constructor; split; simpl; auto using is_u32_0, u32_typed.
  - destruct Hq as [[] []]. ret_auto; constructor; split; simpl; auto using is_u32_0, u32_typed.
Qed.

End Typing.

Lemma new_book_typed cap : returns (typed_book cap) (OrderBook_new cap).
Proof.
  unfold OrderBook_new. eapply returns_bind; [apply OrderPool_new_typed|]. intros p Hp. simpl.
  by constructor; auto with typing.
Qed.

(** ** Files *)
Lemma split_frames_bytes fuel bs : Forall is_byte bs → Forall (Forall is_byte) (split_frames fuel bs).
Proof.
  revert bs. induction fuel as [|fuel IH]; intros bs Hb; [done|].
  destruct bs as [|hi [|lo rest]]; [done..|]. cbn [split_frames]. cbn zeta.
  rewrite !Forall_cons in Hb. destruct Hb as (_ & _ & Hb). case_match; [done|].
  constructor; [by apply Forall_take|]. by apply IH, Forall_drop.
Qed.

Lemma parse_body_typed bs : Forall is_byte bs → typed_message (parse_body bs).
Proof.
  intros Hb. destruct (decide (is_monostate (parse_body bs) = true)) as [E|E].
  - left. by destruct (parse_body bs).
  - right. eapply (parse_faithful bs); [done|apply parse_body_ok|]. intros Hm. by rewrite Hm in E.
Qed.

Lemma file_messages_typed bytes : Forall is_byte bytes → Forall typed_message (file_messages bytes).
Proof.
  intros Hb. unfold file_messages, unread. apply Forall_fmap.
  eapply Forall_impl; [by apply split_frames_bytes, Forall_drop|]. intros bs. apply parse_body_typed.
Qed.

(** Everything popped from the queue, and so everything dispatched, is typed. *)
Lemma pipe_typed `{BuildMode} capacity bytes b0 s :
  Forall is_byte bytes → pinv capacity bytes b0 s →
  Forall typed_message (popped (queue s)) ∧ Forall (λ e, typed_message e.2) (booked s).
Proof.
  intros Hb Hi. assert (Hpop : Forall typed_message (popped (queue s))).
  { destruct (prefix_file _ _ _ _ Hi) as [rest Hrest]. pose proof (file_messages_typed bytes Hb) as Hms.
    rewrite Hrest in Hms. by apply Forall_app in Hms as [? _]. }
  split; [done|]. apply (Forall_fmap snd typed_message (booked s)).
  assert (Hpre : ∃ rest, popped (queue s) = (booked s).*2 ++ rest).
  { destruct (bphase s) eqn:E; try (eexists; apply (pi_booked _ _ _ _ Hi); by rewrite E).
    pose proof (pi_pc _ _ _ _ Hi) as Hpc. unfold book_pc_ok in Hpc. rewrite E in Hpc.
    destruct Hpc as (it & m & _ & Hpc). by eexists. }
  destruct Hpre as [rest Hpre]. rewrite Hpre in Hpop. by apply Forall_app in Hpop as [? _].
Qed.

(** ** Theorems *)

(** C9. Type preservation and memory safety.  Whatever the file, the sizes of the pool and of
    the ring and the interleaving of the two threads, in either build: in every state the
    program can reach, every field of the book, of its levels and of its orders is within
    its C++ type, every pointer is null or inside the slab, every stored index is -1 or
    inside the array, and so are the fields of the best bid and offer; and if the book
    thread dies (an assertion, a null pointer, an index out of the array, an overflow), it
    is never by following a pointer outside the slab. *)
Theorem any_file_typed `{BuildMode} capacity init bytes cap b0 s :
  static_assert_pow2 capacity = true → 1 < capacity ≤ 2 ^ 63 →
  Z.of_nat (length init) = capacity → size_ok bytes → Forall is_byte bytes →
  OrderBook_new cap = Ok b0 → psteps capacity (pipe_new init bytes b0) s →
  typed_book cap (book s) ∧ returns typed_bbo (best_bid_offer (book s)) ∧
  ∀ e, bphase s = BCrash e → e ≠ BadPointer.
Proof.
  intros Hpow Hcap Hinit Hs Hb Hb0 Hst. assert (Hc : 0 < capacity ≤ 2 ^ 63) by lia.
  pose proof (psteps_inv capacity Hpow Hc bytes b0 Hs Hb _ _
    (pipe_new_inv capacity Hc bytes b0 init Hinit) Hst) as Hi.
  destruct (pipe_typed _ _ _ _ Hb Hi) as [Hpop Hbk].
  pose proof (new_book_typed cap) as Hb'. rewrite Hb0 in Hb'. simpl in Hb'.
  pose proof (run_book_typed cap b0 (booked s) Hb' Hbk) as Hbook. rewrite (pi_book _ _ _ _ Hi) in Hbook.
  split; [done|]. split; [by eapply best_bid_offer_typed|].
  intros e Ee. pose proof (pi_pc _ _ _ _ Hi) as Hpc. unfold book_pc_ok in Hpc. rewrite Ee in Hpc.
  destruct Hpc as (it & m & Ed & Em). rewrite Em in Hpop. apply Forall_app in Hpop as [_ Hm].
  inversion_clear Hm as [|? ? Hm' _]. pose proof (dispatch_typed cap it (book s) m Hbook Hm') as Hd.
  by rewrite Ed in Hd.
Qed.

(** ** Witnesses *)
Lemma any_file_typed_witness :
  ∃ s, @psteps release_build 4 sample_start s ∧ typed_book 8 (book s).
Proof.
  destruct (@sample_exit release_build) as (s & Hs & Hx). exists s. split; [exact Hs|].
  apply (@any_file_typed release_build 4 sample_ring sample_file 8 fresh_book s eq_refl ltac:(lia)
    eq_refl sample_file_size sample_file_bytes fresh_book_new Hs).
Defined.
