(* ===== verification/TestLobster.v ===== *)
(** * The validator's and the analytics' unit tests (test/test_lobster_validate.cpp)

    [SyntheticPerfectMatch]: the test builds an ITCH file of three messages, prints the
    matching LOBSTER row with [fprintf], loads it back and replays the file on a book of the
    default pool.  [BasicMetrics]: the metrics of a book of two orders.  Files are byte lists;
    the temporary names and the cleanup are left out, and the writes succeed.
    EXPECT_DOUBLE_EQ, which allows four units in the last place, is modelled as equality.

    Proved: both tests pass in both builds, whatever the hash map's iteration order. *)

From S2P Require Import Prelude Bytes Messages Parser TestParser Reader Order PriceLevel OrderBook BookInv BookWf.
From S2P Require Import BookHandlers Dispatch Samples BookSpec Depth BookTheorems Spsc SpscConc.
From S2P Require Import Pipeline PipelineTheorems Double Rounding Analytics Lobster LobsterCsv Printf.
From S2P Require Import FileOpen Validate.
From Stdlib Require Import SpecFloat.
From Stdlib Require String.
Import String.StringSyntax.

#[local] Open Scope string_scope.
#[local] Open Scope list_scope.
#[local] Open Scope Z_scope.

(** ** Helpers *)

(** [append_msg]: the big-endian length, then the struct. *)
Definition append_msg {T} `{Packed T} (buf : list Z) (msg : T) : list Z :=
  let bytes := l_write (packed_layout T) msg in
  buf ++ le_store 2 (h2be16 (Z.of_nat (length bytes) mod 2 ^ 16)) ++ bytes.

(** [%.0f]: no decimal point. *)
Definition printf_f0 (nan : text) (x : double) : text := List.filter (λ c, negb (c =? 46)) (printf_f nan 0 x).

(** One column group of the order book file; [nan] as in [printf_f]. *)
Definition level_columns (nan : text) (ask_px ask_sz bid_px bid_sz : Z) : text :=
  printf_f nan 4 (ddiv (double_of ask_px) (double_of 10000)) ++ str "," ++ printf_f0 nan (double_of ask_sz) ++ str "," ++
  printf_f nan 4 (ddiv (double_of bid_px) (double_of 10000)) ++ str "," ++ printf_f0 nan (double_of bid_sz).

(** [write_lobster_files]: the contents of the message file and of the order book file. *)
Definition write_lobster_files (nan : text) (ts_s : double) (ask_px ask_sz bid_px bid_sz : list Z) (depth : nat)
  : text * text :=
  (printf_f nan 9 ts_s ++ str ",1,1,100,1500000,1" ++ newline,
   concat ((λ i, level_columns nan (ask_px !!! i) (ask_sz !!! i) (bid_px !!! i) (bid_sz !!! i) ++
                 if (S i <? depth)%nat then str "," else []) <$> seq 0 depth) ++ newline).

(** ** The tests *)
Definition snap_ns : Z := 100000000.

Definition synthetic_itch : list Z :=
  let sys := mkSystemEvent (mkHeader ch_S 0 0 (write_ts 1000000)) ch_O in
  let bid := mkAddOrder (mkHeader ch_A 0 0 (write_ts (snap_ns - 10))) (h2be64 1) ch_B (h2be32 500)
               (replicate 8 0) (h2be32 1500000) in
  let ask := mkAddOrder (mkHeader ch_A 0 0 (write_ts snap_ns)) (h2be64 2) ch_S (h2be32 300)
               (replicate 8 0) (h2be32 1500100) in
  append_msg (append_msg (append_msg [] sys) bid) ask.

Definition synthetic_files (nan : text) : text * text :=
  write_lobster_files nan (ddiv (double_of snap_ns) (double_of (10 ^ 9)))
    (pad10 [1500100]) (pad10 [300]) (pad10 [1500000]) (pad10 [500]) 10.

(** What follows a call that may end the process. *)
Definition io_map {A B} (f : A → B) (r : io A) : io B :=
  match r with Returned a => Returned (f a) | AbortedWith err => AbortedWith err end.

(** ASSERT_TRUE on a failed load ends the test.  [path] is the temporary name. *)
Definition SyntheticPerfectMatch `{BuildMode} (nan : text) (path : String.string) (it : nat → IterOrder)
  : outcome (io bool) :=
  let '(msg_file, ob_file) := synthetic_files nan in
  '(loaded, v) ← load validator_new (Some ob_file) (Some msg_file);
  if negb loaded then Ok (Returned false) else
  book ← OrderBook_new kPoolSize;
  r ← validate it (snapshots_ v) book path (Some (whole_file synthetic_itch)) (Some []);
  Ok (io_map (λ '(_, n, _), (length (snapshots_ v) =? 1)%nat && (n =? 0)) r).

(** The test on files that need not be there: skipped without the order book file; the ITCH
    file is opened by the reader, which aborts if it cannot load it. *)
Inductive test_result := Passed | Failed | Skipped.

Definition itch_bin : String.string := "data/01302012.NASDAQ_ITCH50".

Definition RealData_DISABLED `{BuildMode} (it : nat → IterOrder) (ob_file msg_file : option (list Z))
    (itch_file : option File) : outcome (io test_result) :=
  match ob_file with
  | None => Ok (Returned Skipped)
  | Some _ =>
      '(loaded, v) ← load validator_new ob_file msg_file;
      if negb loaded then Ok (Returned Failed) else
      book ← OrderBook_new kPoolSize;
      r ← validate it (snapshots_ v) book itch_bin itch_file (Some []);
      Ok (io_map (λ '(_, n, _), if n =? 0 then Passed else Failed) r)
  end.

(** [EXPECT_NEAR(x, y, eps)] *)
Definition near (x y eps : double) : bool := negb (dlt eps (SFabs (dsub x y))).

Definition BasicMetrics `{BuildMode} (it : nat → IterOrder) : outcome bool :=
  book ← OrderBook_new 64;
  book ← on_system_event (it 0%nat) book (mkSystemEvent (mkHeader ch_S 0 0 (replicate 6 0)) ch_O);
  let make_add side price shares ref :=
    mkAddOrder (mkHeader ch_A 0 0 (replicate 6 0)) (h2be64 ref) side (h2be32 shares) (replicate 8 0) (h2be32 price) in
  book ← on_add (it 1%nat) book (make_add ch_B 1500000 200 1);
  book ← on_add (it 2%nat) book (make_add ch_S 1500100 100 2);
  spread ← spread book;
  mid ← mid_price book;
  ofi ← order_flow_imbalance book;
  Ok (deq spread (double_of 100) && deq mid (double_of 1500050) &&
      near ofi (ddiv (double_of 1) (double_of 3)) (decimal 1 (-9)) &&
      deq (vwap book ch_B 1) (double_of 1500000) && deq (vwap book ch_S 1) (double_of 1500100) &&
      (visible_qty book ch_B 5 =? 200) && (visible_qty book ch_S 5 =? 100)).

(** ** Lemmas *)
Definition synthetic_snapshot : LobsterSnapshot :=
  mkSnapshot snap_ns (pad10 [1500100]) (pad10 [300]) (pad10 [1500000]) (pad10 [500]).

(** The printed row is read back as the snapshot it shows. *)
Lemma synthetic_load nan :
  load validator_new (Some (synthetic_files nan).2) (Some (synthetic_files nan).1) =
    Ok (true, mkValidator [synthetic_snapshot] [snap_ns]).
Proof. vm_compute. reflexivity. Qed.

Lemma synthetic_snapshot_ok : Forall snapshot_ok [synthetic_snapshot].
Proof. repeat constructor; vm_compute; congruence. Qed.

Lemma synthetic_itch_ok :
  Forall is_byte synthetic_itch ∧ size_ok synthetic_itch ∧
  good_feed 8 1496000 1496000 empty_sbook (file_messages synthetic_itch) = true ∧
  (spec_validate empty_sbook (file_messages synthetic_itch) [synthetic_snapshot]).2 = [].
Proof.
  split_and!; [|by vm_compute..].
  assert (H : forallb (λ b, (0 <=? b) && (b <? 256)) synthetic_itch = true) by (vm_compute; reflexivity).
  apply Forall_forall. intros b Hb%list_elem_of_In. pose proof (proj1 (forallb_forall _ _) H b Hb) as Hr.
  apply andb_true_iff in Hr as [?%Z.leb_le ?%Z.ltb_lt]. by split.
Qed.

(** Replaying on a fresh book of the default pool. *)
Lemma replay_fresh `{BuildMode} lo_bid lo_ask it path f snaps out :
  readable f → Forall snapshot_ok snaps →
  good_feed kPoolSize lo_bid lo_ask empty_sbook (file_messages (contents f)) = true →
  ∃ b0 b, OrderBook_new kPoolSize = Ok b0 ∧
    let l := (spec_validate empty_sbook (file_messages (contents f)) snaps).2 in
    validate it snaps b0 path (Some f) out = Ok (Returned (b, u64 (Z.of_nat (length l)), push_all out l)).
Proof.
  intros Hr Hsn Hg. destruct (new_book_ok kPoolSize) as [b0 E0]; [pose proof kPoolSize_value; lia|].
  pose proof (validate_ok kPoolSize lo_bid lo_ask it path f snaps b0 out Hr E0
    ltac:(rewrite kPoolSize_value; lia) Hg Hsn) as Hval.
  destruct (spec_validate _ _ _) as [s l]. destruct Hval as (b & E & _). exists b0, b. exact (conj E0 E).
Qed.

(** At most twenty mismatches per snapshot. *)
Lemma spec_compare_all_length m snaps :
  Z.of_nat (length (spec_compare_all m snaps)) ≤ 20 * Z.of_nat (length snaps).
Proof.
  unfold spec_compare_all. induction snaps as [|sn snaps IH]; [done|].
  rewrite fmap_cons. cbn [concat]. rewrite length_app. pose proof (spec_compare_length m sn). unfold kDepth in *.
  cbn [length]. lia.
Qed.

Lemma split_due_length due (snaps d r : list LobsterSnapshot) :
  split_due due snaps = (d, r) → length snaps = (length d + length r)%nat.
Proof.
  revert d. induction snaps as [|sn snaps IH]; intros d E; simpl in E; [by injection E as <- <-|].
  destruct (due sn); [|by injection E as <- <-]. destruct (split_due due snaps) as [d' r'].
  injection E as <- <-. simpl. by rewrite (IH d' eq_refl).
Qed.

Lemma spec_validate_length s ms snaps :
  Z.of_nat (length (spec_validate s ms snaps).2) ≤ 20 * Z.of_nat (length snaps).
Proof.
  revert s snaps. induction ms as [|m ms IH]; intros s snaps.
  - destruct snaps; [done|apply spec_compare_all_length].
  - destruct snaps as [|sn snaps]; [done|]. cbn [spec_validate].
    destruct (split_due _ (sn :: snaps)) as [d r] eqn:Ed.
    specialize (IH (spec_step s m) r). destruct (spec_validate (spec_step s m) ms r) as [s' l]. cbn [snd] in *.
    rewrite length_app. pose proof (spec_compare_all_length (s_orders (spec_step s m)) d).
    pose proof (split_due_length _ _ _ _ Ed). cbn [length] in *. lia.
Qed.

(** ** Theorems *)
(** C24. Validation from files to the verdict.  On the two CSV files written from the true depth
    snapshots and an ITCH file whose messages are a good feed, the test passes exactly when
    the abstract book, replayed message by message, agrees with every snapshot at its time:
    loading, replay and comparison add no mismatch and lose none, in both builds and whatever
    the hash map's iteration order.  When the ITCH file cannot be opened, is empty or is
    short, the test process aborts with the reader's message.  Without the order book file
    the test is skipped, whatever the others. *)
Theorem validation_end_to_end `{BuildMode} lo_bid lo_ask it tail ss :
  Forall (λ c, c ≠ 10) tail → (length tail < 400)%nat → Forall csv_ok ss → ss ≠ [] →
  Z.of_nat (length ss) < 2 ^ 59 →
  (∀ f, readable f → good_feed kPoolSize lo_bid lo_ask empty_sbook (file_messages (contents f)) = true →
   RealData_DISABLED it (Some (book_csv ss)) (Some (messages_csv tail ss)) (Some f) =
     Ok (Returned (if bool_decide ((spec_validate empty_sbook (file_messages (contents f)) ss).2 = [])
                   then Passed else Failed))) ∧
  (∀ f err, unreadable itch_bin f err →
   RealData_DISABLED it (Some (book_csv ss)) (Some (messages_csv tail ss)) f = Ok (AbortedWith err)) ∧
  (∀ msg f, RealData_DISABLED it None msg f = Ok (Returned Skipped)).
Proof.
  intros Ht Hlen Hss Hne Hn. unfold RealData_DISABLED. pose proof (load_files_ok tail ss Ht Hlen Hss Hne) as El.
  assert (Hok : Forall snapshot_ok ss) by (eapply Forall_impl; [exact Hss|]; intros s Hs; apply Hs).
  split; [|split; [|done]].
  2: { intros f err Hu. rewrite El, bind_ok. cbn [negb snapshots_]. cbv iota. destruct (new_book_ok kPoolSize) as [b0 ->]; [pose proof kPoolSize_value; lia|].
    by rewrite bind_ok, (validate_unreadable _ _ _ _ _ _ _ Hu Hne). }
  intros f Hr Hg. rewrite El, bind_ok. cbn [negb snapshots_]. cbv iota.
  destruct (replay_fresh lo_bid lo_ask it itch_bin f ss (Some []) Hr Hok Hg) as (b0 & b & E0 & E).
  rewrite E0, bind_ok, E, bind_ok. pose proof (spec_validate_length empty_sbook (file_messages (contents f)) ss) as Hl.
  cbn [io_map]. rewrite u64_small by lia. do 2 f_equal. destruct (spec_validate _ _ _) as [s [|x l]]; cbn [snd length] in *.
  - by rewrite bool_decide_eq_true_2.
  - rewrite bool_decide_eq_false_2 by discriminate. by rewrite (proj2 (Z.eqb_neq _ _)) by lia.
Qed.

(** The synthetic validation and the metrics pass. *)
Theorem lobster_tests_pass `{BuildMode} nan path it :
  SyntheticPerfectMatch nan path it = Ok (Returned true) ∧ BasicMetrics it = Ok true.
Proof.
  split.
  - unfold SyntheticPerfectMatch. pose proof (synthetic_load nan) as El.
    destruct (synthetic_files nan) as [mf obf]. cbn [fst snd] in El. rewrite El, bind_ok. cbn [negb snapshots_].
    destruct synthetic_itch_ok as (Hby & Hsz & Hg & Hv).
    destruct (replay_fresh 1496000 1496000 it path (whole_file synthetic_itch) [synthetic_snapshot] (Some []))
      as (b0 & b & -> & E); [by split|exact synthetic_snapshot_ok|..].
    { cbn [contents whole_file]. eapply good_feed_mono; [|exact Hg]. pose proof kPoolSize_value. lia. }
    cbv zeta in E. cbn [contents whole_file] in E. rewrite Hv in E. by rewrite bind_ok, E.
  - destruct H; vm_compute; reflexivity.
Qed.

(** ** Instances: the sample session and its two snapshots, one of them wrong *)
Lemma validation_end_to_end_witness :
  @RealData_DISABLED debug_build (λ _, iter_backward) (Some (book_csv sample_snapshots))
    (Some (messages_csv sample_tail sample_snapshots)) (Some (whole_file sample_file)) = Ok (Returned Failed) ∧
  @RealData_DISABLED debug_build (λ _, iter_backward) (Some (book_csv sample_snapshots))
    (Some (messages_csv sample_tail sample_snapshots)) None =
      Ok (AbortedWith (str "ITCHFileReader: cannot open 'data/01302012.NASDAQ_ITCH50'" ++ newline)).
Proof.
  destruct (@validation_end_to_end debug_build 1500000 1500000 (λ _, iter_backward) sample_tail sample_snapshots)
    as (E & Ha & _).
  - repeat constructor; discriminate.
  - vm_compute. lia.
  - exact sample_snapshots_csv.
  - discriminate.
  - vm_compute. reflexivity.
  - split; [|exact (Ha None _ (unreadable_missing itch_bin))].
    specialize (E (whole_file sample_file) sample_file_readable).
    cbn [contents whole_file] in E. rewrite sample_file_messages in E. refine (eq_trans (E _) _).
    + rewrite <-sample_file_messages. apply (good_feed_mono 8); [pose proof kPoolSize_value; lia|exact sample_file_feed].
    + vm_compute. reflexivity.
Defined.
