(* ===== verification/Main.v ===== *)
(** * The program (src/main.cpp)

    [main_run] relates the command line, the file system and the outcome of the process:
    exit code and output, an abort with its message, or a crash.  The file system is a
    parameter ([fs]: what [fopen] yields for a path), the reader's constructor is in
    [FileOpen]; the clock and the interleaving of
    the two threads are free, so a command line may have many outcomes.

    Proved: on any readable file there is an outcome; if its messages are a good feed, every
    outcome is exit code 0 and the report of exactly the file's messages, live orders and
    best prices; without a path, or with a file that cannot be read, the program says so and
    stops. *)

From S2P Require Import Prelude Bytes Messages Parser Reader Order PriceLevel OrderBook BookInv BookWf.
From S2P Require Import BookHandlers Dispatch Samples BookSpec Depth BookTheorems Spsc SpscConc.
From S2P Require Import Pipeline PipelineTheorems Lobster Double Rounding LobsterCsv Printf FileOpen.
From Stdlib Require Import String.
From stdpp Require Import strings.

#[local] Open Scope string_scope.
#[local] Open Scope list_scope.
#[local] Open Scope Z_scope.

(** ** Command line *)

(** The loop over [argv], from [argv[1]] on. *)
Fixpoint replay_path (args : list string) (path : option string) : option string :=
  match args with
  | arg :: ((value :: rest) as more) =>
      if decide (arg = "--replay") then replay_path rest (Some value) else replay_path more path
  | _ => path
  end.

Definition usage (argv0 : string) : text :=
  str "Usage: " ++ str argv0 ++ str " --replay <itch-binary-file>" ++ newline ++
  str "  The file must be a raw (decompressed) Nasdaq ITCH 5.0" ++ newline ++
  str "  length-prefixed binary stream." ++ newline.

(** ** Report *)

(** [std::chrono::duration<double>(t_end - t_start).count()], a tick being a nanosecond. *)
Definition seconds (t_start t_end : Z) : double := ddiv (double_of (t_end - t_start)) (double_of (10 ^ 9)).

Definition throughput (booked : Z) (elapsed_s : double) : double :=
  ddiv (ddiv (double_of booked) elapsed_s) (double_of (10 ^ 6)).

Section Report.
(** What the C library prints for a NaN. *)
Variable nan : text.

Definition report (parsed booked t_start t_end live : Z) (bbo : BBO) : text :=
  let elapsed_s := seconds t_start t_end in
  newline ++ str "=== Replay complete ===" ++ newline ++
  str "  Messages parsed : " ++ dec_text parsed ++ newline ++
  str "  Messages booked : " ++ dec_text booked ++ newline ++
  str "  Elapsed         : " ++ printf_f nan 3 elapsed_s ++ str " s" ++ newline ++
  str "  Throughput      : " ++ printf_f nan 2 (throughput booked elapsed_s) ++ str " M msgs/s" ++ newline ++
  str "  Live orders     : " ++ dec_text live ++ newline ++
  (if negb (bid_price bbo =? 0) || negb (ask_price bbo =? 0) then
     str "  Best bid        : $" ++ price_text nan (bid_price bbo) ++
     str "  qty " ++ dec_text (bid_qty bbo) ++ newline ++
     str "  Best ask        : $" ++ price_text nan (ask_price bbo) ++
     str "  qty " ++ dec_text (ask_qty bbo) ++ newline ++
     (if bbo_valid bbo then
        str "  Spread          : $" ++ price_text nan (u32 (ask_price bbo - bid_price bbo)) ++ newline
      else [])
   else str "  BBO             : (empty)" ++ newline).

(** ** Outcomes *)
Inductive exit :=
| Exited (code : Z) (out err : text)
| Aborted (err : text)
| Crashed (e : fault).

(** The default-constructed slots of the queue. *)
Definition queue_slots : list ParsedMessage := replicate (Z.to_nat kQueueCapacity) Monostate.

Variable fs : string → option File.

Context `{BuildMode}.

Inductive main_run (argv0 : string) (args : list string) : exit → Prop :=
| run_usage :
    replay_path args None = None →
    main_run argv0 args (Exited 1 [] (usage argv0))
| run_abort path err :
    replay_path args None = Some path → ITCHFileReader_new path (fs path) = AbortedWith err →
    main_run argv0 args (Aborted err)
| run_crash path r b0 s e :
    replay_path args None = Some path → ITCHFileReader_new path (fs path) = Returned r →
    OrderBook_new kPoolSize = Ok b0 →
    psteps kQueueCapacity (pipe_new queue_slots (buf r) b0) s → bphase s = BCrash e →
    main_run argv0 args (Crashed e)
| run_replay path r b0 s t_start t_end :
    replay_path args None = Some path → ITCHFileReader_new path (fs path) = Returned r →
    OrderBook_new kPoolSize = Ok b0 →
    psteps kQueueCapacity (pipe_new queue_slots (buf r) b0) s → bphase s = BExit → t_start ≤ t_end →
    main_run argv0 args
      (match best_bid_offer (book s) with
       | Ok bbo => Exited 0 (report (p_count s) (b_count s) t_start t_end (book_order_count (book s)) bbo) []
       | Fault e => Crashed e
       end).

End Report.

(** ** Specification *)

Definition price_line (label : string) (p q : Z) : text :=
  str label ++ fixed_text 4 p ++ str "  qty " ++ int_text q ++ newline.

(** What the report must say of a session of [n] messages that leaves [live] orders, of which
    [orders] are in the book's levels, after [ns] nanoseconds: dollars with all four
    decimals, a missing side as zero. *)
Definition spec_report (nan : text) (n : nat) (live : Z) (orders : gmap Z SOrder) (ns : Z) : text :=
  let q := spec_bbo orders in
  let elapsed_s := seconds 0 ns in
  newline ++ str "=== Replay complete ===" ++ newline ++
  str "  Messages parsed : " ++ int_text (Z.of_nat n) ++ newline ++
  str "  Messages booked : " ++ int_text (Z.of_nat n) ++ newline ++
  str "  Elapsed         : " ++ printf_f nan 3 elapsed_s ++ str " s" ++ newline ++
  str "  Throughput      : " ++ printf_f nan 2 (throughput (Z.of_nat n) elapsed_s) ++
  str " M msgs/s" ++ newline ++
  str "  Live orders     : " ++ int_text live ++ newline ++
  (if decide (orders = ∅) then str "  BBO             : (empty)" ++ newline
   else
     price_line "  Best bid        : $" (bid_price q) (bid_qty q) ++
     price_line "  Best ask        : $" (ask_price q) (ask_qty q) ++
     (if bbo_valid q then
        str "  Spread          : $" ++ fixed_text 4 (ask_price q - bid_price q) ++ newline
      else [])).

(** ** Lemmas: the set of live orders *)

(** Live orders as the outside world knows them. *)
Definition sound_orders (m : gmap Z SOrder) : Prop :=
  ∀ ref o, m !! ref = Some o → (∃ sd, s_side o = side_char sd) ∧ 0 < s_price o < 2 ^ 31.

(** The prices and quantities of the best bid and offer fit, and are all zero for no orders. *)
Lemma spec_bbo_range m :
  sound_orders m →
  let q := spec_bbo m in
  (0 ≤ bid_price q < 2 ^ 31 ∧ 0 ≤ ask_price q < 2 ^ 31) ∧
  (0 ≤ bid_qty q < 2 ^ 32 ∧ 0 ≤ ask_qty q < 2 ^ 32) ∧
  (m = ∅ ↔ bid_price q = 0 ∧ ask_price q = 0).
Proof.
  intros Hs q. unfold q, spec_bbo. cbn [bid_price ask_price bid_qty ask_qty].
  assert (Hside : ∀ sd pick, (∀ x y, pick x y = x ∨ pick x y = y) →
    let best := default 0 (best_of pick (prices m sd)) in
    0 ≤ best < 2 ^ 31 ∧ (best = 0 ↔ prices m sd = [])).
  { intros sd pick Hpick. destruct (best_of_elem pick (prices m sd) Hpick) as [[E ->]|(p & -> & Hp)].
    - by rewrite E.
    - simpl. pose proof Hp as (ref & o & Hl & _ & <-)%prices_elem_orders.
      destruct (Hs _ _ Hl) as [_ Hpr]. split; [lia|]. split; [lia|].
      intros E. rewrite E in Hp. by apply not_elem_of_nil in Hp. }
  destruct (Hside ch_B Z.max) as [Hb Hb0]; [lia|]. destruct (Hside ch_S Z.min) as [Ha Ha0]; [lia|].
  assert (Hq : ∀ o sd, 0 ≤ match o with Some p => u32 (depth m sd p) | None => 0 end < 2 ^ 32).
  { intros [p|] sd; [apply u32_range|done]. }
  split; [done|]. split; [by split|]. rewrite Hb0, Ha0. split; [by intros ->|].
  intros [Eb Ea]. apply map_empty. intros ref. destruct (m !! ref) as [o|] eqn:Hl; [|done].
  destruct (Hs _ _ Hl) as [[sd Hsd] _].
  assert (Hin : s_price o ∈ prices m (side_char sd)) by (apply prices_elem_orders; eauto).
  destruct sd; simpl in Hin; rewrite ?Eb, ?Ea in Hin; by apply not_elem_of_nil in Hin.
Qed.

(** Printing the counters and the best bid and offer of a set of orders. *)
Lemma report_spec nan n live m t_start t_end :
  sound_orders m → 0 ≤ live < 2 ^ 32 → Z.of_nat n < 2 ^ 63 →
  report nan (Z.of_nat n) (Z.of_nat n) t_start t_end live (spec_bbo m) = spec_report nan n live m (t_end - t_start).
Proof.
  intros Hs Hl Hn. destruct (spec_bbo_range _ Hs) as ((Hbp & Hap) & (Hbq & Haq) & Hemp).
  unfold report, spec_report, price_line. cbv zeta.
  replace (seconds 0 (t_end - t_start)) with (seconds t_start t_end) by (unfold seconds; do 2 f_equal; lia).
  rewrite !dec_text_int by lia. repeat (apply f_equal). destruct (decide (m = ∅)) as [He|Hne].
  - by destruct (proj1 Hemp He) as [-> ->].
  - replace (negb _ || negb _) with true.
    2:{ symmetry. apply not_false_iff_true. intros Hf. apply Hne, Hemp.
        apply orb_false_iff in Hf as [?%negb_false_iff ?%negb_false_iff]. lia. }
    rewrite !price_text_exact by lia. rewrite <-!app_assoc. repeat (apply f_equal).
    unfold bbo_valid. destruct (_ && _ && _) eqn:Hv; [|done]. repeat (apply f_equal).
    rewrite price_text_exact, u32_small; [done|..]; [|apply u32_range].
    rewrite !andb_true_iff, !Z.ltb_lt in Hv. lia.
Qed.

(** A well-formed book reports sound orders, fewer than its slots. *)
Lemma wf_sound b : wf b → sound_orders (abs_orders b) ∧ 
  book_order_count b = Z.of_nat (size (abs_orders b)) ∧ book_order_count b ≤ Z.of_nat (pool_capacity (pool b)).
Proof.
  intros (q & fs & Hw). pose proof (wf_core _ _ _ Hw) as Hc. split; [|split].
  - intros ref o (a & oc & Hm & Ha & ->)%abs_orders_lookup.
    destruct (co_live _ _ Hc _ _ Hm) as (o' & sd & Ho' & _ & Hsd & Hp & _).
    assert (o' = oc) as -> by congruence. split; [by exists sd|done].
  - unfold book_order_count. by rewrite (abs_orders_size _ q).
  - pose proof (wf_count _ _ _ Hw). unfold book_order_count, pool_capacity, heap_of in *. lia.
Qed.

Lemma pool_size_bound : Z.of_nat kPoolSize < 2 ^ 32.
Proof. rewrite kPoolSize_value. lia. Qed.

Lemma pool_size_pos : (0 < kPoolSize)%nat.
Proof. pose proof kPoolSize_value. lia. Qed.

Lemma queue_capacity_ok : 1 < kQueueCapacity ≤ 2 ^ 63.
Proof. unfold kQueueCapacity. lia. Qed.

Lemma queue_slots_length : Z.of_nat (List.length queue_slots) = kQueueCapacity.
Proof. unfold queue_slots. rewrite length_replicate. apply Z2Nat.id. unfold kQueueCapacity. lia. Qed.

(** The invariant of the two threads, with the program's queue. *)
Lemma main_inv `{BuildMode} bytes :
  size_ok bytes → Forall is_byte bytes → ∀ b0 s, psteps kQueueCapacity (pipe_new queue_slots bytes b0) s →
  pinv kQueueCapacity bytes b0 s.
Proof.
  intros Hs Hb b0 s. pose proof queue_capacity_ok. assert (Hq : 0 < kQueueCapacity ≤ 2 ^ 63) by lia.
  exact (psteps_inv kQueueCapacity eq_refl Hq bytes b0 Hs Hb _ s
    (pipe_new_inv kQueueCapacity Hq bytes b0 queue_slots queue_slots_length)).
Qed.

(** The outcomes once the file is loaded. *)
Lemma main_run_opened `{BuildMode} nan fs argv0 args path r x :
  replay_path args None = Some path → ITCHFileReader_new path (fs path) = Returned r →
  main_run nan fs argv0 args x →
  (∃ b0 s e, OrderBook_new kPoolSize = Ok b0 ∧
     psteps kQueueCapacity (pipe_new queue_slots (buf r) b0) s ∧ bphase s = BCrash e ∧ x = Crashed e) ∨
  (∃ b0 s t_start t_end, OrderBook_new kPoolSize = Ok b0 ∧
     psteps kQueueCapacity (pipe_new queue_slots (buf r) b0) s ∧ bphase s = BExit ∧ t_start ≤ t_end ∧
     x = match best_bid_offer (book s) with
         | Ok bbo => Exited 0 (report nan (p_count s) (b_count s) t_start t_end
                                 (book_order_count (book s)) bbo) []
         | Fault e => Crashed e
         end).
Proof.
  intros Hp Ho Hx. destruct Hx as [E|path' err E E'|path' r' b1 s e E E' Eb Hst Hc
    |path' r' b1 s t0 t1 E E' Eb Hst Hexit Ht]; rewrite Hp in E; [discriminate E|..];
    injection E as <-; rewrite Ho in E'; [discriminate E'|..]; injection E' as <-.
  - left. exists b1, s, e. exact (conj Eb (conj Hst (conj Hc eq_refl))).
  - right. exists b1, s, t0, t1. exact (conj Eb (conj Hst (conj Hexit (conj Ht eq_refl)))).
Qed.

#[local] Opaque queue_slots.

Section Theorems.
Context `{BuildMode} (nan : text) (fs : string → option File).

(** The end of the threads' run on a readable file: an outcome of the program. *)
Lemma main_has_outcome argv0 args path f :
  replay_path args None = Some path → fs path = Some f → readable f → ∃ x, main_run nan fs argv0 args x.
Proof.
  intros Hpath Hf Hr. pose proof (readable_opened path f Hr) as Hopen. rewrite <-Hf in Hopen.
  destruct Hr as [_ _ Hb Hs].
  destruct (new_book_ok kPoolSize pool_size_pos) as [b0 Hb0].
  pose proof (main_inv (contents f) Hs Hb) as Hinv.
  destruct (reach_end kQueueCapacity eq_refl queue_capacity_ok (contents f) Hs Hb b0 _ (Hinv b0 _ (rtc_refl _ _)))
    as (s & Hst & [Hx|[e He]]).
  - eexists. exact (run_replay nan fs argv0 args path (open_reader (contents f)) b0 s 0 0
      Hpath Hopen Hb0 Hst Hx (Z.le_refl 0)).
  - exists (Crashed e). exact (run_crash nan fs argv0 args path (open_reader (contents f)) b0 s e
      Hpath Hopen Hb0 Hst He).
Qed.

(** C4. The program on a readable file.  If the command line names a file that can be read,
    there is an outcome: some run of the threads comes to an end.  If moreover its messages are a good
    feed, every outcome, whatever the interleaving of the threads and the clock, is exit
    code 0 with nothing on the error output and the report that says: all messages parsed,
    all booked, the number of live orders, and the best bid and ask to the last decimal (or
    an empty book exactly when no order is live). *)
Theorem main_reports argv0 args path f :
  replay_path args None = Some path → fs path = Some f → readable f →
  (∃ x, main_run nan fs argv0 args x) ∧
  ∀ lo_bid lo_ask, good_feed kPoolSize lo_bid lo_ask empty_sbook (file_messages (contents f)) = true →
  ∀ x, main_run nan fs argv0 args x → ∃ ns, 0 ≤ ns ∧
    let orders := s_orders (spec_run empty_sbook (file_messages (contents f))) in
    x = Exited 0 (spec_report nan (List.length (file_messages (contents f))) (Z.of_nat (size orders)) orders ns) [].
Proof.
  intros Hpath Hf Hr. split; [by apply (main_has_outcome argv0 args path f)|].
  pose proof (readable_opened path f Hr) as Hopen. rewrite <-Hf in Hopen. destruct Hr as [_ _ Hb Hs].
  destruct (new_book_ok kPoolSize pool_size_pos) as [b0 Hb0]. pose proof (main_inv (contents f) Hs Hb) as Hinv.
  intros lo_bid lo_ask Hfeed x Hx.
  destruct (main_run_opened nan fs argv0 args path _ x Hpath Hopen Hx) as [(b1 & s & e & Eb & Hst & Hc & _)
    |(b1 & s & t0 & t1 & Eb & Hst & Hexit & Ht & ->)]; rewrite Hb0 in Eb; injection Eb as <-.
  - destruct (no_crash kQueueCapacity (contents f) b0 kPoolSize lo_bid lo_ask
      Hb0 pool_size_bound Hfeed s e (Hinv _ _ Hst) Hc).
  - exists (t1 - t0). split; [lia|].
    pose proof (exit_simulates _ _ _ _ _ _ _ (Hinv _ _ Hst) Hexit Hb0 pool_size_bound Hfeed) as Hsm. destruct (si_wf _ _ _ Hsm) as (q & fr & Hw).
    rewrite (best_bid_offer_abs _ q) by (apply Hw || apply Hsm).
    destruct (exit_booked _ _ _ _ (Hinv _ _ Hst) Hexit) as (_ & -> & ->). cbv zeta. f_equal.
    destruct (wf_sound (book s) (si_wf _ _ _ Hsm)) as (Hso & Hcount & Hle).
    rewrite (si_cap _ _ _ Hsm) in Hle. pose proof pool_size_bound. rewrite (si_orders _ _ _ Hsm) in *. rewrite Hcount in *.
    apply (report_spec nan); [exact Hso|lia|exact (file_messages_bound _ Hs)].
Qed.

(** C16. Errors.  Without a path after --replay the only outcome is the usage message and exit
    code 1.  With a file that cannot be opened, is empty (or whose length is unknown), or is
    shorter than announced, the only outcome is an abort with the message of that case, which
    [unreadable] spells: the path, and for a short file both numbers of bytes in decimal. *)
Theorem main_errors argv0 args :
  (replay_path args None = None → ∀ x, main_run nan fs argv0 args x ↔ x = Exited 1 [] (usage argv0)) ∧
  ∀ path err, replay_path args None = Some path → unreadable path (fs path) err →
    ∀ x, main_run nan fs argv0 args x ↔ x = Aborted err.
Proof.
  split.
  - intros E x. split; [|intros ->; by apply run_usage].
    intros Hx. by destruct Hx as [E'|path' err E' _|path' r b1 s e E' _ _ _ _|path' r b1 s t0 t1 E' _ _ _ _ _];
      [|rewrite E in E'; discriminate E'..].
  - intros path err E Ha%unreadable_aborts x. split; [|intros ->; by eapply run_abort].
    intros Hx. destruct Hx as [E'|path' err' E' Hr|path' r b1 s e E' Hr _ _ _|path' r b1 s t0 t1 E' Hr _ _ _ _];
      rewrite E in E'; [discriminate E'|..]; injection E' as <-; rewrite Ha in Hr; [|discriminate Hr..].
    by injection Hr as <-.
Qed.

End Theorems.

(** ** Instances on the sample session *)
Definition sample_fs (p : string) : option File :=
  if decide (p = "itch.bin") then Some (mkFile (Z.of_nat (List.length sample_file)) sample_file)
  else if decide (p = "empty.bin") then Some (mkFile 0 [])
  else if decide (p = "short.bin") then Some (mkFile 25 [0]) else None.

Lemma sample_readable : readable (mkFile (Z.of_nat (List.length sample_file)) sample_file).
Proof. split; [done|done|exact sample_file_bytes|exact sample_file_size]. Qed.

Lemma sample_main_feed :
  good_feed kPoolSize 1500000 1500000 empty_sbook (file_messages sample_file) = true.
Proof.
  apply (good_feed_mono 8); [|exact sample_file_feed]. pose proof kPoolSize_value. lia.
Qed.

(** The report of the sample session when it takes 1.6 microseconds. *)
Lemma sample_report :
  spec_report (str "nan") 10 4 (s_orders sample_state) 1600 =
    newline ++ str "=== Replay complete ===" ++ newline ++
    str "  Messages parsed : 10" ++ newline ++
    str "  Messages booked : 10" ++ newline ++
    str "  Elapsed         : 0.000 s" ++ newline ++
    str "  Throughput      : 6.25 M msgs/s" ++ newline ++
    str "  Live orders     : 4" ++ newline ++
    str "  Best bid        : $150.0050  qty 20" ++ newline ++
    str "  Best ask        : $150.0300  qty 40" ++ newline ++
    str "  Spread          : $0.0250" ++ newline.
Proof. vm_compute. reflexivity. Qed.

Lemma main_reports_witness :
  ∃ x ns, @main_run (str "nan") sample_fs release_build "orderbook" ["--replay"; "itch.bin"] x ∧
    x = Exited 0 (spec_report (str "nan") 10 4 (s_orders sample_state) ns) [].
Proof.
  destruct (@main_reports release_build (str "nan") sample_fs "orderbook" ["--replay"; "itch.bin"]
    "itch.bin" _ eq_refl eq_refl sample_readable) as [[x Hx] Hall].
  destruct (Hall 1500000 1500000 sample_main_feed x Hx) as (ns & _ & E). exists x, ns. split; [exact Hx|]. rewrite E.
  cbn [contents]. rewrite sample_file_messages. reflexivity.
Defined.

Lemma main_errors_witness :
  (∀ x, @main_run [] sample_fs debug_build "orderbook" ["--help"] x ↔
        x = Exited 1 [] (usage "orderbook")) ∧
  (∀ x, @main_run [] sample_fs debug_build "orderbook" ["--replay"; "missing.bin"] x ↔
        x = Aborted (str "ITCHFileReader: cannot open 'missing.bin'" ++ newline)) ∧
  (∀ x, @main_run [] sample_fs debug_build "orderbook" ["--replay"; "empty.bin"] x ↔
        x = Aborted (str "ITCHFileReader: empty or unreadable file 'empty.bin'" ++ newline)) ∧
  ∀ x, @main_run [] sample_fs debug_build "orderbook" ["--replay"; "short.bin"] x ↔
        x = Aborted (str "ITCHFileReader: short read on 'short.bin' (got 1 of 25 bytes)" ++ newline).
Proof.
  split; [|split; [|split]].
  - apply (@main_errors debug_build [] sample_fs "orderbook" ["--help"]). reflexivity.
  - apply (@main_errors debug_build [] sample_fs "orderbook" ["--replay"; "missing.bin"]) with "missing.bin"; [reflexivity|].
    exact (unreadable_missing "missing.bin").
  - apply (@main_errors debug_build [] sample_fs "orderbook" ["--replay"; "empty.bin"]) with "empty.bin"; [reflexivity|].
    exact (unreadable_empty "empty.bin" (mkFile 0 []) ltac:(reflexivity || discriminate)).
  - apply (@main_errors debug_build [] sample_fs "orderbook" ["--replay"; "short.bin"]) with "short.bin"; [reflexivity|].
    exact (unreadable_short "short.bin" (mkFile 25 [0]) ltac:(split; reflexivity)).
Defined.
