(* ===== verification/MainWide.v ===== *)
(** * The program without the price band (src/main.cpp)

    [Main] says what the program reports when the file's prices keep to a band.  Here is
    its outcome on every file whose messages fit the states they meet ([wide_feed] of
    [BookWide]): the abstract book alone decides whether the program ends with a report or
    dies in the book thread, and of which fault, whatever the threads do. *)

From S2P Require Import Prelude Bytes Messages Parser Order PriceLevel OrderBook BookInv BookWf.
From S2P Require Import BookHandlers Dispatch Samples BookSpec Depth BookTheorems BookLimits BookWide.
From S2P Require Import Reader Spsc SpscConc Pipeline PipelineTheorems Printf FileOpen Main.
From Stdlib Require Import String.
From stdpp Require Import strings.

#[local] Open Scope string_scope.
#[local] Open Scope list_scope.
#[local] Open Scope Z_scope.

(** The end of the program on messages [ms], after [ns] nanoseconds. *)
Definition verdict `{BuildMode} (nan : text) (ms : list ParsedMessage) (ns : Z) : exit :=
  match wide_run kPoolSize empty_wbook ms with
  | Ok w => Exited 0 (spec_report nan (List.length ms) (Z.of_nat (size (w_orders w))) (visible w) ns) []
  | Fault e => Crashed e
  end.

(** ** Lemmas: feeds *)
Section Feeds.
Context `{BuildMode}.

Lemma wide_run_app cap w ms1 ms2 :
  wide_run cap w (ms1 ++ ms2) = wide_run cap w ms1 ≫= λ w, wide_run cap w ms2.
Proof. apply foldM_app. Qed.

Lemma wide_feed_prefix cap w ms1 ms2 : wide_feed cap w (ms1 ++ ms2) = true → wide_feed cap w ms1 = true.
Proof.
  revert w. induction ms1 as [|m ms1 IH]; intros w; [done|]. simpl. rewrite !andb_true_iff.
  intros [Hok Hf]. split; [done|]. destruct (wide_step _ _ _); eauto.
Qed.

(** A session shorter than the pool does not feel its size. *)
Lemma wide_step_cap cap cap' w c :
  (size (w_orders w) < cap)%nat → (size (w_orders w) < cap')%nat → wide_step cap w c = wide_step cap' w c.
Proof.
  intros H1 H2. destruct c; try done. simpl. by rewrite !(proj2 (Nat.leb_gt _ _)) by lia.
Qed.

Lemma wide_step_size cap w c w' : wide_step cap w c = Ok w' → (size (w_orders w') ≤ S (size (w_orders w)))%nat.
Proof.
  assert (Hins : ∀ w ref sd p sh, (size (w_orders (wide_insert w ref sd p sh)) ≤ S (size (w_orders w)))%nat).
  { intros w0 ref sd p sh. unfold wide_insert. assert (Hs : (size (<[ref:=mkSOrder sd p sh]> (w_orders w0)) ≤ S (size (w_orders w0)))%nat)
      by (rewrite map_size_insert; case_match; unfold id; lia). by repeat case_match. }
  assert (Hdel : ∀ (m : gmap Z SOrder) ref, (size (delete ref m) ≤ size m)%nat)
    by (intros m ref; rewrite map_size_delete; case_match; unfold id; lia).
  destruct c as [|v| |ref sd p sh|ref n|ref|old new p sh]; simpl; repeat case_match; intros [= <-]; simpl;
    rewrite ?map_size_empty; try lia.
  - apply Hins.
  - pose proof (Hdel (w_orders w) ref). lia.
  - rewrite map_size_insert. case_match; unfold id; lia.
  - pose proof (Hdel (w_orders w) ref). lia.
  - etrans; [apply Hins|]. simpl. by apply le_n_S.
Qed.

Lemma wide_cap cap cap' w ms :
  (size (w_orders w) + List.length ms ≤ cap)%nat → (size (w_orders w) + List.length ms ≤ cap')%nat →
  wide_run cap w ms = wide_run cap' w ms ∧ wide_feed cap w ms = wide_feed cap' w ms.
Proof.
  revert w. induction ms as [|m ms IH]; intros w H1 H2; [done|]. unfold wide_run. simpl in *.
  rewrite (wide_step_cap cap cap') by lia.
  destruct (wide_step cap' w (command_of m)) as [w'|e] eqn:E; [|done].
  pose proof (wide_step_size _ _ _ _ E). destruct (IH w') as [E1 E2]; [lia..|]. rewrite E2. simpl.
  split; [exact E1|done].
Qed.

End Feeds.

(** ** Lemmas: the threads *)
Section Threads.
Context `{BuildMode} (capacity : Z) (bytes : list Z) (b0 : OrderBook) (cap : nat).
Context (Hb0 : OrderBook_new cap = Ok b0) (Hcap : Z.of_nat cap < 2 ^ 32).
Context (Hfeed : wide_feed cap empty_wbook (file_messages bytes) = true).

(** Out of its loops, the program has the book of the whole file. *)
Lemma exit_wide s :
  pinv capacity bytes b0 s → bphase s = BExit →
  ∃ w, wide_run cap empty_wbook (file_messages bytes) = Ok w ∧ tracks_wide cap (book s) w.
Proof.
  intros Hi Hx. destruct (exit_booked _ _ _ _ Hi Hx) as (Hbk & _).
  pose proof (wide_refines_feed b0 empty_wbook (booked s) (wide_new b0 Hb0 Hcap)) as Hr. rewrite Hbk in Hr.
  specialize (Hr Hfeed). rewrite (pi_book _ _ _ _ Hi) in Hr.
  destruct (wide_run cap empty_wbook (file_messages bytes)) as [w|e]; [|done].
  destruct Hr as (b & [= <-] & Hw). by exists w.
Qed.

(** When it dies, the abstract book dies of the same fault. *)
Lemma crash_wide s e :
  pinv capacity bytes b0 s → bphase s = BCrash e → wide_run cap empty_wbook (file_messages bytes) = Fault e.
Proof.
  intros Hi Hx. pose proof (pi_pc _ _ _ _ Hi) as Hpc. unfold book_pc_ok in Hpc. rewrite Hx in Hpc.
  destruct Hpc as (it & m & Hd & Hpop).
  destruct (prefix_file capacity bytes b0 s Hi) as [rest Hfile]. rewrite Hpop in Hfile.
  pose proof (wide_refines_feed b0 empty_wbook (booked s ++ [(it, m)]) (wide_new b0 Hb0 Hcap)) as Hr.
  rewrite fmap_app in Hr. cbn [fmap list_fmap snd] in Hr. rewrite Hfile in Hfeed. specialize (Hr (wide_feed_prefix _ _ _ _ Hfeed)).
  assert (Hrun : run_book b0 (booked s ++ [(it, m)]) = Fault e).
  { unfold run_book in *. rewrite foldM_app. pose proof (pi_book _ _ _ _ Hi) as Hbk. unfold run_book in Hbk.
    rewrite Hbk, bind_ok. simpl. by rewrite Hd. }
  rewrite Hrun in Hr. rewrite Hfile, wide_run_app.
  destruct (wide_run cap empty_wbook ((booked s).*2 ++ [m])) as [w|e']; [by destruct Hr as (? & ? & _)|].
  by injection Hr as ->.
Qed.

End Threads.

(** The report of a book that tracks a wide one. *)
Lemma wide_report nan w b n t_start t_end :
  tracks_wide kPoolSize b w → Z.of_nat n < 2 ^ 63 →
  report nan (Z.of_nat n) (Z.of_nat n) t_start t_end (book_order_count b) (spec_bbo (visible w)) =
    spec_report nan n (Z.of_nat (size (w_orders w))) (visible w) (t_end - t_start).
Proof.
  intros Hw Hn. destruct (wf_sound b (tw_wf _ _ _ Hw)) as (Hso & Hcount & Hle).
  rewrite (tw_cap _ _ _ Hw) in Hle. rewrite (tw_orders _ _ _ Hw) in *. pose proof pool_size_bound.
  rewrite Hcount in *. apply report_spec; [|lia|done].
  intros ref o [Hl _]%map_lookup_filter_Some. exact (Hso ref o Hl).
Qed.

#[local] Opaque queue_slots.

(** ** Theorem *)
Section Theorems.
Context `{BuildMode} (nan : text) (fs : string → option File).

(** C5. The program without the price band.  Take a readable file whose messages, each in the
    state it meets and up to the first fault, satisfy [wide_feed]: the references of new
    orders are not those of live ones, their sides are B or S, their prices are in (0, 2^31),
    and in a release build no reduction exceeds its order's shares; prices may lie anywhere
    in that range.  Then the program has an outcome, and every outcome, whatever the
    interleaving of the threads, the clock and the hash map's iteration orders, is the
    verdict of the abstract book: exit code 0 and the report of all live
    orders with the best bid and ask of those in a level, or death in the book thread with
    exactly the fault the abstract book runs into. *)
Theorem main_verdict argv0 args path f :
  replay_path args None = Some path → fs path = Some f → readable f →
  wide_feed kPoolSize empty_wbook (file_messages (contents f)) = true →
  (∃ x, main_run nan fs argv0 args x) ∧
  ∀ x, main_run nan fs argv0 args x → ∃ ns, 0 ≤ ns ∧ x = verdict nan (file_messages (contents f)) ns.
Proof.
  intros Hpath Hf Hr Hfeed. split; [by apply (main_has_outcome nan fs argv0 args path f)|].
  pose proof (readable_opened path f Hr) as Hopen. rewrite <-Hf in Hopen. destruct Hr as [_ _ Hb Hs].
  destruct (new_book_ok kPoolSize pool_size_pos) as [b0 Hb0]. pose proof (main_inv (contents f) Hs Hb) as Hinv.
  intros x Hx. unfold verdict.
  destruct (main_run_opened nan fs argv0 args path _ x Hpath Hopen Hx) as [(b1 & s & e & Eb & Hst & Hc & ->)
    |(b1 & s & t0 & t1 & Eb & Hst & Hexit & Ht & ->)]; rewrite Hb0 in Eb; injection Eb as <-.
  - exists 0. split; [lia|].
    by rewrite (crash_wide kQueueCapacity (contents f) b0 kPoolSize Hb0 pool_size_bound Hfeed s e (Hinv _ _ Hst) Hc).
  - exists (t1 - t0). split; [lia|].
    destruct (exit_wide kQueueCapacity (contents f) b0 kPoolSize Hb0 pool_size_bound Hfeed s (Hinv _ _ Hst) Hexit)
      as (w & -> & Hw).
    destruct (exit_booked _ _ _ _ (Hinv _ _ Hst) Hexit) as (_ & -> & ->). rewrite (wide_bbo _ w Hw).
    f_equal. exact (wide_report nan w (book s) _ t0 t1 Hw (file_messages_bound _ Hs)).
Qed.

End Theorems.

(** ** Witness: the file of a session that deletes a lost order *)
Definition fatal_session : list ParsedMessage := (regained_session ++ [msg_delete 2])%list.
Definition fatal_file : list Z := concat ((λ m, frame (encode m)) <$> fatal_session).
Definition fatal_fs (p : string) : option File :=
  if decide (p = "wide.bin") then Some (mkFile (Z.of_nat (List.length fatal_file)) fatal_file) else None.

Lemma fatal_readable : readable (mkFile (Z.of_nat (List.length fatal_file)) fatal_file).
Proof. split; [done|done|apply (bool_decide_unpack _); vm_compute; exact I|vm_compute; reflexivity]. Qed.

Lemma fatal_messages : file_messages fatal_file = fatal_session.
Proof. vm_compute. reflexivity. Qed.

Lemma fatal_wide `{BuildMode} :
  wide_feed kPoolSize empty_wbook fatal_session = true ∧ wide_run kPoolSize empty_wbook fatal_session = Fault stray_fault.
Proof.
  destruct (wide_cap kPoolSize 8 empty_wbook fatal_session) as [-> ->];
    [pose proof kPoolSize_value; vm_compute size; simpl; lia|vm_compute; lia|].
  unfold stray_fault. destruct H; vm_compute; auto.
Qed.

Lemma main_verdict_witness :
  (∃ x, @main_run [] fatal_fs release_build "orderbook" ["--replay"; "wide.bin"] x) ∧
  ∀ x, @main_run [] fatal_fs release_build "orderbook" ["--replay"; "wide.bin"] x → x = Crashed OutOfRange.
Proof.
  destruct (@fatal_wide release_build) as [Hf Hw].
  destruct (@main_verdict release_build [] fatal_fs "orderbook" ["--replay"; "wide.bin"] "wide.bin" _ eq_refl eq_refl
    fatal_readable) as [Hex Hall]; [cbn [contents]; rewrite fatal_messages; exact Hf|].
  split; [exact Hex|]. intros x Hx. destruct (Hall x Hx) as (ns & _ & E). rewrite E. cbn [contents].
  unfold verdict. rewrite fatal_messages, Hw. reflexivity.
Defined.
