(* ===== verification/Clock.v ===== *)
(** * The nanosecond clock (include/bench/rdtsc.hpp, lines 1-72)

    [now_ns] on x86-64 divides the time-stamp counter by a frequency calibrated once
    against the system clock; elsewhere it is the system clock.  The readings (the two
    halves of the counter, the [timespec]s) are arguments of the definitions.

    Proved: the two halves of the counter combine without loss; the system clock's value
    is exact and a difference of two readings is the elapsed time; a calibrated reading
    is the counter scaled by the calibration to within one nanosecond and a relative
    2^-50. *)

From S2P Require Import Prelude Double Rounding.
From Stdlib Require Import SpecFloat.

(** ** Readings *)
Record timespec := mkTimespec {
  tv_sec : Z;
  tv_nsec : Z;
}.

(** [return (static_cast<uint64_t>(hi) << 32) | lo;] *)
Definition rdtscp (lo hi : Z) : Z := Z.lor (u64 (Z.shiftl hi 32)) lo.

(** ** Clocks *)

(** The readings of the calibration: clock, counter, (sleep,) counter, clock. *)
Record calibration := mkCalibration {
  ts0 : timespec;
  tsc0 : Z;
  tsc1 : Z;
  ts1 : timespec;
}.

Definition tsc_ghz (c : calibration) : double :=
  let ns := dadd (dmul (double_of (tv_sec (ts1 c) - tv_sec (ts0 c))) (double_of (10 ^ 9)))
                 (double_of (tv_nsec (ts1 c) - tv_nsec (ts0 c))) in
  ddiv (double_of (u64 (tsc1 c - tsc0 c))) ns.

(** x86-64. *)
Definition now_ns_tsc (c : calibration) (tsc : Z) : outcome Z :=
  u64_of_double (ddiv (double_of tsc) (tsc_ghz c)).

(** Elsewhere. *)
Definition now_ns_clock (ts : timespec) : Z :=
  u64 (u64 (u64 (tv_sec ts) * 1000000000) + u64 (tv_nsec ts)).

(** ** Specification *)

(** A normalised, non-negative time of less than 544 years. *)
Record timespec_ok (ts : timespec) : Prop := {
  tk_sec : 0 ≤ tv_sec ts < 2 ^ 34;
  tk_nsec : 0 ≤ tv_nsec ts < 10 ^ 9;
}.

Definition ns_of (ts : timespec) : Z := tv_sec ts * 10 ^ 9 + tv_nsec ts.

(** Nanoseconds and ticks between the two readings of a calibration. *)
Definition cal_ns (c : calibration) : Z := ns_of (ts1 c) - ns_of (ts0 c).
Definition cal_ticks (c : calibration) : Z := tsc1 c - tsc0 c.

(** Time advanced, by less than 2^53 ns (104 days) and ticks, at 62.5 MHz or more. *)
Record calibration_ok (c : calibration) : Prop := {
  ck_ts0 : timespec_ok (ts0 c);
  ck_ts1 : timespec_ok (ts1 c);
  ck_sec : tv_sec (ts0 c) ≤ tv_sec (ts1 c) ∧ tv_sec (ts1 c) - tv_sec (ts0 c) < 2 ^ 23;
  ck_ns : 0 < cal_ns c;
  ck_ticks : 0 < cal_ticks c < 2 ^ 53;
  ck_freq : cal_ns c ≤ 16 * cal_ticks c;
}.

(** ** Lemmas *)
Lemma rdtscp_value lo hi : 0 ≤ lo < 2 ^ 32 → 0 ≤ hi < 2 ^ 32 → rdtscp lo hi = hi * 2 ^ 32 + lo.
Proof.
  intros Hl Hh. unfold rdtscp. rewrite Z.shiftl_mul_pow2, u64_small by lia.
  pose proof (Z.add_lor_land (hi * 2 ^ 32) lo) as E.
  enough (Z.land (hi * 2 ^ 32) lo = 0) by lia. clear E.
  apply Z.bits_inj'. intros i Hi. rewrite Z.land_spec, Z.mul_pow2_bits, Z.bits_0 by lia.
  destruct (Z.ltb_spec i 32); [by rewrite Z.testbit_neg_r by lia|].
  destruct (decide (lo = 0)) as [->|]; [by rewrite Z.bits_0, andb_false_r|].
  rewrite (Z.bits_above_log2 lo i), andb_false_r; [done|lia|].
  apply Z.log2_lt_pow2; [lia|]. apply Z.lt_le_trans with (2 ^ 32); [lia|]. by apply Z.pow_le_mono_r.
Qed.

Lemma now_ns_clock_value ts : timespec_ok ts → now_ns_clock ts = ns_of ts ∧ 0 ≤ ns_of ts < 2 ^ 64.
Proof.
  intros [Hs Hn]. unfold now_ns_clock, ns_of. rewrite (u64_small (tv_sec ts)), (u64_small (tv_nsec ts)) by lia.
  rewrite (u64_small (tv_sec ts * _)), u64_small by lia. lia.
Qed.

(** The calibration divides two integers. *)
Lemma tsc_ghz_ratio c :
  calibration_ok c → tsc_ghz c = ddiv (exact_float (cal_ticks c)) (exact_float (cal_ns c)) ∧ cal_ns c < 2 ^ 53.
Proof.
  intros [[H0s H0n] [H1s H1n] Hs Hns Ht Hf].
  assert (Hb : cal_ns c < 2 ^ 53) by (unfold cal_ns, ns_of; lia). split; [|done].
  unfold tsc_ghz. cbv zeta. rewrite u64_small by (unfold cal_ticks in Ht; lia). fold (cal_ticks c).
  rewrite !double_of_exact, dmul_exact, dadd_exact by (unfold cal_ns, ns_of in *; lia).
  do 2 f_equal. unfold cal_ns, ns_of. lia.
Qed.

(** Two divisions in a row: [x / (d / n)] is close to [x * n / d]. *)
Lemma two_divisions x d n g v s :
  0 < s → 0 ≤ x → 0 < d → 0 < n → 0 ≤ v → close (g * n) (d * s) → close (v * g) (x * s * s) →
  v * d * 2 ^ 50 ≤ x * n * s * (2 ^ 50 + 1) ∧ x * n * s * (2 ^ 50 - 1) ≤ v * d * 2 ^ 50.
Proof.
  intros Hs Hx Hd Hn Hv0 Hg Hv. unfold close in *. set (y := x * n * s).
  assert (Hy : 0 ≤ y) by (unfold y; nia).
  assert (Hup : v * d * (2 ^ 52 - 1) ≤ y * (2 ^ 52 + 1)).
  { apply (Z.mul_le_mono_pos_r _ _ s); [done|].
    assert (v * (d * s * (2 ^ 52 - 1)) ≤ v * (g * n * 2 ^ 52)) by (apply Z.mul_le_mono_nonneg_l; lia).
    assert (v * g * 2 ^ 52 * n ≤ x * s * s * (2 ^ 52 + 1) * n) by (apply Z.mul_le_mono_nonneg_r; lia).
    unfold y. lia. }
  assert (Hdn : y * (2 ^ 52 - 1) ≤ v * d * (2 ^ 52 + 1)).
  { apply (Z.mul_le_mono_pos_r _ _ s); [done|].
    assert (v * (g * n * 2 ^ 52) ≤ v * (d * s * (2 ^ 52 + 1))) by (apply Z.mul_le_mono_nonneg_l; lia).
    assert (x * s * s * (2 ^ 52 - 1) * n ≤ v * g * 2 ^ 52 * n) by (apply Z.mul_le_mono_nonneg_r; lia).
    unfold y. lia. }
  lia.
Qed.


Lemma now_ns_scaled c tsc :
  calibration_ok c → 0 < tsc < 2 ^ 53 →
  ∃ v, now_ns_tsc c tsc = Ok (v / scale) ∧ 0 ≤ v ∧
    v * cal_ticks c * 2 ^ 50 ≤ tsc * cal_ns c * scale * (2 ^ 50 + 1) ∧
    tsc * cal_ns c * scale * (2 ^ 50 - 1) ≤ v * cal_ticks c * 2 ^ 50.
Proof.
  intros Hc Hx. destruct (tsc_ghz_ratio c Hc) as [Eg Hn]. destruct Hc as [_ _ _ Hn0 Hd Hf].
  set (d := cal_ticks c) in *. set (n := cal_ns c) in *.
  assert (Hs : 0 < scale) by (unfold scale; apply Z.pow_pos_nonneg; lia).
  destruct (exact_float_normal d ltac:(lia)) as (md & ed & Ed & Hmd & -> & Vd).
  destruct (exact_float_normal n ltac:(lia)) as (mn & en & En & Hmn & -> & Vn).
  destruct (exact_float_normal tsc ltac:(lia)) as (mx & ex & Ex & Hmx & -> & Vx).
  pose proof (ndigits_bound d ltac:(lia)). pose proof (ndigits_bound n ltac:(lia)).
  pose proof (ndigits_bound tsc ltac:(lia)).
  destruct (ddiv_close md (ndigits d - 53) mn (ndigits n - 53)) as (mg & eg & E & Hmg & Hbg & Hg); [lia..|].
  destruct (ddiv_close mx (ndigits tsc - 53) mg eg) as (m & e & E' & _ & Hb & Hv); [lia..|].
  rewrite Vd, Vn, Z.mul_assoc in Hg. apply close_cancel in Hg; [|done]. rewrite Vx in Hv.
  pose proof (sval_pos m e ltac:(lia)) as Hpos.
  destruct (two_divisions tsc d n (sval mg eg) (sval m e) scale) as [Hup Hdn]; [lia..|done|done|].
  exists (sval m e). split; [|split; [lia|done]].
  unfold now_ns_tsc. rewrite Eg, double_of_exact, Ed, En, Ex, E, E' by lia. apply u64_of_finite; [lia|].
  apply Z.div_lt_upper_bound; [done|].
  assert (sval m e * d * 2 ^ 50 ≤ 2 ^ 58 * scale * d * 2 ^ 50); [|nia].
  assert (tsc * n ≤ 2 ^ 53 * (16 * d)) by (apply Z.mul_le_mono_nonneg; lia).
  assert (tsc * n * scale ≤ 2 ^ 53 * (16 * d) * scale) by (apply Z.mul_le_mono_nonneg_r; lia). lia.
Qed.

(** ** Theorems *)

(** C29. The clocks.  The two 32-bit halves of the counter combine without loss.  Outside x86-64
    the clock's value for a normalised time below 2^34 seconds is exactly its seconds times
    10^9 plus its nanoseconds, and the difference of two readings, as [uint64_t], is the
    elapsed time.  On x86-64, after a calibration over which time advanced by less than 2^53
    nanoseconds and ticks at 62.5 MHz or more ([calibration_ok]), a reading of the counter
    below 2^53 converts without overflow to [tsc * ns / ticks] of the calibration, truncated,
    within a relative 2^-50. *)
Theorem clocks_correct :
  (∀ lo hi, 0 ≤ lo < 2 ^ 32 → 0 ≤ hi < 2 ^ 32 → rdtscp lo hi = hi * 2 ^ 32 + lo) ∧
  (∀ ts, timespec_ok ts → now_ns_clock ts = tv_sec ts * 10 ^ 9 + tv_nsec ts) ∧
  (∀ a b, timespec_ok a → timespec_ok b → ns_of a ≤ ns_of b →
     u64 (now_ns_clock b - now_ns_clock a) = ns_of b - ns_of a) ∧
  (∀ c tsc, calibration_ok c → 0 ≤ tsc < 2 ^ 53 →
     ∃ t, now_ns_tsc c tsc = Ok t ∧
       t * cal_ticks c * 2 ^ 50 ≤ tsc * cal_ns c * (2 ^ 50 + 1) ∧
       tsc * cal_ns c * (2 ^ 50 - 1) < (t + 1) * cal_ticks c * 2 ^ 50).
Proof.
  split; [exact rdtscp_value|]. split; [|split].
  - intros ts Hts. apply (now_ns_clock_value ts Hts).
  - intros a b Ha Hb Hle. destruct (now_ns_clock_value a Ha) as [-> Ra].
    destruct (now_ns_clock_value b Hb) as [-> Rb]. apply u64_small. lia.
  - intros c tsc Hc Hx. pose proof (ck_ticks c Hc) as Hd. pose proof (ck_ns c Hc) as Hn.
    destruct (decide (tsc = 0)) as [->|Hne].
    + exists 0. split; [|nia]. destruct (tsc_ghz_ratio c Hc) as [Eg Hn53].
      destruct (now_ns_scaled c 1 Hc ltac:(lia)) as (v & E & _). unfold now_ns_tsc in *.
      destruct (tsc_ghz c) as [[]|[]| |[] m e]; done.
    + destruct (now_ns_scaled c tsc Hc ltac:(lia)) as (v & E & Hv & Hup & Hdn). exists (v / scale).
      split; [done|].
      assert (Hs : 0 < scale) by (unfold scale; apply Z.pow_pos_nonneg; lia).
      pose proof (Z.mul_div_le v scale Hs). pose proof (Z.mul_succ_div_gt v scale Hs).
      generalize dependent (v / scale). intros t E Hlo Hhi.
      split; apply (Z.mul_le_mono_pos_r _ _ scale) || apply (Z.mul_lt_mono_pos_r scale); try done; nia.
Qed.

(** A 3 GHz counter calibrated over ten milliseconds that cross a second. *)
Definition sample_calibration : calibration :=
  mkCalibration (mkTimespec 1000 995000000) 9000000000000 9000030000000 (mkTimespec 1001 5000000).

Lemma sample_calibration_ok : calibration_ok sample_calibration.
Proof. split; try split; vm_compute; done. Qed.

Lemma clocks_correct_witness :
  now_ns_clock (mkTimespec 1000 995000000) = 1000995000000 ∧
  now_ns_tsc sample_calibration 9000060000007 = Ok 3000020000002 ∧
  ∃ t, now_ns_tsc sample_calibration 9000060000007 = Ok t ∧
    t * 30000000 * 2 ^ 50 ≤ 9000060000007 * 10000000 * (2 ^ 50 + 1).
Proof.
  destruct clocks_correct as (_ & Hc & _ & Ht).
  split; [exact (Hc (ts0 sample_calibration) (ck_ts0 _ sample_calibration_ok))|]. split; [vm_compute; reflexivity|].
  destruct (Ht sample_calibration 9000060000007 sample_calibration_ok ltac:(lia)) as (t & E & Hup & _).
  exists t. split; [exact E|exact Hup].
Defined.
