(* ===== verification/BenchKit.v ===== *)
(** * What the two benchmark programs share (bench/bench_book.cpp, bench/latency_harness.cpp)

    Both drivers build their messages with the same functions and start from the same warm
    book ([warm_book]: the session open, a hundred bids on five levels below 150.00 and a
    hundred asks on five levels above 150.01).  [steady b m]: the book [b] is well-formed,
    open and holds exactly the orders [m], whose prices and window are in the benchmarks'
    band; the lemmas give the effect of each call on [m].

    Proved: warming a fresh book faults in no build and leaves the two hundred orders. *)

From S2P Require Import Prelude Bytes Messages Parser Reader Order PriceLevel OrderBook BookInv BookWf.
From S2P Require Import BookHandlers Dispatch Samples BookSpec Depth BookTheorems BookView Spsc SpscConc.
From S2P Require Import Pipeline PipelineTheorems.

Definition kBid : Z := 1500000.
Definition kAsk : Z := 1500100.

(** ** Message builders *)

(** [T m{}; m.msg_type = c;] *)
Definition zero_header (c : Z) : Header := mkHeader c 0 0 (replicate 6 0).

Definition make_sys (code : Z) : SystemEventMsg := mkSystemEvent (zero_header ch_S) code.

Definition make_add (side price shares ref : Z) : AddOrderMsg :=
  mkAddOrder (zero_header ch_A) (bswap 8 ref) side (bswap 4 shares) (replicate 8 0) (bswap 4 price).

Definition make_delete (ref : Z) : DeleteOrderMsg := mkDeleteOrder (zero_header ch_D) (bswap 8 ref).

Definition make_cancel (ref qty : Z) : CancelOrderMsg :=
  mkCancelOrder (zero_header ch_X) (bswap 8 ref) (bswap 4 qty).

Definition make_replace (old_ref new_ref price shares : Z) : ReplaceOrderMsg :=
  mkReplaceOrder (zero_header ch_U) (bswap 8 old_ref) (bswap 8 new_ref) (bswap 4 shares) (bswap 4 price).

(** ** The warm book *)
Section Warm.
Context `{BuildMode}.

(** The iterations [i] = 1 to 100 of the loop; [it] gives the iteration orders met. *)
Definition warm_book (it : nat → IterOrder) (book : OrderBook) : outcome OrderBook :=
  book ← on_system_event (it 0%nat) book (make_sys ch_O);
  foldM (λ book i,
    let z := Z.of_nat i in
    book ← on_add (it (2 * i)%nat) book (make_add ch_B (u32 (u64 (kBid - z mod 5 * 100))) 200 z);
    on_add (it (2 * i + 1)%nat) book (make_add ch_S (u32 (u64 (kAsk + z mod 5 * 100))) 200 (z + 1000)))
    (seq 1 100) book.

(** [for (uint64_t i = first; i <= last; ++i) book.on_add(make_add('B', kBid, shares, i));]
    with [count] references. *)
Definition add_range (it : nat → IterOrder) (first : Z) (count : nat) (shares : Z) (book : OrderBook)
  : outcome OrderBook :=
  foldM (λ book i, on_add (it i) book (make_add ch_B kBid shares (first + Z.of_nat i))) (seq 0 count) book.

(** [OrderBook book; warm_book(book);], which all but the parser and queue benchmarks start with. *)
Definition warm (it : nat → IterOrder) : outcome OrderBook := book ← OrderBook_new kPoolSize; warm_book it book.

End Warm.

(** How many extra bids [kN] the delete and cancel benchmarks cycle through. *)
Definition kN : nat := 512.

(** ** The orders of the warm book *)
Abbreviation orders := (gmap Z SOrder).

Definition bid_order (shares : Z) : SOrder := mkSOrder ch_B kBid shares.

Definition warm_step (m : orders) (i : nat) : orders :=
  let z := Z.of_nat i in
  <[z + 1000 := mkSOrder ch_S (kAsk + z mod 5 * 100) 200]>
    (<[z := mkSOrder ch_B (kBid - z mod 5 * 100) 200]> m).

Definition warm_orders : orders := foldl warm_step ∅ (seq 1 100).

(** [count] bids at [kBid] from reference [first], the [j]-th of [shares j]. *)
Definition bids_from (first : Z) (count : nat) (shares : nat → Z) (m : orders) : orders :=
  foldl (λ m j, <[first + Z.of_nat j := bid_order (shares j)]> m) m (seq 0 count).
Definition with_range (first : Z) (count : nat) (shares : Z) : orders → orders :=
  bids_from first count (λ _, shares).

(** The shares left of the [j]-th of 512 bids of a million shares after [i] single-share
    cancels in turn, and the order if any is left. *)
Definition cancels_of (i j : Z) : Z := (i - j + 511) / 512.
Definition cancelled_order (i j : Z) : option SOrder :=
  if cancels_of i j <? 1000000 then Some (bid_order (1000000 - cancels_of i j)) else None.
Definition cancelled_orders (i : nat) (m : orders) : Prop :=
  ∀ ref, m !! ref = if decide (200001 ≤ ref < 200513) then cancelled_order (Z.of_nat i) (ref - 200001)
                    else warm_orders !! ref.

(** The orders while one bid is replaced over and over: reference [300001 + i]. *)
Definition replaced_orders (i : nat) : orders := <[300001 + Z.of_nat i := bid_order 100]> warm_orders.

(** ** Steady books *)
Definition band_bid : Z := kBid - 4000.
Definition band_ask : Z := kAsk - 4000.

Definition steady (b : OrderBook) (m : orders) : Prop := tracks kPoolSize band_bid band_ask b (mkSBook m true).

Definition ref_ok (ref : Z) : Prop := 0 ≤ ref < 2 ^ 64.

(** The call returns a steady book with the orders [m]. *)
Definition leads_to (r : outcome OrderBook) (m : orders) : Prop := ∃ b, r = Ok b ∧ steady b m.

(** ** Lemmas: what the built messages ask for *)
Lemma command_add sd p sh ref :
  ref_ok ref → 0 ≤ sh < 2 ^ 32 → 0 ≤ p < 2 ^ 32 → command_of (MAddOrder (make_add sd p sh ref)) = CAdd ref sd p sh.
Proof. intros Hr Hs Hp. simpl. by rewrite be64_swap, !be32_swap. Qed.

Lemma command_delete ref : ref_ok ref → command_of (MDeleteOrder (make_delete ref)) = CDelete ref.
Proof. intros Hr. simpl. by rewrite be64_swap. Qed.

Lemma command_cancel ref n :
  ref_ok ref → 0 ≤ n < 2 ^ 32 → command_of (MCancelOrder (make_cancel ref n)) = CReduce ref n.
Proof. intros Hr Hn. simpl. by rewrite be64_swap, be32_swap. Qed.

Lemma command_replace old new p sh :
  ref_ok old → ref_ok new → 0 ≤ sh < 2 ^ 32 → 0 ≤ p < 2 ^ 32 →
  command_of (MReplaceOrder (make_replace old new p sh)) = CReplace old new p sh.
Proof. intros Ho Hn Hs Hp. simpl. by rewrite !be64_swap, !be32_swap. Qed.

(** ** Lemmas: one call *)
Abbreviation fits := (fits kPoolSize band_bid band_ask).

(** When each of them fits a book. *)
Lemma fits_add m sd p sh ref :
  m !! ref = None → ref_ok ref → 0 ≤ sh < 2 ^ 32 → price_ok p = true →
  sd = ch_B ∨ sd = ch_S → in_band (band_of band_bid band_ask sd) p = true →
  Z.of_nat (size m) < 2 ^ 20 → fits (mkSBook m true) (MAddOrder (make_add sd p sh ref)) = true.
Proof.
  intros Hf Hr Hsh Hp Hsd Hband Hsize. pose proof (proj1 (price_ok_true p) Hp) as Hp'.
  unfold BookView.fits. rewrite command_add by (done || lia). unfold banded. simpl. rewrite Hband. unfold fresh_ref.
  rewrite Hf, bool_decide_true, Hp by done. rewrite (proj2 (Nat.ltb_lt _ _)) by (pose proof kPoolSize_value; lia).
  by destruct Hsd as [->| ->].
Qed.

Lemma fits_delete m ref : ref_ok ref → fits (mkSBook m true) (MDeleteOrder (make_delete ref)) = true.
Proof. intros Hr. unfold BookView.fits. by rewrite command_delete. Qed.

Lemma fits_cancel m ref n :
  ref_ok ref → 0 ≤ n < 2 ^ 32 → (∀ o, m !! ref = Some o → n ≤ s_shares o) →
  fits (mkSBook m true) (MCancelOrder (make_cancel ref n)) = true.
Proof.
  intros Hr Hn Hle. unfold BookView.fits. rewrite command_cancel by done. simpl.
  destruct (m !! ref) as [o|] eqn:Hl; [|done]. by rewrite (proj2 (Z.leb_le _ _)) by auto.
Qed.

Section Steady.
Context `{BuildMode}.

Lemma steady_dispatch it b m msg c m' :
  steady b m → fits (mkSBook m true) msg = true → command_of msg = c →
  spec_command (mkSBook m true) c = mkSBook m' true → leads_to (dispatch it b msg) m'.
Proof.
  intros Hs Hfit <- Hm'. destruct (view_step it b _ msg Hs Hfit) as (b' & E & Hs').
  exists b'. split; [done|]. unfold spec_step in Hs'. by rewrite Hm' in Hs'.
Qed.

Lemma steady_add it b m sd p sh ref :
  steady b m → m !! ref = None → ref_ok ref → 0 ≤ sh < 2 ^ 32 → price_ok p = true →
  sd = ch_B ∨ sd = ch_S → in_band (band_of band_bid band_ask sd) p = true →
  Z.of_nat (size m) < 2 ^ 20 →
  leads_to (on_add it b (make_add sd p sh ref)) (<[ref := mkSOrder sd p sh]> m).
Proof.
  intros Hs Hf Hr Hsh Hp Hsd Hband Hsize. pose proof (proj1 (price_ok_true p) Hp) as Hp'.
  eapply (steady_dispatch it b m (MAddOrder (make_add sd p sh ref)) _ _ Hs);
    [by apply fits_add|apply command_add; done || lia|done].
Qed.

Lemma steady_delete b m ref :
  steady b m → ref_ok ref → leads_to (on_delete b (make_delete ref)) (delete ref m).
Proof.
  intros Hs Hr. eapply (steady_dispatch iter_forward b m (MDeleteOrder (make_delete ref)) _ _ Hs);
    [by apply fits_delete|by apply command_delete|done].
Qed.

Lemma steady_cancel b m ref o n :
  steady b m → ref_ok ref → 0 ≤ n < 2 ^ 32 → m !! ref = Some o → n ≤ s_shares o →
  leads_to (on_cancel b (make_cancel ref n))
    (if s_shares o =? n then delete ref m
     else <[ref := mkSOrder (s_side o) (s_price o) (s_shares o - n)]> m).
Proof.
  intros Hs Hr Hn Hl Hle. eapply (steady_dispatch iter_forward b m (MCancelOrder (make_cancel ref n)) _ _ Hs);
    [apply fits_cancel; [done|done|congruence]|by apply command_cancel|]. simpl. by rewrite Hl.
Qed.

Lemma steady_cancel_absent b m ref n :
  steady b m → ref_ok ref → 0 ≤ n < 2 ^ 32 → m !! ref = None →
  leads_to (on_cancel b (make_cancel ref n)) m.
Proof.
  intros Hs Hr Hn Hl. eapply (steady_dispatch iter_forward b m (MCancelOrder (make_cancel ref n)) _ _ Hs);
    [apply fits_cancel; [done|done|congruence]|by apply command_cancel|]. simpl. by rewrite Hl.
Qed.

Lemma steady_replace it b m old new o p sh :
  steady b m → ref_ok old → ref_ok new → 0 ≤ sh < 2 ^ 32 → price_ok p = true →
  m !! old = Some o → delete old m !! new = None →
  in_band (band_of band_bid band_ask (s_side o)) p = true →
  leads_to (on_replace it b (make_replace old new p sh))
    (<[new := mkSOrder (s_side o) p sh]> (delete old m)).
Proof.
  intros Hs Hro Hrn Hsh Hp Hl Hf Hband. pose proof (proj1 (price_ok_true p) Hp) as Hp'.
  assert (Hc : command_of (MReplaceOrder (make_replace old new p sh)) = CReplace old new p sh)
    by (apply command_replace; done || lia).
  eapply (steady_dispatch it b m (MReplaceOrder (make_replace old new p sh)) _ _ Hs); [|exact Hc|simpl; by rewrite Hl].
  unfold BookView.fits. rewrite Hc. unfold banded. simpl. rewrite Hl. unfold fresh_ref. by rewrite Hf, Hp, Hband.
Qed.

Lemma steady_bbo b m : steady b m → best_bid_offer b = Ok (spec_bbo m).
Proof. exact (tracks_bbo b (mkSBook m true)). Qed.

End Steady.

(** ** Lemmas: the warm orders *)

(** The orders after the loop has counted up to [n]. *)
Definition warm_upto (n : nat) : orders := foldl warm_step ∅ (seq 1 n).

Lemma warm_upto_S n : warm_upto (S n) = warm_step (warm_upto n) (S n).
Proof. unfold warm_upto. by rewrite seq_S, foldl_app. Qed.

Lemma warm_upto_fresh n ref :
  (ref ≤ 0 ∨ Z.of_nat n < ref ≤ 1000 ∨ 1000 + Z.of_nat n < ref) → warm_upto n !! ref = None.
Proof.
  induction n as [|n IH]; intros Hr; [apply lookup_empty|]. rewrite warm_upto_S. unfold warm_step. cbv zeta.
  rewrite !lookup_insert_ne by lia. apply IH. lia.
Qed.

Lemma map_size_insert_le {A} (m : gmap Z A) i x : (size (<[i := x]> m) ≤ S (size m))%nat.
Proof. rewrite map_size_insert. destruct (m !! i); unfold id; lia. Qed.

Lemma warm_upto_size n : (size (warm_upto n) ≤ 2 * n)%nat.
Proof.
  induction n as [|n IH]; [done|]. rewrite warm_upto_S. unfold warm_step. cbv zeta.
  etrans; [apply map_size_insert_le|]. etrans; [apply le_n_S, map_size_insert_le|]. lia.
Qed.

(** A price of the benchmarks, on its side. *)
Lemma bid_price_ok p : band_bid ≤ p < band_bid + kLevels →
  price_ok p = true ∧ in_band (band_of band_bid band_ask ch_B) p = true.
Proof.
  unfold band_bid, kBid, kLevels. intros Hp. split; [apply price_ok_true; lia|].
  apply in_band_true. unfold band_of. simpl. unfold band_bid, kBid, kLevels. lia.
Qed.

Lemma ask_price_ok p : band_ask ≤ p < band_ask + kLevels →
  price_ok p = true ∧ in_band (band_of band_bid band_ask ch_S) p = true.
Proof.
  unfold band_ask, kAsk, kLevels. intros Hp. split; [apply price_ok_true; lia|].
  apply in_band_true. unfold band_of. simpl. unfold band_ask, kAsk, kLevels. lia.
Qed.

Section WarmLemmas.
Context `{BuildMode}.

Lemma steady_bid it b m p sh ref :
  steady b m → m !! ref = None → ref_ok ref → 0 ≤ sh < 2 ^ 32 →
  band_bid ≤ p < band_bid + kLevels → Z.of_nat (size m) < 2 ^ 20 →
  leads_to (on_add it b (make_add ch_B p sh ref)) (<[ref := mkSOrder ch_B p sh]> m).
Proof. intros Hs Hf Hr Hsh Hp Hn. destruct (bid_price_ok p Hp). apply steady_add; auto. Qed.

Lemma steady_ask it b m p sh ref :
  steady b m → m !! ref = None → ref_ok ref → 0 ≤ sh < 2 ^ 32 →
  band_ask ≤ p < band_ask + kLevels → Z.of_nat (size m) < 2 ^ 20 →
  leads_to (on_add it b (make_add ch_S p sh ref)) (<[ref := mkSOrder ch_S p sh]> m).
Proof. intros Hs Hf Hr Hsh Hp Hn. destruct (ask_price_ok p Hp). apply steady_add; auto. Qed.

(** The session opens on an empty book. *)
Lemma open_steady it b :
  OrderBook_new kPoolSize = Ok b → leads_to (on_system_event it b (make_sys ch_O)) ∅.
Proof.
  intros Eb. destruct (new_book_simulates kPoolSize b Eb) as [Hs Hr]; [rewrite kPoolSize_value; lia|].
  assert (E : on_system_event it b (make_sys ch_O) = Ok (set_open true b)) by reflexivity.
  rewrite E. eexists. split; [reflexivity|]. destruct Hs as [Hw Ha Ho Hop Hc]. split.
  - split; [|exact Ha|exact Ho|reflexivity|exact Hc]. destruct Hw as (q & fs & Hw).
    exists q, fs. by apply book_wf_set_open.
  - intros sd. split; [left; destruct sd; [exact (Hr Bid)|exact (Hr Ask)]|]. intros ref o Hl. simpl in Hl. by rewrite lookup_empty in Hl.
Qed.

Lemma warm_book_steady it b :
  OrderBook_new kPoolSize = Ok b → leads_to (warm_book it b) warm_orders.
Proof.
  intros Eb. destruct (open_steady (it 0%nat) b Eb) as (b0 & E0 & Hs0). unfold warm_book.
  rewrite E0, bind_ok. clear E0 Eb.
  destruct (foldM_seq (λ book i, let z := Z.of_nat i in
      book ← on_add (it (2 * i)%nat) book (make_add ch_B (u32 (u64 (kBid - z mod 5 * 100))) 200 z);
      on_add (it (2 * i + 1)%nat) book (make_add ch_S (u32 (u64 (kAsk + z mod 5 * 100))) 200 (z + 1000)))
    (λ i b, steady b (warm_upto (i - 1))) 1 100 b0) as (b' & E & Hs'); [done| |by exists b'].
  intros i b1 Hi Hs. cbv zeta. set (z := Z.of_nat i).
  assert (Hz : 1 ≤ z ≤ 100) by (unfold z; lia). pose proof (Z.mod_pos_bound z 5 ltac:(lia)) as Hm.
  rewrite !u64_small, !u32_small by (unfold kBid, kAsk; lia).
  pose proof (warm_upto_size (i - 1)) as Hsize.
  assert (Hf : warm_upto (i - 1) !! z = None) by (apply warm_upto_fresh; unfold z; lia).
  assert (Hf' : warm_upto (i - 1) !! (z + 1000) = None) by (apply warm_upto_fresh; unfold z; lia).
  destruct (steady_bid (it (2 * i)%nat) b1 _ (kBid - z mod 5 * 100) 200 z Hs Hf) as (b2 & E2 & Hs2);
    [unfold ref_ok; lia|lia|unfold band_bid, kBid, kLevels; lia|lia|]. rewrite E2, bind_ok.
  pose proof (map_size_insert_le (warm_upto (i - 1)) z (mkSOrder ch_B (kBid - z mod 5 * 100) 200)).
  destruct (steady_ask (it (2 * i + 1)%nat) b2 _ (kAsk + z mod 5 * 100) 200 (z + 1000) Hs2)
    as (b3 & E3 & Hs3);
    [rewrite lookup_insert_ne by lia; done|unfold ref_ok; lia|lia|unfold band_ask, kAsk, kLevels; lia|lia|].
  exists b3. split; [done|]. replace (S i - 1)%nat with (S (i - 1)) by lia. rewrite warm_upto_S.
  unfold warm_step. cbv zeta. replace (Z.of_nat (S (i - 1))) with z by (unfold z; lia). done.
Qed.

(** ** Lemmas: a range of bids *)
Lemma bids_from_S first k sh m :
  bids_from first (S k) sh m = <[first + Z.of_nat k := bid_order (sh k)]> (bids_from first k sh m).
Proof. unfold bids_from. by rewrite seq_S, foldl_app. Qed.

Lemma bids_from_lookup first k sh m ref :
  bids_from first k sh m !! ref =
    if decide (first ≤ ref < first + Z.of_nat k) then Some (bid_order (sh (Z.to_nat (ref - first)))) else m !! ref.
Proof.
  induction k as [|k IH]; [by rewrite decide_False by lia|]. rewrite bids_from_S.
  destruct (decide (ref = first + Z.of_nat k)) as [->|].
  - rewrite lookup_insert_eq, decide_True by lia. do 3 f_equal. lia.
  - rewrite lookup_insert_ne, IH by done. apply decide_ext. lia.
Qed.

Lemma bids_from_size first k sh m : (size (bids_from first k sh m) ≤ size m + k)%nat.
Proof.
  induction k as [|k IH]; [rewrite Nat.add_0_r; done|]. rewrite bids_from_S. etrans; [apply map_size_insert_le|]. lia.
Qed.

Lemma with_range_lookup first k sh m ref :
  with_range first k sh m !! ref =
    if decide (first ≤ ref < first + Z.of_nat k) then Some (bid_order sh) else m !! ref.
Proof. apply bids_from_lookup. Qed.

Lemma add_range_steady it first k sh b m :
  steady b m → 0 ≤ first → first + Z.of_nat k < 2 ^ 64 → 0 ≤ sh < 2 ^ 32 →
  (∀ ref, first ≤ ref < first + Z.of_nat k → m !! ref = None) → Z.of_nat (size m + k) < 2 ^ 20 →
  leads_to (add_range it first k sh b) (with_range first k sh m).
Proof.
  intros Hs Hf Hk Hsh Hfr Hn. unfold add_range.
  destruct (foldM_seq (λ book i, on_add (it i) book (make_add ch_B kBid sh (first + Z.of_nat i)))
    (λ i b, steady b (with_range first i sh m)) 0 k b) as (b' & E & Hs'); [done| |by exists b'].
  intros i b1 Hi Hs1. unfold with_range. rewrite bids_from_S. apply steady_bid; [done| |unfold ref_ok; lia|done| |].
  - rewrite bids_from_lookup, decide_False by lia. apply Hfr. lia.
  - unfold band_bid, kBid, kLevels. lia.
  - pose proof (bids_from_size first i (λ _, sh) m). lia.
Qed.

(** ** Lemmas: benchmark states *)
Lemma warm_fresh ref : 1100 < ref → warm_orders !! ref = None.
Proof. intros Hr. apply (warm_upto_fresh 100). lia. Qed.

Lemma warm_size : (size warm_orders ≤ 200)%nat.
Proof. apply (warm_upto_size 100). Qed.

Lemma warm_ok it : leads_to (warm it) warm_orders.
Proof.
  destruct (new_book_ok kPoolSize) as [b0 Hb0]; [pose proof kPoolSize_value; lia|].
  unfold warm. rewrite Hb0, bind_ok. by apply warm_book_steady.
Qed.

Lemma range_ok it it_prep sh :
  0 ≤ sh < 2 ^ 32 → ∃ b0 b, warm it = Ok b0 ∧ add_range it_prep 200001 kN sh b0 = Ok b ∧
    steady b (with_range 200001 kN sh warm_orders).
Proof.
  intros Hsh. destruct (warm_ok it) as (b0 & E0 & Hs0). exists b0.
  destruct (add_range_steady it_prep 200001 kN sh b0 warm_orders Hs0) as (b & E & Hs);
    [lia|unfold kN; lia|exact Hsh| |pose proof warm_size; unfold kN; lia|exists b; exact (conj E0 (conj E Hs))].
  intros ref Hr. apply warm_fresh. lia.
Qed.

(** One more cancel hits the bid whose turn it is, and no other. *)
Lemma cancels_of_S i j :
  0 ≤ i → 0 ≤ j < 512 → cancels_of (i + 1) j = cancels_of i j + (if decide (j = i mod 512) then 1 else 0) ∧
    0 ≤ cancels_of i j.
Proof.
  intros Hi Hj. unfold cancels_of. destruct (decide (j = i mod 512)) as [->|Hne].
  - Z.div_mod_to_equations. lia.
  - Z.div_mod_to_equations. lia.
Qed.

Lemma cancelled_start : cancelled_orders 0 (with_range 200001 kN 1000000 warm_orders).
Proof.
  intros ref. rewrite with_range_lookup. change (Z.of_nat kN) with 512.
  destruct (decide (200001 ≤ ref < 200001 + 512)); [|by rewrite decide_False by lia].
  rewrite decide_True by lia. unfold cancelled_order.
  replace (cancels_of (Z.of_nat 0) (ref - 200001)) with 0; [done|].
  unfold cancels_of. symmetry. apply Z.div_small. lia.
Qed.

Lemma cancelled_next i m m' :
  cancelled_orders i m →
  (∀ ref, m' !! ref = if decide (ref = 200001 + Z.of_nat i mod 512)
                      then cancelled_order (Z.of_nat i + 1) (Z.of_nat i mod 512) else m !! ref) →
  cancelled_orders (S i) m'.
Proof.
  intros Hm Hm' ref. rewrite Hm', Nat2Z.inj_succ, <-Z.add_1_r.
  pose proof (Z.mod_pos_bound (Z.of_nat i) 512 ltac:(lia)).
  destruct (decide (ref = 200001 + Z.of_nat i mod 512)) as [->|Hne].
  - rewrite decide_True by lia. f_equal. lia.
  - rewrite Hm. case_decide; [|done]. unfold cancelled_order.
    destruct (cancels_of_S (Z.of_nat i) (ref - 200001)) as [-> _]; [lia|lia|].
    by rewrite decide_False, Z.add_0_r by lia.
Qed.

(** One iteration of the loop body, on the orders. *)
Lemma cancel_step b m i :
  steady b m → cancelled_orders i m →
  ∃ b' m', on_cancel b (make_cancel (200001 + Z.of_nat i mod 512) 1) = Ok b' ∧ steady b' m' ∧
    cancelled_orders (S i) m'.
Proof.
  intros Hs Hc. pose proof (Z.mod_pos_bound (Z.of_nat i) 512 ltac:(lia)) as Hj.
  set (j := Z.of_nat i mod 512) in *. set (ref := 200001 + j).
  pose proof (Hc ref) as Hl. rewrite decide_True in Hl by (unfold ref; lia).
  replace (ref - 200001) with j in Hl by (unfold ref; lia).
  destruct (cancels_of_S (Z.of_nat i) j) as [Hn Hpos]; [lia|done|]. rewrite decide_True in Hn by done.
  assert (Hr : ref_ok ref) by (unfold ref_ok, ref; lia). unfold cancelled_order in Hl.
  destruct (Z.ltb_spec (cancels_of (Z.of_nat i) j) 1000000) as [Hlt|Hge].
  - destruct (steady_cancel b m ref _ 1 Hs Hr ltac:(lia) Hl) as (b' & E & Hs'); [simpl; lia|].
    eexists b', _. split; [exact E|]. split; [exact Hs'|]. eapply cancelled_next; [done|].
    intros ref'. fold j ref. unfold cancelled_order. rewrite Hn. cbn [s_shares s_side s_price bid_order].
    destruct (Z.eqb_spec (1000000 - cancels_of (Z.of_nat i) j) 1) as [He|He].
    + rewrite (proj2 (Z.ltb_ge _ _)) by lia. destruct (decide (ref' = ref)) as [->|].
      * by rewrite lookup_delete_eq.
      * by rewrite lookup_delete_ne.
    + rewrite (proj2 (Z.ltb_lt _ _)) by lia. destruct (decide (ref' = ref)) as [->|].
      * rewrite lookup_insert_eq. unfold bid_order. do 2 f_equal. lia.
      * by rewrite lookup_insert_ne.
  - destruct (steady_cancel_absent b m ref 1 Hs Hr ltac:(lia) Hl) as (b' & E & Hs').
    exists b', m. split; [exact E|]. split; [exact Hs'|]. eapply cancelled_next; [done|].
    intros ref'. fold j ref. destruct (decide (ref' = ref)) as [->|]; [|done].
    rewrite Hl. unfold cancelled_order. by rewrite Hn, (proj2 (Z.ltb_ge _ _)) by lia.
Qed.

(** ** Lemmas: one round of each benchmark *)

(** Add an order at the best level and delete it. *)
Lemma bid_round it b m ref :
  steady b m → m !! ref = None → ref_ok ref → Z.of_nat (size m) < 2 ^ 20 →
  ∃ b1 b2, on_add it b (make_add ch_B kBid 100 ref) = Ok b1 ∧ on_delete b1 (make_delete ref) = Ok b2 ∧
    steady b2 m.
Proof.
  intros Hs Hf Hr Hn.
  destruct (steady_bid it b m kBid 100 ref Hs Hf Hr) as (b1 & E1 & Hs1);
    [lia|unfold band_bid, kBid, kLevels; lia|done|].
  destruct (steady_delete b1 _ ref Hs1 Hr) as (b2 & E2 & Hs2). rewrite delete_insert_id in Hs2 by done. eauto.
Qed.

Lemma ask_round it b m ref :
  steady b m → m !! ref = None → ref_ok ref → Z.of_nat (size m) < 2 ^ 20 →
  ∃ b1 b2, on_add it b (make_add ch_S kAsk 100 ref) = Ok b1 ∧ on_delete b1 (make_delete ref) = Ok b2 ∧
    steady b2 m.
Proof.
  intros Hs Hf Hr Hn.
  destruct (steady_ask it b m kAsk 100 ref Hs Hf Hr) as (b1 & E1 & Hs1);
    [lia|unfold band_ask, kAsk, kLevels; lia|done|].
  destruct (steady_delete b1 _ ref Hs1 Hr) as (b2 & E2 & Hs2). rewrite delete_insert_id in Hs2 by done. eauto.
Qed.

(** Delete a live bid and add it back. *)
Lemma delete_round it b m ref :
  steady b m → m !! ref = Some (bid_order 100) → ref_ok ref → Z.of_nat (size m) < 2 ^ 20 →
  ∃ b1 b2, on_delete b (make_delete ref) = Ok b1 ∧ on_add it b1 (make_add ch_B kBid 100 ref) = Ok b2 ∧
    steady b2 m.
Proof.
  intros Hs Hl Hr Hn. destruct (steady_delete b m ref Hs Hr) as (b1 & E1 & Hs1).
  destruct (steady_bid it b1 (delete ref m) kBid 100 ref Hs1) as (b2 & E2 & Hs2);
    [apply lookup_delete_eq|done|lia|unfold band_bid, kBid, kLevels; lia| |].
  { pose proof (map_size_delete ref m) as Hsz. rewrite Hl in Hsz. lia. }
  change (mkSOrder ch_B kBid 100) with (bid_order 100) in Hs2.
  rewrite insert_delete_id in Hs2 by done. eauto.
Qed.

(** Replace the one live extra bid, at price [p], by one at price [p']. *)
Lemma replace_round it b m old new p p' :
  m !! old = None → m !! new = None → ref_ok old → ref_ok new → band_bid ≤ p' < band_bid + kLevels →
  steady b (<[old := mkSOrder ch_B p 100]> m) →
  leads_to (on_replace it b (make_replace old new p' 100)) (<[new := mkSOrder ch_B p' 100]> m).
Proof.
  intros Ho Hn Hro Hrn Hp Hs. destruct (bid_price_ok p' Hp) as [Hpr Hband].
  destruct (steady_replace it b _ old new (mkSOrder ch_B p 100) p' 100 Hs) as (b' & E & Hs');
    [done|done|lia|done|apply lookup_insert_eq| |done|].
  - by rewrite delete_insert_id.
  - rewrite delete_insert_id in Hs' by done. by exists b'.
Qed.

End WarmLemmas.
