(* ===== verification/LatencyHarness.v ===== *)
(** * The latency harness (bench/latency_harness.cpp)

    Each benchmark times one call per iteration with two readings of the clock, records
    the difference in a histogram and prints a row.  The clock and the iteration orders
    of the hash map are parameters ([clock k] is the [k]-th reading of the benchmark, any
    64-bit value), the number of iterations too ([kIter] in [main]).

    Proved: with any clock, in any build, every benchmark runs to the end, leaves the
    book it describes, and prints the number of iterations and the order statistics of
    exactly the differences it measured; hence the program's whole output. *)

From S2P Require Import Prelude Bytes Messages Parser Reader Order PriceLevel OrderBook BookInv BookWf.
From S2P Require Import BookHandlers Dispatch Samples BookSpec Depth BookTheorems Spsc SpscConc.
From S2P Require Import Pipeline PipelineTheorems Lobster Double Rounding LobsterCsv Printf.
From S2P Require Import Histogram BenchKit.
From Stdlib Require Import String SpecFloat.

#[local] Open Scope string_scope.
#[local] Open Scope list_scope.
#[local] Open Scope Z_scope.

Definition kIter : nat := Z.to_nat 1000000.

(** ** Printing *)
Definition row_text (name : string) (v50 v99 v999 n : Z) : text :=
  str "  " ++ pad_right 28 (str name) ++ str "  p50=" ++ pad_left 4 (dec_text v50) ++
  str " ns  p99=" ++ pad_left 5 (dec_text v99) ++ str " ns  p999=" ++ pad_left 6 (dec_text v999) ++
  str " ns  n=" ++ dec_text n ++ newline.

Definition print_row (name : string) (h : Histogram) : outcome text :=
  v50 ← p50 default_buckets h;
  v99 ← p99 default_buckets h;
  v999 ← p999 default_buckets h;
  Ok (row_text name v50 v99 v999 (count h)).

(** What a benchmark leaves behind: the book, the histogram, the row printed. *)
Record bench_result := mkResult {
  r_book : OrderBook;
  r_hist : Histogram;
  r_row : text;
}.

Section Harness.
Context `{BuildMode}.
Variable clock : nat → Z.
(** Iteration orders met while warming, in the other preparations, in the loop. *)
Variable it_warm it_prep it : nat → IterOrder.

(** [t0 = now_ns(); op; t1 = now_ns(); h.record(t1 - t0);] in iteration [i]. *)
Definition timed {A} (i : nat) (h : Histogram) (op : outcome A) : outcome (A * Histogram) :=
  let t0 := clock (2 * i)%nat in
  a ← op;
  let t1 := clock (2 * i + 1)%nat in
  h ← record default_buckets h (u64 (t1 - t0));
  Ok (a, h).

Definition no_samples : Histogram := histogram_new default_buckets.

Definition bench_add_bid (iters : nat) : outcome bench_result :=
  book ← warm it_warm;
  '(book, h, _) ← foldM (λ '(book, h, ref) i,
      let msg := make_add ch_B kBid 100 ref in
      '(book, h) ← timed i h (on_add (it i) book msg);
      book ← on_delete book (make_delete ref);
      Ok (book, h, u64 (ref + 1)))
    (seq 0 iters) (book, no_samples, 1000001);
  row ← print_row "AddOrder (bid, best level)" h;
  Ok (mkResult book h row).

Definition bench_add_ask (iters : nat) : outcome bench_result :=
  book ← warm it_warm;
  '(book, h, _) ← foldM (λ '(book, h, ref) i,
      let msg := make_add ch_S kAsk 100 ref in
      '(book, h) ← timed i h (on_add (it i) book msg);
      book ← on_delete book (make_delete ref);
      Ok (book, h, u64 (ref + 1)))
    (seq 0 iters) (book, no_samples, 1000001);
  row ← print_row "AddOrder (ask, best level)" h;
  Ok (mkResult book h row).

Definition bench_bbo (iters : nat) : outcome bench_result :=
  book ← warm it_warm;
  h ← foldM (λ h i, '(_, h) ← timed i h (best_bid_offer book); Ok h) (seq 0 iters) no_samples;
  row ← print_row "BBO query" h;
  Ok (mkResult book h row).

(** [200'001 + static_cast<uint64_t>(i % kN)] *)
Definition cycling_ref (i : nat) : Z := u64 (200001 + u64 (Z.of_nat i mod Z.of_nat kN)).

Definition bench_delete (iters : nat) : outcome bench_result :=
  book ← warm it_warm;
  book ← add_range it_prep 200001 kN 100 book;
  '(book, h) ← foldM (λ '(book, h) i,
      let ref := cycling_ref i in
      let msg := make_delete ref in
      '(book, h) ← timed i h (on_delete book msg);
      book ← on_add (it i) book (make_add ch_B kBid 100 ref);
      Ok (book, h))
    (seq 0 iters) (book, no_samples);
  row ← print_row "DeleteOrder" h;
  Ok (mkResult book h row).

Definition bench_cancel (iters : nat) : outcome bench_result :=
  book ← warm it_warm;
  book ← add_range it_prep 200001 kN 1000000 book;
  '(book, h) ← foldM (λ '(book, h) i,
      let ref := cycling_ref i in
      let msg := make_cancel ref 1 in
      timed i h (on_cancel book msg))
    (seq 0 iters) (book, no_samples);
  row ← print_row "CancelOrder (partial, -1 share)" h;
  Ok (mkResult book h row).

Definition bench_replace (iters : nat) : outcome bench_result :=
  book ← warm it_warm;
  book ← on_add (it_prep 0%nat) book (make_add ch_B kBid 100 300001);
  '(book, h, _, _) ← foldM (λ '(book, h, old_ref, new_ref) i,
      let msg := make_replace old_ref new_ref kBid 100 in
      '(book, h) ← timed i h (on_replace (it i) book msg);
      Ok (book, h, new_ref, u64 (new_ref + 1)))
    (seq 0 iters) (book, no_samples, 300001, 300002);
  row ← print_row "ReplaceOrder (same level)" h;
  Ok (mkResult book h row).

Definition bench_parse_add (iters : nat) : outcome (Histogram * text) :=
  let add := make_add ch_B kBid 100 42 in
  let raw := l_write (packed_layout AddOrderMsg) add in
  h ← foldM (λ h i,
      '(_, h) ← timed i h (parse_message (Some raw) (Z.of_nat (sizeof AddOrderMsg)));
      Ok h)
    (seq 0 iters) no_samples;
  row ← print_row "parse_message (AddOrder)" h;
  Ok (h, row).

End Harness.

(** ** [main] *)

(** The text before the rows. *)
Definition header_text (x86 : bool) : text :=
  str "Latency harness — " ++ dec_text (Z.of_nat kIter) ++ str " iterations per benchmark" ++ newline ++
  str "Platform: " ++
  (if x86 then str "x86-64 (rdtscp + TSC calibration)"
   else str "ARM/other (clock_gettime CLOCK_MONOTONIC_RAW)") ++ newline ++ newline ++
  pad_right 30 (str "Operation") ++ str "  " ++ pad_left 13 (str "p50") ++ str "  " ++
  pad_left 14 (str "p99") ++ str "  " ++ pad_left 15 (str "p999") ++ str "  " ++ str "n" ++ newline ++
  replicate 82 45 ++ newline.

(** The readings and iteration orders of the [k]-th benchmark are [clock k] and [it k]; the
    ten thousand readings that warm the timer are discarded. *)
Definition harness_main `{BuildMode} (x86 : bool) (clock : nat → nat → Z) (it : nat → nat → nat → IterOrder)
  : outcome text :=
  let run k (bench : (nat → Z) → (nat → IterOrder) → (nat → IterOrder) → (nat → IterOrder) → nat →
                     outcome bench_result) :=
    r ← bench (clock k) (it k 0%nat) (it k 1%nat) (it k 2%nat) kIter; Ok (r_row r) in
  r0 ← run 0%nat (λ c w _ i, bench_add_bid c w i);
  r1 ← run 1%nat (λ c w _ i, bench_add_ask c w i);
  r2 ← run 2%nat (λ c w _ _, bench_bbo c w);
  r3 ← run 3%nat bench_delete;
  r4 ← run 4%nat (λ c w p _, bench_cancel c w p);
  r5 ← run 5%nat bench_replace;
  '(_, r6) ← bench_parse_add (clock 6%nat) kIter;
  Ok (header_text x86 ++ r0 ++ r1 ++ r2 ++ r3 ++ r4 ++ r5 ++ r6).

(** ** Specification *)

(** The differences measured by [n] iterations. *)
Definition latencies (clock : nat → Z) (n : nat) : list Z :=
  (λ i, u64 (clock (2 * i + 1)%nat - clock (2 * i)%nat)) <$> seq 0 n.

(** The rank, from 0, of a percentile among [n] samples. *)
Definition rank (p : double) (n : nat) : nat :=
  Z.to_nat (ok_or 0 (u64_of_double (dmul p (double_of (Z.of_nat n))))).

Definition order_stat (p : double) (l : list Z) : Z :=
  match l with
  | [] => 0
  | _ => default (last_bucket default_buckets) (ordered default_buckets l !! rank p (List.length l))
  end.

Definition spec_row (name : string) (l : list Z) : text :=
  row_text name (order_stat d_half l) (order_stat d_99 l) (order_stat d_999 l) (Z.of_nat (List.length l)).

(** Too many iterations for the percentile arithmetic to be exact are out of scope. *)
Definition iters_ok (n : nat) : Prop := Z.of_nat n < 2 ^ 50.

(** The benchmark ran, left a book with the orders [m], and printed the statistics of the
    differences it measured. *)
Definition bench_ok (clock : nat → Z) (n : nat) (name : string) (m : orders) (r : outcome bench_result)
  : Prop :=
  ∃ res, r = Ok res ∧ steady (r_book res) m ∧
    hist_rep default_buckets (r_hist res) (latencies clock n) ∧
    r_row res = spec_row name (latencies clock n).

(** ** Lemmas: statistics *)
Lemma latencies_S clock n :
  latencies clock (S n) = latencies clock n ++ [u64 (clock (2 * n + 1)%nat - clock (2 * n)%nat)].
Proof. unfold latencies. by rewrite seq_S, fmap_app. Qed.

Lemma latencies_length clock n : List.length (latencies clock n) = n.
Proof. unfold latencies. by rewrite length_fmap, length_seq. Qed.

Lemma latencies_pos clock n : Forall (λ ns, 0 ≤ ns) (latencies clock n).
Proof. unfold latencies. apply Forall_fmap, Forall_forall. intros i _. simpl. apply u64_range. Qed.

Lemma default_buckets_pos : (0 < default_buckets)%nat.
Proof. unfold default_buckets. lia. Qed.

(** The percentile arithmetic does not overflow: the constants are in [0.5, 1). *)
Lemma rank_defined m n :
  ndigits (Z.pos m) = 53 → 0 < n < 2 ^ 50 →
  ∃ t, u64_of_double (dmul (S754_finite false m (-53)) (double_of n)) = Ok t.
Proof.
  intros Hm Hn. rewrite double_of_exact by lia.
  destruct (exact_float_normal n ltac:(lia)) as (mn & en & -> & Hmn & -> & Vn).
  pose proof (ndigits_bound n ltac:(lia)).
  destruct (dmul_close m (-53) mn (ndigits n - 53)) as (mr & er & -> & Hmr & Hb & Hc); [done|done|lia..|].
  assert (Hs : 0 < scale) by (unfold scale; apply Z.pow_pos_nonneg; lia).
  rewrite Vn, Z.mul_assoc in Hc. apply close_cancel in Hc; [|done]. unfold close in Hc.
  assert (Hv : sval m (-53) < scale).
  { pose proof (ndigits_spec (Z.pos m) ltac:(done)) as Hd. rewrite Hm in Hd. unfold sval, scale.
    replace 1074 with (53 + (-53 + 1074)) at 2 by lia. rewrite (Z.pow_add_r 2 53) by lia.
    apply Z.mul_lt_mono_pos_r; [apply Z.pow_pos_nonneg; lia|lia]. }
  pose proof (sval_pos m (-53) ltac:(lia)).
  eexists. apply u64_of_finite; [lia|]. apply Z.div_lt_upper_bound; [done|].
  assert (sval m (-53) * n ≤ scale * 2 ^ 50) by (apply Z.mul_le_mono_nonneg; lia). lia.
Qed.

Lemma percentile_stat h l m :
  hist_rep default_buckets h l → Forall (λ ns, 0 ≤ ns) l → Z.of_nat (List.length l) < 2 ^ 50 →
  ndigits (Z.pos m) = 53 → let p := S754_finite false m (-53) in
  percentile default_buckets h p = Ok (order_stat p l).
Proof.
  intros Hr Hl Hn Hm p. destruct (decide (l = [])) as [->|Hne].
  { unfold percentile. by rewrite (hr_total _ _ _ Hr). }
  destruct (rank_defined m (Z.of_nat (List.length l)) Hm) as [t Et].
  { destruct l; [done|simpl in *; lia]. }
  rewrite (percentile_target default_buckets default_buckets_pos h l p t Hr Hl) by (done || lia).
  destruct l as [|x l]; [by destruct Hne|]. unfold order_stat, rank, p. by rewrite Et.
Qed.

Lemma percentile_constants :
  ∃ m99 m999, d_half = S754_finite false (2 ^ 52)%positive (-53) ∧
    d_99 = S754_finite false m99 (-53) ∧ d_999 = S754_finite false m999 (-53) ∧
    ndigits (Z.pos (2 ^ 52)%positive) = 53 ∧ ndigits (Z.pos m99) = 53 ∧ ndigits (Z.pos m999) = 53.
Proof. eexists _, _. split_and!; try (vm_compute; reflexivity); vm_compute; reflexivity. Qed.

Lemma print_row_stat name h clock n :
  hist_rep default_buckets h (latencies clock n) → iters_ok n →
  print_row name h = Ok (spec_row name (latencies clock n)).
Proof.
  intros Hr Hn. unfold iters_ok in Hn. rewrite <-(latencies_length clock n) in Hn.
  pose proof (latencies_pos clock n) as Hl.
  destruct percentile_constants as (m99 & m999 & E & E99 & E999 & D & D99 & D999).
  unfold print_row, p50, p99, p999, spec_row, count. rewrite E, E99, E999, (hr_total _ _ _ Hr).
  by rewrite !(percentile_stat h _ _ Hr Hl Hn).
Qed.

(** ** Lemmas: iterations *)
Section Benches.
Context `{BuildMode}.
Variable clock : nat → Z.
Variable it_warm it_prep it : nat → IterOrder.

Abbreviation measured i h := (hist_rep default_buckets h (latencies clock i)).

Lemma no_samples_measured : measured 0%nat no_samples.
Proof. apply histogram_new_rep. Qed.

Lemma timed_ok {A} i h (op : outcome A) a :
  measured i h → op = Ok a → Z.of_nat i + 1 < 2 ^ 64 →
  ∃ h', timed clock i h op = Ok (a, h') ∧ measured (S i) h'.
Proof.
  intros Hr -> Hi. unfold timed. rewrite bind_ok.
  destruct (record_ok default_buckets default_buckets_pos h (latencies clock i)
    (u64 (clock (2 * i + 1)%nat - clock (2 * i)%nat)) Hr) as (h' & -> & Hr');
    [apply u64_range|by rewrite latencies_length|].
  exists h'. split; [done|]. eapply hist_rep_perm; [|exact Hr'].
  rewrite latencies_S. apply Permutation_cons_append.
Qed.

(** The row printed at the end. *)
Lemma finish_ok n name m book h :
  iters_ok n → steady book m → measured n h →
  bench_ok clock n name m (row ← print_row name h; Ok (mkResult book h row)).
Proof.
  intros Hn Hs Hr. eexists. split; [by rewrite (print_row_stat _ _ clock n)|]. done.
Qed.

(** Run the timed call of an iteration: its result and the histogram grown by one sample. *)
Ltac time_call i E :=
  match goal with
  | Hm : measured i ?h |- context [timed clock i ?h ?op] =>
      let h' := fresh "h" in let Et := fresh "Et" in let Hm' := fresh "Hm" in
      destruct (timed_ok i h op _ Hm E) as (h' & Et & Hm'); [unfold iters_ok in *; lia|]; rewrite Et, bind_ok
  end.

Lemma bench_add_bid_ok n :
  iters_ok n → bench_ok clock n "AddOrder (bid, best level)" warm_orders (bench_add_bid clock it_warm it n).
Proof.
  intros Hn. unfold bench_add_bid. destruct (warm_ok it_warm) as (b0 & -> & Hs0). rewrite bind_ok.
  count_loop (λ i '(book, h, ref),
    steady book warm_orders ∧ measured i h ∧ ref = 1000001 + Z.of_nat i).
  - split_and!; [done|apply no_samples_measured|done].
  - intros i [[b h] ref] Hi (Hs & Hm & ->). unfold iters_ok in Hn. cbv beta iota zeta.
    destruct (bid_round (it i) b warm_orders (1000001 + Z.of_nat i) Hs) as (b1 & b2 & E1 & E2 & Hs2);
      [apply warm_fresh; lia|unfold ref_ok; lia|pose proof warm_size; lia|].
    time_call i E1. rewrite E2, bind_ok.
    eexists (_, _, _). split; [done|]. split_and!; [done|done|]. rewrite u64_small by lia. lia.
  - destruct res as [[book h] ref]. destruct Hloop as (Hs & Hm & _). by apply finish_ok.
Qed.

Lemma bench_add_ask_ok n :
  iters_ok n → bench_ok clock n "AddOrder (ask, best level)" warm_orders (bench_add_ask clock it_warm it n).
Proof.
  intros Hn. unfold bench_add_ask. destruct (warm_ok it_warm) as (b0 & -> & Hs0). rewrite bind_ok.
  count_loop (λ i '(book, h, ref),
    steady book warm_orders ∧ measured i h ∧ ref = 1000001 + Z.of_nat i).
  - split_and!; [done|apply no_samples_measured|done].
  - intros i [[b h] ref] Hi (Hs & Hm & ->). unfold iters_ok in Hn. cbv beta iota zeta.
    destruct (ask_round (it i) b warm_orders (1000001 + Z.of_nat i) Hs) as (b1 & b2 & E1 & E2 & Hs2);
      [apply warm_fresh; lia|unfold ref_ok; lia|pose proof warm_size; lia|].
    time_call i E1. rewrite E2, bind_ok.
    eexists (_, _, _). split; [done|]. split_and!; [done|done|]. rewrite u64_small by lia. lia.
  - destruct res as [[book h] ref]. destruct Hloop as (Hs & Hm & _). by apply finish_ok.
Qed.

Lemma bench_bbo_ok n :
  iters_ok n → bench_ok clock n "BBO query" warm_orders (bench_bbo clock it_warm n).
Proof.
  intros Hn. unfold bench_bbo. destruct (warm_ok it_warm) as (b0 & -> & Hs0). rewrite bind_ok.
  count_loop (λ i h, measured i h).
  - apply no_samples_measured.
  - intros i h Hi Hm. unfold iters_ok in Hn. cbv beta. pose proof (steady_bbo b0 _ Hs0) as E1. time_call i E1.
    eexists. split; [reflexivity|done].
  - by apply finish_ok.
Qed.

(** ** Lemmas: cycling through the extra bids *)
Lemma cycling_ref_value i : cycling_ref i = 200001 + Z.of_nat i mod 512 ∧ 0 ≤ Z.of_nat i mod 512 < 512.
Proof.
  pose proof (Z.mod_pos_bound (Z.of_nat i) 512 ltac:(lia)). split; [|done].
  unfold cycling_ref. change (Z.of_nat kN) with 512. rewrite !u64_small by (rewrite ?u64_small; lia). done.
Qed.

Lemma bench_delete_ok n :
  iters_ok n →
  bench_ok clock n "DeleteOrder" (with_range 200001 kN 100 warm_orders) (bench_delete clock it_warm it_prep it n).
Proof.
  intros Hn. unfold bench_delete. destruct (range_ok it_warm it_prep 100 ltac:(lia)) as (b0 & b1 & -> & E1 & Hs1).
  rewrite bind_ok, E1, bind_ok. clear E1.
  set (m := with_range 200001 kN 100 warm_orders) in *.
  count_loop (λ i '(book, h), steady book m ∧ measured i h).
  - split; [done|apply no_samples_measured].
  - intros i [b h] Hi (Hs & Hm). unfold iters_ok in Hn. cbv beta iota zeta.
    destruct (cycling_ref_value i) as [-> Hj]. set (ref := 200001 + Z.of_nat i mod 512).
    assert (Hl : m !! ref = Some (bid_order 100)).
    { unfold m. rewrite with_range_lookup, decide_True by (unfold kN; lia). done. }
    assert (Hr : ref_ok ref) by (unfold ref_ok, ref; lia).
    pose proof (bids_from_size 200001 kN (λ _, 100) warm_orders) as Hsz. fold (with_range 200001 kN 100 warm_orders) m in Hsz. unfold kN in Hsz.
    destruct (delete_round (it i) b m ref Hs Hl Hr) as (b2 & b3 & E2 & E3 & Hs2); [pose proof warm_size; lia|].
    time_call i E2. rewrite E3, bind_ok. eexists (_, _). split; [reflexivity|exact (conj Hs2 Hm0)].
  - destruct res as [book h]. destruct Hloop as (Hs & Hm). by apply finish_ok.
Qed.

Lemma bench_cancel_ok n :
  iters_ok n → ∃ m, cancelled_orders n m ∧
    bench_ok clock n "CancelOrder (partial, -1 share)" m (bench_cancel clock it_warm it_prep n).
Proof.
  intros Hn. unfold bench_cancel. destruct (range_ok it_warm it_prep 1000000 ltac:(lia)) as (b0 & b1 & -> & E1 & Hs1).
  rewrite bind_ok, E1, bind_ok. clear E1.
  count_loop (λ i '(book, h), measured i h ∧ ∃ m, steady book m ∧ cancelled_orders i m).
  - split; [apply no_samples_measured|]. eexists. split; [exact Hs1|exact cancelled_start].
  - intros i [b h] Hi (Hm & m & Hs & Hc). unfold iters_ok in Hn. cbv beta iota zeta.
    destruct (cycling_ref_value i) as [-> _]. destruct (cancel_step b m i Hs Hc) as (b2 & m2 & E2 & Hs2 & Hc2).
    destruct (timed_ok i h _ _ Hm E2) as (h2 & -> & Hm2); [lia|].
    eexists (_, _). split; [reflexivity|]. eauto.
  - destruct res as [book h]. destruct Hloop as (Hm & m & Hs & Hc). exists m. split; [exact Hc|].
    by apply finish_ok.
Qed.

Lemma bench_replace_ok n :
  iters_ok n →
  bench_ok clock n "ReplaceOrder (same level)" (replaced_orders n) (bench_replace clock it_warm it_prep it n).
Proof.
  intros Hn. unfold bench_replace. destruct (warm_ok it_warm) as (b0 & -> & Hs0). rewrite bind_ok.
  destruct (steady_bid (it_prep 0%nat) b0 warm_orders kBid 100 300001 Hs0) as (b1 & -> & Hs1);
    [apply warm_fresh; lia|unfold ref_ok; lia|lia|unfold band_bid, kBid, kLevels; lia|pose proof warm_size; lia|].
  rewrite bind_ok.
  count_loop (λ i '(book, h, old_ref, new_ref), steady book (replaced_orders i) ∧ measured i h ∧
    old_ref = 300001 + Z.of_nat i ∧ new_ref = 300002 + Z.of_nat i).
  - split_and!; [exact Hs1|apply no_samples_measured|done|done].
  - intros i [[[b h] old_ref] new_ref] Hi (Hs & Hm & -> & ->). unfold iters_ok in Hn. cbv beta iota zeta.
    destruct (replace_round (it i) b warm_orders (300001 + Z.of_nat i) (300002 + Z.of_nat i) kBid kBid)
      as (b2 & E2 & Hs2); [apply warm_fresh; lia|apply warm_fresh; lia|unfold ref_ok; lia|unfold ref_ok; lia
      |unfold band_bid, kBid, kLevels; lia|exact Hs|].
    time_call i E2. eexists (_, _, _, _). split; [reflexivity|].
    split_and!; [|exact Hm0|lia|rewrite u64_small; lia]. unfold replaced_orders.
    by replace (300001 + Z.of_nat (S i)) with (300002 + Z.of_nat i) by lia.
  - destruct res as [[[book h] old_ref] new_ref]. destruct Hloop as (Hs & Hm & _). by apply finish_ok.
Qed.

Lemma bench_parse_add_ok n :
  iters_ok n → ∃ h, bench_parse_add clock n = Ok (h, spec_row "parse_message (AddOrder)" (latencies clock n)).
Proof.
  intros Hn. unfold bench_parse_add. cbv zeta.
  assert (E1 : parse_message (Some (l_write (packed_layout AddOrderMsg) (make_add ch_B kBid 100 42)))
                 (Z.of_nat (sizeof AddOrderMsg)) = Ok (MAddOrder (make_add ch_B kBid 100 42)))
    by (vm_compute; reflexivity).
  count_loop (λ i h, measured i h).
  - apply no_samples_measured.
  - intros i h Hi Hm. unfold iters_ok in Hn. cbv beta.
    destruct (timed_ok i h _ _ Hm E1) as (h2 & -> & Hm2); [lia|]. eexists. split; [reflexivity|done].
  - exists res. by rewrite (print_row_stat _ _ clock n).
Qed.

End Benches.

(** ** Lemmas: a million iterations *)
Lemma kIter_value : Z.of_nat kIter = 1000000.
Proof. apply Z2Nat.id. lia. Qed.

#[local] Opaque kIter.

(** The element of rank [r] of the sorted, clamped latencies. *)
Definition sorted_latency (l : list Z) (r : Z) : Z :=
  default (last_bucket default_buckets) (ordered default_buckets l !! Z.to_nat r).

(** A row of the program: the upper median, the 99th and 99.9th percentiles of a million. *)
Definition harness_row (name : string) (l : list Z) : text :=
  row_text name (sorted_latency l 500000) (sorted_latency l 990000) (sorted_latency l 999000) 1000000.

Lemma kIter_targets :
  u64_of_double (dmul d_half (double_of 1000000)) = Ok 500000 ∧
  u64_of_double (dmul d_99 (double_of 1000000)) = Ok 990000 ∧
  u64_of_double (dmul d_999 (double_of 1000000)) = Ok 999000.
Proof. split_and!; vm_compute; reflexivity. Qed.

Lemma harness_row_spec name clock : spec_row name (latencies clock kIter) = harness_row name (latencies clock kIter).
Proof.
  destruct kIter_targets as (E50 & E99 & E999).
  assert (Hstat : ∀ p t, u64_of_double (dmul p (double_of 1000000)) = Ok t →
    order_stat p (latencies clock kIter) = sorted_latency (latencies clock kIter) t).
  { intros p t Et. pose proof (latencies_length clock kIter) as Hl. pose proof kIter_value as Hk.
    unfold order_stat, rank. rewrite Hl, Hk, Et. destruct (latencies clock kIter); [simpl in Hl; lia|done]. }
  unfold spec_row, harness_row. by rewrite latencies_length, kIter_value, (Hstat _ _ E50), (Hstat _ _ E99), (Hstat _ _ E999).
Qed.

(** ** Theorems *)

(** The benchmarks of the harness do what their names say, for any number of iterations
    (below 2^50), any clock and any iteration order, in either build: none faults; adding
    and deleting leaves the warm book; deleting and re-adding leaves all 512 extra bids;
    [n] single-share cancels over 512 bids leave each with its share of the [n]
    subtracted (and gone once empty); replacing moves one order to its last reference; and
    each histogram holds exactly the differences of the clock around the measured call. *)
Theorem harness_benches `{BuildMode} clock it_warm it_prep it n :
  iters_ok n →
  bench_ok clock n "AddOrder (bid, best level)" warm_orders (bench_add_bid clock it_warm it n) ∧
  bench_ok clock n "AddOrder (ask, best level)" warm_orders (bench_add_ask clock it_warm it n) ∧
  bench_ok clock n "BBO query" warm_orders (bench_bbo clock it_warm n) ∧
  bench_ok clock n "DeleteOrder" (with_range 200001 512 100 warm_orders)
    (bench_delete clock it_warm it_prep it n) ∧
  (∃ m, cancelled_orders n m ∧
     bench_ok clock n "CancelOrder (partial, -1 share)" m (bench_cancel clock it_warm it_prep n)) ∧
  bench_ok clock n "ReplaceOrder (same level)" (replaced_orders n)
    (bench_replace clock it_warm it_prep it n).
Proof.
  intros Hn. split_and!.
  - by apply bench_add_bid_ok.
  - by apply bench_add_ask_ok.
  - by apply bench_bbo_ok.
  - by apply bench_delete_ok.
  - by apply bench_cancel_ok.
  - by apply bench_replace_ok.
Qed.

(** C30. The whole output of the harness: whatever the clock, the platform, the build and the
    iteration orders, the program prints its header and seven rows, each with the upper
    median and the 99th and 99.9th percentiles of that benchmark's million latencies. *)
Theorem harness_output `{BuildMode} x86 clock it :
  harness_main x86 clock it = Ok (header_text x86 ++
    harness_row "AddOrder (bid, best level)" (latencies (clock 0%nat) kIter) ++
    harness_row "AddOrder (ask, best level)" (latencies (clock 1%nat) kIter) ++
    harness_row "BBO query" (latencies (clock 2%nat) kIter) ++
    harness_row "DeleteOrder" (latencies (clock 3%nat) kIter) ++
    harness_row "CancelOrder (partial, -1 share)" (latencies (clock 4%nat) kIter) ++
    harness_row "ReplaceOrder (same level)" (latencies (clock 5%nat) kIter) ++
    harness_row "parse_message (AddOrder)" (latencies (clock 6%nat) kIter)).
Proof.
  assert (Hn : iters_ok kIter) by (unfold iters_ok; rewrite kIter_value; lia).
  unfold harness_main. cbv beta zeta. rewrite <-!harness_row_spec.
  destruct (bench_add_bid_ok (clock 0%nat) (it 0%nat 0%nat) (it 0%nat 2%nat) kIter Hn) as (r0 & E & _ & _ & <-).
  rewrite E, !bind_ok. clear E.
  destruct (bench_add_ask_ok (clock 1%nat) (it 1%nat 0%nat) (it 1%nat 2%nat) kIter Hn) as (r1 & E & _ & _ & <-).
  rewrite E, !bind_ok. clear E.
  destruct (bench_bbo_ok (clock 2%nat) (it 2%nat 0%nat) kIter Hn) as (r2 & E & _ & _ & <-).
  rewrite E, !bind_ok. clear E.
  destruct (bench_delete_ok (clock 3%nat) (it 3%nat 0%nat) (it 3%nat 1%nat) (it 3%nat 2%nat) kIter Hn)
    as (r3 & E & _ & _ & <-).
  rewrite E, !bind_ok. clear E.
  destruct (bench_cancel_ok (clock 4%nat) (it 4%nat 0%nat) (it 4%nat 1%nat) kIter Hn)
    as (m & _ & r4 & E & _ & _ & <-).
  rewrite E, !bind_ok. clear E.
  destruct (bench_replace_ok (clock 5%nat) (it 5%nat 0%nat) (it 5%nat 1%nat) (it 5%nat 2%nat) kIter Hn)
    as (r5 & E & _ & _ & <-).
  rewrite E, !bind_ok. clear E.
  destruct (bench_parse_add_ok (clock 6%nat) kIter Hn) as (h & E). rewrite E. reflexivity.
Qed.

(** ** Witnesses *)
Lemma harness_benches_witness :
  ∃ res, @bench_add_bid debug_build (λ k, Z.of_nat (k * k)) (λ _, iter_forward) (λ _, iter_backward) 3 = Ok res ∧
    r_row res = row_text "AddOrder (bid, best level)" 5 9 9 3.
Proof.
  destruct (@harness_benches debug_build (λ k, Z.of_nat (k * k)) (λ _, iter_forward) (λ _, iter_forward)
    (λ _, iter_backward) 3%nat ltac:(unfold iters_ok; lia)) as ((res & E & _ & _ & Hrow) & _).
  exists res. split; [exact E|]. rewrite Hrow. vm_compute. reflexivity.
Defined.
