(* ===== verification/BenchBook.v ===== *)
(** * The micro-benchmarks (bench/bench_book.cpp)

    The body of each [BM_] function that measures one operation; the library runs the loop [for (auto _ : state)] as
    many times as it decides ([iters], any number an [int] counter can hold).  What
    [DoNotOptimize] is given is collected where it is not the book.

    Proved: every benchmark of one operation runs without fault in any build and measures
    what its comment says, for any number of iterations: the book keeps its depth, the
    best bid and offer stays at 150.00 / 150.01, every queue round trip delivers its
    message.  The mixed workload is in [BenchMixed]. *)

From S2P Require Import Prelude Bytes Messages Parser Reader Order PriceLevel OrderBook BookInv BookWf.
From S2P Require Import BookHandlers Dispatch Samples BookSpec Depth BookTheorems Spsc SpscConc.
From S2P Require Import Pipeline PipelineTheorems Main BenchKit.

Section Benchmarks.
Context `{BuildMode}.
(** Iteration orders met while warming, in the other preparations, in the loop. *)
Variable it_warm it_prep it : nat → IterOrder.

(** ** The order book *)
Definition BM_Book_AddBid (iters : nat) : outcome OrderBook :=
  book ← warm it_warm;
  '(book, _) ← foldM (λ '(book, ref) i,
      book ← on_add (it i) book (make_add ch_B kBid 100 ref);
      book ← on_delete book (make_delete ref);
      Ok (book, u64 (ref + 1)))
    (seq 0 iters) (book, 100001);
  Ok book.

Definition BM_Book_AddAsk (iters : nat) : outcome OrderBook :=
  book ← warm it_warm;
  '(book, _) ← foldM (λ '(book, ref) i,
      book ← on_add (it i) book (make_add ch_S kAsk 100 ref);
      book ← on_delete book (make_delete ref);
      Ok (book, u64 (ref + 1)))
    (seq 0 iters) (book, 100001);
  Ok book.

Definition BM_Book_BBO (iters : nat) : outcome (OrderBook * list BBO) :=
  book ← warm it_warm;
  out ← foldM (λ out i, bbo ← best_bid_offer book; Ok (out ++ [bbo])) (seq 0 iters) [];
  Ok (book, out).

(** [first + static_cast<uint64_t>(i % n)], [i] an [int]. *)
Definition cycle (first : Z) (i n : Z) : Z := u64 (first + u64 (Z.rem i n)).

Definition BM_Book_Delete (iters : nat) : outcome OrderBook :=
  book ← warm it_warm;
  book ← add_range it_prep 200001 kN 100 book;
  '(book, _) ← foldM (λ '(book, i) k,
      let ref := cycle 200001 i (Z.of_nat kN) in
      book ← on_delete book (make_delete ref);
      book ← on_add (it k) book (make_add ch_B kBid 100 ref);
      i ← int_result (i + 1);
      Ok (book, i))
    (seq 0 iters) (book, 0);
  Ok book.

Definition BM_Book_CancelPartial (iters : nat) : outcome OrderBook :=
  book ← warm it_warm;
  book ← add_range it_prep 200001 kN 1000000 book;
  '(book, _) ← foldM (λ '(book, i) k,
      let ref := cycle 200001 i (Z.of_nat kN) in
      book ← on_cancel book (make_cancel ref 1);
      i ← int_result (i + 1);
      Ok (book, i))
    (seq 0 iters) (book, 0);
  Ok book.

Definition BM_Book_Replace_SameLevel (iters : nat) : outcome OrderBook :=
  book ← warm it_warm;
  book ← on_add (it_prep 0%nat) book (make_add ch_B kBid 100 300001);
  '(book, _, _) ← foldM (λ '(book, old_ref, new_ref) i,
      book ← on_replace (it i) book (make_replace old_ref new_ref kBid 100);
      Ok (book, new_ref, u64 (new_ref + 1)))
    (seq 0 iters) (book, 300001, 300002);
  Ok book.

Definition BM_Book_Replace_NewLevel (iters : nat) : outcome OrderBook :=
  book ← warm it_warm;
  book ← on_add (it_prep 0%nat) book (make_add ch_B (u32 (kBid - 200)) 100 300001);
  '(book, _, _, _) ← foldM (λ '(book, old_ref, new_ref, tick) i,
      let price := if Z.rem tick 2 =? 0 then kBid else u32 (kBid - 200) in
      book ← on_replace (it i) book (make_replace old_ref new_ref price 100);
      tick ← int_result (tick + 1);
      Ok (book, new_ref, u64 (new_ref + 1), tick))
    (seq 0 iters) (book, 300001, 300002, 0);
  Ok book.

(** ** Parser and queue *)
Definition BM_Parse_AddOrder (iters : nat) : outcome (list ParsedMessage) :=
  let msg := make_add ch_B kBid 100 42 in
  let raw := l_write (packed_layout AddOrderMsg) msg in
  foldM (λ out i,
      m ← parse_message (Some raw) (Z.of_nat (sizeof AddOrderMsg));
      Ok (out ++ [m]))
    (seq 0 iters) [].

Definition BM_Parse_DeleteOrder (iters : nat) : outcome (list ParsedMessage) :=
  let msg := make_delete 42 in
  let raw := l_write (packed_layout DeleteOrderMsg) msg in
  foldM (λ out i,
      m ← parse_message (Some raw) (Z.of_nat (sizeof DeleteOrderMsg));
      Ok (out ++ [m]))
    (seq 0 iters) [].

(** What [try_push] answers and what [try_pop] delivers, per round. *)
Definition BM_SPSC_RoundTrip (iters : nat) : outcome (list (bool * option ParsedMessage)) :=
  let msg := MAddOrder (make_add ch_B kBid 100 1) in
  '(_, rounds) ← foldM (λ '(q, rounds) i,
      '(pushed, q) ← try_push kQueueCapacity q msg;
      '(out, q) ← try_pop kQueueCapacity q;
      Ok (q, rounds ++ [(pushed, out)]))
    (seq 0 iters) (queue_new queue_slots, []);
  Ok rounds.

End Benchmarks.

(** ** Specification *)

(** Any number of iterations an [int] counts. *)
Definition int_iters (n : nat) : Prop := Z.of_nat n < 2 ^ 31.

(** The single replaced bid after [n] moves between 149.98 and 150.00. *)
Definition moved_orders (n : nat) : orders :=
  <[300001 + Z.of_nat n := mkSOrder ch_B (if Nat.odd n then kBid else kBid - 200) 100]> warm_orders.

(** The best bid and offer of the warm book: 150.00 for 4000 shares, 150.01 for 4000. *)
Definition warm_bbo : BBO := mkBBO 1500000 4000 1500100 4000.

(** ** Lemmas: the loops *)
Lemma cycle_value first n i :
  0 < n → 0 ≤ i < 2 ^ 31 → 0 ≤ first → first + n < 2 ^ 64 → cycle first i n = first + i mod n.
Proof.
  intros Hn Hi Hf Hb. unfold cycle. rewrite Z.rem_mod_nonneg by lia.
  pose proof (Z.mod_pos_bound i n Hn). rewrite (u64_small (i mod n)), u64_small by lia. done.
Qed.

Lemma top_price_ok : band_bid ≤ kBid < band_bid + kLevels.
Proof. unfold band_bid, kBid, kLevels. lia. Qed.

Lemma replicate_snoc {A} n (x : A) : replicate n x ++ [x] = replicate (S n) x.
Proof. symmetry. apply (replicate_S_end n x). Qed.

(** A loop whose body returns the same value every time. *)
Lemma collect_ok {A} (op : outcome A) a n :
  op = Ok a → foldM (λ out (_ : nat), x ← op; Ok (out ++ [x])) (seq 0 n) [] = Ok (replicate n a).
Proof.
  intros ->. destruct (foldM_seq (λ out (_ : nat), x ← Ok a; Ok (out ++ [x])) (λ i out, out = replicate i a) 0 n [])
    as (out & E & Hout); [done| |by rewrite E, Hout].
  intros i out _ ->. eexists. split; [reflexivity|]. apply replicate_snoc.
Qed.

Section Runs.
Context `{BuildMode}.
Variable it_warm it_prep it : nat → IterOrder.

Lemma add_bid_ok n : int_iters n → leads_to (BM_Book_AddBid it_warm it n) warm_orders.
Proof.
  intros Hn. unfold BM_Book_AddBid. destruct (warm_ok it_warm) as (b0 & -> & Hs0). rewrite bind_ok.
  count_loop (λ i '(book, ref), steady book warm_orders ∧ ref = 100001 + Z.of_nat i).
  - done.
  - intros i [b ref] Hi (Hs & ->). unfold int_iters in Hn. cbv beta iota zeta.
    destruct (bid_round (it i) b warm_orders (100001 + Z.of_nat i) Hs) as (b1 & b2 & E1 & E2 & Hs2);
      [apply warm_fresh; lia|unfold ref_ok; lia|pose proof warm_size; lia|].
    rewrite E1, bind_ok, E2, bind_ok.
    eexists (_, _). split; [done|]. split; [done|]. rewrite u64_small by lia. lia.
  - destruct res as [book ref]. exists book. split; [done|apply Hloop].
Qed.

Lemma add_ask_ok n : int_iters n → leads_to (BM_Book_AddAsk it_warm it n) warm_orders.
Proof.
  intros Hn. unfold BM_Book_AddAsk. destruct (warm_ok it_warm) as (b0 & -> & Hs0). rewrite bind_ok.
  count_loop (λ i '(book, ref), steady book warm_orders ∧ ref = 100001 + Z.of_nat i).
  - done.
  - intros i [b ref] Hi (Hs & ->). unfold int_iters in Hn. cbv beta iota zeta.
    destruct (ask_round (it i) b warm_orders (100001 + Z.of_nat i) Hs) as (b1 & b2 & E1 & E2 & Hs2);
      [apply warm_fresh; lia|unfold ref_ok; lia|pose proof warm_size; lia|].
    rewrite E1, bind_ok, E2, bind_ok.
    eexists (_, _). split; [done|]. split; [done|]. rewrite u64_small by lia. lia.
  - destruct res as [book ref]. exists book. split; [done|apply Hloop].
Qed.

Lemma warm_bbo_ok b : steady b warm_orders → best_bid_offer b = Ok warm_bbo.
Proof. intros Hs. rewrite (steady_bbo b _ Hs). vm_compute. reflexivity. Qed.

Lemma bbo_ok n :
  ∃ b, BM_Book_BBO it_warm n = Ok (b, replicate n warm_bbo) ∧ steady b warm_orders.
Proof.
  unfold BM_Book_BBO. destruct (warm_ok it_warm) as (b0 & -> & Hs0). rewrite bind_ok.
  exists b0. by rewrite (collect_ok _ _ n (warm_bbo_ok b0 Hs0)).
Qed.

Lemma delete_ok n :
  int_iters n → leads_to (BM_Book_Delete it_warm it_prep it n) (with_range 200001 512 100 warm_orders).
Proof.
  intros Hn. unfold BM_Book_Delete. destruct (range_ok it_warm it_prep 100 ltac:(lia)) as (b0 & b1 & -> & E1 & Hs1).
  rewrite bind_ok, E1, bind_ok. clear E1. change 512%nat with kN. set (m := with_range 200001 kN 100 warm_orders) in *.
  count_loop (λ i '(book, j), steady book m ∧ j = Z.of_nat i).
  - done.
  - intros i [b j] Hi (Hs & ->). unfold int_iters in Hn. cbv beta iota zeta.
    change (Z.of_nat kN) with 512. rewrite cycle_value by lia.
    pose proof (Z.mod_pos_bound (Z.of_nat i) 512 ltac:(lia)). set (ref := 200001 + Z.of_nat i mod 512).
    pose proof (bids_from_size 200001 kN (λ _, 100) warm_orders) as Hsz. fold (with_range 200001 kN 100 warm_orders) m in Hsz. unfold kN in Hsz.
    destruct (delete_round (it i) b m ref Hs) as (b2 & b3 & E2 & E3 & Hs2);
      [unfold m; rewrite with_range_lookup, decide_True by (unfold kN; lia); done|unfold ref_ok, ref; lia
      |pose proof warm_size; lia|].
    rewrite E2, bind_ok, E3, bind_ok, int_result_ok, bind_ok by lia.
    eexists (_, _). split; [done|]. split; [done|]. lia.
  - destruct res as [book j]. exists book. split; [done|apply Hloop].
Qed.

Lemma cancel_partial_ok n :
  int_iters n → ∃ m, cancelled_orders n m ∧ leads_to (BM_Book_CancelPartial it_warm it_prep n) m.
Proof.
  intros Hn. unfold BM_Book_CancelPartial.
  destruct (range_ok it_warm it_prep 1000000 ltac:(lia)) as (b0 & b1 & -> & E1 & Hs1).
  rewrite bind_ok, E1, bind_ok. clear E1.
  count_loop (λ i '(book, j), j = Z.of_nat i ∧ ∃ m, steady book m ∧ cancelled_orders i m).
  - split; [done|]. eexists. split; [exact Hs1|exact cancelled_start].
  - intros i [b j] Hi (-> & m & Hs & Hc). unfold int_iters in Hn. cbv beta iota zeta.
    change (Z.of_nat kN) with 512. rewrite cycle_value by lia.
    destruct (cancel_step b m i Hs Hc) as (b2 & m2 & E2 & Hs2 & Hc2).
    rewrite E2, bind_ok, int_result_ok, bind_ok by lia.
    eexists (_, _). split; [done|]. split; [lia|eauto].
  - destruct res as [book j]. destruct Hloop as (_ & m & Hs & Hc). exists m. split; [exact Hc|]. by exists book.
Qed.

Lemma one_bid_ok p :
  band_bid ≤ p < band_bid + kLevels → ∃ b0 b, warm it_warm = Ok b0 ∧
    on_add (it_prep 0%nat) b0 (make_add ch_B p 100 300001) = Ok b ∧
    steady b (<[300001 := mkSOrder ch_B p 100]> warm_orders).
Proof.
  intros Hp. destruct (warm_ok it_warm) as (b0 & E0 & Hs0).
  destruct (steady_bid (it_prep 0%nat) b0 warm_orders p 100 300001 Hs0) as (b1 & E1 & Hs1);
    [apply warm_fresh; lia|unfold ref_ok; lia|lia|done|pose proof warm_size; lia|].
  exists b0, b1. exact (conj E0 (conj E1 Hs1)).
Qed.

Lemma replace_same_ok n :
  int_iters n → leads_to (BM_Book_Replace_SameLevel it_warm it_prep it n) (replaced_orders n).
Proof.
  intros Hn. unfold BM_Book_Replace_SameLevel. destruct (one_bid_ok kBid top_price_ok) as (b0 & b1 & -> & E1 & Hs1).
  rewrite bind_ok, E1, bind_ok.
  count_loop (λ i '(book, old_ref, new_ref), steady book (replaced_orders i) ∧
    old_ref = 300001 + Z.of_nat i ∧ new_ref = 300002 + Z.of_nat i).
  - by split_and!.
  - intros i [[b old_ref] new_ref] Hi (Hs & -> & ->). unfold int_iters in Hn. cbv beta iota zeta.
    destruct (replace_round (it i) b warm_orders (300001 + Z.of_nat i) (300002 + Z.of_nat i) kBid kBid)
      as (b2 & E2 & Hs2); [apply warm_fresh; lia|apply warm_fresh; lia|unfold ref_ok; lia|unfold ref_ok; lia
      |exact top_price_ok|exact Hs|].
    rewrite E2, bind_ok. eexists (_, _, _). split; [done|].
    split_and!; [|lia|rewrite u64_small; lia]. unfold replaced_orders.
    by replace (300001 + Z.of_nat (S i)) with (300002 + Z.of_nat i) by lia.
  - destruct res as [[book old_ref] new_ref]. exists book. split; [done|apply Hloop].
Qed.

Lemma replace_new_ok n :
  int_iters n → leads_to (BM_Book_Replace_NewLevel it_warm it_prep it n) (moved_orders n).
Proof.
  intros Hn. unfold BM_Book_Replace_NewLevel. rewrite !(u32_small (kBid - 200)) by (unfold kBid; lia).
  destruct (one_bid_ok (kBid - 200)) as (b0 & b1 & -> & E1 & Hs1); [unfold band_bid, kBid, kLevels; lia|].
  rewrite bind_ok, E1, bind_ok.
  count_loop (λ i '(book, old_ref, new_ref, tick), steady book (moved_orders i) ∧
    old_ref = 300001 + Z.of_nat i ∧ new_ref = 300002 + Z.of_nat i ∧ tick = Z.of_nat i).
  - by split_and!.
  - intros i [[[b old_ref] new_ref] tick] Hi (Hs & -> & -> & ->). unfold int_iters in Hn. cbv beta iota zeta.
    assert (Hpar : (Z.rem (Z.of_nat i) 2 =? 0) = Nat.odd (S i)).
    { rewrite Nat.odd_succ, Z.rem_mod_nonneg by lia.
      apply eq_true_iff_eq. rewrite Z.eqb_eq, Nat.even_spec, Z.mod_divide by lia.
      split; intros [k Hk]; [exists (Z.to_nat k)|exists (Z.of_nat k)]; lia. }
    rewrite Hpar. set (p' := if Nat.odd (S i) then kBid else kBid - 200).
    destruct (replace_round (it i) b warm_orders (300001 + Z.of_nat i) (300002 + Z.of_nat i)
        (if Nat.odd i then kBid else kBid - 200) p')
      as (b2 & E2 & Hs2); [apply warm_fresh; lia|apply warm_fresh; lia|unfold ref_ok; lia|unfold ref_ok; lia
      |unfold p'; destruct (Nat.odd (S i)); unfold band_bid, kBid, kLevels; lia|exact Hs|].
    rewrite E2, bind_ok, int_result_ok, bind_ok by lia. eexists (_, _, _, _). split; [done|].
    split_and!; [|lia|rewrite u64_small; lia|lia]. unfold moved_orders. fold p'.
    by replace (300001 + Z.of_nat (S i)) with (300002 + Z.of_nat i) by lia.
  - destruct res as [[[book old_ref] new_ref] tick]. exists book. split; [done|apply Hloop].
Qed.

End Runs.

Lemma parse_add_ok n : BM_Parse_AddOrder n = Ok (replicate n (MAddOrder (make_add ch_B kBid 100 42))).
Proof. apply collect_ok. vm_compute. reflexivity. Qed.

Lemma parse_delete_ok n : BM_Parse_DeleteOrder n = Ok (replicate n (MDeleteOrder (make_delete 42))).
Proof. apply collect_ok. vm_compute. reflexivity. Qed.

Lemma round_trip_ok n :
  BM_SPSC_RoundTrip n = Ok (replicate n (true, Some (MAddOrder (make_add ch_B kBid 100 1)))).
Proof.
  unfold BM_SPSC_RoundTrip. cbv zeta. pose proof queue_capacity_ok.
  assert (Hq : 0 < kQueueCapacity ≤ 2 ^ 63) by lia. set (msg := MAddOrder (make_add ch_B kBid 100 1)).
  count_loop (λ i '(q, rounds), queue_rep (T := ParsedMessage) kQueueCapacity q (Z.of_nat i) [] ∧ rounds = replicate i (true, Some msg)).
  - split; [exact (queue_new_rep kQueueCapacity Hq _ queue_slots_length)|done].
  - intros i [q rounds] Hi (Hr & ->). cbv beta iota zeta.
    pose proof (try_push_ok kQueueCapacity eq_refl Hq q _ [] msg Hr) as Hpush. simpl in Hpush.
    destruct Hpush as (q1 & -> & Hr1). rewrite bind_ok.
    destruct (try_pop_ok kQueueCapacity eq_refl Hq q1 _ [msg] Hr1) as (q2 & -> & Hr2). rewrite bind_ok.
    eexists (_, _). split; [reflexivity|]. split; [by rewrite Nat2Z.inj_succ|]. apply replicate_snoc.
  - destruct res as [q rounds]. destruct Hloop as [_ ->]. reflexivity.
Qed.

(** ** Theorems *)


