(* ===== verification/BenchMixed.v ===== *)
(** * The mixed workload (bench/bench_book.cpp, BM_MixedWorkload)

    Seven adds with their deletes, a query, a cancel and a replace, over and over on the
    warm book.  [mixed_rep n s]: the state after [n] iterations.

    Proved, for any number of iterations an [int] counts: it never faults.  Its 166665th
    iteration adds an order under the reference of the live replace target and deletes it:
    the target leaves the map, no replace finds an order again, and its shares stay in the
    best bid to the end.  The pool's orders lose one share per visit and, once they have
    none left, their cancels are ignored. *)

From S2P Require Import Prelude Bytes Messages Parser Reader Order PriceLevel OrderBook BookInv BookWf.
From S2P Require Import BookHandlers Dispatch Samples BookSpec Depth BookTheorems BookView BookHide BookReuse.
From S2P Require Import BenchKit BenchBook.

Section Program.
Context `{BuildMode}.
Variable it_warm it_prep it : nat → IterOrder.

(** ** The program *)
Record mixed_state := mkMixed {
  mx_book : OrderBook;
  mx_add_ref : Z;
  mx_replace_ref : Z;
  mx_i : Z;
}.

Definition kMixedN : nat := 256.

Definition mixed_start : outcome mixed_state :=
  book ← warm it_warm;
  book ← add_range it_prep 400001 kMixedN 1000000 book;
  let add_ref := 500001 in
  let replace_ref := 600001 in
  book ← on_add (it_prep kMixedN) book (make_add ch_B kBid 100 replace_ref);
  Ok (mkMixed book add_ref replace_ref 0).

(** One iteration; [k] picks the iteration order met. *)
Definition mixed_step (s : mixed_state) (k : nat) : outcome mixed_state :=
  let '(mkMixed book add_ref replace_ref i) := s in
  let op := Z.rem i 10 in
  s ← (if op <? 7 then
         book ← on_add (it k) book (make_add ch_B kBid 100 add_ref);
         book ← on_delete book (make_delete add_ref);
         Ok (mkMixed book (u64 (add_ref + 1)) replace_ref i)
       else if op =? 7 then
         bbo ← best_bid_offer book;
         Ok (mkMixed book add_ref replace_ref i)
       else if op =? 8 then
         let ref := cycle 400001 i (Z.of_nat kMixedN) in
         book ← on_cancel book (make_cancel ref 1);
         Ok (mkMixed book add_ref replace_ref i)
       else
         let next := u64 (replace_ref + 1) in
         book ← on_replace (it k) book (make_replace replace_ref next kBid 100);
         Ok (mkMixed book add_ref next i));
  i ← int_result (mx_i s + 1);
  Ok (mkMixed (mx_book s) (mx_add_ref s) (mx_replace_ref s) i).

Definition BM_MixedWorkload (iters : nat) : outcome mixed_state :=
  s ← mixed_start;
  foldM mixed_step (seq 0 iters) s.

End Program.

(** ** Specification *)

(** The reference the workload uses twice, and the iterations before the second use. *)
Definition kReused : Z := 616667.
Definition kClean : Z := 166664.

(** How often the first [n] iterations cancel a share of the [j]-th order of the pool. *)
Definition mixed_cancels (n j : nat) : nat :=
  List.length (filter (λ k, Z.of_nat k mod 10 = 8 ∧ Z.of_nat k mod 256 = Z.of_nat j) (seq 0 n)).

(** The warm orders and the pool of 256 bids, of which those with shares left. *)
Definition mixed_pool (n : nat) : orders :=
  filter (λ e, 0 < s_shares e.2) (bids_from 400001 256 (λ j, 1000000 - Z.of_nat (mixed_cancels n j)) warm_orders).

(** With the extra bid, which every tenth iteration replaces until its reference is reused. *)
Definition mixed_target (n : nat) : Z := Z.min (600001 + Z.of_nat n / 10) kReused.
Definition mixed_orders (n : nat) : orders := <[mixed_target n := bid_order 100]> (mixed_pool n).

(** The references ahead: seven adds in ten iterations. *)
Definition mixed_adds (n : nat) : Z := 500001 + (7 * (Z.of_nat n / 10) + Z.min 7 (Z.of_nat n mod 10)).

(** A book of the orders [m], one of which it hides once [hidden] is set. *)
Abbreviation in_session := (tracks kPoolSize band_bid band_ask).
Definition shows (hidden : bool) (b : OrderBook) (m : orders) : Prop :=
  if hidden then hides in_session kReused b (mkSBook m true) else steady b m.

Definition collided (n : nat) : bool := kClean <? Z.of_nat n.

Record mixed_rep (n : nat) (s : mixed_state) : Prop := {
  mr_book : shows (collided n) (mx_book s) (mixed_orders n);
  mr_add : mx_add_ref s = mixed_adds n;
  mr_replace : mx_replace_ref s = 600001 + Z.of_nat n / 10;
  mr_i : mx_i s = Z.of_nat n;
}.

(** ** Lemmas: the orders *)
Lemma mixed_cancels_S n j :
  mixed_cancels (S n) j =
    (mixed_cancels n j + if decide (Z.of_nat n mod 10 = 8 ∧ Z.of_nat n mod 256 = Z.of_nat j)%Z then 1 else 0)%nat.
Proof.
  unfold mixed_cancels. rewrite seq_S, filter_app, length_app. f_equal. simpl.
  rewrite filter_cons. by case_decide.
Qed.

Lemma warm_shares : map_Forall (λ _ o, 0 < s_shares o) warm_orders.
Proof. apply (bool_decide_unpack _). vm_compute. exact I. Qed.

(** What is left of an order of the pool. *)
Definition pool_order (n j : nat) : option SOrder :=
  let left := 1000000 - Z.of_nat (mixed_cancels n j) in if 0 <? left then Some (bid_order left) else None.

Lemma mixed_pool_lookup n ref :
  mixed_pool n !! ref =
    if decide (400001 ≤ ref < 400257) then pool_order n (Z.to_nat (ref - 400001)) else warm_orders !! ref.
Proof.
  unfold mixed_pool. rewrite map_lookup_filter, bids_from_lookup.
  change (400001 + Z.of_nat 256) with 400257. case_decide.
  - simpl. unfold pool_order. cbv zeta. case_guard; simpl in *; by destruct (Z.ltb_spec 0 (1000000 - Z.of_nat (mixed_cancels n (Z.to_nat (ref - 400001))))); try lia.
  - destruct (warm_orders !! ref) as [o|] eqn:E; [|done]. simpl. by rewrite option_guard_True by (by eapply warm_shares).
Qed.

Lemma mixed_pool_fresh n ref : 400257 ≤ ref → mixed_pool n !! ref = None.
Proof. intros Hr. rewrite mixed_pool_lookup, decide_False by lia. apply warm_fresh. lia. Qed.

Lemma mixed_fresh n ref : 400257 ≤ ref → ref ≠ mixed_target n → mixed_orders n !! ref = None.
Proof. intros Hr Hne. unfold mixed_orders. rewrite lookup_insert_ne by done. by apply mixed_pool_fresh. Qed.

Lemma mixed_size n : (size (mixed_orders n) ≤ 457)%nat.
Proof.
  etrans; [apply map_size_insert_le|]. pose proof warm_size.
  pose proof (bids_from_size 400001 256 (λ j, 1000000 - Z.of_nat (mixed_cancels n j)) warm_orders).
  pose proof (map_subseteq_size _ _ (map_filter_subseteq (λ e, 0 < s_shares e.2)
    (bids_from 400001 256 (λ j, 1000000 - Z.of_nat (mixed_cancels n j)) warm_orders))).
  unfold mixed_pool. lia.
Qed.

(** Arithmetic with quotients and remainders. *)
Ltac divs := Z.to_euclidean_division_equations; lia.

(** Iterations that cancel nothing leave the pool. *)
Lemma mixed_pool_S n : Z.of_nat n mod 10 ≠ 8 → mixed_pool (S n) = mixed_pool n.
Proof.
  intros Hn. apply map_eq. intros ref. rewrite !mixed_pool_lookup. case_decide; [|done].
  unfold pool_order. rewrite mixed_cancels_S, decide_False by tauto. by rewrite Nat.add_0_r.
Qed.

Lemma mixed_orders_S n :
  Z.of_nat n mod 10 ≠ 8 → (Z.of_nat n mod 10 ≠ 9 ∨ collided n = true) → mixed_orders (S n) = mixed_orders n.
Proof.
  intros H8 H9. unfold mixed_orders. rewrite mixed_pool_S by done.
  replace (mixed_target (S n)) with (mixed_target n); [done|]. unfold mixed_target, collided, kReused, kClean in *.
  destruct H9 as [H9|H9%Z.ltb_lt]; divs.
Qed.

(** The order of the pool that iteration [n] visits. *)
Definition visited (n : nat) : nat := Z.to_nat (Z.of_nat n mod 256).
Definition visited_ref (n : nat) : Z := 400001 + Z.of_nat n mod 256.

Lemma mixed_target_pool n i : mixed_target n ≠ visited_ref i.
Proof. unfold mixed_target, kReused, visited_ref. divs. Qed.

Lemma mixed_visited n i : mixed_orders n !! visited_ref i = pool_order n (visited i).
Proof.
  pose proof (Z.mod_pos_bound (Z.of_nat i) 256 ltac:(lia)). unfold mixed_orders.
  rewrite lookup_insert_ne, mixed_pool_lookup, decide_True by (apply mixed_target_pool || unfold visited_ref; lia).
  unfold visited, visited_ref. do 2 f_equal. lia.
Qed.

Lemma mixed_others n ref :
  Z.of_nat n mod 10 = 8 → ref ≠ visited_ref n → mixed_orders (S n) !! ref = mixed_orders n !! ref.
Proof.
  intros H8 Hne. unfold mixed_orders. replace (mixed_target (S n)) with (mixed_target n) by (unfold mixed_target; divs).
  destruct (decide (mixed_target n = ref)) as [->|Ht]; [by rewrite !lookup_insert_eq|].
  rewrite !lookup_insert_ne, !mixed_pool_lookup by done. case_decide; [|done]. unfold pool_order.
  rewrite mixed_cancels_S, decide_False, Nat.add_0_r; [done|]. unfold visited_ref in Hne. lia.
Qed.

(** A cancel takes a share of that order, if it has any left. *)
Lemma mixed_orders_cancel n :
  Z.of_nat n mod 10 = 8 →
  (∀ o, mixed_orders n !! visited_ref n = Some o → 1 ≤ s_shares o) ∧
  spec_command (mkSBook (mixed_orders n) true) (CReduce (visited_ref n) 1) = mkSBook (mixed_orders (S n)) true.
Proof.
  intros H8. cbn [spec_command s_orders s_open]. rewrite mixed_visited. pose proof (mixed_visited (S n) n) as HS. unfold pool_order in *.
  cbv zeta in *. rewrite mixed_cancels_S, decide_True in HS
    by (unfold visited; pose proof (Z.mod_pos_bound (Z.of_nat n) 256 ltac:(lia)); lia).
  set (c := mixed_cancels n (visited n)) in *. pose proof (mixed_others n) as Ho.
  destruct (Z.ltb_spec 0 (1000000 - Z.of_nat c)) as [Hc|Hc]; (split; [intros o [= <-]; cbn [s_shares bid_order]; lia|]); f_equal;
    cbn [s_shares s_side s_price bid_order]; apply map_eq; intros r; (destruct (decide (r = visited_ref n)) as [->|Hr]; [|rewrite Ho by done]).
  - rewrite HS. destruct (Z.eqb_spec (1000000 - Z.of_nat c) 1) as [E|E].
    + rewrite lookup_delete_eq. by destruct (Z.ltb_spec 0 (1000000 - Z.of_nat (c + 1))); [lia|].
    + rewrite lookup_insert_eq. destruct (Z.ltb_spec 0 (1000000 - Z.of_nat (c + 1))); [|lia].
      unfold bid_order. do 2 f_equal. lia.
  - apply not_eq_sym in Hr. destruct (1000000 - Z.of_nat c =? 1).
    + exact (lookup_delete_ne _ _ _ Hr).
    + exact (lookup_insert_ne _ _ _ _ Hr).
  - rewrite mixed_visited. unfold pool_order. fold c. cbv zeta. rewrite HS.
    destruct (Z.ltb_spec 0 (1000000 - Z.of_nat c)), (Z.ltb_spec 0 (1000000 - Z.of_nat (c + 1))); reflexivity || lia.
  - reflexivity.
Qed.

(** The target is where its reference says. *)
Lemma mixed_target_live n : mixed_orders n !! mixed_target n = Some (bid_order 100).
Proof. apply lookup_insert_eq. Qed.

Lemma collided_target n : collided n = true → mixed_target n = kReused.
Proof. unfold collided, mixed_target, kReused, kClean. intros Hn%Z.ltb_lt. divs. Qed.

Lemma clean_target n : collided n = false → mixed_target n = 600001 + Z.of_nat n / 10.
Proof. unfold collided, mixed_target, kReused, kClean. intros Hn%Z.ltb_ge. divs. Qed.

Lemma collided_S n : Z.of_nat n ≠ kClean → collided (S n) = collided n.
Proof. unfold collided, kClean. intros Hn. apply eq_true_iff_eq. rewrite !Z.ltb_lt. lia. Qed.

(** The orders the map knows. *)
Lemma mixed_map n : (if collided n then delete kReused (mixed_orders n) else mixed_orders n) =
  if collided n then mixed_pool n else <[600001 + Z.of_nat n / 10 := bid_order 100]> (mixed_pool n).
Proof.
  unfold mixed_orders. destruct (collided n) eqn:Hc.
  - rewrite collided_target by done. apply delete_insert_id, mixed_pool_fresh. unfold kReused. lia.
  - by rewrite clean_target.
Qed.

(** ** Lemmas: one call *)
Section Mixed.
Context `{BuildMode}.
Variable it_warm it_prep it : nat → IterOrder.

(** The target's price needs no new window. *)
Lemma hidden_windowed b m :
  shows true b m → m !! kReused = Some (bid_order 100) → windowed b ch_B kBid.
Proof. intros (c & [Hs _] & ->) Hl. exact (simulates_windowed _ _ _ _ _ Hs Hl). Qed.

Lemma shows_dispatch hidden k b m msg c m' :
  shows hidden b m → fits (mkSBook m true) msg = true → command_of msg = c →
  spec_command (mkSBook m true) c = mkSBook m' true → (hidden = true → spares kReused b c) →
  ∃ b', dispatch k b msg = Ok b' ∧ shows hidden b' m'.
Proof.
  intros Hs Hf Hc Hm Hsp. destruct hidden; [|exact (steady_dispatch k b m msg c m' Hs Hf Hc Hm)].
  subst c. destruct (hides_step kReused b _ k msg Hs Hf (Hsp eq_refl)) as (b' & E & Hs').
  exists b'. split; [done|]. unfold spec_step in Hs'. by rewrite Hm in Hs'.
Qed.

Lemma shows_bbo hidden b m : shows hidden b m → best_bid_offer b = Ok (spec_bbo m).
Proof. destruct hidden; [exact (hides_bbo kReused b (mkSBook m true))|apply steady_bbo]. Qed.

Lemma hidden_replace k b m old new :
  shows true b m → ref_ok old → delete kReused m !! old = None → on_replace k b (make_replace old new kBid 100) = Ok b.
Proof.
  intros Hs Hr Hl. apply replace_absent. cbn [repl_original_order_ref_num make_replace]. rewrite be64_swap by done.
  pose proof (hides_has kReused b (mkSBook m true) old Hs) as Hh. cbn [s_orders] in Hh. rewrite Hl in Hh.
  unfold has_order in Hh. destruct (order_map b !! old); [discriminate Hh|done].
Qed.

(** An add of a new reference and its delete. *)
Lemma shows_round hidden k b m ref :
  shows hidden b m → ref_ok ref → m !! ref = None → Z.of_nat (size m) < 2 ^ 20 →
  (hidden = true → m !! kReused = Some (bid_order 100)) →
  ∃ b1 b2, on_add k b (make_add ch_B kBid 100 ref) = Ok b1 ∧ on_delete b1 (make_delete ref) = Ok b2 ∧ shows hidden b2 m.
Proof.
  intros Hs Hr Hl Hsz Hg. assert (Hne : hidden = true → ref ≠ kReused) by (intros Hh ->; by rewrite Hg in Hl).
  destruct (bid_price_ok kBid top_price_ok) as [Hp Hb].
  destruct (shows_dispatch hidden k b m (MAddOrder (make_add ch_B kBid 100 ref)) (CAdd ref ch_B kBid 100)
    (<[ref := bid_order 100]> m) Hs) as (b1 & E1 & Hs1);
    [apply fits_add; done || lia || by left|by apply command_add; done || lia|done| |].
  { intros Hh. split; [by apply Hne|]. subst hidden. apply (hidden_windowed b m); auto. }
  destruct (shows_dispatch hidden k b1 _ (MDeleteOrder (make_delete ref)) (CDelete ref) m Hs1) as (b2 & E2 & Hs2);
    [by apply fits_delete|by apply command_delete|simpl; by rewrite delete_insert_id|exact Hne|].
  exists b1, b2. split; [exact E1|]. split; [exact E2|exact Hs2].
Qed.

(** The same with the target's own reference. *)
Lemma collision k b m :
  shows false b m → m !! kReused = Some (bid_order 100) → Z.of_nat (size m) < 2 ^ 20 →
  ∃ b1 b2, on_add k b (make_add ch_B kBid 100 kReused) = Ok b1 ∧ on_delete b1 (make_delete kReused) = Ok b2 ∧
    shows true b2 m.
Proof.
  intros Hs Hl Hsz. pose proof (tr_sim _ _ _ _ _ Hs) as Hsim. pose proof (si_wf _ _ _ Hsim) as (q & fs & Hw).
  destruct (wf_room _ _ _ _ _ Hsim Hw) as (a & fs' & ->); [simpl; pose proof kPoolSize_value; lia|].
  destruct (simulates_windowed _ _ _ _ _ Hsim Hl) as (i & Hr & Hi & Hir). 
  pose proof (simulates_window _ _ _ _ _ Bid Hsim Hl eq_refl) as Hwin.
  destruct (add_delete_queues k b q a fs' (make_add ch_B kBid 100 kReused) (make_delete kReused) Bid Hw)
    as (b1 & c & E1 & E2 & Hsame & Hcw);
    [exact (si_open _ _ _ Hsim)|reflexivity|reflexivity|reflexivity|exact Hr|exact Hwin|].
  exists b1, (hide kReused c). split; [exact E1|]. split; [exact E2|]. exists c. split; [|done].
  exact (same_book_tracks _ _ _ _ _ _ _ _ _ Hw Hsame Hcw Hs).
Qed.

(** ** Lemmas: the loop *)
Lemma mixed_start_ok : ∃ s, mixed_start it_warm it_prep = Ok s ∧ mixed_rep 0 s.
Proof.
  unfold mixed_start. destruct (warm_ok it_warm) as (b0 & -> & Hs0). rewrite bind_ok.
  destruct (add_range_steady it_prep 400001 kMixedN 1000000 b0 warm_orders Hs0) as (b1 & -> & Hs1);
    [lia|unfold kMixedN; lia|lia|intros ref Hr; apply warm_fresh; lia|pose proof warm_size; unfold kMixedN; lia|].
  rewrite bind_ok. cbv zeta.
  assert (Hpool : with_range 400001 kMixedN 1000000 warm_orders = mixed_pool 0).
  { apply map_eq. intros ref. rewrite with_range_lookup, mixed_pool_lookup. done. }
  rewrite Hpool in Hs1. pose proof (mixed_pool_fresh 0 600001 ltac:(lia)) as Hf.
  destruct (steady_bid (it_prep kMixedN) b1 _ kBid 100 600001 Hs1 Hf) as (b2 & -> & Hs2);
    [unfold ref_ok; lia|lia|exact top_price_ok| |].
  { pose proof (mixed_size 0) as Hsz. unfold mixed_orders in Hsz. rewrite map_size_insert_None in Hsz by exact Hf. lia. }
  rewrite bind_ok. eexists. split; [reflexivity|]. split; [exact Hs2|reflexivity..].
Qed.

(** The four kinds of iteration, on the book. *)
Lemma mixed_round n k b :
  shows (collided n) b (mixed_orders n) → int_iters n → Z.of_nat n mod 10 < 7 →
  ∃ b1 b2, on_add k b (make_add ch_B kBid 100 (mixed_adds n)) = Ok b1 ∧
    on_delete b1 (make_delete (mixed_adds n)) = Ok b2 ∧ shows (collided (S n)) b2 (mixed_orders (S n)).
Proof.
  intros Hs Hn H7. unfold int_iters in Hn. pose proof (mixed_size n) as Hsz. rewrite mixed_orders_S by lia.
  destruct (decide (Z.of_nat n = kClean)) as [Ec|Ec].
  - assert (Hc : collided n = false) by (unfold collided; by rewrite Ec).
    assert (Hc' : collided (S n) = true) by (unfold collided, kClean in *; apply Z.ltb_lt; lia).
    assert (Ea : mixed_adds n = kReused) by (unfold mixed_adds; by rewrite Ec).
    rewrite Hc', Ea. apply collision; [by rewrite Hc in Hs| |lia].
    rewrite <-(mixed_target_live n), clean_target, Ec by done. reflexivity.
  - rewrite collided_S by done. apply shows_round; [done|unfold ref_ok, mixed_adds; divs| |lia|].
    + apply mixed_fresh; [unfold mixed_adds; divs|]. unfold mixed_adds, mixed_target, kReused, kClean in *. divs.
    + intros Hc. rewrite <-(mixed_target_live n). by rewrite collided_target.
Qed.

Lemma mixed_cancel n b :
  shows (collided n) b (mixed_orders n) → Z.of_nat n mod 10 = 8 →
  ∃ b2, on_cancel b (make_cancel (visited_ref n) 1) = Ok b2 ∧ shows (collided (S n)) b2 (mixed_orders (S n)).
Proof.
  intros Hs H8. destruct (mixed_orders_cancel n H8) as [Hle HS].
  pose proof (Z.mod_pos_bound (Z.of_nat n) 256 ltac:(lia)) as Hj.
  rewrite collided_S by (unfold kClean; divs).
  apply (shows_dispatch _ iter_forward b _ (MCancelOrder (make_cancel (visited_ref n) 1)) (CReduce (visited_ref n) 1) _ Hs);
    [|apply command_cancel; unfold ref_ok, visited_ref; lia|exact HS|].
  - apply fits_cancel; [unfold ref_ok, visited_ref; lia|lia|exact Hle].
  - intros _. unfold visited_ref, kReused. simpl. lia.
Qed.

Lemma mixed_replace n k b :
  shows (collided n) b (mixed_orders n) → int_iters n → Z.of_nat n mod 10 = 9 →
  ∃ b2, on_replace k b (make_replace (600001 + Z.of_nat n / 10) (600001 + Z.of_nat (S n) / 10) kBid 100) = Ok b2 ∧
    shows (collided (S n)) b2 (mixed_orders (S n)).
Proof.
  intros Hs Hn H9. unfold int_iters in Hn. pose proof (mixed_pool_fresh n) as Hf.
  assert (Ec : Z.of_nat n ≠ kClean) by (unfold kClean; divs). pose proof (collided_S n Ec) as HcS. rewrite HcS.
  destruct (collided n) eqn:Hc.
  - exists b. rewrite mixed_orders_S by (lia || by right). split; [|exact Hs].
    apply (hidden_replace k b _ _ _ Hs); [unfold ref_ok; divs|]. apply lookup_delete_None.
    destruct (decide (kReused = 600001 + Z.of_nat n / 10)) as [->|Hne]; [by left|right].
    apply mixed_fresh; [divs|]. rewrite collided_target by done. by apply not_eq_sym.
  - unfold mixed_orders in *. rewrite mixed_pool_S, (clean_target (S n) HcS) by lia.
    rewrite (clean_target n Hc) in Hs.
    apply (replace_round k b (mixed_pool n) _ _ kBid kBid);
      [apply Hf; divs|apply Hf; divs|unfold ref_ok; divs|unfold ref_ok; divs|exact top_price_ok|exact Hs].
Qed.

(** The end of an iteration: the counters. *)
Ltac next_iteration :=
  rewrite !bind_ok; cbn [mx_i mx_book mx_add_ref mx_replace_ref]; rewrite int_result_ok, bind_ok by lia;
  eexists; split; [reflexivity|];
  split; cbn [mx_i mx_book mx_add_ref mx_replace_ref]; [|unfold mixed_adds in *; divs..].

Lemma mixed_step_ok n s :
  mixed_rep n s → int_iters (S n) → ∃ s', mixed_step it s n = Ok s' ∧ mixed_rep (S n) s'.
Proof.
  intros [Hs Ha Hr Hi] HnS. assert (Hn : int_iters n) by (unfold int_iters in *; lia).
  destruct s as [b ra rr i]. cbn [mx_i mx_book mx_add_ref mx_replace_ref] in *. subst ra rr i. unfold mixed_step.
  assert (Hop : Z.rem (Z.of_nat n) 10 = Z.of_nat n mod 10) by (apply Z.rem_mod_nonneg; lia).
  rewrite Hop. cbv zeta. pose proof HnS as HnS'. unfold int_iters in HnS'.
  destruct (Z.ltb_spec (Z.of_nat n mod 10) 7) as [H7|H7]; [|destruct (Z.eqb_spec (Z.of_nat n mod 10) 7) as [H7'|H7'];
    [|destruct (Z.eqb_spec (Z.of_nat n mod 10) 8) as [H8|H8]]].
  - destruct (mixed_round n (it n) b Hs Hn H7) as (b1 & b2 & E1 & E2 & Hs2).
    rewrite E1, bind_ok, E2. rewrite (u64_small (mixed_adds n + 1)) by (unfold mixed_adds; divs). next_iteration. exact Hs2.
  - rewrite (shows_bbo _ b _ Hs). next_iteration. rewrite mixed_orders_S by lia.
    rewrite collided_S by (unfold kClean; divs). exact Hs.
  - change (Z.of_nat kMixedN) with 256. rewrite cycle_value by lia.
    destruct (mixed_cancel n b Hs H8) as (b2 & E & Hs2). unfold visited_ref in E. rewrite E. next_iteration. exact Hs2.
  - rewrite u64_small by divs. replace (600001 + Z.of_nat n / 10 + 1) with (600001 + Z.of_nat (S n) / 10) by divs.
    destruct (mixed_replace n (it n) b Hs Hn ltac:(divs)) as (b2 & -> & Hs2). next_iteration. exact Hs2.
Qed.

Lemma mixed_ok n : int_iters n → ∃ s, BM_MixedWorkload it_warm it_prep it n = Ok s ∧ mixed_rep n s.
Proof.
  intros Hn. unfold BM_MixedWorkload. destruct mixed_start_ok as (s0 & -> & Hs0). rewrite bind_ok.
  destruct (foldM_seq (mixed_step it) mixed_rep 0 n s0 Hs0) as (s & E & Hs); [|by exists s].
  intros i s Hi Hr. apply mixed_step_ok; [done|unfold int_iters in *; lia].
Qed.

(** What the book answers. *)
Lemma shows_count hidden b m : shows hidden b m →
  book_order_count b = Z.of_nat (size (if hidden then delete kReused m else m)).
Proof.
  destruct hidden; [exact (hides_count kReused b (mkSBook m true))|exact (tracks_count b (mkSBook m true))].
Qed.

Lemma shows_has hidden b m ref : shows hidden b m →
  has_order b ref = bool_decide (is_Some ((if hidden then delete kReused m else m) !! ref)).
Proof.
  destruct hidden; [exact (hides_has kReused b (mkSBook m true) ref)|exact (tracks_has b (mkSBook m true) ref)].
Qed.

End Mixed.

(** ** Theorem *)

(** C32. The mixed workload.  After any number [n] of iterations that an [int] counts, in either
    build and with any iteration orders, it has not faulted.  The best bid and offer is that
    of the warm orders, the pool's 256 bids less the shares cancelled so far, and one extra
    bid of 100 shares.  Up to [n] = 166664 the extra bid carries the reference of the last
    replace; the next iteration adds an order with that very reference, 616667, and deletes
    it.  From then on the extra bid is in no map: the book counts one order less, knows no
    order under the reference the workload replaces, and ignores each of its replaces. *)
Theorem mixed_workload `{BuildMode} it_warm it_prep it n :
  int_iters n →
  ∃ s, BM_MixedWorkload it_warm it_prep it n = Ok s ∧ mixed_rep n s ∧
    best_bid_offer (mx_book s) = Ok (spec_bbo (mixed_orders n)) ∧
    book_order_count (mx_book s) = Z.of_nat (size (mixed_pool n)) + (if collided n then 0 else 1) ∧
    has_order (mx_book s) (mx_replace_ref s) = negb (collided n) ∧
    (collided n = true → ∀ k new, on_replace k (mx_book s) (make_replace (mx_replace_ref s) new kBid 100) = Ok (mx_book s)).
Proof.
  intros Hn. assert (Hb : 400257 ≤ 600001 + Z.of_nat n / 10 < 2 ^ 64) by (unfold int_iters in Hn; divs).
  pose proof (mixed_pool_fresh n _ (proj1 Hb)) as Hf. pose proof (mixed_map n) as Hm.
  destruct (mixed_ok it_warm it_prep it n Hn) as (s & E & Hr). exists s. split; [exact E|]. split; [exact Hr|].
  clear E. destruct Hr as [Hs _ -> _]. split; [exact (shows_bbo _ _ _ Hs)|]. split; [|split].
  - rewrite (shows_count _ _ _ Hs), Hm. destruct (collided n); [lia|]. rewrite map_size_insert_None by exact Hf. lia.
  - rewrite (shows_has _ _ _ _ Hs), Hm. destruct (collided n); [by rewrite Hf|by rewrite lookup_insert_eq].
  - intros Hc k new. rewrite Hc in *. apply (hidden_replace k _ _ _ _ Hs); [unfold ref_ok; lia|by rewrite Hm].
Qed.

(** ** Witness *)
Lemma mixed_workload_witness :
  ∃ n s, Z.of_nat n = 2000000000 ∧
    @BM_MixedWorkload release_build (λ _, iter_forward) (λ _, iter_forward) (λ _, iter_backward) n = Ok s ∧
    mx_replace_ref s = 200600001 ∧ has_order (mx_book s) 200600001 = false.
Proof.
  destruct (Z_of_nat_complete 2000000000) as [n Hn]; [lia|]. symmetry in Hn.
  destruct (@mixed_workload release_build (λ _, iter_forward) (λ _, iter_forward) (λ _, iter_backward) n)
    as (s & E & Hr & _ & _ & Hh & _); [unfold int_iters; rewrite Hn; lia|].
  assert (Hrr : mx_replace_ref s = 200600001) by (rewrite (mr_replace _ _ Hr), Hn; reflexivity).
  assert (Hc : collided n = true) by (unfold collided; rewrite Hn; reflexivity).
  rewrite Hrr, Hc in Hh. exists n, s. exact (conj Hn (conj E (conj Hrr Hh))).
Defined.
